(** * CarRent-BinIO: the fixed-record storage engine and its callers

    A shallow embedding of [car_rental_binio.py], [seed_sample_data.py] and
    [inspect_header.py].

    - A file is the list of its bytes.
    - Python integers are unbounded: they are [Z], and [struct.pack] is the
      place where a value that does not fit its field raises.
    - Every method of [BinTable] runs in a state-and-exception monad over the
      table object (its file and its cached header): a raising call still
      returns the state it left behind, because the callers of the engine
      catch the exception and go on with the same object.
    - [now_ts()] is an input of every call that reads the clock.
    - [flush] and [fsync] do not change the bytes and are no-ops here. *)

From Stdlib Require Import String Ascii.
From Stdlib.Strings Require Import Byte.
From Stdlib Require Import ZArith NArith List Bool Lia.
Import ListNotations.
Open Scope Z_scope.

(** ** Exceptions and results *)

Inductive exn : Type :=
| ValueError_duplicate_key      (* ValueError('duplicate key') *)
| RuntimeError_index_full       (* RuntimeError('index full') *)
| RuntimeError_bad_file_format  (* RuntimeError("bad file format for ...") *)
| RuntimeError_short_header     (* inspect_header: fewer than 128 bytes *)
| KeyError_not_found            (* KeyError('not found') *)
| StructError                   (* struct.error *)
| AssertionError
| IndexError
| OSError                       (* seek to a negative offset *)
| ZeroDivisionError
| ValueError                    (* int(), unpacking, date() *)
| TypeError
| UnboundLocalError.

Definition result (A : Type) : Type := (exn + A)%type.

Definition bindR {A B : Type} (m : result A) (k : A -> result B) : result B :=
  match m with
  | inl e => inl e
  | inr a => k a
  end.

Notation "x <-? m ;; k" := (bindR m (fun x => k))
  (at level 61, m at next level, right associativity).

Definition bytes : Type := list byte.

Definition b2z (b : byte) : Z := Z.of_N (Byte.to_N b).

Definition z2b (v : Z) : byte :=
  match Byte.of_N (Z.to_N (v mod 256)) with
  | Some b => b
  | None => x00
  end.

(** ** [struct]: fixed-width integers, both byte orders *)

Inductive byteorder : Type := LittleEndian | BigEndian.

Fixpoint le_bytes (w : nat) (v : Z) : bytes :=
  match w with
  | O => []
  | S w' => z2b (v mod 256) :: le_bytes w' (v / 256)
  end.

Fixpoint le_value (bs : bytes) : Z :=
  match bs with
  | [] => 0
  | b :: rest => b2z b + 256 * le_value rest
  end.

Definition int_bytes (o : byteorder) (w : nat) (v : Z) : bytes :=
  match o with
  | LittleEndian => le_bytes w v
  | BigEndian => rev (le_bytes w v)
  end.

Definition int_value (o : byteorder) (bs : bytes) : Z :=
  match o with
  | LittleEndian => le_value bs
  | BigEndian => le_value (rev bs)
  end.

(** [struct.pack(o + 'B' | 'H' | 'I', v)]: [w] bytes, unsigned. *)
Definition pack_uint (o : byteorder) (w : nat) (v : Z) : result bytes :=
  if (0 <=? v) && (v <? 2 ^ (8 * Z.of_nat w))
  then inr (int_bytes o w v)
  else inl StructError.

(** [struct.pack(o + 'i', v)]: two's complement. *)
Definition pack_int (o : byteorder) (w : nat) (v : Z) : result bytes :=
  if (- 2 ^ (8 * Z.of_nat w - 1) <=? v) && (v <? 2 ^ (8 * Z.of_nat w - 1))
  then inr (int_bytes o w (v mod 2 ^ (8 * Z.of_nat w)))
  else inl StructError.

Definition unpack_uint (o : byteorder) (bs : bytes) : Z := int_value o bs.

Definition unpack_int (o : byteorder) (bs : bytes) : Z :=
  let u := int_value o bs in
  let w := Z.of_nat (length bs) in
  if u <? 2 ^ (8 * w - 1) then u else u - 2 ^ (8 * w).

(** [struct.pack('<n>s', b)]: cut to [n] bytes, filled with zero bytes. *)
Definition pack_s (n : nat) (b : bytes) : bytes :=
  firstn n b ++ repeat x00 (n - length b).

(** A slice [b[off : off+n]] of a buffer. *)
Definition slice (b : bytes) (off n : nat) : bytes := firstn n (skipn off b).

(** ** Constants of the file format *)

Definition E : byteorder := LittleEndian.
Definition HEADER_SIZE : Z := 128.
Definition INDEX_SLOT_SIZE : Z := 16.
Definition TOMBSTONE_KEY : Z := 0xFFFFFFFF.

Definition CUST_SIZE : Z := 128.
Definition CUST_PAD : Z := 83.
Definition CARS_SIZE : Z := 128.
Definition CARS_PAD : Z := 60.
Definition CONT_SIZE : Z := 64.
Definition CONT_PAD : Z := 26.

(** ** Header and index slot *)

Module Header.

Record t : Type := mk {
  magic : bytes; version : Z; endian : Z; record_size : Z;
  created_at : Z; updated_at : Z; next_id : Z;
  active_count : Z; deleted_count : Z; free_head : Z; index_slots : Z
}.

(** [struct.pack(o + '4s B B H I I I I I i I 92x', ...)] *)
Definition pack_with (o : byteorder) (x : t) : result bytes :=
  b_ver <-? pack_uint o 1 (version x) ;;
  b_end <-? pack_uint o 1 (endian x) ;;
  b_rsz <-? pack_uint o 2 (record_size x) ;;
  b_cre <-? pack_uint o 4 (created_at x) ;;
  b_upd <-? pack_uint o 4 (updated_at x) ;;
  b_nid <-? pack_uint o 4 (next_id x) ;;
  b_act <-? pack_uint o 4 (active_count x) ;;
  b_del <-? pack_uint o 4 (deleted_count x) ;;
  b_fre <-? pack_int o 4 (free_head x) ;;
  b_slo <-? pack_uint o 4 (index_slots x) ;;
  inr (pack_s 4 (magic x) ++ b_ver ++ b_end ++ b_rsz ++ b_cre ++ b_upd
       ++ b_nid ++ b_act ++ b_del ++ b_fre ++ b_slo ++ repeat x00 92%nat).

(** [struct.unpack(o + '4s B B H I I I I I i I 92x', b)] *)
Definition unpack_with (o : byteorder) (b : bytes) : result t :=
  if Z.of_nat (length b) =? 128 then
    inr (mk (slice b 0 4)
            (unpack_uint o (slice b 4 1))
            (unpack_uint o (slice b 5 1))
            (unpack_uint o (slice b 6 2))
            (unpack_uint o (slice b 8 4))
            (unpack_uint o (slice b 12 4))
            (unpack_uint o (slice b 16 4))
            (unpack_uint o (slice b 20 4))
            (unpack_uint o (slice b 24 4))
            (unpack_int o (slice b 28 4))
            (unpack_uint o (slice b 32 4)))
  else inl StructError.

Definition pack : t -> result bytes := pack_with E.
Definition unpack : bytes -> result t := unpack_with E.

(** [Header.new] of the application: the clock is read once. *)
Definition new (now : Z) (magic : bytes) (record_size index_slots : Z) : t :=
  mk magic 1 0 record_size now now 1 0 0 (-1) index_slots.

Definition set_updated_at (v : Z) (x : t) : t :=
  mk (magic x) (version x) (endian x) (record_size x) (created_at x) v
     (next_id x) (active_count x) (deleted_count x) (free_head x)
     (index_slots x).
Definition set_next_id (v : Z) (x : t) : t :=
  mk (magic x) (version x) (endian x) (record_size x) (created_at x)
     (updated_at x) v (active_count x) (deleted_count x) (free_head x)
     (index_slots x).
Definition set_active_count (v : Z) (x : t) : t :=
  mk (magic x) (version x) (endian x) (record_size x) (created_at x)
     (updated_at x) (next_id x) v (deleted_count x) (free_head x)
     (index_slots x).
Definition set_deleted_count (v : Z) (x : t) : t :=
  mk (magic x) (version x) (endian x) (record_size x) (created_at x)
     (updated_at x) (next_id x) (active_count x) v (free_head x)
     (index_slots x).
Definition set_free_head (v : Z) (x : t) : t :=
  mk (magic x) (version x) (endian x) (record_size x) (created_at x)
     (updated_at x) (next_id x) (active_count x) (deleted_count x) v
     (index_slots x).

End Header.

Module IndexSlot.

Record t : Type := mk { key : Z; rec_index : Z }.

(** [struct.pack('<I I 8x', key, rec_index)] *)
Definition pack (x : t) : result bytes :=
  b_key <-? pack_uint E 4 (key x) ;;
  b_ri <-? pack_uint E 4 (rec_index x) ;;
  inr (b_key ++ b_ri ++ repeat x00 8%nat).

Definition unpack (b : bytes) : result t :=
  if Z.of_nat (length b) =? 16 then
    inr (mk (unpack_uint E (slice b 0 4)) (unpack_uint E (slice b 4 4)))
  else inl StructError.

End IndexSlot.

(** ** Files *)

Definition file : Type := list byte.

(** [f.seek(off); f.read(n)] for [0 <= off]: at most [n] bytes, fewer at the
    end of the file; [n = -1] reads to the end (a smaller [n] raises, see
    [BinTable.seek_read]). *)
Definition pread (fl : file) (off n : Z) : bytes :=
  if n <? 0 then skipn (Z.to_nat off) fl
  else firstn (Z.to_nat n) (skipn (Z.to_nat off) fl).

(** [f.seek(off); f.write(data)] for [0 <= off]: a gap between the end of
    the file and [off] is filled with zero bytes. *)
Definition pwrite (fl : file) (off : Z) (data : bytes) : file :=
  let o := Z.to_nat off in
  firstn o fl ++ repeat x00 (o - length fl) ++ data
  ++ skipn (o + length data) fl.

Fixpoint bytes_eqb (a b : bytes) : bool :=
  match a, b with
  | [], [] => true
  | x :: a', y :: b' => Byte.eqb x y && bytes_eqb a' b'
  | _, _ => false
  end.

(** ** The generic table: [class BinTable] of [car_rental_binio.py] *)

Module BinTable.

(** The object after [open()]: the constructor's arguments, the bytes of
    the open file [f] and the cached header [h]. *)
Record t : Type := mk {
  magic : bytes; rsize : Z; slots : Z; pad_off : Z;
  f : file; h : Header.t
}.

Definition set_f (fl : file) (s : t) : t :=
  mk (magic s) (rsize s) (slots s) (pad_off s) fl (h s).
Definition set_h (hd : Header.t) (s : t) : t :=
  mk (magic s) (rsize s) (slots s) (pad_off s) (f s) hd.

(** A method: from the object to an outcome and the object it leaves. *)
Definition M (A : Type) : Type := t -> result A * t.

Definition ret {A : Type} (a : A) : M A := fun s => (inr a, s).
Definition raise {A : Type} (e : exn) : M A := fun s => (inl e, s).
Definition bind {A B : Type} (m : M A) (k : A -> M B) : M B :=
  fun s =>
    match m s with
    | (inl e, s') => (inl e, s')
    | (inr a, s') => k a s'
    end.
Definition lift {A : Type} (r : result A) : M A := fun s => (r, s).
Definition get {A : Type} (g : t -> A) : M A := fun s => (inr (g s), s).
Definition modify_h (g : Header.t -> Header.t) : M unit :=
  fun s => (inr tt, set_h (g (h s)) s).

Declare Scope table_scope.
Delimit Scope table_scope with table.
Notation "x <- m ;; k" := (bind m (fun x => k))
  (at level 61, m at next level, right associativity) : table_scope.
Notation "m ;;; k" := (bind m (fun _ => k))
  (at level 61, right associativity) : table_scope.
Local Open Scope table_scope.

(** [self.f.seek(off); self.f.read(n)] *)
Definition seek_read (off n : Z) : M bytes :=
  fun s => if off <? 0 then (inl OSError, s)
           else if n <? -1 then (inl ValueError, s)
           else (inr (pread (f s) off n), s).

(** [self.f.seek(off)], then [self.f.write(data)] where computing [data]
    may raise after the seek. *)
Definition seek_write (off : Z) (data : result bytes) : M unit :=
  fun s => if off <? 0 then (inl OSError, s)
           else match data with
                | inl e => (inl e, s)
                | inr d => (inr tt, set_f (pwrite (f s) off d) s)
                end.

Definition _sync : M unit := ret tt.

Definition _write_header (now : Z) : M unit :=
  modify_h (Header.set_updated_at now) ;;;
  hd <- get h ;;
  seek_write 0 (Header.pack hd) ;;;
  _sync.

(** *** Index helpers *)

Definition _index_ofs (slot : Z) : Z := HEADER_SIZE + slot * INDEX_SLOT_SIZE.

Definition _read_slot (slot : Z) : M IndexSlot.t :=
  b <- seek_read (_index_ofs slot) INDEX_SLOT_SIZE ;;
  lift (IndexSlot.unpack b).

Definition _write_slot (slot : Z) (slotval : IndexSlot.t) : M unit :=
  seek_write (_index_ofs slot) (IndexSlot.pack slotval).

Definition _hash (key : Z) : M Z :=
  n <- get (fun s => Header.index_slots (h s)) ;;
  if n =? 0 then raise ZeroDivisionError else ret (key mod n).

(** The body of [for i in range(self.h.index_slots)] in
    [_find_slot_for_insert], run [fuel] more times from [i]. *)
Fixpoint _find_slot_for_insert_loop (key start : Z) (fuel : nat) (i : Z)
    (first_tomb : Z) : M Z :=
  match fuel with
  | O => raise RuntimeError_index_full
  | S fuel' =>
      n <- get (fun s => Header.index_slots (h s)) ;;
      let j := (start + i) mod n in
      sl <- _read_slot j ;;
      if IndexSlot.key sl =? key then raise ValueError_duplicate_key else
      let first_tomb' :=
        if (IndexSlot.key sl =? TOMBSTONE_KEY) && (first_tomb <? 0)
        then j else first_tomb in
      if IndexSlot.key sl =? 0
      then ret (if first_tomb' >=? 0 then first_tomb' else j)
      else _find_slot_for_insert_loop key start fuel' (i + 1) first_tomb'
  end.

Definition _find_slot_for_insert (key : Z) : M Z :=
  start <- _hash key ;;
  n <- get (fun s => Header.index_slots (h s)) ;;
  _find_slot_for_insert_loop key start (Z.to_nat n) 0 (-1).

Fixpoint _lookup_loop (key start : Z) (fuel : nat) (i : Z)
    : M (option Z) :=
  match fuel with
  | O => ret None
  | S fuel' =>
      n <- get (fun s => Header.index_slots (h s)) ;;
      let j := (start + i) mod n in
      sl <- _read_slot j ;;
      if IndexSlot.key sl =? 0 then ret None else
      if IndexSlot.key sl =? key then ret (Some (IndexSlot.rec_index sl))
      else _lookup_loop key start fuel' (i + 1)
  end.

Definition _lookup (key : Z) : M (option Z) :=
  start <- _hash key ;;
  n <- get (fun s => Header.index_slots (h s)) ;;
  _lookup_loop key start (Z.to_nat n) 0.

Fixpoint _slot_of_key_loop (key start : Z) (fuel : nat) (i : Z)
    : M (option Z) :=
  match fuel with
  | O => ret None
  | S fuel' =>
      n <- get (fun s => Header.index_slots (h s)) ;;
      let j := (start + i) mod n in
      sl <- _read_slot j ;;
      if IndexSlot.key sl =? 0 then ret None else
      if IndexSlot.key sl =? key then ret (Some j)
      else _slot_of_key_loop key start fuel' (i + 1)
  end.

Definition _slot_of_key (key : Z) : M (option Z) :=
  start <- _hash key ;;
  n <- get (fun s => Header.index_slots (h s)) ;;
  _slot_of_key_loop key start (Z.to_nat n) 0.

(** *** Record space *)

Definition _records_region_ofs (s : t) : Z :=
  HEADER_SIZE + Header.index_slots (h s) * INDEX_SLOT_SIZE.

Definition _record_ofs (s : t) (rec_index : Z) : Z :=
  _records_region_ofs s + rec_index * rsize s.

Definition _records_count : M Z :=
  fun s =>
    let payload := Z.of_nat (length (f s)) - _records_region_ofs s in
    if payload <=? 0 then (inr 0, s)
    else if rsize s =? 0 then (inl ZeroDivisionError, s)
    else (inr (payload / rsize s), s).

Definition _read_raw (rec_index : Z) : M bytes :=
  ofs <- get (fun s => _record_ofs s rec_index) ;;
  n <- get rsize ;;
  seek_read ofs n.

Definition _write_raw (rec_index : Z) (data : bytes) : M unit :=
  n <- get rsize ;;
  if negb (Z.of_nat (length data) =? n) then raise AssertionError else
  ofs <- get (fun s => _record_ofs s rec_index) ;;
  seek_write ofs (inr data).

Definition _write_next_free (rec_index next_free : Z) : M unit :=
  ofs <- get (fun s => _record_ofs s rec_index + pad_off s) ;;
  seek_write ofs (pack_int E 4 next_free).

(** *** CRUD *)

Definition next_id (now : Z) : M Z :=
  nid <- get (fun s => Header.next_id (h s)) ;;
  modify_h (Header.set_next_id (nid + 1)) ;;;
  _write_header now ;;;
  ret nid.

Definition _alloc_rec_index : M Z :=
  fh <- get (fun s => Header.free_head (h s)) ;;
  if negb (fh =? -1) then
    let i := fh in
    ofs <- get (fun s => _record_ofs s i + pad_off s) ;;
    b <- seek_read ofs 4 ;;
    if negb (Z.of_nat (length b) =? 4) then raise StructError else
    let nxt := unpack_int E b in
    modify_h (Header.set_free_head nxt) ;;;
    ret i
  else _records_count.

Definition add_record (now : Z) (key : Z) (packed : bytes) : M Z :=
  i <- _alloc_rec_index ;;
  _write_raw i packed ;;;
  j <- _find_slot_for_insert key ;;
  _write_slot j (IndexSlot.mk key i) ;;;
  ac <- get (fun s => Header.active_count (h s)) ;;
  modify_h (Header.set_active_count (ac + 1)) ;;;
  _write_header now ;;;
  _sync ;;;
  ret i.

Definition read_record (key : Z) : M (option bytes) :=
  ri <- _lookup key ;;
  match ri with
  | None => ret None
  | Some ri => b <- _read_raw ri ;; ret (Some b)
  end.

Definition update_record (now : Z) (key : Z) (packed : bytes) : M unit :=
  ri <- _lookup key ;;
  match ri with
  | None => raise KeyError_not_found
  | Some ri => _write_raw ri packed ;;; _write_header now ;;; _sync
  end.

Definition delete_record (now : Z) (key : Z) : M unit :=
  ri <- _lookup key ;;
  match ri with
  | None => raise KeyError_not_found
  | Some ri =>
      (* mark record inactive (flag=0) *)
      raw <- _read_raw ri ;;
      match raw with
      | [] => raise IndexError
      | _ :: rest =>
          _write_raw ri (x00 :: rest) ;;;
          (* push rec index to free-list *)
          fh <- get (fun s => Header.free_head (h s)) ;;
          _write_next_free ri fh ;;;
          modify_h (Header.set_free_head ri) ;;;
          (* tombstone index slot *)
          sj <- _slot_of_key key ;;
          match sj with
          | Some sj => _write_slot sj (IndexSlot.mk TOMBSTONE_KEY 0)
          | None => ret tt
          end ;;;
          (* header counters *)
          ac <- get (fun s => Header.active_count (h s)) ;;
          modify_h (Header.set_active_count (ac - 1)) ;;;
          dc <- get (fun s => Header.deleted_count (h s)) ;;
          modify_h (Header.set_deleted_count (dc + 1)) ;;;
          _write_header now ;;;
          _sync
      end
  end.

(** *** Iterators

    [iter_active] and [iter_all] are generators.  Their callers run them
    to the end and call no other method of the same table in between, so
    what they yield is the list computed here; [keep raw] is the test
    in front of [yield]. *)

Fixpoint iter_loop (keep : bytes -> bool) (fuel : nat) (i : Z)
    : M (list (Z * bytes)) :=
  match fuel with
  | O => ret []
  | S fuel' =>
      raw <- _read_raw i ;;
      rest <- iter_loop keep fuel' (i + 1) ;;
      ret (if keep raw then (i, raw) :: rest else rest)
  end.

(** [if raw and raw[0] == 1: yield i, raw] *)
Definition iter_active : M (list (Z * bytes)) :=
  n <- _records_count ;;
  iter_loop (fun raw => match raw with
                        | b :: _ => b2z b =? 1
                        | [] => false
                        end) (Z.to_nat n) 0.

(** [if raw: yield i, raw] *)
Definition iter_all : M (list (Z * bytes)) :=
  n <- _records_count ;;
  iter_loop (fun raw => match raw with
                        | _ :: _ => true
                        | [] => false
                        end) (Z.to_nat n) 0.

(** *** Opening *)

Fixpoint write_empty_slots (n : nat) (fl : file) : result file :=
  match n with
  | O => inr fl
  | S n' =>
      b <-? IndexSlot.pack (IndexSlot.mk 0 0) ;;
      write_empty_slots n' (fl ++ b)
  end.

(** [open()]: [disk] is the file at [self.path], [None] when it does not
    exist. *)
Definition open (now : Z) (magic : bytes) (rsize slots pad_off : Z)
    (disk : option file) : result t :=
  match disk with
  | None =>
      let hd := Header.new now magic rsize slots in
      b <-? Header.pack hd ;;
      fl <-? write_empty_slots (Z.to_nat slots) (pwrite [] 0 b) ;;
      inr (mk magic rsize slots pad_off fl hd)
  | Some fl =>
      hd <-? Header.unpack (pread fl 0 HEADER_SIZE) ;;
      if negb (bytes_eqb (Header.magic hd) magic)
         || negb (Header.record_size hd =? rsize)
      then inl RuntimeError_bad_file_format
      else inr (mk magic rsize slots pad_off fl hd)
  end.

End BinTable.

(** ** Text fields

    A Python [str] is the list of its code points.  [str.encode('utf-8',
    'ignore')] drops what has no encoding (the surrogates);
    [bytes.decode('utf-8', 'ignore')] drops every byte that is not part of a
    well-formed sequence.  The decoder below drops the leading byte of an
    ill-formed sequence and goes on at the next byte: the bytes CPython skips
    with it are continuation bytes, which are dropped one by one here, so the
    decoded text is the same. *)

Definition pystr : Type := list Z.

Definition utf8_encode_cp (c : Z) : bytes :=
  map z2b
    (if c <? 0x80 then [c]
     else if c <? 0x800 then [0xC0 + c / 64; 0x80 + c mod 64]
     else if c <? 0x10000 then
       if (0xD800 <=? c) && (c <=? 0xDFFF) then []
       else [0xE0 + c / 4096; 0x80 + (c / 64) mod 64; 0x80 + c mod 64]
     else [0xF0 + c / 262144; 0x80 + (c / 4096) mod 64;
           0x80 + (c / 64) mod 64; 0x80 + c mod 64]).

Definition utf8_encode (s : pystr) : bytes := flat_map utf8_encode_cp s.

Definition is_cont (b : Z) : bool := (0x80 <=? b) && (b <=? 0xBF).

(** The second byte of a three- or four-byte sequence led by [b0]. *)
Definition second_ok (b0 b1 : Z) : bool :=
  if b0 =? 0xE0 then (0xA0 <=? b1) && (b1 <=? 0xBF)
  else if b0 =? 0xED then (0x80 <=? b1) && (b1 <=? 0x9F)
  else if b0 =? 0xF0 then (0x90 <=? b1) && (b1 <=? 0xBF)
  else if b0 =? 0xF4 then (0x80 <=? b1) && (b1 <=? 0x8F)
  else is_cont b1.

Fixpoint utf8_decode (bs : bytes) : pystr :=
  match bs with
  | [] => []
  | c0 :: r0 =>
      let b0 := b2z c0 in
      if b0 <? 0x80 then b0 :: utf8_decode r0
      else if (0xC2 <=? b0) && (b0 <=? 0xDF) then
        match r0 with
        | c1 :: r1 =>
            let b1 := b2z c1 in
            if is_cont b1
            then ((b0 - 0xC0) * 64 + (b1 - 0x80)) :: utf8_decode r1
            else utf8_decode r0
        | _ => utf8_decode r0
        end
      else if (0xE0 <=? b0) && (b0 <=? 0xEF) then
        match r0 with
        | c1 :: c2 :: r2 =>
            let b1 := b2z c1 in
            let b2 := b2z c2 in
            if second_ok b0 b1 && is_cont b2
            then ((b0 - 0xE0) * 4096 + (b1 - 0x80) * 64 + (b2 - 0x80))
                 :: utf8_decode r2
            else utf8_decode r0
        | _ => utf8_decode r0
        end
      else if (0xF0 <=? b0) && (b0 <=? 0xF4) then
        match r0 with
        | c1 :: c2 :: c3 :: r3 =>
            let b1 := b2z c1 in
            let b2 := b2z c2 in
            let b3 := b2z c3 in
            if second_ok b0 b1 && is_cont b2 && is_cont b3
            then ((b0 - 0xF0) * 262144 + (b1 - 0x80) * 4096
                  + (b2 - 0x80) * 64 + (b3 - 0x80)) :: utf8_decode r3
            else utf8_decode r0
        | _ => utf8_decode r0
        end
      else utf8_decode r0
  end.

(** [fit(s, n)]: [(s or '').encode('utf-8','ignore')[:n].ljust(n, b'\x00')] *)
Definition fit (s : pystr) (n : nat) : bytes :=
  let b := firstn n (utf8_encode s) in
  b ++ repeat x00 (n - length b).

(** [b.rstrip(b'\x00')] *)
Fixpoint rstrip0 (b : bytes) : bytes :=
  match b with
  | [] => []
  | x :: rest =>
      match rstrip0 rest with
      | [] => if Byte.eqb x x00 then [] else [x]
      | r => x :: r
      end
  end.

(** [dec = lambda b: b.rstrip(b'\x00').decode('utf-8','ignore')] *)
Definition dec (b : bytes) : pystr := utf8_decode (rstrip0 b).

(** ** The three tables *)

Module Customers.

Definition magic : bytes := [x43; x55; x53; x54].  (* b'CUST' *)

Definition open (now : Z) (slots : Z) (disk : option file)
    : result BinTable.t :=
  BinTable.open now magic CUST_SIZE slots CUST_PAD disk.

(** The dictionary [unpack] returns, which has the arguments of [pack]. *)
Record row : Type := mk {
  flag : Z; cus_id : Z; id_card : pystr; name : pystr; phone : pystr;
  birth_ymd : Z; gender : Z
}.

(** [struct.pack('<B I 13s 50s 10s I B 45x', ...)] *)
Definition pack (r : row) : result bytes :=
  b_flag <-? pack_uint E 1 (flag r) ;;
  b_cid <-? pack_uint E 4 (cus_id r) ;;
  b_birth <-? pack_uint E 4 (birth_ymd r) ;;
  b_gen <-? pack_uint E 1 (gender r) ;;
  inr (b_flag ++ b_cid ++ pack_s 13 (fit (id_card r) 13)
       ++ pack_s 50 (fit (name r) 50) ++ pack_s 10 (fit (phone r) 10)
       ++ b_birth ++ b_gen ++ repeat x00 45%nat).

Definition unpack (raw : bytes) : result row :=
  if Z.of_nat (length raw) =? 128 then
    inr (mk (unpack_uint E (slice raw 0 1))
            (unpack_uint E (slice raw 1 4))
            (dec (slice raw 5 13))
            (dec (slice raw 18 50))
            (dec (slice raw 68 10))
            (unpack_uint E (slice raw 78 4))
            (unpack_uint E (slice raw 82 1)))
  else inl StructError.

End Customers.

Module Cars.

Definition magic : bytes := [x43; x41; x52; x53].  (* b'CARS' *)

Definition open (now : Z) (slots : Z) (disk : option file)
    : result BinTable.t :=
  BinTable.open now magic CARS_SIZE slots CARS_PAD disk.

Record row : Type := mk {
  flag : Z; car_id : Z; license : pystr; brand : pystr; model : pystr;
  year : Z; rate_cents : Z; odometer_km : Z; status : Z; updated_at : Z
}.

(** [struct.pack('<B I 12s 12s 16s H I I B I 68x', ...)] *)
Definition pack (r : row) : result bytes :=
  b_flag <-? pack_uint E 1 (flag r) ;;
  b_id <-? pack_uint E 4 (car_id r) ;;
  b_year <-? pack_uint E 2 (year r) ;;
  b_rate <-? pack_uint E 4 (rate_cents r) ;;
  b_odo <-? pack_uint E 4 (odometer_km r) ;;
  b_st <-? pack_uint E 1 (status r) ;;
  b_up <-? pack_uint E 4 (updated_at r) ;;
  inr (b_flag ++ b_id ++ pack_s 12 (fit (license r) 12)
       ++ pack_s 12 (fit (brand r) 12) ++ pack_s 16 (fit (model r) 16)
       ++ b_year ++ b_rate ++ b_odo ++ b_st ++ b_up ++ repeat x00 68%nat).

Definition unpack (raw : bytes) : result row :=
  if Z.of_nat (length raw) =? 128 then
    inr (mk (unpack_uint E (slice raw 0 1))
            (unpack_uint E (slice raw 1 4))
            (dec (slice raw 5 12))
            (dec (slice raw 17 12))
            (dec (slice raw 29 16))
            (unpack_uint E (slice raw 45 2))
            (unpack_uint E (slice raw 47 4))
            (unpack_uint E (slice raw 51 4))
            (unpack_uint E (slice raw 55 1))
            (unpack_uint E (slice raw 56 4)))
  else inl StructError.

End Cars.

Module Contracts.

Definition magic : bytes := [x43; x4f; x4e; x54].  (* b'CONT' *)

Definition open (now : Z) (slots : Z) (disk : option file)
    : result BinTable.t :=
  BinTable.open now magic CONT_SIZE slots CONT_PAD disk.

Record row : Type := mk {
  flag : Z; rent_id : Z; cus_id : Z; car_id : Z; rent_ymd : Z;
  return_ymd : Z; total_cents : Z; returned : Z
}.

(** [struct.pack('<B I I I I I I B 38x', ...)] *)
Definition pack (r : row) : result bytes :=
  b_flag <-? pack_uint E 1 (flag r) ;;
  b_rid <-? pack_uint E 4 (rent_id r) ;;
  b_cus <-? pack_uint E 4 (cus_id r) ;;
  b_car <-? pack_uint E 4 (car_id r) ;;
  b_rent <-? pack_uint E 4 (rent_ymd r) ;;
  b_ret <-? pack_uint E 4 (return_ymd r) ;;
  b_tot <-? pack_uint E 4 (total_cents r) ;;
  b_retd <-? pack_uint E 1 (returned r) ;;
  inr (b_flag ++ b_rid ++ b_cus ++ b_car ++ b_rent ++ b_ret ++ b_tot
       ++ b_retd ++ repeat x00 38%nat).

Definition unpack (raw : bytes) : result row :=
  if Z.of_nat (length raw) =? 64 then
    inr (mk (unpack_uint E (slice raw 0 1))
            (unpack_uint E (slice raw 1 4))
            (unpack_uint E (slice raw 5 4))
            (unpack_uint E (slice raw 9 4))
            (unpack_uint E (slice raw 13 4))
            (unpack_uint E (slice raw 17 4))
            (unpack_uint E (slice raw 21 4))
            (unpack_uint E (slice raw 25 1)))
  else inl StructError.

End Contracts.

(** ** The seeding tool: [class BinTable] of [seed_sample_data.py]

    Its record-space methods, [_lookup], [_write_header], [next_id],
    [read_record] and [update_record] are, statement for statement, the ones
    of the application, and are taken from [BinTable]; [Header.new],
    [_find_slot], [add_record] and [open] are written differently and are
    embedded here. *)

Module Seed.

Import BinTable.
Local Open Scope table_scope.

(** [Header.new]: the clock is read twice. *)
Definition Header_new (now1 now2 : Z) (magic : bytes)
    (record_size index_slots : Z) : Header.t :=
  Header.mk magic 1 0 record_size now1 now2 1 0 0 (-1) index_slots.

Fixpoint _find_slot_loop (key start : Z) (fuel : nat) (i : Z)
    : M (Z * option IndexSlot.t) :=
  match fuel with
  | O => raise RuntimeError_index_full
  | S fuel' =>
      n <- get (fun s => Header.index_slots (h s)) ;;
      let j := (start + i) mod n in
      sl <- _read_slot j ;;
      if (IndexSlot.key sl =? 0) || (IndexSlot.key sl =? key)
      then ret (j, if IndexSlot.key sl =? 0 then None else Some sl)
      else _find_slot_loop key start fuel' (i + 1)
  end.

Definition _find_slot (key : Z) : M (Z * option IndexSlot.t) :=
  start <- _hash key ;;
  n <- get (fun s => Header.index_slots (h s)) ;;
  _find_slot_loop key start (Z.to_nat n) 0.

Definition _alloc : M Z := _alloc_rec_index.

Definition add_record (now : Z) (key : Z) (packed : bytes) : M Z :=
  i <- _alloc ;;
  _write_raw i packed ;;;
  sc <- _find_slot key ;;
  match snd sc with
  | Some _ => raise ValueError_duplicate_key
  | None =>
      _write_slot (fst sc) (IndexSlot.mk key i) ;;;
      ac <- get (fun s => Header.active_count (h s)) ;;
      modify_h (Header.set_active_count (ac + 1)) ;;;
      _write_header now ;;;
      _sync ;;;
      ret i
  end.

Definition open (now1 now2 : Z) (magic : bytes) (rsize slots pad_off : Z)
    (disk : option file) : result t :=
  match disk with
  | None =>
      let hd := Header_new now1 now2 magic rsize slots in
      b <-? Header.pack hd ;;
      fl <-? write_empty_slots (Z.to_nat slots) (pwrite [] 0 b) ;;
      inr (mk magic rsize slots pad_off fl hd)
  | Some fl =>
      hd <-? Header.unpack (pread fl 0 HEADER_SIZE) ;;
      if negb (bytes_eqb (Header.magic hd) magic)
         || negb (Header.record_size hd =? rsize)
      then inl RuntimeError_bad_file_format
      else inr (mk magic rsize slots pad_off fl hd)
  end.

(** The insert probe as [add_record] uses it: the slot, or the error. *)
Definition insert_probe (key : Z) : M Z :=
  sc <- _find_slot key ;;
  match snd sc with
  | Some _ => raise ValueError_duplicate_key
  | None => ret (fst sc)
  end.

End Seed.

(** ** The header inspector: [inspect_header.py] *)

Module Inspect.

(** [Header.unpack(raw, endian_prefix)] *)
Definition unpack (raw : bytes) (endian_prefix : byteorder)
    : result Header.t :=
  Header.unpack_with endian_prefix raw.

(** [read_header(path)] on the bytes of the file at [path]: the header, the
    size of the file and the number of records. *)
Definition read_header (fl : file) : result (Header.t * Z * Z) :=
  let raw := pread fl 0 HEADER_SIZE in
  if negb (Z.of_nat (length raw) =? HEADER_SIZE)
  then inl RuntimeError_short_header else
  hd <-? unpack raw LittleEndian ;;
  hd <-? (if Header.endian hd =? 1 then unpack raw BigEndian else inr hd) ;;
  let size := Z.of_nat (length fl) in
  let records_region :=
    HEADER_SIZE + Header.index_slots hd * INDEX_SLOT_SIZE in
  total_records <-?
    (if size >=? records_region then
       if Header.record_size hd =? 0 then inl ZeroDivisionError
       else inr ((size - records_region) / Header.record_size hd)
     else inr 0) ;;
  inr (hd, size, total_records).

End Inspect.

(** ** Dates *)

Fixpoint split_on (c : ascii) (s : string) : list string :=
  match s with
  | EmptyString => [EmptyString]
  | String a rest =>
      match split_on c rest with
      | [] => [String a EmptyString]
      | hd :: tl =>
          if Ascii.eqb a c then EmptyString :: hd :: tl
          else String a hd :: tl
      end
  end.

Definition is_leap (y : Z) : bool :=
  (y mod 4 =? 0) && (negb (y mod 100 =? 0) || (y mod 400 =? 0)).

Definition days_in_month (y m : Z) : Z :=
  if (m =? 2) && is_leap y then 29
  else nth (Z.to_nat m) [0; 31; 28; 31; 30; 31; 30; 31; 31; 30; 31; 30; 31] 0.

Definition days_before_month (y m : Z) : Z :=
  nth (Z.to_nat m) [0; 0; 31; 59; 90; 120; 151; 181; 212; 243; 273; 304; 334] 0
  + (if (2 <? m) && is_leap y then 1 else 0).

Definition days_before_year (y : Z) : Z :=
  (y - 1) * 365 + (y - 1) / 4 - (y - 1) / 100 + (y - 1) / 400.

(** [date(y, m, d).toordinal()]; [date(...)] raises on what is no date. *)
Definition date_ordinal (y m d : Z) : result Z :=
  if (1 <=? y) && (y <=? 9999) && (1 <=? m) && (m <=? 12)
     && (1 <=? d) && (d <=? days_in_month y m)
  then inr (days_before_year y + days_before_month y m + d)
  else inl ValueError.

(** ** The command-line application: [class App], [return_car] *)

Section Builtins.

(** [int(s)] of Python on a string: [None] when it raises [ValueError]. *)
Variable py_int : string -> option Z.
(** [s.strip()] *)
Variable py_strip : string -> string.

Definition ymd_to_int (s : string) : result Z :=
  match s with
  | EmptyString => inr 0
  | _ =>
      match map py_int (split_on "-"%char s) with
      | [Some y; Some m; Some d] => inr (y * 10000 + m * 100 + d)
      | _ => inl ValueError
      end
  end.

Inductive msg : Type :=
| Msg_bad_input            (* '! อินพุตไม่ถูกต้อง' *)
| Msg_contract_not_found   (* '! ไม่พบสัญญา' *)
| Msg_already_closed       (* '! ปิดสัญญาแล้ว' *)
| Msg_bad_date             (* '! วันที่ผิด' *)
| Msg_closed (total days : Z).

Record App : Type := mkApp {
  customers : BinTable.t; cars : BinTable.t; contracts : BinTable.t
}.

Definition AM (A : Type) : Type := App -> result A * App.

Definition aret {A : Type} (a : A) : AM A := fun s => (inr a, s).
Definition abind {A B : Type} (m : AM A) (k : A -> AM B) : AM B :=
  fun s =>
    match m s with
    | (inl e, s') => (inl e, s')
    | (inr a, s') => k a s'
    end.
Definition alift {A : Type} (r : result A) : AM A := fun s => (r, s).
Definition on_cars {A : Type} (m : BinTable.M A) : AM A :=
  fun s =>
    let (r, c) := m (cars s) in
    (r, mkApp (customers s) c (contracts s)).
Definition on_contracts {A : Type} (m : BinTable.M A) : AM A :=
  fun s =>
    let (r, c) := m (contracts s) in
    (r, mkApp (customers s) (cars s) c).

(** Reading a local variable of the function: it raises while the variable
    has not been assigned. *)
Definition read_local {A : Type} (v : option A) : AM A :=
  match v with
  | None => alift (inl UnboundLocalError)
  | Some a => aret a
  end.

Notation "x <- m ;; k" := (abind m (fun x => k))
  (at level 61, m at next level, right associativity).
Notation "m ;;; k" := (abind m (fun _ => k))
  (at level 61, right associativity).

Definition to_dt (n : Z) : result Z :=
  date_ordinal (n / 10000) ((n / 100) mod 100) (n mod 100).

(** [return_car]: [line1] and [line2] are what [input()] returns at the
    two prompts, [clock k] is the [k]-th reading of the clock.  [car] is a
    local variable of the function, assigned at one place only. *)
Definition return_car (clock : nat -> Z) (line1 line2 : string)
    : AM (list msg) :=
  let car : option Cars.row := None in
  match
    (rid <-? match py_int line1 with
             | Some v => inr v
             | None => inl ValueError
             end ;;
     ret <-? ymd_to_int (py_strip line2) ;;
     inr (rid, ret))
  with
  | inl _ => aret [Msg_bad_input]
  | inr (rid, ret) =>
      raw <- on_contracts (BinTable.read_record rid) ;;
      match raw with
      | None | Some [] => aret [Msg_contract_not_found]
      | Some raw =>
          r <- alift (Contracts.unpack raw) ;;
          if Contracts.returned r =? 1 then aret [Msg_already_closed] else
          if ret <? Contracts.rent_ymd r then aret [Msg_bad_date] else
          c <- read_local car ;;
          let new_status :=
            if Cars.status c =? 1 then 0 else Cars.status c in
          p <- alift (Cars.pack
                 (Cars.mk 1 (Cars.car_id c) (Cars.license c) (Cars.brand c)
                    (Cars.model c) (Cars.year c) (Cars.rate_cents c)
                    (Cars.odometer_km c) new_status (clock 0%nat))) ;;
          on_cars (BinTable.update_record (clock 1%nat) (Cars.car_id c) p) ;;;
          raw_car <- on_cars (BinTable.read_record (Contracts.car_id r)) ;;
          c <- alift (match raw_car with
                      | None => inl TypeError
                      | Some b => Cars.unpack b
                      end) ;;
          let car : option Cars.row := Some c in
          d_ret <- alift (to_dt ret) ;;
          d_rent <- alift (to_dt (Contracts.rent_ymd r)) ;;
          let days := if d_ret - d_rent =? 0 then 1 else d_ret - d_rent in
          let total := days * Cars.rate_cents c in
          p <- alift (Contracts.pack
                 (Contracts.mk 1 (Contracts.rent_id r) (Contracts.cus_id r)
                    (Contracts.car_id r) (Contracts.rent_ymd r) ret total 1)) ;;
          on_contracts (BinTable.update_record (clock 2%nat) rid p) ;;;
          p <- alift (Cars.pack
                 (Cars.mk 1 (Cars.car_id c) (Cars.license c) (Cars.brand c)
                    (Cars.model c) (Cars.year c) (Cars.rate_cents c)
                    (Cars.odometer_km c) 0 (clock 3%nat))) ;;
          on_cars (BinTable.update_record (clock 4%nat) (Cars.car_id c) p) ;;;
          aret [Msg_closed total days]
      end
  end.

End Builtins.

(** ** The command-line application: [add_contract] and the delete
    commands *)

Section Commands.

Variable py_int : string -> option Z.
Variable py_strip : string -> string.

(** What a command prints. *)
Inductive printed : Type :=
| Said_bad_input           (* '! อินพุตไม่ถูกต้อง' *)
| Said_car_not_found       (* '! ไม่พบรถ' *)
| Said_car_busy            (* '! รถไม่ว่าง' *)
| Said_customer_not_found  (* '! ไม่พบลูกค้า' *)
| Said_contract_opened (rid : Z)
| Said_car_rented          (* '! รถกำลังเช่า ลบไม่ได้' *)
| Said_customer_deleted
| Said_car_deleted
| Said_contract_deleted
| Said_error (e : exn).    (* print('!', e) *)

Definition on_customers {A : Type} (m : BinTable.M A) : AM A :=
  fun s =>
    let (r, c) := m (customers s) in
    (r, mkApp c (cars s) (contracts s)).

(** [int(input(...))] *)
Definition int_of_line (line : string) : result Z :=
  match py_int line with
  | Some v => inr v
  | None => inl ValueError
  end.

(** [try: m; print(ok)  except Exception as e: print('!', e)] *)
Definition try_print (m : AM unit) (ok : printed) : AM (list printed) :=
  fun s =>
    match m s with
    | (inl e, s') => (inr [Said_error e], s')
    | (inr _, s') => (inr [ok], s')
    end.

Notation "x <- m ;; k" := (abind m (fun x => k))
  (at level 61, m at next level, right associativity).
Notation "m ;;; k" := (abind m (fun _ => k))
  (at level 61, right associativity).

(** [add_contract]: [line1], [line2] and [line3] are what [input()] returns
    at the three prompts, [clock k] is the [k]-th reading of the clock. *)
Definition add_contract (clock : nat -> Z) (line1 line2 line3 : string)
    : AM (list printed) :=
  match
    (cus_id <-? int_of_line line1 ;;
     car_id <-? int_of_line line2 ;;
     rent <-? ymd_to_int py_int (py_strip line3) ;;
     inr (cus_id, car_id, rent))
  with
  | inl _ => aret [Said_bad_input]
  | inr (cus_id, car_id, rent) =>
      car_raw <- on_cars (BinTable.read_record car_id) ;;
      match car_raw with
      | None | Some [] => aret [Said_car_not_found]
      | Some car_raw =>
          car <- alift (Cars.unpack car_raw) ;;
          if negb (Cars.status car =? 0) then aret [Said_car_busy] else
          cus_raw <- on_customers (BinTable.read_record cus_id) ;;
          match cus_raw with
          | None | Some [] => aret [Said_customer_not_found]
          | Some _ =>
              rid <- on_contracts (BinTable.next_id (clock 0%nat)) ;;
              p <- alift (Contracts.pack
                     (Contracts.mk 1 rid cus_id car_id rent 0 0 0)) ;;
              on_contracts (BinTable.add_record (clock 1%nat) rid p) ;;;
              p <- alift (Cars.pack
                     (Cars.mk 1 (Cars.car_id car) (Cars.license car)
                        (Cars.brand car) (Cars.model car) (Cars.year car)
                        (Cars.rate_cents car) (Cars.odometer_km car) 1
                        (clock 2%nat))) ;;
              on_cars (BinTable.update_record (clock 3%nat) car_id p) ;;;
              aret [Said_contract_opened rid]
          end
      end
  end.


Definition delete_car (clock : nat -> Z) (line1 : string)
    : AM (list printed) :=
  match int_of_line line1 with
  | inl _ => aret [Said_bad_input]
  | inr car_id =>
      raw <- on_cars (BinTable.read_record car_id) ;;
      match raw with
      | None | Some [] => aret [Said_car_not_found]
      | Some raw =>
          car <- alift (Cars.unpack raw) ;;
          if Cars.status car =? 1 then aret [Said_car_rented] else
          try_print (on_cars (BinTable.delete_record (clock 0%nat) car_id))
            Said_car_deleted
      end
  end.


End Commands.

(** * Vocabulary of the properties *)

(** The outcome of a method and the object it leaves. *)
Definition outcome {A : Type} (m : BinTable.M A) (s : BinTable.t) : result A :=
  fst (m s).
Definition after {A : Type} (m : BinTable.M A) (s : BinTable.t) : BinTable.t :=
  snd (m s).

Definition nslots (s : BinTable.t) : Z := Header.index_slots (BinTable.h s).

(** What [_read_slot j] returns. *)
Definition slot_at (s : BinTable.t) (j : Z) : result IndexSlot.t :=
  outcome (BinTable._read_slot j) s.

(** A key that is neither the empty mark nor the tombstone. *)
Definition live_key (k : Z) : Prop := k <> 0 /\ k <> TOMBSTONE_KEY.

(** ** The probes as functions of the index contents

    The three loops of the engine read the object through [_read_slot] and
    [h.index_slots] only; [rd] stands for the first and [n] for the second
    (lemmas [_find_slot_for_insert_loop_pure], [_lookup_loop_pure] and
    [_slot_of_key_loop_pure] relate them to the methods). *)

Section Probes.

Variable rd : Z -> result IndexSlot.t.
Variable n : Z.

Fixpoint probe_insert (key start : Z) (fuel : nat) (i first_tomb : Z)
    : result Z :=
  match fuel with
  | O => inl RuntimeError_index_full
  | S fuel' =>
      let j := (start + i) mod n in
      sl <-? rd j ;;
      if IndexSlot.key sl =? key then inl ValueError_duplicate_key else
      let first_tomb' :=
        if (IndexSlot.key sl =? TOMBSTONE_KEY) && (first_tomb <? 0)
        then j else first_tomb in
      if IndexSlot.key sl =? 0
      then inr (if first_tomb' >=? 0 then first_tomb' else j)
      else probe_insert key start fuel' (i + 1) first_tomb'
  end.

Fixpoint probe_find (key start : Z) (fuel : nat) (i : Z)
    : result (option (Z * IndexSlot.t)) :=
  match fuel with
  | O => inr None
  | S fuel' =>
      let j := (start + i) mod n in
      sl <-? rd j ;;
      if IndexSlot.key sl =? 0 then inr None else
      if IndexSlot.key sl =? key then inr (Some (j, sl))
      else probe_find key start fuel' (i + 1)
  end.

(** The probe of the seeding tool. *)
Fixpoint probe_seed (key start : Z) (fuel : nat) (i : Z)
    : result (Z * option IndexSlot.t) :=
  match fuel with
  | O => inl RuntimeError_index_full
  | S fuel' =>
      let j := (start + i) mod n in
      sl <-? rd j ;;
      if (IndexSlot.key sl =? 0) || (IndexSlot.key sl =? key)
      then inr (j, if IndexSlot.key sl =? 0 then None else Some sl)
      else probe_seed key start fuel' (i + 1)
  end.

End Probes.

(** The slots at distances [i .. d-1] from [start] are occupied by other
    keys or by tombstones. *)
Definition passed (rd : Z -> result IndexSlot.t) (n : Z)
    (key start i d : Z) : Prop :=
  forall d', i <= d' < d ->
    exists sl', rd ((start + d') mod n) = inr sl'
      /\ IndexSlot.key sl' <> 0 /\ IndexSlot.key sl' <> key.

(** The whole probes, as functions of the object. *)

Definition insert_slot (s : BinTable.t) (key : Z) : result Z :=
  if nslots s =? 0 then inl ZeroDivisionError
  else probe_insert (slot_at s) (nslots s) key (key mod nslots s)
         (Z.to_nat (nslots s)) 0 (-1).

Definition find_slot (s : BinTable.t) (key : Z)
    : result (option (Z * IndexSlot.t)) :=
  if nslots s =? 0 then inl ZeroDivisionError
  else probe_find (slot_at s) (nslots s) key (key mod nslots s)
         (Z.to_nat (nslots s)) 0.

Definition seed_slot (s : BinTable.t) (key : Z)
    : result (Z * option IndexSlot.t) :=
  if nslots s =? 0 then inl ZeroDivisionError
  else probe_seed (slot_at s) (nslots s) key (key mod nslots s)
         (Z.to_nat (nslots s)) 0.

(** ** States *)

(** The header describes the file: the index region lies inside it, and the
    free-list pointer of a record lies at a non-negative offset in it. *)
Definition wf (s : BinTable.t) : Prop :=
  0 <= nslots s
  /\ BinTable._records_region_ofs s <= Z.of_nat (length (BinTable.f s))
  /\ 0 <= BinTable.pad_off s.

(** No two live index slots hold the same key. *)
Definition idx_unique (rd : Z -> result IndexSlot.t) (n : Z) : Prop :=
  forall j1 j2 sl1 sl2,
    0 <= j1 < n -> 0 <= j2 < n ->
    rd j1 = inr sl1 -> rd j2 = inr sl2 ->
    live_key (IndexSlot.key sl1) ->
    IndexSlot.key sl1 = IndexSlot.key sl2 ->
    j1 = j2.

Definition unique_live_keys (s : BinTable.t) : Prop :=
  idx_unique (slot_at s) (nslots s).

(** Every live key is reached from its hash slot through slots that are not
    empty. *)
Definition idx_chains (rd : Z -> result IndexSlot.t) (n : Z) : Prop :=
  forall j sl,
    0 <= j < n -> rd j = inr sl -> live_key (IndexSlot.key sl) ->
    exists d, 0 <= d < n
      /\ (IndexSlot.key sl mod n + d) mod n = j
      /\ forall d', 0 <= d' <= d ->
           exists sl',
             rd ((IndexSlot.key sl mod n + d') mod n) = inr sl'
             /\ IndexSlot.key sl' <> 0.

Definition chains_unbroken (s : BinTable.t) : Prop :=
  idx_chains (slot_at s) (nslots s).

(** [s'] has the index of [s]. *)
Definition same_index (s s' : BinTable.t) : Prop :=
  nslots s' = nslots s
  /\ forall j, 0 <= j < nslots s -> slot_at s' j = slot_at s j.

Definition no_tombstone (s : BinTable.t) : Prop :=
  forall j sl,
    0 <= j < nslots s -> slot_at s j = inr sl ->
    IndexSlot.key sl <> TOMBSTONE_KEY.

(** A table on which no [delete_record] has left a trace: no tombstone in
    the index and nothing in the free list. *)
Definition settled (s : BinTable.t) : Prop :=
  wf s /\ Header.free_head (BinTable.h s) = -1 /\ no_tombstone s.

(** The states a freshly created table goes through under calls of
    [add_record] and [delete_record] that return. *)
Inductive reachable : BinTable.t -> Prop :=
| reach_open (now : Z) (magic : bytes) (rsize slots pad_off : Z)
    (s : BinTable.t) :
    0 <= pad_off ->
    BinTable.open now magic rsize slots pad_off None = inr s ->
    reachable s
| reach_add (s : BinTable.t) (now key : Z) (packed : bytes) (i : Z)
    (s' : BinTable.t) :
    reachable s ->
    BinTable.add_record now key packed s = (inr i, s') ->
    reachable s'
| reach_delete (s : BinTable.t) (now key : Z) (s' : BinTable.t) :
    reachable s ->
    BinTable.delete_record now key s = (inr tt, s') ->
    reachable s'.

(** The two errors of the insert probe. *)
Definition index_error (e : exn) : Prop :=
  e = ValueError_duplicate_key \/ e = RuntimeError_index_full.

(** ** The record space and the free list *)

(** The number of whole records the file holds. *)
Definition rec_count (s : BinTable.t) : Z :=
  (Z.of_nat (length (BinTable.f s)) - BinTable._records_region_ofs s)
  / BinTable.rsize s.

(** The link kept in record [r]: what [_alloc_rec_index] reads at
    [pad_off] and what [_write_next_free] writes there. *)
Definition next_free (s : BinTable.t) (r : Z) : Z :=
  unpack_int E
    (pread (BinTable.f s) (BinTable._record_ofs s r + BinTable.pad_off s) 4).

(** [l] is the list of records threaded from [hd] down to the end mark. *)
Fixpoint free_chain (s : BinTable.t) (hd : Z) (l : list Z) : Prop :=
  match l with
  | [] => hd = -1
  | r :: l' =>
      hd = r /\ 0 <= r < rec_count s /\ free_chain s (next_free s r) l'
  end.

(** [l] is the free list of the table. *)
Definition free_list (s : BinTable.t) (l : list Z) : Prop :=
  free_chain s (Header.free_head (BinTable.h s)) l.

(** [s'] has the layout of [s]: the same index size, record size and offset
    of the link. *)
Definition same_layout (s s' : BinTable.t) : Prop :=
  nslots s' = nslots s
  /\ BinTable.rsize s' = BinTable.rsize s
  /\ BinTable.pad_off s' = BinTable.pad_off s.

(** From [s] to [s'] the file has not become shorter and the links of the
    records other than [i] are what they were. *)
Definition rec_frame (s s' : BinTable.t) (i : Z) : Prop :=
  same_layout s s'
  /\ (length (BinTable.f s) <= length (BinTable.f s'))%nat
  /\ forall r, 0 <= r < rec_count s -> r <> i ->
       next_free s' r = next_free s r.

(** A method that never makes the file shorter, whatever it returns or
    raises. *)
Definition grows {A : Type} (m : BinTable.M A) : Prop :=
  forall s,
    (length (BinTable.f s) <= length (BinTable.f (snd (m s))))%nat.

(** A live index slot refers to record [r]. *)
Definition referenced (s : BinTable.t) (r : Z) : Prop :=
  exists j sl,
    0 <= j < nslots s /\ slot_at s j = inr sl
    /\ live_key (IndexSlot.key sl) /\ IndexSlot.rec_index sl = r.

(** The records of the live slots are records of the file, are not in the
    free list [l], and no two live slots have the same record. *)
Definition records_ok (s : BinTable.t) (l : list Z) : Prop :=
  BinTable.pad_off s + 4 <= BinTable.rsize s
  /\ free_list s l /\ NoDup l
  /\ (forall r, referenced s r -> 0 <= r < rec_count s /\ ~ In r l)
  /\ (forall j1 j2 sl1 sl2,
        0 <= j1 < nslots s -> 0 <= j2 < nslots s ->
        slot_at s j1 = inr sl1 -> slot_at s j2 = inr sl2 ->
        live_key (IndexSlot.key sl1) -> live_key (IndexSlot.key sl2) ->
        IndexSlot.rec_index sl1 = IndexSlot.rec_index sl2 -> j1 = j2).

(** The reachable states of a table whose records have room for the link of
    the free list, when [update_record] and [delete_record] are not called
    with the tombstone mark as their key: the steps are [next_id] (whether
    it returns or raises), [add_record] with any key (when it returns, and
    when it stops on an error of the insert probe), and returning calls of
    [update_record] and [delete_record]. *)
Inductive regular : BinTable.t -> Prop :=
| reg_open (now : Z) (magic : bytes) (rsize slots pad_off : Z)
    (s : BinTable.t) :
    0 <= pad_off -> pad_off + 4 <= rsize ->
    BinTable.open now magic rsize slots pad_off None = inr s ->
    regular s
| reg_add (s : BinTable.t) (now key : Z) (packed : bytes) (i : Z)
    (s' : BinTable.t) :
    regular s ->
    BinTable.add_record now key packed s = (inr i, s') ->
    regular s'
| reg_add_fails (s : BinTable.t) (now key : Z) (packed : bytes) (e : exn)
    (s' : BinTable.t) :
    regular s ->
    BinTable.add_record now key packed s = (inl e, s') ->
    index_error e ->
    regular s'
| reg_delete (s : BinTable.t) (now key : Z) (s' : BinTable.t) :
    regular s -> key <> TOMBSTONE_KEY ->
    BinTable.delete_record now key s = (inr tt, s') ->
    regular s'
| reg_next_id (s : BinTable.t) (now : Z) (r : result Z) (s' : BinTable.t) :
    regular s -> BinTable.next_id now s = (r, s') -> regular s'
| reg_update (s : BinTable.t) (now key : Z) (packed : bytes)
    (s' : BinTable.t) :
    regular s -> key <> TOMBSTONE_KEY ->
    BinTable.update_record now key packed s = (inr tt, s') ->
    regular s'.

(** The lookup probe for [key] ends at an empty slot. *)
Definition stops_at_empty (s : BinTable.t) (key : Z) : Prop :=
  exists d sl,
    0 <= d < nslots s
    /\ slot_at s ((key mod nslots s + d) mod nslots s) = inr sl
    /\ IndexSlot.key sl = 0
    /\ passed (slot_at s) (nslots s) key (key mod nslots s) 0 d.

(** The lookup probe for [key] goes through all the slots, none of them empty
    and none of them holding [key]. *)
Definition scans_whole_index (s : BinTable.t) (key : Z) : Prop :=
  passed (slot_at s) (nslots s) key (key mod nslots s) 0 (nslots s).

(** ** Runs of the two implementations of the engine *)

Inductive op : Type :=
| Op_next_id (now : Z)
| Op_add (now key : Z) (packed : bytes)
| Op_read (key : Z)
| Op_update (now key : Z) (packed : bytes).

Inductive reply : Type :=
| Reply_int (v : Z)
| Reply_bytes (b : option bytes)
| Reply_none.

Definition reply_of {A : Type} (g : A -> reply) (m : BinTable.M A)
    : BinTable.M reply :=
  BinTable.bind m (fun a => BinTable.ret (g a)).

Definition app_step (o : op) : BinTable.M reply :=
  match o with
  | Op_next_id now => reply_of Reply_int (BinTable.next_id now)
  | Op_add now key packed =>
      reply_of Reply_int (BinTable.add_record now key packed)
  | Op_read key => reply_of Reply_bytes (BinTable.read_record key)
  | Op_update now key packed =>
      reply_of (fun _ => Reply_none) (BinTable.update_record now key packed)
  end.

Definition seed_step (o : op) : BinTable.M reply :=
  match o with
  | Op_next_id now => reply_of Reply_int (BinTable.next_id now)
  | Op_add now key packed =>
      reply_of Reply_int (Seed.add_record now key packed)
  | Op_read key => reply_of Reply_bytes (BinTable.read_record key)
  | Op_update now key packed =>
      reply_of (fun _ => Reply_none) (BinTable.update_record now key packed)
  end.

(** The replies of a sequence of calls, raised exceptions included, and the
    object at the end. *)
Fixpoint run_ops (step : op -> BinTable.M reply) (ops : list op)
    (s : BinTable.t) : list (result reply) * BinTable.t :=
  match ops with
  | [] => ([], s)
  | o :: rest =>
      let (r, s1) := step o s in
      let (rs, s2) := run_ops step rest s1 in
      (r :: rs, s2)
  end.

Definition op_key_live (o : op) : Prop :=
  match o with
  | Op_add _ key _ => live_key key
  | _ => True
  end.

(** ** Text that a fixed-width field holds without loss *)

(** A code point that has a UTF-8 encoding. *)
Definition scalar (c : Z) : Prop :=
  0 <= c < 0x110000 /\ ~ (0xD800 <= c <= 0xDFFF).

Definition fits (width : nat) (s : pystr) : Prop :=
  Forall scalar s
  /\ (length (utf8_encode s) <= width)%nat
  /\ last (utf8_encode s) x01 <> x00.

Definition u8 (v : Z) : Prop := 0 <= v < 2 ^ 8.
Definition u16 (v : Z) : Prop := 0 <= v < 2 ^ 16.
Definition u32 (v : Z) : Prop := 0 <= v < 2 ^ 32.

(** A record of one of the three tables. *)
Inductive row : Type :=
| Customer (r : Customers.row)
| Car (r : Cars.row)
| Contract (r : Contracts.row).

Definition pack_row (v : row) : result bytes :=
  match v with
  | Customer r => Customers.pack r
  | Car r => Cars.pack r
  | Contract r => Contracts.pack r
  end.

(** [unpack] of the table [v] belongs to. *)
Definition unpack_like (v : row) (raw : bytes) : result row :=
  match v with
  | Customer _ => r <-? Customers.unpack raw ;; inr (Customer r)
  | Car _ => r <-? Cars.unpack raw ;; inr (Car r)
  | Contract _ => r <-? Contracts.unpack raw ;; inr (Contract r)
  end.

(** Field values the record layout holds without loss. *)
Definition representable (v : row) : Prop :=
  match v with
  | Customer r =>
      u8 (Customers.flag r) /\ u32 (Customers.cus_id r)
      /\ fits 13 (Customers.id_card r) /\ fits 50 (Customers.name r)
      /\ fits 10 (Customers.phone r) /\ u32 (Customers.birth_ymd r)
      /\ u8 (Customers.gender r)
  | Car r =>
      u8 (Cars.flag r) /\ u32 (Cars.car_id r)
      /\ fits 12 (Cars.license r) /\ fits 12 (Cars.brand r)
      /\ fits 16 (Cars.model r) /\ u16 (Cars.year r)
      /\ u32 (Cars.rate_cents r) /\ u32 (Cars.odometer_km r)
      /\ u8 (Cars.status r) /\ u32 (Cars.updated_at r)
  | Contract r =>
      u8 (Contracts.flag r) /\ u32 (Contracts.rent_id r)
      /\ u32 (Contracts.cus_id r) /\ u32 (Contracts.car_id r)
      /\ u32 (Contracts.rent_ymd r) /\ u32 (Contracts.return_ymd r)
      /\ u32 (Contracts.total_cents r) /\ u8 (Contracts.returned r)
  end.

(** A customer whose fields are at their limits: a 13-digit card number, a
    name of exactly 50 bytes (15 three-byte letters, a four-byte sign and
    an ASCII letter), a 10-digit telephone number, and the largest numbers. *)
Definition customer_at_limits : row :=
  Customer
    (Customers.mk 255 4294967295
       [49; 49; 48; 51; 55; 48; 48; 48; 48; 48; 48; 48; 49]
       (repeat 3585 15 ++ [0x1F697; 65])
       [48; 56; 49; 50; 51; 52; 53; 54; 55; 56]
       4294967295 255).

(** ** Example tables *)

(** The object a call leaves when it returns, for chaining calls. *)
Definition then_do {A : Type} (r : result BinTable.t) (m : BinTable.M A)
    : result BinTable.t :=
  match r with
  | inl e => inl e
  | inr s =>
      match m s with
      | (inl e, _) => inl e
      | (inr _, s') => inr s'
      end
  end.

Definition force (r : result BinTable.t) : BinTable.t :=
  match r with
  | inr s => s
  | inl _ => BinTable.mk [] 0 0 0 [] (Header.new 0 [] 0 0)
  end.

(** A car with identifier [k]: plate "AB", brand "T", model "V". *)
Definition car_row (k : Z) : Cars.row :=
  Cars.mk 1 k [65; 66] [84] [86] 2020 150000 1000 0 100.

Definition car_bytes (k : Z) : bytes :=
  match Cars.pack (car_row k) with
  | inr b => b
  | inl _ => []
  end.

Definition add_car (now k : Z) : BinTable.M Z :=
  BinTable.add_record now k (car_bytes k).

(** A Cars table with four index slots, created at time 100. *)
Definition cars4_new : BinTable.t := force (Cars.open 100 4 None).

(** ... with cars 1, 2, 3 added. *)
Definition cars4_three : BinTable.t :=
  force (then_do (then_do (then_do (inr cars4_new) (add_car 101 1))
                    (add_car 102 2)) (add_car 103 3)).

(** ... and car 4, which fills the index. *)
Definition cars4_full : BinTable.t :=
  force (then_do (inr cars4_three) (add_car 104 4)).

(** ... and car 2 deleted. *)
Definition cars4_full_without_2 : BinTable.t :=
  force (then_do (inr cars4_full) (BinTable.delete_record 105 2)).

(** A Cars table with four index slots and the keys 1 and 5, which hash to
    the same slot: key 1 is in slot 1 and key 5 in slot 2. *)
Definition cars4_collide : BinTable.t :=
  force (then_do (then_do (inr cars4_new) (add_car 101 1)) (add_car 102 5)).

(** A Cars table with four index slots whose keys are drawn from
    [next_id]: cars 1 and 2 are added and car 1 is deleted. *)
Definition cars4_drawn : BinTable.t :=
  force (then_do
           (then_do
              (then_do
                 (then_do (then_do (inr cars4_new) (BinTable.next_id 101))
                    (add_car 102 1))
                 (BinTable.next_id 103))
              (add_car 104 2))
           (BinTable.delete_record 105 1)).

(** ... and then car 2 updated: a table on which [next_id],
    [add_record], [delete_record] and [update_record] were called, with
    record 0 in its free list. *)
Definition cars4_worked : BinTable.t :=
  force (then_do (inr cars4_drawn)
           (BinTable.update_record 106 2 (car_bytes 2))).

(** A Cars table with four index slots after adding keys 1 and 3, deleting
    key 3 and deleting the tombstone mark, which is looked up in the slot
    key 3 had and frees record 0, the record of key 1. *)
Definition cars4_live_record_freed : BinTable.t :=
  force (then_do
           (then_do
              (then_do (then_do (inr cars4_new) (add_car 101 1))
                 (add_car 102 3))
              (BinTable.delete_record 103 3))
           (BinTable.delete_record 104 TOMBSTONE_KEY)).



(** A customer with identifier [k]. *)
Definition cust_row (k : Z) : Customers.row :=
  Customers.mk 1 k [49; 49; 48; 51; 55; 48; 48; 48; 48; 48; 48; 48; 49]
    [83; 111; 109] [48; 56; 49; 50; 51; 52; 53; 54; 55; 56] 19900101 1.

Definition cust_bytes (k : Z) : bytes :=
  match Customers.pack (cust_row k) with
  | inr b => b
  | inl _ => []
  end.

Definition add_cust (now k : Z) : BinTable.M Z :=
  BinTable.add_record now k (cust_bytes k).

(** The Customers table with its 1024 index slots. *)
Definition customers_new : BinTable.t := force (Customers.open 100 1024 None).

(** ... after adding key 1023 and deleting it. *)
Definition customers_1023_gone : BinTable.t :=
  force (then_do (then_do (inr customers_new) (add_cust 101 1023))
           (BinTable.delete_record 102 1023)).

(** ... after adding keys 1 and 1023 and deleting key 1023. *)
Definition customers_1_and_1023_gone : BinTable.t :=
  force (then_do (then_do (then_do (inr customers_new) (add_cust 101 1))
                    (add_cust 102 1023))
           (BinTable.delete_record 103 1023)).

(** [int] on the strings of decimal digits, for the examples. *)
Fixpoint digits_value (s : string) (acc : Z) : option Z :=
  match s with
  | EmptyString => Some acc
  | String a rest =>
      let d := Z.of_nat (nat_of_ascii a) - 48 in
      if (0 <=? d) && (d <=? 9) then digits_value rest (10 * acc + d)
      else None
  end.

Definition digits_int (s : string) : option Z :=
  match s with
  | EmptyString => None
  | _ => digits_value s 0
  end.

(** An application whose Contracts table holds contract 1, opened on
    2024-01-01 and not returned. *)
Definition open_contract : Contracts.row :=
  Contracts.mk 1 1 1 1 20240101 0 0 0.

Definition example_app : App :=
  mkApp (force (Customers.open 100 4 None)) cars4_three
    (force (then_do (Contracts.open 100 4 None)
              (BinTable.add_record 101 1
                 (match Contracts.pack open_contract with
                  | inr b => b
                  | inl _ => []
                  end)))).

(** An application with customer 1, the cars 1, 2 and 3, all available,
    and no contract. *)
Definition rental_app : App :=
  mkApp (force (then_do (Customers.open 100 4 None) (add_cust 101 1)))
    cars4_three (force (Contracts.open 100 4 None)).

(** ... after customer 1 has rented car 2 on 2024-01-01. *)
Definition rental_app_rented : App :=
  snd (add_contract digits_int (fun s => s) (fun _ => 200)
         "1" "2" "2024-01-01" rental_app).


(** The numbers of a record are in the range of their fields. *)
Definition numbers_ok (v : row) : Prop :=
  match v with
  | Customer r =>
      u8 (Customers.flag r) /\ u32 (Customers.cus_id r)
      /\ u32 (Customers.birth_ymd r) /\ u8 (Customers.gender r)
  | Car r =>
      u8 (Cars.flag r) /\ u32 (Cars.car_id r) /\ u16 (Cars.year r)
      /\ u32 (Cars.rate_cents r) /\ u32 (Cars.odometer_km r)
      /\ u8 (Cars.status r) /\ u32 (Cars.updated_at r)
  | Contract r =>
      u8 (Contracts.flag r) /\ u32 (Contracts.rent_id r)
      /\ u32 (Contracts.cus_id r) /\ u32 (Contracts.car_id r)
      /\ u32 (Contracts.rent_ymd r) /\ u32 (Contracts.return_ymd r)
      /\ u32 (Contracts.total_cents r) /\ u8 (Contracts.returned r)
  end.

(** The record size of the table of a record. *)
Definition row_size (v : row) : Z :=
  match v with
  | Customer _ => CUST_SIZE
  | Car _ => CARS_SIZE
  | Contract _ => CONT_SIZE
  end.

(** ** Calls, and what every call keeps *)

(** What is set when the table is opened: the arguments of the constructor
    and the fields of the header that no method assigns. *)
Definition consts (s : BinTable.t)
    : bytes * Z * Z * Z * (bytes * Z * Z * Z * Z * Z) :=
  (BinTable.magic s, BinTable.rsize s, BinTable.slots s, BinTable.pad_off s,
   (Header.magic (BinTable.h s), Header.version (BinTable.h s),
    Header.endian (BinTable.h s), Header.record_size (BinTable.h s),
    Header.created_at (BinTable.h s), Header.index_slots (BinTable.h s))).

Definition keeps_consts {A : Type} (m : BinTable.M A) : Prop :=
  forall s, consts (snd (m s)) = consts s.

(** A method that leaves the table in a state [Q] when it returns. *)
Definition ensures {A : Type} (m : BinTable.M A) (Q : BinTable.t -> Prop)
    : Prop :=
  forall s a s', m s = (inr a, s') -> Q s'.

(** A method that does not touch the table. *)
Definition reads_only {A : Type} (m : BinTable.M A) : Prop :=
  forall s, snd (m s) = s.

(** The header in the file is the cached header. *)
Definition synced (s : BinTable.t) : Prop :=
  exists b,
    Header.pack (BinTable.h s) = inr b
    /\ pread (BinTable.f s) 0 HEADER_SIZE = b.

(** The header is the one [open] accepts for this table. *)
Definition own_header (s : BinTable.t) : Prop :=
  Header.magic (BinTable.h s) = BinTable.magic s
  /\ length (BinTable.magic s) = 4%nat
  /\ Header.record_size (BinTable.h s) = BinTable.rsize s.

(** The calls that write. *)
Inductive call : Type :=
| Call_next_id (now : Z)
| Call_add (now key : Z) (packed : bytes)
| Call_update (now key : Z) (packed : bytes)
| Call_delete (now key : Z).

Definition do_call (c : call) : BinTable.M unit :=
  match c with
  | Call_next_id now =>
      BinTable.bind (BinTable.next_id now) (fun _ => BinTable.ret tt)
  | Call_add now key packed =>
      BinTable.bind (BinTable.add_record now key packed)
        (fun _ => BinTable.ret tt)
  | Call_update now key packed => BinTable.update_record now key packed
  | Call_delete now key => BinTable.delete_record now key
  end.

(** The table after a list of calls, whatever each returned or raised. *)
Fixpoint do_calls (cs : list call) (s : BinTable.t) : BinTable.t :=
  match cs with
  | [] => s
  | c :: rest => do_calls rest (snd (do_call c s))
  end.

(** ** Identifiers *)

(** A method that leaves the counter of identifiers alone, whatever it
    returns or raises. *)
Definition keeps_next_id {A : Type} (m : BinTable.M A) : Prop :=
  forall s,
    Header.next_id (BinTable.h (snd (m s))) = Header.next_id (BinTable.h s).

(** Every live key of the index is an identifier that was given out. *)
Definition keys_below_next_id (s : BinTable.t) : Prop :=
  1 <= Header.next_id (BinTable.h s)
  /\ forall j sl,
       0 <= j < nslots s -> slot_at s j = inr sl ->
       live_key (IndexSlot.key sl) ->
       IndexSlot.key sl < Header.next_id (BinTable.h s).

(** The states of a table whose keys are the identifiers [next_id] gives,
    as the commands of the application and the seeding tool use it: the
    table is new, with room for the link of the free list in its records;
    a record is added under the identifier just drawn, and the call
    returns or stops on an error of the insert probe; records are updated
    and deleted, not under the tombstone mark. *)
Inductive managed : BinTable.t -> Prop :=
| man_open (now : Z) (magic : bytes) (rsize slots pad_off : Z)
    (s : BinTable.t) :
    0 <= pad_off -> pad_off + 4 <= rsize ->
    BinTable.open now magic rsize slots pad_off None = inr s ->
    managed s
| man_next_id (s : BinTable.t) (now : Z) (r : result Z) (s' : BinTable.t) :
    managed s -> BinTable.next_id now s = (r, s') -> managed s'
| man_add (s : BinTable.t) (now now' nid : Z) (packed : bytes) (i : Z)
    (s1 s2 : BinTable.t) :
    managed s ->
    BinTable.next_id now s = (inr nid, s1) ->
    BinTable.add_record now' nid packed s1 = (inr i, s2) ->
    managed s2
| man_add_fails (s : BinTable.t) (now now' nid : Z) (packed : bytes)
    (e : exn) (s1 s2 : BinTable.t) :
    managed s ->
    BinTable.next_id now s = (inr nid, s1) ->
    BinTable.add_record now' nid packed s1 = (inl e, s2) ->
    index_error e ->
    managed s2
| man_update (s : BinTable.t) (now key : Z) (packed : bytes)
    (s' : BinTable.t) :
    managed s -> key <> TOMBSTONE_KEY ->
    BinTable.update_record now key packed s = (inr tt, s') ->
    managed s'
| man_delete (s : BinTable.t) (now key : Z) (s' : BinTable.t) :
    managed s -> key <> TOMBSTONE_KEY ->
    BinTable.delete_record now key s = (inr tt, s') ->
    managed s'.

(** ** The counter of live records *)

Definition is_live_slot (r : result IndexSlot.t) : bool :=
  match r with
  | inr sl =>
      negb (IndexSlot.key sl =? 0)
      && negb (IndexSlot.key sl =? TOMBSTONE_KEY)
  | inl _ => false
  end.

(** The number of live slots among the first [n] of the index. *)
Fixpoint count_live (rd : Z -> result IndexSlot.t) (n : nat) : Z :=
  match n with
  | O => 0
  | S k => count_live rd k + (if is_live_slot (rd (Z.of_nat k)) then 1 else 0)
  end.

Definition live_count (s : BinTable.t) : Z :=
  count_live (slot_at s) (Z.to_nat (nslots s)).

(** Every slot of the index holds a key or a tombstone. *)
Definition index_full (s : BinTable.t) : Prop :=
  forall j sl, 0 <= j < nslots s -> slot_at s j = inr sl ->
    IndexSlot.key sl <> 0.

(** The table after [delete_record] was called for each key of a list, if
    all the calls returned. *)
Fixpoint delete_all (nows_keys : list (Z * Z)) (s : BinTable.t)
    : option BinTable.t :=
  match nows_keys with
  | [] => Some s
  | (now, key) :: rest =>
      match BinTable.delete_record now key s with
      | (inr _, s') => delete_all rest s'
      | (inl _, _) => None
      end
  end.

(** * Properties *)


(** ** Bytes and fixed-width integers *)

Lemma inr_inj {A B : Type} (x y : B) : @inr A B x = inr y -> x = y.
Proof.
  intros H; now inversion H.
Qed.

Lemma b2z_range (b : byte) : 0 <= b2z b < 256.
Proof.
  unfold b2z. pose proof (Byte.to_N_bounded b). lia.
Qed.

Lemma b2z_z2b (v : Z) : 0 <= v < 256 -> b2z (z2b v) = v.
Proof.
  intros Hv. unfold b2z, z2b. rewrite Z.mod_small by lia.
  destruct (Byte.of_N (Z.to_N v)) as [b|] eqn:Hb.
  - apply Byte.to_of_N in Hb. rewrite Hb. lia.
  - apply Byte.of_N_None_iff in Hb. lia.
Qed.

Lemma z2b_b2z (b : byte) : z2b (b2z b) = b.
Proof.
  unfold b2z, z2b. pose proof (Byte.to_N_bounded b).
  rewrite Z.mod_small by lia. rewrite N2Z.id, Byte.of_to_N. reflexivity.
Qed.

Lemma length_le_bytes (w : nat) (v : Z) : length (le_bytes w v) = w.
Proof.
  revert v. induction w as [|w IH]; intros v; simpl; [reflexivity|].
  now rewrite IH.
Qed.

Lemma le_value_nonneg (bs : bytes) : 0 <= le_value bs.
Proof.
  induction bs as [|b bs IH]; cbn [le_value]; [lia|].
  pose proof (b2z_range b). lia.
Qed.

Lemma le_value_bound (bs : bytes) : le_value bs < 256 ^ Z.of_nat (length bs).
Proof.
  induction bs as [|b bs IH]; [simpl; lia|].
  cbn [le_value length]. rewrite Nat2Z.inj_succ, Z.pow_succ_r by lia.
  pose proof (b2z_range b). generalize dependent (256 ^ Z.of_nat (length bs)).
  intros; lia.
Qed.

Lemma le_value_le_bytes (w : nat) (v : Z) :
  le_value (le_bytes w v) = v mod 256 ^ Z.of_nat w.
Proof.
  revert v. induction w as [|w IH]; intros v.
  - simpl. now rewrite Z.mod_1_r.
  - cbn [le_bytes le_value]. rewrite IH.
    rewrite b2z_z2b by (apply Z.mod_pos_bound; lia).
    rewrite Nat2Z.inj_succ, Z.pow_succ_r by lia.
    assert (Hp : 0 < 256 ^ Z.of_nat w) by (apply Z.pow_pos_nonneg; lia).
    rewrite (Z.rem_mul_r v 256 (256 ^ Z.of_nat w)) by lia. lia.
Qed.

Lemma pow_8w (w : nat) : 2 ^ (8 * Z.of_nat w) = 256 ^ Z.of_nat w.
Proof.
  rewrite Z.pow_mul_r by lia. reflexivity.
Qed.

Lemma int_value_nonneg (o : byteorder) (bs : bytes) : 0 <= int_value o bs.
Proof.
  destruct o; simpl; apply le_value_nonneg.
Qed.

Lemma int_value_int_bytes (o : byteorder) (w : nat) (v : Z) :
  int_value o (int_bytes o w v) = v mod 256 ^ Z.of_nat w.
Proof.
  destruct o; simpl; [|rewrite rev_involutive]; apply le_value_le_bytes.
Qed.

Lemma length_int_bytes (o : byteorder) (w : nat) (v : Z) :
  length (int_bytes o w v) = w.
Proof.
  destruct o; simpl; [|rewrite length_rev]; apply length_le_bytes.
Qed.

(** What [struct.pack] accepts for an unsigned field, and what it gives. *)
Lemma pack_uint_inv (o : byteorder) (w : nat) (v : Z) (b : bytes) :
  pack_uint o w v = inr b ->
  0 <= v < 256 ^ Z.of_nat w /\ b = int_bytes o w v /\ length b = w.
Proof.
  unfold pack_uint. rewrite pow_8w.
  destruct (Z.leb_spec 0 v), (Z.ltb_spec v (256 ^ Z.of_nat w));
    simpl; intros Hb; inversion Hb; subst.
  repeat split; try lia. apply length_int_bytes.
Qed.

Lemma pack_uint_ok (o : byteorder) (w : nat) (v : Z) :
  0 <= v < 256 ^ Z.of_nat w -> pack_uint o w v = inr (int_bytes o w v).
Proof.
  intros Hv. unfold pack_uint. rewrite pow_8w.
  destruct (Z.leb_spec 0 v), (Z.ltb_spec v (256 ^ Z.of_nat w)); simpl;
    try lia; reflexivity.
Qed.

Lemma unpack_pack_uint (o : byteorder) (w : nat) (v : Z) (b : bytes) :
  pack_uint o w v = inr b -> unpack_uint o b = v.
Proof.
  intros H. apply pack_uint_inv in H as (Hv & -> & _).
  unfold unpack_uint. rewrite int_value_int_bytes. apply Z.mod_small. lia.
Qed.

Lemma pack_int4_inv (o : byteorder) (v : Z) (b : bytes) :
  pack_int o 4 v = inr b ->
  - 2147483648 <= v < 2147483648 /\ length b = 4%nat
  /\ unpack_int o b = v.
Proof.
  unfold pack_int.
  destruct (_ <=? v) eqn:Hlo; [|discriminate].
  destruct (v <? _) eqn:Hhi; [|discriminate].
  apply Z.leb_le in Hlo. apply Z.ltb_lt in Hhi.
  change (2 ^ (8 * Z.of_nat 4 - 1)) with 2147483648 in *.
  change (2 ^ (8 * Z.of_nat 4)) with 4294967296.
  simpl. intros Hb; inversion Hb; subst.
  split; [lia|]. split; [apply length_int_bytes|].
  unfold unpack_int. rewrite length_int_bytes, int_value_int_bytes.
  change (256 ^ Z.of_nat 4) with 4294967296.
  change (2 ^ (8 * Z.of_nat 4 - 1)) with 2147483648.
  change (2 ^ (8 * Z.of_nat 4)) with 4294967296.
  rewrite Z.mod_mod by lia.
  destruct (Z.ltb_spec (v mod 4294967296) 2147483648) as [Hlt|Hge].
  - destruct (Z.lt_ge_cases v 0) as [Hneg|Hpos].
    + rewrite <- (Z.mod_add v 1 4294967296) in Hlt by lia.
      rewrite Z.mod_small in Hlt by lia. lia.
    + apply Z.mod_small. lia.
  - destruct (Z.lt_ge_cases v 0) as [Hneg|Hpos].
    + rewrite <- (Z.mod_add v 1 4294967296) by lia.
      rewrite Z.mod_small by lia. lia.
    + rewrite Z.mod_small in Hge by lia. lia.
Qed.

(** ** Reading and writing a file at an offset *)

Lemma length_pwrite (fl : file) (off : Z) (data : bytes) :
  length (pwrite fl off data)
  = Nat.max (length fl) (Z.to_nat off + length data).
Proof.
  unfold pwrite. repeat rewrite length_app.
  rewrite length_firstn, repeat_length, length_skipn. lia.
Qed.

Lemma length_pwrite_ge (fl : file) (off : Z) (data : bytes) :
  (length fl <= length (pwrite fl off data))%nat.
Proof.
  rewrite length_pwrite. lia.
Qed.

Lemma length_pread (fl : file) (off n : Z) :
  0 <= off -> 0 <= n -> off + n <= Z.of_nat (length fl) ->
  length (pread fl off n) = Z.to_nat n.
Proof.
  intros Hoff Hn Hlen. unfold pread.
  destruct (Z.ltb_spec n 0); [lia|].
  rewrite length_firstn, length_skipn. lia.
Qed.

(** Reading back what has just been written. *)
Lemma pread_pwrite_same (fl : file) (off : Z) (data : bytes) :
  pread (pwrite fl off data) off (Z.of_nat (length data)) = data.
Proof.
  unfold pread, pwrite.
  destruct (Z.ltb_spec (Z.of_nat (length data)) 0); [lia|].
  rewrite Nat2Z.id.
  set (o := Z.to_nat off).
  rewrite app_assoc.
  rewrite skipn_app.
  assert (Hl : length (firstn o fl ++ repeat x00 (o - length fl)) = o).
  { rewrite length_app, length_firstn, repeat_length. lia. }
  rewrite Hl, Nat.sub_diag. cbn [skipn].
  rewrite skipn_all2 by lia. cbn [app].
  rewrite firstn_app, Nat.sub_diag. cbn [firstn].
  rewrite firstn_all, app_nil_r. reflexivity.
Qed.

(** A read above the written range sees the old bytes. *)
Lemma pread_pwrite_above (fl : file) (off : Z) (data : bytes) (off2 n : Z) :
  0 <= off -> off + Z.of_nat (length data) <= off2 ->
  pread (pwrite fl off data) off2 n = pread fl off2 n.
Proof.
  intros Hoff Hle.
  assert (Hs : skipn (Z.to_nat off2) (pwrite fl off data)
               = skipn (Z.to_nat off2) fl).
  { unfold pwrite. set (o := Z.to_nat off).
    rewrite 2 app_assoc. rewrite skipn_app.
    assert (Hl : length ((firstn o fl ++ repeat x00 (o - length fl)) ++ data)
                 = (o + length data)%nat).
    { rewrite 2 length_app, length_firstn, repeat_length. lia. }
    rewrite Hl. rewrite (skipn_all2 (_ ++ data)) by lia. cbn [app].
    rewrite skipn_skipn. f_equal. lia. }
  unfold pread. now rewrite Hs.
Qed.

(** A read below the written range, inside the old file, sees the old
    bytes. *)
Lemma pread_pwrite_below (fl : file) (off : Z) (data : bytes) (off2 n : Z) :
  0 <= off2 -> 0 <= n -> off2 + n <= off ->
  off2 + n <= Z.of_nat (length fl) ->
  pread (pwrite fl off data) off2 n = pread fl off2 n.
Proof.
  intros Hoff2 Hn Hle Hlen. unfold pread.
  destruct (Z.ltb_spec n 0); [lia|].
  unfold pwrite. set (o := Z.to_nat off).
  set (tl := repeat x00 (o - length fl) ++ data ++ skipn (o + length data) fl).
  rewrite skipn_app.
  rewrite firstn_app.
  assert (Hz : (Z.to_nat n - length (skipn (Z.to_nat off2) (firstn o fl)) = 0)%nat).
  { rewrite length_skipn, length_firstn. lia. }
  rewrite Hz. cbn [firstn]. rewrite app_nil_r.
  rewrite <- (firstn_skipn o fl) at 2.
  rewrite skipn_app, firstn_app, Hz. cbn [firstn]. now rewrite app_nil_r.
Qed.

(** A part of what has just been written. *)
Lemma pread_pwrite_inside (fl : file) (off : Z) (data : bytes) (d n : nat) :
  0 <= off -> (d + n <= length data)%nat ->
  pread (pwrite fl off data) (off + Z.of_nat d) (Z.of_nat n)
  = slice data d n.
Proof.
  intros Hoff Hlen. unfold pread, pwrite, slice.
  destruct (Z.ltb_spec (Z.of_nat n) 0); [lia|].
  rewrite Nat2Z.id.
  replace (Z.to_nat (off + Z.of_nat d)) with (Z.to_nat off + d)%nat by lia.
  set (o := Z.to_nat off).
  rewrite app_assoc, skipn_app.
  assert (Hl : length (firstn o fl ++ repeat x00 (o - length fl)) = o).
  { rewrite length_app, length_firstn, repeat_length. lia. }
  rewrite Hl. rewrite skipn_all2 by lia. cbn [app].
  replace (o + d - o)%nat with d by lia.
  rewrite skipn_app, firstn_app.
  replace (n - length (skipn d data))%nat with 0%nat
    by (rewrite length_skipn; lia).
  cbn [firstn]. now rewrite app_nil_r.
Qed.

(** ** The monad of the table methods *)

Lemma bind_inv {A B : Type} (m : BinTable.M A) (k : A -> BinTable.M B)
    (s s' : BinTable.t) (r : result B) :
  BinTable.bind m k s = (r, s') ->
  (exists e, m s = (inl e, s') /\ r = inl e)
  \/ (exists a s1, m s = (inr a, s1) /\ k a s1 = (r, s')).
Proof.
  unfold BinTable.bind. destruct (m s) as [[e|a] s1]; intros H.
  - inversion H; subst. left. eauto.
  - right. eauto.
Qed.

Lemma bind_ok_inv {A B : Type} (m : BinTable.M A) (k : A -> BinTable.M B)
    (s s' : BinTable.t) (b : B) :
  BinTable.bind m k s = (inr b, s') ->
  exists a s1, m s = (inr a, s1) /\ k a s1 = (inr b, s').
Proof.
  intros H. apply bind_inv in H as [(e & _ & He)|H]; [discriminate|exact H].
Qed.

Lemma bind_run {A B : Type} (m : BinTable.M A) (k : A -> BinTable.M B)
    (s s1 : BinTable.t) (a : A) :
  m s = (inr a, s1) -> BinTable.bind m k s = k a s1.
Proof.
  intros H. unfold BinTable.bind. now rewrite H.
Qed.

Lemma bind_fail {A B : Type} (m : BinTable.M A) (k : A -> BinTable.M B)
    (s s1 : BinTable.t) (e : exn) :
  m s = (inl e, s1) -> BinTable.bind m k s = (inl e, s1).
Proof.
  intros H. unfold BinTable.bind. now rewrite H.
Qed.

Lemma bind_unfold {A B : Type} (m : BinTable.M A) (k : A -> BinTable.M B)
    (s : BinTable.t) :
  BinTable.bind m k s
  = match m s with
    | (inl e, s') => (inl e, s')
    | (inr a, s') => k a s'
    end.
Proof.
  reflexivity.
Qed.

Lemma bind_ext_at {A B : Type} (m : BinTable.M A)
    (k1 k2 : A -> BinTable.M B) (s : BinTable.t) :
  (forall a s1, m s = (inr a, s1) -> k1 a s1 = k2 a s1) ->
  BinTable.bind m k1 s = BinTable.bind m k2 s.
Proof.
  intros H. unfold BinTable.bind.
  destruct (m s) as [[e|a] s1]; [reflexivity|]. now apply H.
Qed.

(** Inversion of a hypothesis [H : m s = (inr _, s')] along the binds of
    [m]. *)
Ltac bind_ok H :=
  let a := fresh "a" in
  let s1 := fresh "s" in
  let H1 := fresh "Hstep" in
  apply bind_ok_inv in H as (a & s1 & H1 & H).

Ltac inv_pair H := inversion H; subst; clear H.

(** ** Primitive reads and writes *)

Lemma seek_read_state (off n : Z) (s : BinTable.t) :
  snd (BinTable.seek_read off n s) = s.
Proof.
  unfold BinTable.seek_read.
  destruct (off <? 0); [reflexivity|]. now destruct (n <? -1).
Qed.

Lemma seek_read_ok (off n : Z) (s : BinTable.t) :
  0 <= off -> -1 <= n ->
  BinTable.seek_read off n s = (inr (pread (BinTable.f s) off n), s).
Proof.
  intros Hoff Hn. unfold BinTable.seek_read.
  destruct (Z.ltb_spec off 0); [lia|].
  destruct (Z.ltb_spec n (-1)); [lia|reflexivity].
Qed.

Lemma seek_read_inv (off n : Z) (s s' : BinTable.t) (b : bytes) :
  BinTable.seek_read off n s = (inr b, s') ->
  0 <= off /\ s' = s /\ b = pread (BinTable.f s) off n.
Proof.
  unfold BinTable.seek_read.
  destruct (Z.ltb_spec off 0); [discriminate|].
  destruct (n <? -1); [discriminate|].
  intros H0; inv_pair H0. auto.
Qed.

Lemma seek_write_inv (off : Z) (data : result bytes) (s s' : BinTable.t) :
  BinTable.seek_write off data s = (inr tt, s') ->
  0 <= off
  /\ exists d, data = inr d
       /\ s' = BinTable.set_f (pwrite (BinTable.f s) off d) s.
Proof.
  unfold BinTable.seek_write.
  destruct (Z.ltb_spec off 0); [discriminate|].
  destruct data as [e|d]; [discriminate|].
  intros H0; inv_pair H0. eauto.
Qed.

Lemma read_slot_run (j : Z) (s : BinTable.t) :
  BinTable._read_slot j s = (slot_at s j, s).
Proof.
  unfold slot_at, outcome, BinTable._read_slot, BinTable.bind,
    BinTable.seek_read, BinTable.lift.
  destruct (_ <? 0); [reflexivity|].
  destruct (_ <? -1); reflexivity.
Qed.

Lemma slot_at_eq (j : Z) (s : BinTable.t) :
  0 <= j ->
  slot_at s j
  = IndexSlot.unpack
      (pread (BinTable.f s) (BinTable._index_ofs j) INDEX_SLOT_SIZE).
Proof.
  intros Hj. unfold slot_at, outcome, BinTable._read_slot, BinTable.bind.
  rewrite seek_read_ok; [reflexivity| |].
  - unfold BinTable._index_ofs, HEADER_SIZE, INDEX_SLOT_SIZE. lia.
  - unfold INDEX_SLOT_SIZE. lia.
Qed.

Lemma hash_run (key : Z) (s : BinTable.t) :
  BinTable._hash key s
  = (if nslots s =? 0 then inl ZeroDivisionError
     else inr (key mod nslots s), s).
Proof.
  unfold BinTable._hash, BinTable.bind, BinTable.get, nslots.
  destruct (_ =? 0); reflexivity.
Qed.

(** ** The loops of the methods are the probes *)

Lemma _find_slot_for_insert_loop_pure (key start : Z) (fuel : nat)
    (i first_tomb : Z) (s : BinTable.t) :
  BinTable._find_slot_for_insert_loop key start fuel i first_tomb s
  = (probe_insert (slot_at s) (nslots s) key start fuel i first_tomb, s).
Proof.
  revert i first_tomb.
  induction fuel as [|fuel IH]; intros i first_tomb; [reflexivity|].
  cbn [BinTable._find_slot_for_insert_loop probe_insert].
  unfold BinTable.bind at 1. cbn [BinTable.get].
  unfold BinTable.bind at 1. fold (nslots s).
  rewrite read_slot_run.
  destruct (slot_at s ((start + i) mod nslots s)) as [e|sl];
    [reflexivity|].
  cbn [bindR].
  destruct (IndexSlot.key sl =? key); [reflexivity|].
  destruct (IndexSlot.key sl =? 0); [reflexivity|].
  apply IH.
Qed.

Lemma _lookup_loop_pure (key start : Z) (fuel : nat) (i : Z)
    (s : BinTable.t) :
  BinTable._lookup_loop key start fuel i s
  = (p <-? probe_find (slot_at s) (nslots s) key start fuel i ;;
     inr (option_map (fun x => IndexSlot.rec_index (snd x)) p), s).
Proof.
  revert i. induction fuel as [|fuel IH]; intros i; [reflexivity|].
  cbn [BinTable._lookup_loop probe_find].
  unfold BinTable.bind at 1. cbn [BinTable.get].
  unfold BinTable.bind at 1. fold (nslots s).
  rewrite read_slot_run.
  destruct (slot_at s ((start + i) mod nslots s)) as [e|sl];
    [reflexivity|].
  cbn [bindR].
  destruct (IndexSlot.key sl =? 0); [reflexivity|].
  destruct (IndexSlot.key sl =? key); [reflexivity|].
  apply IH.
Qed.

Lemma _slot_of_key_loop_pure (key start : Z) (fuel : nat) (i : Z)
    (s : BinTable.t) :
  BinTable._slot_of_key_loop key start fuel i s
  = (p <-? probe_find (slot_at s) (nslots s) key start fuel i ;;
     inr (option_map fst p), s).
Proof.
  revert i. induction fuel as [|fuel IH]; intros i; [reflexivity|].
  cbn [BinTable._slot_of_key_loop probe_find].
  unfold BinTable.bind at 1. cbn [BinTable.get].
  unfold BinTable.bind at 1. fold (nslots s).
  rewrite read_slot_run.
  destruct (slot_at s ((start + i) mod nslots s)) as [e|sl];
    [reflexivity|].
  cbn [bindR].
  destruct (IndexSlot.key sl =? 0); [reflexivity|].
  destruct (IndexSlot.key sl =? key); [reflexivity|].
  apply IH.
Qed.

Lemma _find_slot_loop_pure (key start : Z) (fuel : nat) (i : Z)
    (s : BinTable.t) :
  Seed._find_slot_loop key start fuel i s
  = (probe_seed (slot_at s) (nslots s) key start fuel i, s).
Proof.
  revert i. induction fuel as [|fuel IH]; intros i; [reflexivity|].
  cbn [Seed._find_slot_loop probe_seed].
  unfold BinTable.bind at 1. cbn [BinTable.get].
  unfold BinTable.bind at 1. fold (nslots s).
  rewrite read_slot_run.
  destruct (slot_at s ((start + i) mod nslots s)) as [e|sl];
    [reflexivity|].
  cbn [bindR].
  destruct ((IndexSlot.key sl =? 0) || (IndexSlot.key sl =? key));
    [reflexivity|].
  apply IH.
Qed.

Lemma find_slot_for_insert_run (key : Z) (s : BinTable.t) :
  BinTable._find_slot_for_insert key s = (insert_slot s key, s).
Proof.
  unfold BinTable._find_slot_for_insert, insert_slot, BinTable.bind.
  rewrite hash_run. destruct (nslots s =? 0); [reflexivity|].
  cbn [BinTable.get]. fold (nslots s).
  apply _find_slot_for_insert_loop_pure.
Qed.

Lemma lookup_run (key : Z) (s : BinTable.t) :
  BinTable._lookup key s
  = (p <-? find_slot s key ;;
     inr (option_map (fun x => IndexSlot.rec_index (snd x)) p), s).
Proof.
  unfold BinTable._lookup, find_slot, BinTable.bind.
  rewrite hash_run. destruct (nslots s =? 0); [reflexivity|].
  cbn [BinTable.get]. fold (nslots s).
  apply _lookup_loop_pure.
Qed.

Lemma slot_of_key_run (key : Z) (s : BinTable.t) :
  BinTable._slot_of_key key s
  = (p <-? find_slot s key ;; inr (option_map fst p), s).
Proof.
  unfold BinTable._slot_of_key, find_slot, BinTable.bind.
  rewrite hash_run. destruct (nslots s =? 0); [reflexivity|].
  cbn [BinTable.get]. fold (nslots s).
  apply _slot_of_key_loop_pure.
Qed.

(** The probes read the index only. *)

Lemma probe_insert_ext (rd rd' : Z -> result IndexSlot.t) (n : Z)
    (key start : Z) (fuel : nat) (i first_tomb : Z) :
  0 < n -> (forall j, 0 <= j < n -> rd' j = rd j) ->
  probe_insert rd' n key start fuel i first_tomb
  = probe_insert rd n key start fuel i first_tomb.
Proof.
  intros Hn Hrd. revert i first_tomb.
  induction fuel as [|fuel IH]; intros i first_tomb; [reflexivity|].
  cbn [probe_insert]. rewrite Hrd by (apply Z.mod_pos_bound; lia).
  destruct (rd ((start + i) mod n)) as [e|sl]; [reflexivity|].
  cbn [bindR]. now rewrite IH.
Qed.

Lemma probe_find_ext (rd rd' : Z -> result IndexSlot.t) (n : Z)
    (key start : Z) (fuel : nat) (i : Z) :
  0 < n -> (forall j, 0 <= j < n -> rd' j = rd j) ->
  probe_find rd' n key start fuel i = probe_find rd n key start fuel i.
Proof.
  intros Hn Hrd. revert i.
  induction fuel as [|fuel IH]; intros i; [reflexivity|].
  cbn [probe_find]. rewrite Hrd by (apply Z.mod_pos_bound; lia).
  destruct (rd ((start + i) mod n)) as [e|sl]; [reflexivity|].
  cbn [bindR]. now rewrite IH.
Qed.

Lemma insert_slot_same_index (s s' : BinTable.t) (key : Z) :
  same_index s s' -> insert_slot s' key = insert_slot s key.
Proof.
  intros [Hn Hrd]. unfold insert_slot. rewrite Hn.
  destruct (Z.eqb_spec (nslots s) 0) as [|Hne]; [reflexivity|].
  destruct (Z.lt_ge_cases 0 (nslots s)) as [Hpos|Hneg].
  - now apply probe_insert_ext.
  - now replace (Z.to_nat (nslots s)) with 0%nat by lia.
Qed.

Lemma find_slot_same_index (s s' : BinTable.t) (key : Z) :
  same_index s s' -> find_slot s' key = find_slot s key.
Proof.
  intros [Hn Hrd]. unfold find_slot. rewrite Hn.
  destruct (Z.eqb_spec (nslots s) 0) as [|Hne]; [reflexivity|].
  destruct (Z.lt_ge_cases 0 (nslots s)) as [Hpos|Hneg].
  - now apply probe_find_ext.
  - now replace (Z.to_nat (nslots s)) with 0%nat by lia.
Qed.

Lemma same_index_refl (s : BinTable.t) : same_index s s.
Proof.
  split; auto.
Qed.

Lemma same_index_trans (s1 s2 s3 : BinTable.t) :
  same_index s1 s2 -> same_index s2 s3 -> same_index s1 s3.
Proof.
  intros [Hn1 H1] [Hn2 H2]. split; [congruence|].
  intros j Hj. rewrite H2 by (rewrite Hn1; exact Hj). now apply H1.
Qed.

(** ** What the writes of the engine do to the index *)

Lemma slot_at_file (s s' : BinTable.t) (j : Z) :
  BinTable.f s' = BinTable.f s -> slot_at s' j = slot_at s j.
Proof.
  intros Hf. unfold slot_at, outcome, BinTable._read_slot, BinTable.bind,
    BinTable.seek_read, BinTable.lift.
  destruct (_ <? 0); [reflexivity|].
  destruct (_ <? -1); [reflexivity|]. cbn. now rewrite Hf.
Qed.

Lemma same_index_set_h (s : BinTable.t) (hd : Header.t) :
  Header.index_slots hd = nslots s -> same_index s (BinTable.set_h hd s).
Proof.
  intros Hn. split; [exact Hn|]. intros j _. now apply slot_at_file.
Qed.

Lemma wf_set_h (s : BinTable.t) (hd : Header.t) :
  Header.index_slots hd = nslots s -> wf s -> wf (BinTable.set_h hd s).
Proof.
  unfold wf, nslots, BinTable._records_region_ofs. cbn. intros ->. auto.
Qed.

Lemma wf_pwrite (s : BinTable.t) (off : Z) (d : bytes) :
  wf s -> wf (BinTable.set_f (pwrite (BinTable.f s) off d) s).
Proof.
  unfold wf, nslots, BinTable._records_region_ofs. cbn.
  intros (Hn & Hlen & Hpad). repeat split; try assumption.
  pose proof (length_pwrite_ge (BinTable.f s) off d). lia.
Qed.

(** A write in the record region. *)
Lemma same_index_pwrite_above (s : BinTable.t) (off : Z) (d : bytes) :
  wf s -> BinTable._records_region_ofs s <= off ->
  same_index s (BinTable.set_f (pwrite (BinTable.f s) off d) s).
Proof.
  intros (Hn & Hlen & Hpad) Hoff. split; [reflexivity|].
  intros j Hj. rewrite 2 slot_at_eq by lia. cbn [BinTable.f BinTable.set_f].
  unfold BinTable._records_region_ofs in *. fold (nslots s) in *.
  unfold BinTable._index_ofs, HEADER_SIZE, INDEX_SLOT_SIZE in *.
  rewrite pread_pwrite_below by lia. reflexivity.
Qed.

(** A write of the header. *)
Lemma same_index_pwrite_header (s : BinTable.t) (d : bytes) :
  length d = 128%nat ->
  same_index s (BinTable.set_f (pwrite (BinTable.f s) 0 d) s).
Proof.
  intros Hd. split; [reflexivity|].
  intros j Hj. rewrite 2 slot_at_eq by lia. cbn [BinTable.f BinTable.set_f].
  unfold BinTable._index_ofs, HEADER_SIZE, INDEX_SLOT_SIZE.
  rewrite pread_pwrite_above by lia. reflexivity.
Qed.

Lemma length_header_pack (o : byteorder) (hd : Header.t) (b : bytes) :
  Header.pack_with o hd = inr b -> length b = 128%nat.
Proof.
  unfold Header.pack_with.
  repeat match goal with
  | |- context [pack_uint ?o ?w ?v] =>
      let E := fresh "E" in
      destruct (pack_uint o w v) eqn:E; [discriminate|];
      apply pack_uint_inv in E as (_ & _ & E)
  | |- context [pack_int ?o ?w ?v] =>
      let E := fresh "E" in
      destruct (pack_int o w v) eqn:E; [discriminate|];
      apply pack_int4_inv in E as (_ & E & _)
  end; cbn [bindR].
  intros H; apply inr_inj in H; subst b.
  repeat rewrite length_app. unfold pack_s.
  rewrite length_app, length_firstn, repeat_length.
  repeat match goal with E : length _ = _ |- _ => rewrite E; clear E end.
  rewrite ?repeat_length. lia.
Qed.

Lemma slice_app_l (a b : bytes) (n : nat) :
  length a = n -> slice (a ++ b) 0 n = a.
Proof.
  intros <-. unfold slice. cbn [skipn].
  rewrite firstn_app, Nat.sub_diag, firstn_all. cbn. apply app_nil_r.
Qed.

Lemma slice_app_r (a b : bytes) (off n : nat) :
  (length a <= off)%nat -> slice (a ++ b) off n = slice b (off - length a) n.
Proof.
  intros Hle. unfold slice. rewrite skipn_app.
  rewrite skipn_all2 by lia. reflexivity.
Qed.

Lemma slot_unpack_pack (v : IndexSlot.t) (b : bytes) :
  IndexSlot.pack v = inr b ->
  length b = 16%nat /\ IndexSlot.unpack b = inr v
  /\ 0 <= IndexSlot.key v < 2 ^ 32 /\ 0 <= IndexSlot.rec_index v < 2 ^ 32.
Proof.
  unfold IndexSlot.pack.
  destruct (pack_uint E 4 (IndexSlot.key v)) as [|bk] eqn:Ek; [discriminate|].
  destruct (pack_uint E 4 (IndexSlot.rec_index v)) as [|br] eqn:Er;
    [discriminate|].
  cbn [bindR]. intros H; apply inr_inj in H; subst b.
  pose proof (unpack_pack_uint _ _ _ _ Ek) as Uk.
  pose proof (unpack_pack_uint _ _ _ _ Er) as Ur.
  apply pack_uint_inv in Ek as (Rk & _ & Lk).
  apply pack_uint_inv in Er as (Rr & _ & Lr).
  assert (Hlen : length (bk ++ br ++ repeat x00 8) = 16%nat).
  { rewrite 2 length_app, repeat_length. lia. }
  split; [exact Hlen|].
  split.
  - unfold IndexSlot.unpack. rewrite Hlen. cbn [Z.of_nat Z.eqb Pos.eqb Pos.of_succ_nat Pos.succ].
    rewrite (slice_app_l bk _ 4 Lk).
    rewrite (slice_app_r bk _ 4 4) by lia. rewrite Lk.
    cbn [Nat.sub]. rewrite (slice_app_l br _ 4 Lr).
    rewrite Uk, Ur. now destruct v.
  - change (2 ^ 32) with (256 ^ Z.of_nat 4). auto.
Qed.

(** A write of one index slot. *)
Lemma slot_at_pwrite_slot (s : BinTable.t) (j0 : Z) (v : IndexSlot.t)
    (b : bytes) (j : Z) :
  wf s -> 0 <= j0 < nslots s -> IndexSlot.pack v = inr b ->
  0 <= j < nslots s ->
  slot_at (BinTable.set_f (pwrite (BinTable.f s) (BinTable._index_ofs j0) b) s)
    j
  = if j =? j0 then inr v else slot_at s j.
Proof.
  intros (Hn & Hlen & Hpad) Hj0 Hb Hj.
  apply slot_unpack_pack in Hb as (Lb & Ub & _).
  rewrite slot_at_eq by lia. cbn [BinTable.f BinTable.set_f].
  unfold BinTable._records_region_ofs in *. fold (nslots s) in *.
  destruct (Z.eqb_spec j j0) as [->|Hne].
  - replace INDEX_SLOT_SIZE with (Z.of_nat (length b))
      by (rewrite Lb; reflexivity).
    now rewrite pread_pwrite_same.
  - rewrite slot_at_eq by lia.
    unfold BinTable._index_ofs, HEADER_SIZE, INDEX_SLOT_SIZE in *.
    destruct (Z.lt_ge_cases j j0).
    + rewrite pread_pwrite_below by lia. reflexivity.
    + rewrite pread_pwrite_above by lia. reflexivity.
Qed.

(** Every slot of a well-formed table can be read. *)
Lemma slot_at_readable (s : BinTable.t) (j : Z) :
  wf s -> 0 <= j < nslots s -> exists sl, slot_at s j = inr sl.
Proof.
  intros (Hn & Hlen & Hpad) Hj. rewrite slot_at_eq by lia.
  unfold IndexSlot.unpack.
  unfold BinTable._records_region_ofs in *. fold (nslots s) in *.
  unfold BinTable._index_ofs, HEADER_SIZE, INDEX_SLOT_SIZE in *.
  rewrite length_pread by lia. rewrite Z2Nat.id, Z.eqb_refl by lia. eauto.
Qed.

Lemma slot_unpack_nonneg (b : bytes) (sl : IndexSlot.t) :
  IndexSlot.unpack b = inr sl ->
  0 <= IndexSlot.key sl /\ 0 <= IndexSlot.rec_index sl.
Proof.
  unfold IndexSlot.unpack.
  destruct (Z.of_nat (length b) =? 16); [|discriminate].
  intros H; apply inr_inj in H; subst sl. cbn [IndexSlot.key IndexSlot.rec_index].
  split; apply int_value_nonneg.
Qed.

Lemma slot_at_nonneg (s : BinTable.t) (j : Z) (sl : IndexSlot.t) :
  slot_at s j = inr sl -> 0 <= IndexSlot.key sl /\ 0 <= IndexSlot.rec_index sl.
Proof.
  unfold slot_at, outcome, BinTable._read_slot, BinTable.bind,
    BinTable.seek_read, BinTable.lift.
  destruct (_ <? 0); [discriminate|].
  destruct (_ <? -1); [discriminate|]. cbn [fst].
  apply slot_unpack_nonneg.
Qed.

(** ** The record-space methods, step by step *)

Lemma write_raw_run (i : Z) (data : bytes) (s : BinTable.t) :
  BinTable._write_raw i data s
  = if negb (Z.of_nat (length data) =? BinTable.rsize s)
    then (inl AssertionError, s)
    else if BinTable._record_ofs s i <? 0 then (inl OSError, s)
    else (inr tt,
          BinTable.set_f
            (pwrite (BinTable.f s) (BinTable._record_ofs s i) data) s).
Proof.
  unfold BinTable._write_raw, BinTable.bind, BinTable.get, BinTable.raise,
    BinTable.seek_write.
  destruct (negb _); reflexivity.
Qed.

Lemma write_raw_inv (i : Z) (data : bytes) (s s' : BinTable.t) :
  BinTable._write_raw i data s = (inr tt, s') ->
  Z.of_nat (length data) = BinTable.rsize s
  /\ 0 <= BinTable._record_ofs s i
  /\ s' = BinTable.set_f
            (pwrite (BinTable.f s) (BinTable._record_ofs s i) data) s.
Proof.
  rewrite write_raw_run.
  destruct (Z.eqb_spec (Z.of_nat (length data)) (BinTable.rsize s));
    [|discriminate]. cbn [negb].
  destruct (Z.ltb_spec (BinTable._record_ofs s i) 0); [discriminate|].
  intros H0; inv_pair H0. auto.
Qed.

Lemma write_next_free_inv (ri nf : Z) (s s' : BinTable.t) :
  BinTable._write_next_free ri nf s = (inr tt, s') ->
  exists b, pack_int E 4 nf = inr b
    /\ 0 <= BinTable._record_ofs s ri + BinTable.pad_off s
    /\ s' = BinTable.set_f
              (pwrite (BinTable.f s)
                 (BinTable._record_ofs s ri + BinTable.pad_off s) b) s.
Proof.
  unfold BinTable._write_next_free, BinTable.bind, BinTable.get.
  intros H. apply seek_write_inv in H as (Hofs & d & Hd & ->). eauto.
Qed.

Lemma write_slot_inv (j : Z) (v : IndexSlot.t) (s s' : BinTable.t) :
  BinTable._write_slot j v s = (inr tt, s') ->
  exists b, IndexSlot.pack v = inr b
    /\ 0 <= BinTable._index_ofs j
    /\ s' = BinTable.set_f
              (pwrite (BinTable.f s) (BinTable._index_ofs j) b) s.
Proof.
  unfold BinTable._write_slot.
  intros H. apply seek_write_inv in H as (Hofs & d & Hd & ->). eauto.
Qed.

Lemma write_header_run (now : Z) (s : BinTable.t) :
  BinTable._write_header now s
  = let hd := Header.set_updated_at now (BinTable.h s) in
    match Header.pack hd with
    | inl e => (inl e, BinTable.set_h hd s)
    | inr b =>
        (inr tt,
         BinTable.set_f (pwrite (BinTable.f s) 0 b) (BinTable.set_h hd s))
    end.
Proof.
  unfold BinTable._write_header, BinTable.bind, BinTable.modify_h,
    BinTable.get, BinTable.seek_write, BinTable._sync, BinTable.ret.
  cbn. destruct (Header.pack _); reflexivity.
Qed.

Lemma write_header_inv (now : Z) (s s' : BinTable.t) :
  BinTable._write_header now s = (inr tt, s') ->
  exists b, Header.pack (Header.set_updated_at now (BinTable.h s)) = inr b
    /\ length b = 128%nat
    /\ s' = BinTable.set_f (pwrite (BinTable.f s) 0 b)
              (BinTable.set_h (Header.set_updated_at now (BinTable.h s)) s).
Proof.
  rewrite write_header_run. cbv zeta.
  destruct (Header.pack _) as [e|b] eqn:Hb; [discriminate|].
  intros H0; inv_pair H0. exists b. repeat split.
  now apply length_header_pack in Hb.
Qed.

Lemma records_count_run (s : BinTable.t) :
  snd (BinTable._records_count s) = s.
Proof.
  unfold BinTable._records_count.
  destruct (_ <=? 0); [reflexivity|]. now destruct (_ =? 0).
Qed.

Lemma records_count_nonneg (s s' : BinTable.t) (i : Z) :
  0 <= BinTable.rsize s ->
  BinTable._records_count s = (inr i, s') -> 0 <= i /\ s' = s.
Proof.
  intros Hr. unfold BinTable._records_count.
  destruct (Z.leb_spec
              (Z.of_nat (length (BinTable.f s))
               - BinTable._records_region_ofs s) 0).
  - intros H0; inv_pair H0. split; [lia|reflexivity].
  - destruct (Z.eqb_spec (BinTable.rsize s) 0); [discriminate|].
    intros H0; inv_pair H0. split; [|reflexivity].
    apply Z.div_pos; lia.
Qed.

(** [_alloc_rec_index] either pops the head of the free list, reading the
    next head in the popped record, or takes the number of records. *)
Lemma alloc_inv (s s' : BinTable.t) (i : Z) :
  BinTable._alloc_rec_index s = (inr i, s') ->
  (Header.free_head (BinTable.h s) = -1
   /\ BinTable._records_count s = (inr i, s'))
  \/ (Header.free_head (BinTable.h s) <> -1
      /\ i = Header.free_head (BinTable.h s)
      /\ 0 <= BinTable._record_ofs s i + BinTable.pad_off s
      /\ exists b,
           b = pread (BinTable.f s)
                 (BinTable._record_ofs s i + BinTable.pad_off s) 4
           /\ length b = 4%nat
           /\ s' = BinTable.set_h
                     (Header.set_free_head (unpack_int E b) (BinTable.h s))
                     s).
Proof.
  unfold BinTable._alloc_rec_index.
  unfold BinTable.bind at 1. cbn [BinTable.get].
  destruct (Z.eqb_spec (Header.free_head (BinTable.h s)) (-1)) as [Hfh|Hfh];
    cbn [negb].
  - intros H. left. auto.
  - intros H. right. split; [exact Hfh|].
    unfold BinTable.bind at 1 in H. cbn [BinTable.get] in H.
    bind_ok H. apply seek_read_inv in Hstep as (Hofs & -> & ->).
    destruct (Z.eqb_spec
                (Z.of_nat
                   (length
                      (pread (BinTable.f s)
                         (BinTable._record_ofs s
                            (Header.free_head (BinTable.h s))
                          + BinTable.pad_off s) 4))) 4) as [Hl|Hl];
      cbn [negb] in H; [|discriminate].
    unfold BinTable.bind, BinTable.modify_h, BinTable.ret in H.
    inv_pair H. repeat split; try assumption.
    eexists. repeat split. lia.
Qed.

Lemma alloc_file (s s' : BinTable.t) (r : result Z) :
  BinTable._alloc_rec_index s = (r, s') ->
  BinTable.f s' = BinTable.f s /\ nslots s' = nslots s
  /\ BinTable.rsize s' = BinTable.rsize s
  /\ BinTable.pad_off s' = BinTable.pad_off s
  /\ Header.active_count (BinTable.h s') = Header.active_count (BinTable.h s).
Proof.
  unfold BinTable._alloc_rec_index, BinTable.bind, BinTable.get,
    BinTable.seek_read, BinTable.raise, BinTable.modify_h, BinTable.ret.
  destruct (negb _).
  - destruct (_ <? 0); [intros H; inv_pair H; auto|].
    destruct (4 <? -1); [intros H; inv_pair H; auto|].
    destruct (negb _); intros H; inv_pair H; auto.
  - pose proof (records_count_run s) as Hs.
    destruct (BinTable._records_count s) as [r0 s0]. cbn in Hs. subst s0.
    intros H; inv_pair H. auto.
Qed.

(** ** What a probe has seen when it returns *)

Section ProbeFacts.

Variable rd : Z -> result IndexSlot.t.
Variable n : Z.
Hypothesis n_pos : 0 < n.

Lemma probe_find_some (key start : Z) (fuel : nat) (i j : Z)
    (sl : IndexSlot.t) :
  probe_find rd n key start fuel i = inr (Some (j, sl)) ->
  exists d, i <= d < i + Z.of_nat fuel
    /\ j = (start + d) mod n /\ rd j = inr sl
    /\ IndexSlot.key sl = key /\ key <> 0
    /\ passed rd n key start i d.
Proof.
  revert i. induction fuel as [|fuel IH]; intros i; [discriminate|].
  cbn [probe_find].
  destruct (rd ((start + i) mod n)) as [e|sl0] eqn:Hrd; [discriminate|].
  cbn [bindR].
  destruct (Z.eqb_spec (IndexSlot.key sl0) 0) as [H0|H0]; [discriminate|].
  destruct (Z.eqb_spec (IndexSlot.key sl0) key) as [Hk|Hk].
  - intros H; apply inr_inj in H. inversion H; subst.
    exists i. repeat split; try lia; try assumption.
    intros d' Hd'. lia.
  - intros H. apply IH in H as (d & Hd & Hj & Hsl & Hkey & Hne & Hp).
    exists d. repeat split; try lia; try assumption.
    intros d' Hd'. destruct (Z.eq_dec d' i) as [->|Hne'].
    + eauto.
    + apply Hp. lia.
Qed.

Lemma probe_find_none (key start : Z) (fuel : nat) (i : Z) :
  probe_find rd n key start fuel i = inr None ->
  (exists d sl, i <= d < i + Z.of_nat fuel
     /\ rd ((start + d) mod n) = inr sl /\ IndexSlot.key sl = 0
     /\ passed rd n key start i d)
  \/ passed rd n key start i (i + Z.of_nat fuel).
Proof.
  revert i. induction fuel as [|fuel IH]; intros i.
  - intros _. right. intros d' Hd'. lia.
  - cbn [probe_find].
    destruct (rd ((start + i) mod n)) as [e|sl0] eqn:Hrd; [discriminate|].
    cbn [bindR].
    destruct (Z.eqb_spec (IndexSlot.key sl0) 0) as [H0|H0].
    + intros _. left. exists i, sl0. repeat split; try lia; try assumption.
      intros d' Hd'. lia.
    + destruct (Z.eqb_spec (IndexSlot.key sl0) key) as [Hk|Hk];
        [discriminate|].
      intros H. apply IH in H as [(d & sl & Hd & Hsl & Hz & Hp)|Hp].
      * left. exists d, sl. repeat split; try lia; try assumption.
        intros d' Hd'. destruct (Z.eq_dec d' i) as [->|Hne'];
          [eauto|apply Hp; lia].
      * right. intros d' Hd'. destruct (Z.eq_dec d' i) as [->|Hne'];
          [eauto|apply Hp; lia].
Qed.

(** A returning insert probe has met an empty slot at some distance [de],
    after slots that hold neither the key nor nothing; it returns that slot,
    the tombstone remembered before the call, or a tombstone met on the way. *)
Lemma probe_insert_some (key start : Z) (fuel : nat) (i first_tomb j : Z) :
  probe_insert rd n key start fuel i first_tomb = inr j ->
  key <> 0
  /\ exists de sle, i <= de < i + Z.of_nat fuel
       /\ rd ((start + de) mod n) = inr sle /\ IndexSlot.key sle = 0
       /\ passed rd n key start i de
       /\ ((first_tomb < 0 /\ j = (start + de) mod n
            /\ forall d', i <= d' < de ->
                 forall sl', rd ((start + d') mod n) = inr sl' ->
                   IndexSlot.key sl' <> TOMBSTONE_KEY)
           \/ (0 <= first_tomb /\ j = first_tomb)
           \/ (first_tomb < 0
               /\ exists dt slt, i <= dt < de /\ j = (start + dt) mod n
                    /\ rd j = inr slt
                    /\ IndexSlot.key slt = TOMBSTONE_KEY)).
Proof.
  revert i first_tomb. induction fuel as [|fuel IH]; intros i first_tomb;
    [discriminate|].
  cbn [probe_insert].
  destruct (rd ((start + i) mod n)) as [e|sl0] eqn:Hrd; [discriminate|].
  cbn [bindR].
  destruct (Z.eqb_spec (IndexSlot.key sl0) key) as [Hk|Hk]; [discriminate|].
  destruct (Z.eqb_spec (IndexSlot.key sl0) 0) as [H0|H0].
  - (* the empty slot *)
    replace (IndexSlot.key sl0 =? TOMBSTONE_KEY) with false
      by (rewrite H0; reflexivity).
    cbn [andb].
    intros H; apply inr_inj in H.
    split; [congruence|].
    exists i, sl0. repeat split; try lia; try assumption.
    { intros d' Hd'. lia. }
    destruct (Z.geb_spec first_tomb 0).
    + right. left. split; [lia|congruence].
    + left. repeat split; try lia; try congruence.
  - intros H. apply IH in H as (Hkey & de & sle & Hde & Hsle & Hz & Hp & Hj).
    split; [exact Hkey|].
    exists de, sle. repeat split; try lia; try assumption.
    { intros d' Hd'. destruct (Z.eq_dec d' i) as [->|Hne'];
        [eauto|apply Hp; lia]. }
    destruct (Z.eqb_spec (IndexSlot.key sl0) TOMBSTONE_KEY) as [Ht|Ht];
      destruct (Z.ltb_spec first_tomb 0) as [Hft|Hft]; cbn [andb] in Hj.
    + (* this slot is the first tombstone *)
      right. right. split; [exact Hft|].
      assert (Hm : 0 <= (start + i) mod n < n)
        by (apply Z.mod_pos_bound; lia).
      destruct Hj as [(Hneg & _)|[(_ & ->)|(Hneg & _)]]; try lia.
      exists i, sl0. repeat split; try lia; assumption.
    + destruct Hj as [(Hneg & _)|[Hj|(Hneg & _)]]; lia.
    + destruct Hj as [(_ & Hj & Hnt)|[(Hpos & _)|(_ & dt & slt & Hdt & Hj)]];
        try lia.
      * left. repeat split; try assumption.
        intros d' Hd' sl' Hsl'.
        destruct (Z.eq_dec d' i) as [->|Hne'].
        -- congruence.
        -- apply (Hnt d'); [lia|assumption].
      * right. right. split; [exact Hft|].
        exists dt, slt. destruct Hj as (Hj1 & Hj2 & Hj3).
        repeat split; try lia; assumption.
    + destruct Hj as [(Hneg & _)|[Hj|(Hneg & _)]]; lia.
Qed.

(** With no empty slot in the index the insert probe returns no slot,
    tombstones or not. *)
Lemma probe_insert_full (key start : Z) (fuel : nat) (i first_tomb : Z) :
  (forall j sl, 0 <= j < n -> rd j = inr sl -> IndexSlot.key sl <> 0) ->
  forall j, probe_insert rd n key start fuel i first_tomb <> inr j.
Proof.
  intros Hfull j H.
  apply probe_insert_some in H as (_ & de & sle & _ & Hsle & Hz & _).
  apply (Hfull ((start + de) mod n) sle); try assumption.
  apply Z.mod_pos_bound; lia.
Qed.

End ProbeFacts.

(** ** The index invariant under an insert and under a tombstone *)

Section IndexInvariant.

Variable n : Z.
Hypothesis n_pos : 0 < n.

Lemma mod_in_range (x : Z) : 0 <= x mod n < n.
Proof.
  apply Z.mod_pos_bound. exact n_pos.
Qed.

(** A key for which the insert probe returns a slot is in no live slot. *)
Lemma probe_insert_key_absent (rd : Z -> result IndexSlot.t) (key de : Z)
    (sle : IndexSlot.t) :
  idx_chains rd n ->
  0 <= de -> rd ((key mod n + de) mod n) = inr sle -> IndexSlot.key sle = 0 ->
  passed rd n key (key mod n) 0 de ->
  forall j' sl', 0 <= j' < n -> rd j' = inr sl' ->
    IndexSlot.key sl' = key -> live_key key -> False.
Proof.
  intros Hch Hde Hsle Hz Hp j' sl' Hj' Hsl' Hk Hlive.
  destruct (Hch j' sl' Hj' Hsl') as (d & Hd & Hpos & Hne).
  { now rewrite Hk. }
  rewrite Hk in Hpos, Hne.
  destruct (Z.lt_ge_cases d de) as [Hlt|Hge].
  - destruct (Hp d) as (sl1 & Hsl1 & _ & Hneq); [lia|].
    rewrite Hpos, Hsl' in Hsl1. apply inr_inj in Hsl1. subst sl1. auto.
  - destruct (Hne de) as (sl1 & Hsl1 & Hnz); [lia|].
    rewrite Hsle in Hsl1. apply inr_inj in Hsl1. subst sl1. auto.
Qed.

Lemma idx_insert_preserves (rd rd' : Z -> result IndexSlot.t)
    (key j : Z) (v : IndexSlot.t) :
  probe_insert rd n key (key mod n) (Z.to_nat n) 0 (-1) = inr j ->
  (forall j', 0 <= j' < n -> rd' j' = if j' =? j then inr v else rd j') ->
  IndexSlot.key v = key ->
  idx_unique rd n -> idx_chains rd n ->
  0 <= j < n /\ idx_unique rd' n /\ idx_chains rd' n.
Proof.
  intros Hprobe Hrd' Hv Hun Hch.
  apply probe_insert_some in Hprobe
    as (Hkey & de & sle & Hde & Hsle & Hz & Hp & Hj); [|exact n_pos].
  (* the returned slot lies at a distance [dj <= de] *)
  assert (Hdj : exists dj, 0 <= dj <= de /\ j = (key mod n + dj) mod n).
  { destruct Hj as [(_ & Hj & _)|[(Hneg & _)|(_ & dt & slt & Hdt & Hj & _)]].
    - exists de. split; [lia|exact Hj].
    - lia.
    - exists dt. split; [lia|exact Hj]. }
  destruct Hdj as (dj & Hdj & Hjeq).
  assert (Hjr : 0 <= j < n) by (rewrite Hjeq; apply mod_in_range).
  assert (Habsent := probe_insert_key_absent rd key de sle Hch
                       ltac:(lia) Hsle Hz Hp).
  split; [exact Hjr|]. split.
  - (* uniqueness *)
    intros j1 j2 sl1 sl2 Hj1 Hj2 H1 H2 Hlive Heq.
    rewrite Hrd' in H1, H2 by assumption.
    destruct (Z.eqb_spec j1 j) as [E1|E1], (Z.eqb_spec j2 j) as [E2|E2].
    + congruence.
    + apply inr_inj in H1. subst sl1. exfalso.
      apply (Habsent j2 sl2); try assumption; congruence.
    + apply inr_inj in H2. subst sl2. exfalso.
      apply (Habsent j1 sl1); try assumption; congruence.
    + eapply Hun; eassumption.
  - (* chains *)
    intros j' sl' Hj' Hsl' Hlive.
    rewrite Hrd' in Hsl' by assumption.
    destruct (Z.eqb_spec j' j) as [E|E].
    + apply inr_inj in Hsl'. subst sl' j'. rewrite Hv.
      exists dj. split; [lia|]. split; [symmetry; exact Hjeq|].
      intros d' Hd'. rewrite Hrd' by apply mod_in_range.
      destruct (Z.eqb_spec ((key mod n + d') mod n) j) as [E'|E'].
      * exists v. split; [reflexivity|]. now rewrite Hv.
      * destruct (Hp d') as (sl1 & Hsl1 & Hnz & _).
        { assert (d' <> dj) by congruence. lia. }
        eauto.
    + destruct (Hch j' sl' Hj' Hsl' Hlive) as (d & Hd & Hpos & Hne).
      exists d. split; [exact Hd|]. split; [exact Hpos|].
      intros d' Hd'. rewrite Hrd' by apply mod_in_range.
      destruct (Z.eqb_spec ((IndexSlot.key sl' mod n + d') mod n) j).
      * exists v. split; [reflexivity|]. now rewrite Hv.
      * now apply Hne.
Qed.

Lemma idx_tombstone_preserves (rd rd' : Z -> result IndexSlot.t) (j : Z) :
  (forall j', 0 <= j' < n ->
     rd' j' = if j' =? j then inr (IndexSlot.mk TOMBSTONE_KEY 0) else rd j') ->
  idx_unique rd n -> idx_chains rd n ->
  idx_unique rd' n /\ idx_chains rd' n.
Proof.
  intros Hrd' Hun Hch. split.
  - intros j1 j2 sl1 sl2 Hj1 Hj2 H1 H2 Hlive Heq.
    rewrite Hrd' in H1, H2 by assumption.
    destruct (Z.eqb_spec j1 j) as [E1|E1].
    { apply inr_inj in H1. subst sl1. destruct Hlive as [_ Hl]. now elim Hl. }
    destruct (Z.eqb_spec j2 j) as [E2|E2].
    { apply inr_inj in H2. subst sl2. destruct Hlive as [_ Hl].
      rewrite Heq in Hl. now elim Hl. }
    eapply Hun; eassumption.
  - intros j' sl' Hj' Hsl' Hlive.
    rewrite Hrd' in Hsl' by assumption.
    destruct (Z.eqb_spec j' j) as [E|E].
    { apply inr_inj in Hsl'. subst sl'. destruct Hlive as [_ Hl]. now elim Hl. }
    destruct (Hch j' sl' Hj' Hsl' Hlive) as (d & Hd & Hpos & Hne).
    exists d. split; [exact Hd|]. split; [exact Hpos|].
    intros d' Hd'. rewrite Hrd' by apply mod_in_range.
    destruct (Z.eqb_spec ((IndexSlot.key sl' mod n + d') mod n) j).
    + eexists. split; [reflexivity|]. cbn. unfold TOMBSTONE_KEY. lia.
    + now apply Hne.
Qed.

End IndexInvariant.

(** ** A returning [add_record] and a returning [delete_record] *)

Lemma wf_transport (s s' : BinTable.t) :
  BinTable.f s' = BinTable.f s -> nslots s' = nslots s ->
  BinTable.pad_off s' = BinTable.pad_off s -> wf s -> wf s'.
Proof.
  unfold wf, BinTable._records_region_ofs. fold (nslots s) (nslots s').
  intros -> -> ->. auto.
Qed.

Lemma same_index_file (s s' : BinTable.t) :
  BinTable.f s' = BinTable.f s -> nslots s' = nslots s -> same_index s s'.
Proof.
  intros Hf Hn. split; [exact Hn|]. intros j _. now apply slot_at_file.
Qed.

Lemma probe_insert_range (rd : Z -> result IndexSlot.t) (n key start : Z)
    (fuel : nat) (i j : Z) :
  0 < n -> probe_insert rd n key start fuel i (-1) = inr j -> 0 <= j < n.
Proof.
  intros Hn H. apply probe_insert_some in H as (_ & de & _ & _ & _ & _ & _ & Hj);
    [|exact Hn].
  destruct Hj as [(_ & -> & _)|[(Hneg & _)|(_ & dt & _ & _ & -> & _)]];
    try lia; apply Z.mod_pos_bound; lia.
Qed.

Lemma insert_slot_range (s : BinTable.t) (key j : Z) :
  0 <= nslots s -> insert_slot s key = inr j -> 0 <= j < nslots s.
Proof.
  unfold insert_slot. intros Hn.
  destruct (Z.eqb_spec (nslots s) 0); [discriminate|].
  apply probe_insert_range. lia.
Qed.

Lemma record_ofs_above (s : BinTable.t) (i : Z) :
  0 <= i -> 0 <= BinTable.rsize s ->
  BinTable._records_region_ofs s <= BinTable._record_ofs s i.
Proof.
  intros Hi Hr. unfold BinTable._record_ofs. nia.
Qed.

(** A write of the header, counters changed or not. *)
Lemma write_header_index (now : Z) (s s' : BinTable.t) :
  wf s -> BinTable._write_header now s = (inr tt, s') ->
  wf s' /\ same_index s s'
  /\ BinTable.h s' = Header.set_updated_at now (BinTable.h s)
  /\ BinTable.rsize s' = BinTable.rsize s
  /\ BinTable.pad_off s' = BinTable.pad_off s.
Proof.
  intros Hwf H. apply write_header_inv in H as (b & Hb & Lb & ->).
  set (s1 := BinTable.set_h (Header.set_updated_at now (BinTable.h s)) s).
  assert (Hwf1 : wf s1) by (apply wf_set_h; [reflexivity|assumption]).
  assert (Hsi1 : same_index s s1) by (apply same_index_set_h; reflexivity).
  change (BinTable.f s) with (BinTable.f s1).
  split; [now apply wf_pwrite|].
  split; [|auto].
  eapply same_index_trans; [exact Hsi1|]. now apply same_index_pwrite_header.
Qed.

Lemma add_record_ok (now key : Z) (packed : bytes) (s s' : BinTable.t)
    (i : Z) :
  wf s -> BinTable.add_record now key packed s = (inr i, s') ->
  exists s1 j,
    BinTable._alloc_rec_index s = (inr i, s1)
    /\ 0 <= i /\ 0 <= key < 2 ^ 32
    /\ Z.of_nat (length packed) = BinTable.rsize s
    /\ insert_slot s key = inr j /\ 0 <= j < nslots s
    /\ wf s' /\ nslots s' = nslots s
    /\ BinTable.rsize s' = BinTable.rsize s
    /\ BinTable.pad_off s' = BinTable.pad_off s
    /\ (forall j', 0 <= j' < nslots s ->
          slot_at s' j'
          = if j' =? j then inr (IndexSlot.mk key i) else slot_at s j')
    /\ BinTable.h s'
       = Header.set_updated_at now
           (Header.set_active_count
              (Header.active_count (BinTable.h s1) + 1) (BinTable.h s1)).
Proof.
  intros Hwf H. unfold BinTable.add_record in H.
  bind_ok H. rename a into i0, s0 into s1, Hstep into Halloc.
  bind_ok H. rename s0 into s2, Hstep into Hraw. destruct a.
  bind_ok H. rename a into j, s0 into s2', Hstep into Hfind.
  bind_ok H. rename s0 into s3, Hstep into Hslot. destruct a.
  unfold BinTable.bind at 1 in H. cbn [BinTable.get] in H.
  unfold BinTable.bind at 1 in H. cbn [BinTable.modify_h] in H.
  bind_ok H. rename s0 into s5, Hstep into Hhdr. destruct a.
  unfold BinTable.bind, BinTable._sync, BinTable.ret in H. inv_pair H.
  (* allocation *)
  destruct (alloc_file _ _ _ Halloc) as (Hf1 & Hn1 & Hr1 & Hp1 & _).
  assert (Hwf1 : wf s1) by (eapply wf_transport; eassumption).
  assert (Hsi1 : same_index s s1) by now apply same_index_file.
  (* the record *)
  apply write_raw_inv in Hraw as (Hlen & Hofs & ->).
  (* the probe *)
  rewrite find_slot_for_insert_run in Hfind.
  injection Hfind as Hins <-.
  (* the slot *)
  apply write_slot_inv in Hslot as (bs & Hbs & Hjofs & ->).
  destruct (slot_unpack_pack _ _ Hbs) as (_ & _ & Hkr & Hir).
  cbn [IndexSlot.key IndexSlot.rec_index] in Hkr, Hir.
  set (s2 := BinTable.set_f
               (pwrite (BinTable.f s1) (BinTable._record_ofs s1 i) packed) s1)
    in *.
  assert (Hwf2 : wf s2) by now apply wf_pwrite.
  assert (Hsi2 : same_index s1 s2).
  { apply same_index_pwrite_above; [assumption|].
    apply record_ofs_above; lia. }
  assert (Hsi02 : same_index s s2) by (eapply same_index_trans; eassumption).
  rewrite (insert_slot_same_index _ _ _ Hsi02) in Hins.
  assert (Hj : 0 <= j < nslots s)
    by (apply (insert_slot_range s key); [apply Hwf|assumption]).
  set (s3 := BinTable.set_f
               (pwrite (BinTable.f s2) (BinTable._index_ofs j) bs) s2) in *.
  assert (Hwf3 : wf s3) by now apply wf_pwrite.
  set (s4 := BinTable.set_h _ s3) in Hhdr.
  assert (Hwf4 : wf s4) by (apply wf_set_h; [reflexivity|assumption]).
  destruct (write_header_index _ _ _ Hwf4 Hhdr) as (Hwf5 & Hsi5 & Hh5 & Hr5 & Hp5).
  exists s1, j. repeat split; try assumption; try lia.
  - apply Hwf5.
  - apply Hwf5.
  - apply Hwf5.
  - destruct Hsi5 as [-> _]. cbn. exact Hn1.
  - rewrite Hr5. cbn. exact Hr1.
  - rewrite Hp5. cbn. exact Hp1.
  - intros j' Hj'. destruct Hsi5 as [Hn5 Hrd5].
    rewrite Hrd5 by (unfold nslots in *; cbn; lia).
    transitivity (slot_at s3 j'); [now apply slot_at_file|].
    unfold s3. rewrite slot_at_pwrite_slot with (v := IndexSlot.mk key i)
      by (try assumption; destruct Hsi02 as [-> _]; assumption).
    destruct (j' =? j); [reflexivity|]. apply Hsi02. exact Hj'.
Qed.

Lemma find_slot_some (s : BinTable.t) (key j : Z) (sl : IndexSlot.t) :
  0 <= nslots s -> find_slot s key = inr (Some (j, sl)) ->
  0 <= j < nslots s /\ slot_at s j = inr sl /\ IndexSlot.key sl = key
  /\ key <> 0.
Proof.
  unfold find_slot. intros Hn.
  destruct (Z.eqb_spec (nslots s) 0); [discriminate|].
  assert (Hpos : 0 < nslots s) by lia.
  intros H.
  apply probe_find_some in H as (d & _ & -> & Hsl & Hk & Hnz & _).
  repeat split; try assumption; apply Z.mod_pos_bound; lia.
Qed.

Lemma read_raw_run (ri : Z) (s : BinTable.t) :
  BinTable._read_raw ri s
  = BinTable.seek_read (BinTable._record_ofs s ri) (BinTable.rsize s) s.
Proof.
  reflexivity.
Qed.

Lemma delete_record_ok (now key : Z) (s s' : BinTable.t) :
  wf s -> BinTable.delete_record now key s = (inr tt, s') ->
  exists j sl b,
    find_slot s key = inr (Some (j, sl))
    /\ 0 <= j < nslots s /\ slot_at s j = inr sl
    /\ IndexSlot.key sl = key /\ key <> 0
    /\ 0 <= IndexSlot.rec_index sl /\ 0 <= BinTable.rsize s
    /\ wf s' /\ nslots s' = nslots s
    /\ BinTable.rsize s' = BinTable.rsize s
    /\ BinTable.pad_off s' = BinTable.pad_off s
    /\ (forall j', 0 <= j' < nslots s ->
          slot_at s' j'
          = if j' =? j then inr (IndexSlot.mk TOMBSTONE_KEY 0)
            else slot_at s j')
    /\ Header.free_head (BinTable.h s') = IndexSlot.rec_index sl
    /\ pack_int E 4 (Header.free_head (BinTable.h s)) = inr b
    /\ pread (BinTable.f s')
         (BinTable._record_ofs s (IndexSlot.rec_index sl) + BinTable.pad_off s)
         4 = b
    /\ (BinTable.pad_off s + 4 <= BinTable.rsize s ->
        forall off n,
          0 <= n -> BinTable._records_region_ofs s <= off ->
          off + n <= BinTable._record_ofs s (IndexSlot.rec_index sl)
          \/ BinTable._record_ofs s (IndexSlot.rec_index sl)
             + BinTable.rsize s <= off ->
          pread (BinTable.f s') off n = pread (BinTable.f s) off n).
Proof.
  intros Hwf H. unfold BinTable.delete_record in H.
  bind_ok H. rename Hstep into Hlook.
  rewrite lookup_run in Hlook. injection Hlook as Hlook <-.
  destruct (find_slot s key) as [e|[[j sl]|]] eqn:Hfind;
    cbn [bindR option_map snd] in Hlook; try discriminate;
    apply inr_inj in Hlook; subst a; [|discriminate].
  set (ri := IndexSlot.rec_index sl) in *.
  destruct (find_slot_some s key j sl (proj1 Hwf) Hfind)
    as (Hj & Hsl & Hk & Hnz).
  assert (Hri : 0 <= ri) by (apply (slot_at_nonneg s j sl Hsl)).
  bind_ok H. rename a into raw, Hstep into Hread.
  rewrite read_raw_run in Hread.
  apply seek_read_inv in Hread as (Hofs & -> & Hraw).
  destruct raw as [|b0 rest]; [discriminate|].
  bind_ok H. destruct a. rename s0 into s1, Hstep into Hraww.
  apply write_raw_inv in Hraww as (Hlen & _ & ->).
  unfold BinTable.bind at 1 in H. cbn [BinTable.get] in H.
  bind_ok H. destruct a. rename s0 into s2, Hstep into Hnf.
  apply write_next_free_inv in Hnf as (b & Hb & Hnfofs & ->).
  unfold BinTable.bind at 1 in H. cbn [BinTable.modify_h] in H.
  bind_ok H. rename a into sj, s0 into s3, Hstep into Hsj.
  rewrite slot_of_key_run in Hsj. injection Hsj as Hsj <-.
  assert (Hrs : 0 <= BinTable.rsize s) by lia.
  (* the states so far have the index of [s] *)
  set (s1 := BinTable.set_f
               (pwrite (BinTable.f s) (BinTable._record_ofs s ri)
                  (x00 :: rest)) s) in *.
  assert (Hwf1 : wf s1) by now apply wf_pwrite.
  assert (Hsi1 : same_index s s1).
  { apply same_index_pwrite_above; [assumption|].
    now apply record_ofs_above. }
  set (s2 := BinTable.set_f
               (pwrite (BinTable.f s1)
                  (BinTable._record_ofs s1 ri + BinTable.pad_off s1) b) s1)
    in *.
  assert (Hwf2 : wf s2) by now apply wf_pwrite.
  assert (Hsi2 : same_index s1 s2).
  { apply same_index_pwrite_above; [assumption|].
    pose proof (record_ofs_above s1 ri Hri Hrs). destruct Hwf1 as (_ & _ & Hp).
    lia. }
  set (s3 := BinTable.set_h
               (Header.set_free_head ri (BinTable.h s2)) s2) in *.
  assert (Hwf3 : wf s3) by (apply wf_set_h; [reflexivity|assumption]).
  assert (Hsi3 : same_index s2 s3) by (apply same_index_set_h; reflexivity).
  assert (Hsi03 : same_index s s3).
  { eapply same_index_trans; [exact Hsi1|].
    eapply same_index_trans; eassumption. }
  rewrite (find_slot_same_index _ _ _ Hsi03), Hfind in Hsj.
  cbn [bindR option_map fst] in Hsj. apply inr_inj in Hsj. subst sj.
  bind_ok H. destruct a. rename s0 into s4, Hstep into Hslot.
  apply write_slot_inv in Hslot as (bt & Hbt & _ & ->).
  set (s4 := BinTable.set_f
               (pwrite (BinTable.f s3) (BinTable._index_ofs j) bt) s3) in *.
  assert (Hwf4 : wf s4) by now apply wf_pwrite.
  unfold BinTable.bind at 1 in H. cbn [BinTable.get] in H.
  unfold BinTable.bind at 1 in H. cbn [BinTable.modify_h] in H.
  unfold BinTable.bind at 1 in H. cbn [BinTable.get] in H.
  unfold BinTable.bind at 1 in H. cbn [BinTable.modify_h] in H.
  bind_ok H. destruct a. rename s0 into s6, Hstep into Hhdr.
  unfold BinTable._sync, BinTable.ret in H. inv_pair H.
  match type of Hhdr with
  | BinTable._write_header _ ?x = _ => set (s5 := x) in *
  end.
  assert (Hwf5 : wf s5).
  { unfold s5. apply wf_set_h; [reflexivity|].
    apply wf_set_h; [reflexivity|assumption]. }
  destruct (write_header_index _ _ _ Hwf5 Hhdr)
    as (Hwf6 & Hsi6 & Hh6 & Hr6 & Hp6).
  exists j, sl, b. repeat split; try assumption; try lia.
  - apply Hwf6.
  - apply Hwf6.
  - apply Hwf6.
  - destruct Hsi6 as [-> _]. reflexivity.
  - intros j' Hj'. destruct Hsi6 as [Hn6 Hrd6].
    rewrite Hrd6 by exact Hj'.
    transitivity (slot_at s4 j'); [now apply slot_at_file|].
    unfold s4.
    rewrite slot_at_pwrite_slot with (v := IndexSlot.mk TOMBSTONE_KEY 0)
      by (try assumption; destruct Hsi03 as [-> _]; assumption).
    destruct (j' =? j); [reflexivity|]. apply Hsi03. exact Hj'.
  - rewrite Hh6. reflexivity.
  - (* the pointer written in the record is still there *)
    apply write_header_inv in Hhdr as (bh & Hbh & Lbh & ->).
    cbn [BinTable.f BinTable.set_f BinTable.set_h].
    fold ri.
    change (BinTable.f s5)
      with (pwrite
              (pwrite
                 (pwrite (BinTable.f s) (BinTable._record_ofs s ri)
                    (x00 :: rest))
                 (BinTable._record_ofs s ri + BinTable.pad_off s) b)
              (BinTable._index_ofs j) bt).
    pose proof (record_ofs_above s ri Hri Hrs) as Habove.
    destruct Hwf as (Hn & Hlenf & Hpad).
    unfold BinTable._records_region_ofs in Habove. fold (nslots s) in Habove.
    apply slot_unpack_pack in Hbt as (Lbt & _).
    rewrite pread_pwrite_above
      by (unfold HEADER_SIZE, INDEX_SLOT_SIZE in *; lia).
    rewrite pread_pwrite_above
      by (unfold BinTable._index_ofs, HEADER_SIZE, INDEX_SLOT_SIZE in *; lia).
    apply pack_int4_inv in Hb as (_ & Lb & _).
    change 4 with (Z.of_nat 4). rewrite <- Lb.
    apply pread_pwrite_same.
  - (* the other records are not touched *)
    intros Hfit off n Hn0 Hoff Hout.
    apply write_header_inv in Hhdr as (bh & Hbh & Lbh & ->).
    cbn [BinTable.f BinTable.set_f BinTable.set_h].
    fold ri in Hout.
    change (BinTable.f s5)
      with (pwrite
              (pwrite
                 (pwrite (BinTable.f s) (BinTable._record_ofs s ri)
                    (x00 :: rest))
                 (BinTable._record_ofs s ri + BinTable.pad_off s) b)
              (BinTable._index_ofs j) bt).
    pose proof (record_ofs_above s ri Hri Hrs) as Habove.
    destruct Hwf as (Hn & Hlenf & Hpad).
    unfold BinTable._records_region_ofs in *. fold (nslots s) in *.
    apply slot_unpack_pack in Hbt as (Lbt & _).
    apply pack_int4_inv in Hb as (_ & Lb & _).
    rewrite pread_pwrite_above
      by (unfold HEADER_SIZE, INDEX_SLOT_SIZE in *; lia).
    rewrite pread_pwrite_above
      by (unfold BinTable._index_ofs, HEADER_SIZE, INDEX_SLOT_SIZE in *; lia).
    assert (Hrec : BinTable._record_ofs s ri + BinTable.rsize s
                   <= Z.of_nat (length (BinTable.f s))).
    { apply (f_equal (@length byte)) in Hraw. revert Hraw.
      unfold pread.
      destruct (Z.ltb_spec (BinTable.rsize s) 0) as [Hneg|Hnn];
        [exfalso; clear - Hneg Hrs; lia|].
      rewrite length_firstn, length_skipn. cbn [length] in *.
      intros Hm. clear - Hm Hlen Hofs. lia. }
    destruct Hout as [Hbelow|Habove'].
    + pose proof (length_pwrite_ge (BinTable.f s)
                    (BinTable._record_ofs s ri) (x00 :: rest)) as Hge.
      unfold HEADER_SIZE, INDEX_SLOT_SIZE in *.
      rewrite pread_pwrite_below by (clear - Hoff Hn Hn0 Hbelow Hpad Hrec Hge Hofs Hrs; lia).
      apply pread_pwrite_below; clear - Hoff Hn Hn0 Hbelow Hpad Hrec Hofs Hrs; lia.
    + unfold HEADER_SIZE, INDEX_SLOT_SIZE in *.
      rewrite pread_pwrite_above
        by (clear - Habove' Hfit Lb Hofs Hpad; lia).
      apply pread_pwrite_above; [exact Hofs|].
      clear - Habove' Hlen. lia.
Qed.

(** ** A freshly created table *)

Lemma skipn_repeat {A : Type} (x : A) (m k : nat) :
  skipn m (repeat x k) = repeat x (k - m).
Proof.
  revert m. induction k as [|k IH]; intros m.
  - now rewrite skipn_nil.
  - destruct m as [|m]; [reflexivity|]. cbn [repeat skipn]. apply IH.
Qed.

Lemma firstn_repeat_le {A : Type} (x : A) (m k : nat) :
  (m <= k)%nat -> firstn m (repeat x k) = repeat x m.
Proof.
  revert m. induction k as [|k IH]; intros m Hm.
  - now replace m with 0%nat by lia.
  - destruct m as [|m]; [reflexivity|]. cbn [repeat firstn]. f_equal.
    apply IH. lia.
Qed.

Lemma empty_slot_pack :
  IndexSlot.pack (IndexSlot.mk 0 0) = inr (repeat x00 16).
Proof.
  reflexivity.
Qed.

Lemma write_empty_slots_eq (k : nat) (fl : file) :
  BinTable.write_empty_slots k fl = inr (fl ++ repeat x00 (16 * k)).
Proof.
  revert fl. induction k as [|k IH]; intros fl.
  - cbn. now rewrite app_nil_r.
  - cbn [BinTable.write_empty_slots]. rewrite empty_slot_pack.
    cbn [bindR]. rewrite IH, <- app_assoc, <- repeat_app.
    do 3 f_equal. lia.
Qed.

Lemma pwrite_nil (b : bytes) : pwrite [] 0 b = b.
Proof.
  unfold pwrite. cbn. now rewrite skipn_nil, app_nil_r.
Qed.

Lemma open_new (now : Z) (magic : bytes) (rsize slots pad_off : Z)
    (s : BinTable.t) :
  0 <= pad_off ->
  BinTable.open now magic rsize slots pad_off None = inr s ->
  wf s /\ nslots s = slots
  /\ BinTable.h s = Header.new now magic rsize slots
  /\ BinTable.rsize s = rsize /\ BinTable.pad_off s = pad_off
  /\ forall j, 0 <= j < slots -> slot_at s j = inr (IndexSlot.mk 0 0).
Proof.
  intros Hpad. unfold BinTable.open.
  destruct (Header.pack (Header.new now magic rsize slots)) as [e|b] eqn:Hb;
    [discriminate|].
  cbn [bindR]. rewrite write_empty_slots_eq, pwrite_nil. cbn [bindR].
  intros H; apply inr_inj in H; subst s.
  pose proof (length_header_pack _ _ _ Hb) as Lb.
  assert (Hslots : 0 <= slots).
  { unfold Header.pack, Header.pack_with in Hb. cbn in Hb.
    destruct (pack_uint E 2 rsize); [discriminate|].
    destruct (pack_uint E 4 now); [discriminate|].
    cbn [bindR] in Hb.
    destruct (pack_uint E 4 slots) eqn:Es; [discriminate|].
    apply pack_uint_inv in Es. lia. }
  assert (Hlen : Z.of_nat (length (b ++ repeat x00 (16 * Z.to_nat slots)))
                 = 128 + 16 * slots).
  { rewrite length_app, repeat_length, Lb. lia. }
  split.
  { unfold wf, nslots, BinTable._records_region_ofs. cbn [BinTable.h
      BinTable.f BinTable.pad_off Header.index_slots Header.new].
    rewrite Hlen. unfold HEADER_SIZE, INDEX_SLOT_SIZE. lia. }
  repeat split.
  intros j Hj. rewrite slot_at_eq by lia. cbn [BinTable.f].
  unfold pread, BinTable._index_ofs, HEADER_SIZE, INDEX_SLOT_SIZE.
  change (16 <? 0) with false. cbv iota.
  rewrite skipn_app, skipn_all2 by lia. cbn [app].
  rewrite skipn_repeat, firstn_repeat_le by lia.
  reflexivity.
Qed.

(** ** The index invariant holds in every reachable state *)

Lemma add_record_invariant (now key : Z) (packed : bytes)
    (s s' : BinTable.t) (i : Z) :
  wf s -> unique_live_keys s -> chains_unbroken s ->
  BinTable.add_record now key packed s = (inr i, s') ->
  wf s' /\ unique_live_keys s' /\ chains_unbroken s'.
Proof.
  intros Hwf Hun Hch H.
  apply add_record_ok in H
    as (s1 & j & _ & _ & _ & _ & Hins & Hj & Hwf' & Hn' & _ & _ & Hrd & _);
    [|exact Hwf].
  split; [exact Hwf'|].
  unfold unique_live_keys, chains_unbroken. rewrite Hn'.
  unfold insert_slot in Hins.
  destruct (Z.eqb_spec (nslots s) 0); [discriminate|].
  eapply (idx_insert_preserves (nslots s) ltac:(lia)
            (slot_at s) (slot_at s') key j (IndexSlot.mk key i));
    eauto.
Qed.

Lemma delete_record_invariant (now key : Z) (s s' : BinTable.t) :
  wf s -> unique_live_keys s -> chains_unbroken s ->
  BinTable.delete_record now key s = (inr tt, s') ->
  wf s' /\ unique_live_keys s' /\ chains_unbroken s'.
Proof.
  intros Hwf Hun Hch H.
  apply delete_record_ok in H
    as (j & sl & b & _ & Hj & _ & _ & _ & _ & _ & Hwf' & Hn' & _ & _ & Hrd & _);
    [|exact Hwf].
  split; [exact Hwf'|].
  unfold unique_live_keys, chains_unbroken. rewrite Hn'.
  eapply (idx_tombstone_preserves (nslots s) ltac:(lia)
            (slot_at s) (slot_at s') j); eauto.
Qed.

Lemma reachable_invariant (s : BinTable.t) :
  reachable s -> wf s /\ unique_live_keys s /\ chains_unbroken s.
Proof.
  induction 1 as [now magic rsize slots pad_off s Hpad Hopen
                 | s now key packed i s' _ IH Hadd
                 | s now key s' _ IH Hdel].
  - apply open_new in Hopen as (Hwf & Hn & _ & _ & _ & Hrd); [|exact Hpad].
    split; [exact Hwf|]. split.
    + intros j1 j2 sl1 sl2 Hj1 _ H1 _ [Hl _] _.
      rewrite Hn in Hj1. rewrite Hrd in H1 by exact Hj1.
      apply inr_inj in H1. subst sl1. now elim Hl.
    + intros j sl Hj H1 [Hl _].
      rewrite Hn in Hj. rewrite Hrd in H1 by exact Hj.
      apply inr_inj in H1. subst sl. now elim Hl.
  - destruct IH as (Hwf & Hun & Hch). eapply add_record_invariant; eassumption.
  - destruct IH as (Hwf & Hun & Hch).
    eapply delete_record_invariant; eassumption.
Qed.

(** ** A failing [add_record] *)

Lemma seek_read_error (off n : Z) (s s' : BinTable.t) (e : exn) :
  BinTable.seek_read off n s = (inl e, s') -> e = OSError \/ e = ValueError.
Proof.
  unfold BinTable.seek_read.
  destruct (_ <? 0); [intros [= <- _]; auto|].
  destruct (_ <? -1); [intros [= <- _]; auto|discriminate].
Qed.

Lemma alloc_not_index_error (s s' : BinTable.t) (e : exn) :
  BinTable._alloc_rec_index s = (inl e, s') -> ~ index_error e.
Proof.
  unfold BinTable._alloc_rec_index.
  unfold BinTable.bind at 1. cbn [BinTable.get].
  destruct (negb _).
  - unfold BinTable.bind at 1. cbn [BinTable.get].
    intros H. apply bind_inv in H as [(e0 & H & [= ->])|(b & s1 & _ & H)].
    + destruct (seek_read_error _ _ _ _ _ H) as [-> | ->];
        intros [He|He]; discriminate.
    + destruct (negb _).
      * injection H as <- _. intros [He|He]; discriminate.
      * unfold BinTable.bind, BinTable.modify_h, BinTable.ret in H.
        discriminate.
  - unfold BinTable._records_count.
    destruct (_ <=? 0); [discriminate|].
    destruct (_ =? 0); [|discriminate].
    intros [= <- _] [He|He]; discriminate.
Qed.

Lemma write_raw_not_index_error (i : Z) (data : bytes) (s s' : BinTable.t)
    (e : exn) :
  BinTable._write_raw i data s = (inl e, s') -> ~ index_error e.
Proof.
  rewrite write_raw_run.
  intros H [He|He]; subst e;
    repeat match type of H with
    | (if ?c then _ else _) = _ => destruct c
    end; discriminate.
Qed.

Lemma pack_uint_error (o : byteorder) (w : nat) (v : Z) (e : exn) :
  pack_uint o w v = inl e -> e = StructError.
Proof.
  unfold pack_uint. destruct (_ && _); [discriminate|]. now intros [= <-].
Qed.

Lemma slot_pack_error (v : IndexSlot.t) (e : exn) :
  IndexSlot.pack v = inl e -> e = StructError.
Proof.
  unfold IndexSlot.pack.
  destruct (pack_uint E 4 (IndexSlot.key v)) eqn:E1;
    [intros [= <-]; now apply pack_uint_error in E1|].
  destruct (pack_uint E 4 (IndexSlot.rec_index v)) eqn:E2;
    [intros [= <-]; now apply pack_uint_error in E2|].
  discriminate.
Qed.

Lemma header_pack_error (hd : Header.t) (e : exn) :
  Header.pack hd = inl e -> e = StructError.
Proof.
  unfold Header.pack, Header.pack_with, pack_uint, pack_int.
  repeat match goal with
  | |- context [if ?c then inr _ else inl StructError] => destruct c
  end; cbn [bindR]; try discriminate; now intros [= <-].
Qed.

Lemma write_slot_not_index_error (j : Z) (v : IndexSlot.t)
    (s s' : BinTable.t) (e : exn) :
  BinTable._write_slot j v s = (inl e, s') -> ~ index_error e.
Proof.
  unfold BinTable._write_slot, BinTable.seek_write.
  destruct (_ <? 0).
  - intros [= <- _] [He|He]; discriminate.
  - destruct (IndexSlot.pack v) eqn:Hp; [|discriminate].
    apply slot_pack_error in Hp. subst.
    intros [= <- _] [He|He]; discriminate.
Qed.

Lemma write_header_not_index_error (now : Z) (s s' : BinTable.t) (e : exn) :
  BinTable._write_header now s = (inl e, s') -> ~ index_error e.
Proof.
  rewrite write_header_run. cbv zeta.
  destruct (Header.pack _) eqn:Hp; [|discriminate].
  apply header_pack_error in Hp. subst.
  intros [= <- _] [He|He]; discriminate.
Qed.

Lemma alloc_nonneg (s s' : BinTable.t) (i : Z) :
  -1 <= Header.free_head (BinTable.h s) -> 0 <= BinTable.rsize s ->
  BinTable._alloc_rec_index s = (inr i, s') -> 0 <= i.
Proof.
  intros Hfh Hr H. apply alloc_inv in H as [(_ & H)|(Hne & -> & _)]; [|lia].
  now apply records_count_nonneg in H.
Qed.

(** An [add_record] that raises one of the two errors of the insert probe:
    the record has been allocated and written, and nothing else is done. *)
Lemma add_record_index_error (now key : Z) (packed : bytes)
    (s s' : BinTable.t) (e : exn) :
  BinTable.add_record now key packed s = (inl e, s') -> index_error e ->
  exists i s1,
    BinTable._alloc_rec_index s = (inr i, s1)
    /\ Z.of_nat (length packed) = BinTable.rsize s
    /\ 0 <= BinTable._record_ofs s1 i
    /\ s' = BinTable.set_f
              (pwrite (BinTable.f s1) (BinTable._record_ofs s1 i) packed) s1
    /\ insert_slot s' key = inl e.
Proof.
  intros H He. unfold BinTable.add_record in H.
  apply bind_inv in H as [(e0 & H & [= ->])|(i & s1 & Halloc & H)].
  { now apply alloc_not_index_error in H. }
  apply bind_inv in H as [(e0 & H & [= ->])|([] & s2 & Hraw & H)].
  { now apply write_raw_not_index_error in H. }
  destruct (alloc_file _ _ _ Halloc) as (_ & _ & Hr1 & _).
  apply write_raw_inv in Hraw as (Hlen & Hofs & ->).
  apply bind_inv in H as [(e0 & H & [= ->])|(j & s3 & Hfind & H)].
  - rewrite find_slot_for_insert_run in H. injection H as H <-.
    exists i, s1. repeat split; try assumption. congruence.
  - exfalso.
    apply bind_inv in H as [(e0 & H & [= ->])|([] & s4 & Hslot & H)].
    { now apply write_slot_not_index_error in H. }
    unfold BinTable.bind at 1 in H. cbn [BinTable.get] in H.
    unfold BinTable.bind at 1 in H. cbn [BinTable.modify_h] in H.
    apply bind_inv in H as [(e0 & H & [= ->])|([] & s5 & Hhdr & H)].
    { now apply write_header_not_index_error in H. }
    unfold BinTable.bind, BinTable._sync, BinTable.ret in H. discriminate.
Qed.

(** ** The record space and the free list *)

Lemma pread_pwrite_disjoint (fl : file) (off : Z) (data : bytes)
    (off2 n : Z) :
  0 <= off -> 0 <= off2 -> 0 <= n -> off2 + n <= Z.of_nat (length fl) ->
  off + Z.of_nat (length data) <= off2 \/ off2 + n <= off ->
  pread (pwrite fl off data) off2 n = pread fl off2 n.
Proof.
  intros Hoff Hoff2 Hn Hlen [Habove|Hbelow].
  - now apply pread_pwrite_above.
  - now apply pread_pwrite_below.
Qed.

Lemma record_inside (s : BinTable.t) (r : Z) :
  wf s -> 0 < BinTable.rsize s -> 0 <= r < rec_count s ->
  BinTable._records_region_ofs s <= BinTable._record_ofs s r
  /\ BinTable._record_ofs s r + BinTable.rsize s
     <= Z.of_nat (length (BinTable.f s)).
Proof.
  intros (_ & Hlen & _) Hrs Hr. unfold rec_count in Hr.
  unfold BinTable._record_ofs.
  set (P := Z.of_nat (length (BinTable.f s))
            - BinTable._records_region_ofs s) in *.
  pose proof (Z.mul_div_le P (BinTable.rsize s) Hrs) as Hdiv.
  split; [nia|].
  assert (BinTable.rsize s * (r + 1) <= BinTable.rsize s * (P / BinTable.rsize s))
    by (apply Z.mul_le_mono_nonneg_l; lia).
  unfold P in *. lia.
Qed.

Lemma records_count_eq (s : BinTable.t) :
  wf s -> 0 < BinTable.rsize s ->
  BinTable._records_count s = (inr (rec_count s), s).
Proof.
  intros (_ & Hlen & _) Hrs. unfold BinTable._records_count, rec_count.
  cbv zeta.
  destruct (Z.leb_spec
              (Z.of_nat (length (BinTable.f s))
               - BinTable._records_region_ofs s) 0) as [Hle|Hgt].
  - replace (Z.of_nat (length (BinTable.f s))
             - BinTable._records_region_ofs s) with 0 by lia.
    now rewrite Z.div_0_l by lia.
  - destruct (Z.eqb_spec (BinTable.rsize s) 0); [lia|reflexivity].
Qed.

Lemma rec_count_nonneg (s : BinTable.t) :
  wf s -> 0 < BinTable.rsize s -> 0 <= rec_count s.
Proof.
  intros (_ & Hlen & _) Hrs. unfold rec_count. apply Z.div_pos; lia.
Qed.

Lemma same_layout_refl (s : BinTable.t) : same_layout s s.
Proof.
  repeat split.
Qed.

Lemma same_layout_trans (s1 s2 s3 : BinTable.t) :
  same_layout s1 s2 -> same_layout s2 s3 -> same_layout s1 s3.
Proof.
  intros (Hn & Hr & Hp) (Hn' & Hr' & Hp'). repeat split; congruence.
Qed.

Lemma record_ofs_layout (s s' : BinTable.t) (r : Z) :
  same_layout s s' -> BinTable._record_ofs s' r = BinTable._record_ofs s r.
Proof.
  intros (Hn & Hr & _).
  unfold BinTable._record_ofs, BinTable._records_region_ofs.
  fold (nslots s) (nslots s'). now rewrite Hn, Hr.
Qed.

Lemma rec_count_mono (s s' : BinTable.t) :
  same_layout s s' -> 0 < BinTable.rsize s ->
  (length (BinTable.f s) <= length (BinTable.f s'))%nat ->
  rec_count s <= rec_count s'.
Proof.
  intros (Hn & Hr & _) Hrs Hlen. unfold rec_count.
  unfold BinTable._records_region_ofs. fold (nslots s) (nslots s').
  rewrite Hn, Hr. apply Z.div_le_mono; lia.
Qed.

Lemma rec_frame_refl (s : BinTable.t) (i : Z) : rec_frame s s i.
Proof.
  split; [apply same_layout_refl|]. split; [lia|reflexivity].
Qed.

Lemma rec_frame_trans (s1 s2 s3 : BinTable.t) (i : Z) :
  0 < BinTable.rsize s1 ->
  rec_frame s1 s2 i -> rec_frame s2 s3 i -> rec_frame s1 s3 i.
Proof.
  intros Hrs (Hl & Hlen & Hnf) (Hl' & Hlen' & Hnf').
  split; [eapply same_layout_trans; eassumption|]. split; [lia|].
  intros r Hr Hne. rewrite Hnf' by
    (try assumption;
     pose proof (rec_count_mono s1 s2 Hl Hrs Hlen); lia).
  now apply Hnf.
Qed.

(** The frame of a change of the cached header. *)
Lemma rec_frame_set_h (s : BinTable.t) (hd : Header.t) (i : Z) :
  Header.index_slots hd = nslots s ->
  rec_frame s (BinTable.set_h hd s) i.
Proof.
  intros Hn. split; [repeat split; exact Hn|]. split; [cbn; lia|].
  intros r _ _. unfold next_free, BinTable._record_ofs,
    BinTable._records_region_ofs. cbn. fold (nslots s). now rewrite Hn.
Qed.

(** The frame of a write: the layout is kept and the file is not shorter;
    the links that the write leaves alone are to be shown. *)
Lemma rec_frame_pwrite (s : BinTable.t) (off : Z) (d : bytes) (i : Z) :
  wf s -> 0 < BinTable.rsize s ->
  BinTable.pad_off s + 4 <= BinTable.rsize s -> 0 <= off ->
  (forall r, 0 <= r < rec_count s -> r <> i ->
     off + Z.of_nat (length d)
     <= BinTable._record_ofs s r + BinTable.pad_off s
     \/ BinTable._record_ofs s r + BinTable.pad_off s + 4 <= off) ->
  rec_frame s (BinTable.set_f (pwrite (BinTable.f s) off d) s) i.
Proof.
  intros Hwf Hrs Hpad Hoff Hdis.
  split; [repeat split|].
  split; [cbn; apply length_pwrite_ge|].
  intros r Hr Hne. unfold next_free.
  change (BinTable._record_ofs (BinTable.set_f _ s) r)
    with (BinTable._record_ofs s r).
  cbn [BinTable.f BinTable.set_f BinTable.pad_off].
  destruct (record_inside s r Hwf Hrs Hr) as (Hlo & Hhi).
  destruct Hwf as (Hn & Hlen & Hp).
  assert (0 <= BinTable._records_region_ofs s).
  { unfold BinTable._records_region_ofs, HEADER_SIZE, INDEX_SLOT_SIZE.
    fold (nslots s). lia. }
  f_equal. apply pread_pwrite_disjoint; try lia.
  specialize (Hdis r Hr Hne). lia.
Qed.

(** A free list survives the steps that leave its records alone. *)
Lemma free_chain_frame (s s' : BinTable.t) (i hd : Z) (l : list Z) :
  0 < BinTable.rsize s -> rec_frame s s' i -> ~ In i l ->
  free_chain s hd l -> free_chain s' hd l.
Proof.
  intros Hrs Hfr. pose proof Hfr as (Hl & Hlen & Hnf).
  pose proof (rec_count_mono s s' Hl Hrs Hlen) as Hmono.
  revert hd. induction l as [|r l IH]; intros hd Hnot; [auto|].
  cbn [free_chain]. intros (-> & Hr & Hch).
  split; [reflexivity|]. split; [lia|].
  rewrite Hnf by (try assumption; intros ->; apply Hnot; now left).
  apply IH; [|exact Hch]. intros Hin. apply Hnot. now right.
Qed.

Lemma free_chain_bound (s : BinTable.t) (hd : Z) (l : list Z) (r : Z) :
  free_chain s hd l -> In r l -> 0 <= r < rec_count s.
Proof.
  revert hd. induction l as [|r0 l IH]; intros hd; [intros _ []|].
  cbn [free_chain]. intros (_ & Hr & Hch) [<- |Hin]; [exact Hr|].
  now apply (IH _ Hch).
Qed.

Lemma referenced_same_index (s s' : BinTable.t) (r : Z) :
  same_index s s' -> referenced s' r -> referenced s r.
Proof.
  intros (Hn & Hrd) (j & sl & Hj & Hsl & Hlive & Hr).
  rewrite Hn in Hj. rewrite Hrd in Hsl by exact Hj.
  exists j, sl. auto.
Qed.

Lemma region_nonneg (s : BinTable.t) :
  wf s -> 128 <= BinTable._records_region_ofs s.
Proof.
  intros (Hn & _). unfold BinTable._records_region_ofs, HEADER_SIZE,
    INDEX_SLOT_SIZE. fold (nslots s). lia.
Qed.

(** Records do not overlap. *)
Lemma record_ofs_apart (s : BinTable.t) (r i : Z) :
  0 < BinTable.rsize s -> r <> i ->
  BinTable._record_ofs s r + BinTable.rsize s <= BinTable._record_ofs s i
  \/ BinTable._record_ofs s i + BinTable.rsize s <= BinTable._record_ofs s r.
Proof.
  intros Hrs Hne. unfold BinTable._record_ofs.
  destruct (Z.lt_ge_cases r i); [left|right]; nia.
Qed.

Lemma rec_frame_write_record (s : BinTable.t) (i : Z) (d : bytes) :
  wf s -> BinTable.pad_off s + 4 <= BinTable.rsize s -> 0 <= i ->
  Z.of_nat (length d) = BinTable.rsize s ->
  rec_frame s
    (BinTable.set_f (pwrite (BinTable.f s) (BinTable._record_ofs s i) d) s) i.
Proof.
  intros Hwf Hpad Hi Hd. pose proof Hwf as (_ & _ & Hp).
  assert (Hrs : 0 < BinTable.rsize s) by lia.
  pose proof (region_nonneg s Hwf).
  pose proof (record_ofs_above s i Hi ltac:(lia)).
  apply rec_frame_pwrite; try assumption; [lia|].
  intros r Hr Hne. destruct (record_ofs_apart s r i Hrs Hne); lia.
Qed.

Lemma rec_frame_write_link (s : BinTable.t) (i : Z) (b : bytes) :
  wf s -> BinTable.pad_off s + 4 <= BinTable.rsize s -> 0 <= i ->
  length b = 4%nat ->
  rec_frame s
    (BinTable.set_f
       (pwrite (BinTable.f s)
          (BinTable._record_ofs s i + BinTable.pad_off s) b) s) i.
Proof.
  intros Hwf Hpad Hi Hb. pose proof Hwf as (_ & _ & Hp).
  assert (Hrs : 0 < BinTable.rsize s) by lia.
  pose proof (region_nonneg s Hwf).
  pose proof (record_ofs_above s i Hi ltac:(lia)).
  apply rec_frame_pwrite; try assumption; [lia|].
  intros r Hr Hne. destruct (record_ofs_apart s r i Hrs Hne); lia.
Qed.

Lemma rec_frame_write_below (s : BinTable.t) (off : Z) (d : bytes) (i : Z) :
  wf s -> BinTable.pad_off s + 4 <= BinTable.rsize s -> 0 <= off ->
  off + Z.of_nat (length d) <= BinTable._records_region_ofs s ->
  rec_frame s (BinTable.set_f (pwrite (BinTable.f s) off d) s) i.
Proof.
  intros Hwf Hpad Hoff Hd. pose proof Hwf as (_ & _ & Hp).
  assert (Hrs : 0 < BinTable.rsize s) by lia.
  apply rec_frame_pwrite; try assumption.
  intros r Hr _. left.
  pose proof (record_ofs_above s r ltac:(lia) ltac:(lia)). lia.
Qed.

Lemma rec_frame_write_slot (s : BinTable.t) (j : Z) (b : bytes) (i : Z) :
  wf s -> BinTable.pad_off s + 4 <= BinTable.rsize s ->
  0 <= j < nslots s -> length b = 16%nat ->
  rec_frame s
    (BinTable.set_f (pwrite (BinTable.f s) (BinTable._index_ofs j) b) s) i.
Proof.
  intros Hwf Hpad Hj Hb.
  apply rec_frame_write_below; try assumption;
    unfold BinTable._index_ofs, BinTable._records_region_ofs, HEADER_SIZE,
      INDEX_SLOT_SIZE; fold (nslots s); lia.
Qed.

Lemma rec_frame_write_header (now : Z) (s s' : BinTable.t) (i : Z) :
  wf s -> BinTable.pad_off s + 4 <= BinTable.rsize s ->
  BinTable._write_header now s = (inr tt, s') ->
  rec_frame s s' i.
Proof.
  intros Hwf Hpad H. pose proof Hwf as (_ & _ & Hp).
  assert (Hrs : 0 < BinTable.rsize s) by lia.
  apply write_header_inv in H as (b & _ & Lb & ->).
  eapply rec_frame_trans; [exact Hrs| |].
  - apply (rec_frame_set_h s (Header.set_updated_at now (BinTable.h s)) i).
    reflexivity.
  - apply (rec_frame_write_below
             (BinTable.set_h (Header.set_updated_at now (BinTable.h s)) s)
             0 b i).
    + apply wf_set_h; [reflexivity|assumption].
    + exact Hpad.
    + lia.
    + pose proof (region_nonneg s Hwf) as Hreg. rewrite Lb.
      change (BinTable._records_region_ofs (BinTable.set_h _ s))
        with (BinTable._records_region_ofs s). lia.
Qed.

Lemma alloc_frame (s s1 : BinTable.t) (i i' : Z) :
  BinTable._alloc_rec_index s = (inr i, s1) -> rec_frame s s1 i'.
Proof.
  intros H. apply alloc_inv in H as [(_ & H)|(_ & _ & _ & b & _ & _ & ->)].
  - pose proof (records_count_run s) as Hs. rewrite H in Hs. cbn in Hs.
    subst s1. apply rec_frame_refl.
  - apply rec_frame_set_h. reflexivity.
Qed.

Lemma rec_frame_layout (s s' : BinTable.t) (i : Z) :
  rec_frame s s' i ->
  BinTable.rsize s' = BinTable.rsize s
  /\ BinTable.pad_off s' = BinTable.pad_off s
  /\ nslots s' = nslots s.
Proof.
  intros ((Hn & Hr & Hp) & _). auto.
Qed.

(** A returning [add_record] leaves the links of the other records alone,
    and the record it wrote is a record of the file. *)
Lemma add_record_frame (now key : Z) (packed : bytes) (s s' : BinTable.t)
    (i : Z) :
  wf s -> BinTable.pad_off s + 4 <= BinTable.rsize s ->
  BinTable.add_record now key packed s = (inr i, s') ->
  rec_frame s s' i /\ i < rec_count s'.
Proof.
  intros Hwf Hpad H.
  assert (Hrs : 0 < BinTable.rsize s) by (destruct Hwf as (_ & _ & Hp); lia).
  destruct (add_record_ok _ _ _ _ _ _ Hwf H)
    as (s1' & j' & Halloc' & Hi & _ & Hlen & Hins' & Hj' & Hwf' & Hn' & Hr'
        & Hp' & _).
  unfold BinTable.add_record in H.
  bind_ok H. rename a into i0, s0 into s1, Hstep into Halloc.
  bind_ok H. rename s0 into s2, Hstep into Hraw. destruct a.
  bind_ok H. rename a into j, s0 into s2', Hstep into Hfind.
  bind_ok H. rename s0 into s3, Hstep into Hslot. destruct a.
  unfold BinTable.bind at 1 in H. cbn [BinTable.get] in H.
  unfold BinTable.bind at 1 in H. cbn [BinTable.modify_h] in H.
  bind_ok H. rename s0 into s5, Hstep into Hhdr. destruct a.
  unfold BinTable.bind, BinTable._sync, BinTable.ret in H. inv_pair H.
  rewrite Halloc in Halloc'. injection Halloc' as <-.
  pose proof (alloc_frame s s1 i i Halloc) as F1.
  destruct (alloc_file _ _ _ Halloc) as (Hf1 & Hn1 & Hr1 & Hp1 & _).
  assert (Hwf1 : wf s1) by (eapply wf_transport; eassumption).
  apply write_raw_inv in Hraw as (_ & _ & ->).
  rewrite find_slot_for_insert_run in Hfind. injection Hfind as Hins <-.
  apply write_slot_inv in Hslot as (bs & Hbs & _ & ->).
  destruct (slot_unpack_pack _ _ Hbs) as (Lbs & _).
  set (s2 := BinTable.set_f
               (pwrite (BinTable.f s1) (BinTable._record_ofs s1 i) packed) s1)
    in *.
  assert (Hwf2 : wf s2) by now apply wf_pwrite.
  assert (F2 : rec_frame s1 s2 i).
  { apply rec_frame_write_record; try assumption; lia. }
  assert (Hsi02 : same_index s s2).
  { apply (same_index_trans s s1 s2); [now apply same_index_file|].
    apply same_index_pwrite_above; [assumption|].
    apply record_ofs_above; lia. }
  rewrite (insert_slot_same_index _ _ _ Hsi02) in Hins.
  rewrite Hins in Hins'. apply inr_inj in Hins'. subst j'.
  set (s3 := BinTable.set_f
               (pwrite (BinTable.f s2) (BinTable._index_ofs j) bs) s2) in *.
  assert (Hwf3 : wf s3) by now apply wf_pwrite.
  assert (F3 : rec_frame s2 s3 i).
  { apply rec_frame_write_slot; try assumption.
    - cbn. lia.
    - destruct Hsi02 as [-> _]. exact Hj'. }
  set (s4 := BinTable.set_h _ s3) in Hhdr.
  assert (Hwf4 : wf s4) by (apply wf_set_h; [reflexivity|assumption]).
  assert (F4 : rec_frame s3 s4 i) by (apply rec_frame_set_h; reflexivity).
  assert (F5 : rec_frame s4 s' i).
  { eapply rec_frame_write_header; [exact Hwf4| |exact Hhdr]. cbn. lia. }
  assert (F25 : rec_frame s2 s' i).
  { eapply rec_frame_trans; [cbn; lia|exact F3|].
    eapply rec_frame_trans; [cbn; lia|exact F4|exact F5]. }
  assert (F : rec_frame s s' i).
  { eapply rec_frame_trans; [exact Hrs|exact F1|].
    eapply rec_frame_trans; [lia|exact F2|exact F25]. }
  split; [exact F|].
  (* the record written is inside the file *)
  destruct F25 as (L25 & Hlen25 & _).
  assert (Hrs2 : 0 < BinTable.rsize s2) by (cbn; lia).
  pose proof (rec_count_mono s2 s' L25 Hrs2 Hlen25) as Hmono.
  enough (i < rec_count s2) by lia.
  unfold rec_count, s2. cbn [BinTable.f BinTable.set_f BinTable.rsize].
  change (BinTable._records_region_ofs (BinTable.set_f _ s1))
    with (BinTable._records_region_ofs s1).
  rewrite length_pwrite.
  pose proof (record_ofs_above s1 i Hi ltac:(lia)) as Habove.
  pose proof (region_nonneg s1 Hwf1) as Hreg.
  enough (i + 1
          <= (Z.of_nat
                (Nat.max (length (BinTable.f s1))
                   (Z.to_nat (BinTable._record_ofs s1 i) + length packed))
              - BinTable._records_region_ofs s1) / BinTable.rsize s1) by lia.
  apply Z.div_le_lower_bound; [lia|].
  unfold BinTable._record_ofs in *. lia.
Qed.

(** *** No method makes the file shorter *)

Lemma grows_bind {A B : Type} (m : BinTable.M A) (k : A -> BinTable.M B) :
  grows m -> (forall a, grows (k a)) -> grows (BinTable.bind m k).
Proof.
  intros Hm Hk s. unfold BinTable.bind. specialize (Hm s).
  destruct (m s) as [[e|a] s1]; cbn [snd] in *; [exact Hm|].
  specialize (Hk a s1). lia.
Qed.

Lemma grows_same {A : Type} (m : BinTable.M A) :
  (forall s, BinTable.f (snd (m s)) = BinTable.f s) -> grows m.
Proof.
  intros H s. rewrite H. lia.
Qed.

Lemma grows_seek_write (off : Z) (d : result bytes) :
  grows (BinTable.seek_write off d).
Proof.
  intros s. unfold BinTable.seek_write.
  destruct (off <? 0); [cbn; lia|]. destruct d as [e|d]; [cbn; lia|].
  cbn [snd BinTable.f BinTable.set_f]. apply length_pwrite_ge.
Qed.

Lemma grows_seek_read (off n : Z) : grows (BinTable.seek_read off n).
Proof.
  apply grows_same. intros s. now rewrite seek_read_state.
Qed.

Lemma grows_lookup (key : Z) : grows (BinTable._lookup key).
Proof.
  apply grows_same. intros s. now rewrite lookup_run.
Qed.

Lemma grows_slot_of_key (key : Z) : grows (BinTable._slot_of_key key).
Proof.
  apply grows_same. intros s. now rewrite slot_of_key_run.
Qed.

Lemma grows_find_slot_for_insert (key : Z) :
  grows (BinTable._find_slot_for_insert key).
Proof.
  apply grows_same. intros s. now rewrite find_slot_for_insert_run.
Qed.

Lemma grows_alloc : grows BinTable._alloc_rec_index.
Proof.
  apply grows_same. intros s.
  destruct (BinTable._alloc_rec_index s) as [r s1] eqn:H.
  apply alloc_file in H as (Hf & _). exact Hf.
Qed.

Lemma grows_write_raw (i : Z) (d : bytes) : grows (BinTable._write_raw i d).
Proof.
  intros s. rewrite write_raw_run.
  destruct (negb _); [cbn; lia|]. destruct (_ <? 0); [cbn; lia|].
  cbn [snd BinTable.f BinTable.set_f]. apply length_pwrite_ge.
Qed.

Lemma grows_write_header (now : Z) : grows (BinTable._write_header now).
Proof.
  intros s. rewrite write_header_run. cbv zeta.
  destruct (Header.pack _); [cbn; lia|].
  cbn [snd BinTable.f BinTable.set_f BinTable.set_h]. apply length_pwrite_ge.
Qed.

Ltac grows_step :=
  first
    [ apply grows_seek_write | apply grows_seek_read
    | apply grows_lookup | apply grows_slot_of_key
    | apply grows_find_slot_for_insert | apply grows_alloc
    | apply grows_write_raw | apply grows_write_header
    | match goal with
      | |- grows (match ?x with _ => _ end) => destruct x
      end
    | apply grows_bind; [|intros ?]
    | apply grows_same; intros ?; reflexivity ].

Lemma grows_delete_record (now key : Z) :
  grows (BinTable.delete_record now key).
Proof.
  unfold BinTable.delete_record.
  apply grows_bind; [apply grows_lookup|]. intros [ri|]; [|grows_step].
  apply grows_bind; [unfold BinTable._read_raw; repeat grows_step|].
  intros [|b0 rest]; [grows_step|].
  unfold BinTable._write_next_free, BinTable._write_slot, BinTable._sync.
  repeat grows_step.
Qed.

Lemma grows_add_record (now key : Z) (packed : bytes) :
  grows (BinTable.add_record now key packed).
Proof.
  unfold BinTable.add_record, BinTable._write_slot, BinTable._sync.
  repeat grows_step.
Qed.

(** A returning [delete_record] leaves the links of the other records alone
    and puts the former head of the free list in the record it frees. *)
Lemma delete_record_frame (now key : Z) (s s' : BinTable.t) (j : Z)
    (sl : IndexSlot.t) :
  wf s -> BinTable.pad_off s + 4 <= BinTable.rsize s ->
  find_slot s key = inr (Some (j, sl)) ->
  0 <= IndexSlot.rec_index sl < rec_count s ->
  BinTable.delete_record now key s = (inr tt, s') ->
  rec_frame s s' (IndexSlot.rec_index sl)
  /\ next_free s' (IndexSlot.rec_index sl) = Header.free_head (BinTable.h s).
Proof.
  intros Hwf Hpad Hfind Hri Hdel.
  assert (Hrs : 0 < BinTable.rsize s) by (destruct Hwf as (_ & _ & Hp); lia).
  pose proof (grows_delete_record now key s) as Hgrow.
  rewrite Hdel in Hgrow. cbn [snd] in Hgrow.
  apply delete_record_ok in Hdel
    as (j0 & sl0 & b & Hf & _ & _ & _ & _ & _ & _ & Hwf' & Hn' & Hr' & Hp'
        & _ & _ & Hb & Hlink & Hframe); [|exact Hwf].
  rewrite Hfind in Hf. apply inr_inj in Hf. injection Hf as <- <-.
  specialize (Hframe Hpad).
  set (ri := IndexSlot.rec_index sl) in *.
  assert (Hlay : same_layout s s') by (repeat split; assumption).
  destruct (record_inside s ri Hwf Hrs Hri) as (Hlo & Hhi).
  pose proof (region_nonneg s Hwf) as Hreg.
  apply pack_int4_inv in Hb as (_ & _ & Ub).
  split.
  - split; [exact Hlay|]. split.
    + exact Hgrow.
    + intros r Hr Hne. unfold next_free.
      rewrite (record_ofs_layout s s' r Hlay), Hp'.
      destruct (record_inside s r Hwf Hrs Hr) as (Hlo' & _).
      destruct Hwf as (_ & _ & Hp).
      f_equal. apply Hframe; [lia|lia|].
      destruct (record_ofs_apart s r ri Hrs Hne); lia.
  - unfold next_free.
    rewrite (record_ofs_layout s s' ri Hlay), Hp', Hlink. exact Ub.
Qed.

(** *** The allocation *)

(** What [_alloc_rec_index] returns is no record of a live slot, and the
    free list it leaves is a part of the former one without that record. *)
Lemma alloc_cases (s s1 : BinTable.t) (i : Z) (l : list Z) :
  wf s -> records_ok s l ->
  BinTable._alloc_rec_index s = (inr i, s1) ->
  exists l',
    0 <= i /\ ~ In i l' /\ NoDup l' /\ incl l' l
    /\ free_chain s (Header.free_head (BinTable.h s1)) l'
    /\ ~ referenced s i
    /\ (rec_count s <= i \/ In i l).
Proof.
  intros Hwf (Hpad & Hch & Hnd & Href & _) H.
  assert (Hrs : 0 < BinTable.rsize s) by (destruct Hwf as (_ & _ & Hp); lia).
  unfold free_list in Hch.
  apply alloc_inv in H as [(Hfh & H)|(Hne & Hi & _ & b & Hb & _ & ->)].
  - rewrite records_count_eq in H by assumption.
    injection H as <- <-.
    destruct l as [|r l]; [|cbn in Hch; lia].
    exists []. split; [now apply rec_count_nonneg|].
    split; [intros []|]. split; [constructor|]. split; [apply incl_refl|].
    split; [exact Hch|]. split; [|left; lia].
    intros Hr. apply Href in Hr. lia.
  - destruct l as [|r l]; [cbn in Hch; lia|].
    cbn [free_chain] in Hch. destruct Hch as (Hr & Hrange & Hch).
    subst r. rewrite <- Hi in Hrange, Hch, Hnd, Href.
    apply NoDup_cons_iff in Hnd as (Hnot & Hnd).
    exists l. split; [lia|]. split; [exact Hnot|]. split; [exact Hnd|].
    split; [apply incl_tl, incl_refl|].
    split.
    + cbn [BinTable.h BinTable.set_h Header.free_head Header.set_free_head].
      subst b. exact Hch.
    + split; [|right; now left].
      intros Hr. apply Href in Hr as (_ & Hr). apply Hr. now left.
Qed.

Lemma written_record_inside (s : BinTable.t) (i : Z) (d : bytes) :
  wf s -> 0 < BinTable.rsize s -> 0 <= i ->
  Z.of_nat (length d) = BinTable.rsize s ->
  i < rec_count
        (BinTable.set_f (pwrite (BinTable.f s) (BinTable._record_ofs s i) d)
           s).
Proof.
  intros Hwf Hrs Hi Hd.
  unfold rec_count. cbn [BinTable.f BinTable.set_f BinTable.rsize].
  change (BinTable._records_region_ofs (BinTable.set_f _ s))
    with (BinTable._records_region_ofs s).
  rewrite length_pwrite.
  pose proof (record_ofs_above s i Hi ltac:(lia)) as Habove.
  pose proof (region_nonneg s Hwf) as Hreg.
  enough (i + 1
          <= (Z.of_nat
                (Nat.max (length (BinTable.f s))
                   (Z.to_nat (BinTable._record_ofs s i) + length d))
              - BinTable._records_region_ofs s) / BinTable.rsize s) by lia.
  apply Z.div_le_lower_bound; [lia|].
  unfold BinTable._record_ofs in *. lia.
Qed.

(** A step that allocates record [i], leaves the links of the other records
    alone and writes at most one slot, which refers to [i] if it is live. *)
Lemma records_ok_alloc_step (s s' : BinTable.t) (i : Z) (l l' : list Z)
    (j : Z) (v : result IndexSlot.t) :
  wf s -> records_ok s l -> rec_frame s s' i ->
  0 <= i < rec_count s' -> ~ In i l' -> NoDup l' -> incl l' l ->
  free_chain s (Header.free_head (BinTable.h s')) l' ->
  ~ referenced s i ->
  (forall j', 0 <= j' < nslots s ->
     slot_at s' j' = if j' =? j then v else slot_at s j') ->
  (forall sl, v = inr sl -> live_key (IndexSlot.key sl) ->
     IndexSlot.rec_index sl = i) ->
  records_ok s' l'.
Proof.
  intros Hwf (Hpad & Hch & Hnd & Href & Hinj) Hfr Hi Hnot Hnd' Hincl Hch'
    Hunref Hslots Hv.
  assert (Hrs : 0 < BinTable.rsize s) by (destruct Hwf as (_ & _ & Hp); lia).
  pose proof Hfr as ((Hn' & Hr' & Hp') & Hlen & _).
  assert (Hmono : rec_count s <= rec_count s')
    by (apply rec_count_mono; [repeat split| |]; assumption).
  assert (Hold : forall j' sl', 0 <= j' < nslots s -> j' <> j ->
            slot_at s' j' = inr sl' -> live_key (IndexSlot.key sl') ->
            referenced s (IndexSlot.rec_index sl')).
  { intros j' sl' Hj' Hne Hsl' Hlive. rewrite Hslots in Hsl' by exact Hj'.
    destruct (Z.eqb_spec j' j); [contradiction|].
    exists j', sl'. auto. }
  split; [lia|]. split.
  { unfold free_list. eapply free_chain_frame; eassumption. }
  split; [exact Hnd'|]. split.
  - intros r (j' & sl' & Hj' & Hsl' & Hlive & <-). rewrite Hn' in Hj'.
    destruct (Z.eq_dec j' j) as [->|Hne].
    + rewrite Hslots in Hsl' by exact Hj'. rewrite Z.eqb_refl in Hsl'.
      rewrite (Hv _ Hsl' Hlive). auto.
    + destruct (Href _ (Hold _ _ Hj' Hne Hsl' Hlive)) as (Hr & Hnl).
      split; [lia|]. intros Hin. apply Hnl, Hincl, Hin.
  - intros j1 j2 sl1 sl2 Hj1 Hj2 H1 H2 L1 L2 Heq.
    rewrite Hn' in Hj1, Hj2.
    destruct (Z.eq_dec j1 j) as [E1|N1], (Z.eq_dec j2 j) as [E2|N2];
      [congruence| | |].
    + subst j1. rewrite Hslots in H1 by exact Hj1.
      rewrite Z.eqb_refl in H1. pose proof (Hv _ H1 L1) as Hi1.
      elim Hunref. rewrite <- Hi1, Heq. apply (Hold j2 sl2); assumption.
    + subst j2. rewrite Hslots in H2 by exact Hj2.
      rewrite Z.eqb_refl in H2. pose proof (Hv _ H2 L2) as Hi2.
      elim Hunref. rewrite <- Hi2, <- Heq. apply (Hold j1 sl1); assumption.
    + rewrite Hslots in H1, H2 by assumption.
      destruct (Z.eqb_spec j1 j); [contradiction|].
      destruct (Z.eqb_spec j2 j); [contradiction|].
      eapply Hinj; eassumption.
Qed.

(** *** The invariant of the record space *)

Lemma add_record_records_ok (now key : Z) (packed : bytes)
    (s s' : BinTable.t) (i : Z) (l : list Z) :
  wf s -> records_ok s l ->
  BinTable.add_record now key packed s = (inr i, s') ->
  exists l', records_ok s' l'.
Proof.
  intros Hwf Hok H. pose proof Hok as (Hpad & _).
  destruct (add_record_frame _ _ _ _ _ _ Hwf Hpad H) as (Hfr & Hlt).
  apply add_record_ok in H
    as (s1 & j & Halloc & Hi & _ & _ & _ & Hj & _ & _ & _ & _ & Hslots & Hh);
    [|exact Hwf].
  destruct (alloc_cases _ _ _ _ Hwf Hok Halloc)
    as (l' & _ & Hnot & Hnd & Hincl & Hch & Hunref & _).
  exists l'.
  apply (records_ok_alloc_step s s' i l l' j (inr (IndexSlot.mk key i)));
    try assumption.
  - lia.
  - rewrite Hh. exact Hch.
  - intros sl Hsl _. apply inr_inj in Hsl. now subst sl.
Qed.

(** An [add_record] that stops on an error of the insert probe: the record
    it has written is a record of the file that no live slot refers to and
    that is not in the free list. *)
Lemma add_fails_records_ok (now key : Z) (packed : bytes)
    (s s' : BinTable.t) (e : exn) (l : list Z) :
  wf s -> records_ok s l ->
  BinTable.add_record now key packed s = (inl e, s') -> index_error e ->
  exists i s1 l',
    BinTable._alloc_rec_index s = (inr i, s1)
    /\ wf s' /\ records_ok s' l'
    /\ 0 <= i < rec_count s' /\ ~ In i l' /\ ~ referenced s' i.
Proof.
  intros Hwf Hok H He. pose proof Hok as (Hpad & _).
  assert (Hrs : 0 < BinTable.rsize s) by (destruct Hwf as (_ & _ & Hp); lia).
  apply add_record_index_error in H
    as (i & s1 & Halloc & Hlen & Hofs & -> & _); [|exact He].
  destruct (alloc_file _ _ _ Halloc) as (Hf1 & Hn1 & Hr1 & Hp1 & _).
  assert (Hwf1 : wf s1) by (eapply wf_transport; eassumption).
  destruct (alloc_cases _ _ _ _ Hwf Hok Halloc)
    as (l' & Hi & Hnot & Hnd & Hincl & Hch & Hunref & _).
  set (s2 := BinTable.set_f
               (pwrite (BinTable.f s1) (BinTable._record_ofs s1 i) packed) s1).
  assert (Hwf2 : wf s2) by now apply wf_pwrite.
  assert (Hsi : same_index s s2).
  { apply (same_index_trans s s1 s2); [now apply same_index_file|].
    apply same_index_pwrite_above; [assumption|].
    apply record_ofs_above; lia. }
  assert (Hfr : rec_frame s s2 i).
  { eapply rec_frame_trans; [exact Hrs|exact (alloc_frame s s1 i i Halloc)|].
    apply rec_frame_write_record; try assumption; lia. }
  assert (Hlt : i < rec_count s2)
    by (apply written_record_inside; try assumption; lia).
  exists i, s1, l'. split; [exact Halloc|]. split; [exact Hwf2|].
  split; [|split; [lia|split; [exact Hnot|]]].
  - apply (records_ok_alloc_step s s2 i l l' (-1) (inl OSError));
      try assumption.
    + lia.
    + intros j' Hj'. destruct (Z.eqb_spec j' (-1)); [lia|].
      now apply Hsi.
    + discriminate.
  - intros Hr. apply Hunref. eapply referenced_same_index; eassumption.
Qed.

Lemma delete_record_records_ok (now key : Z) (s s' : BinTable.t)
    (l : list Z) :
  wf s -> records_ok s l -> key <> TOMBSTONE_KEY ->
  BinTable.delete_record now key s = (inr tt, s') ->
  exists l', records_ok s' l'.
Proof.
  intros Hwf Hok Hkey H. pose proof Hok as (Hpad & Hch & Hnd & Href & Hinj).
  assert (Hrs : 0 < BinTable.rsize s) by (destruct Hwf as (_ & _ & Hp); lia).
  pose proof H as Hdel.
  apply delete_record_ok in H
    as (j & sl & b & Hf & Hj & Hsl & Hk & Hnz & _ & _ & _ & Hn' & Hr' & Hp'
        & Hslots & Hfh & _); [|exact Hwf].
  set (ri := IndexSlot.rec_index sl) in *.
  assert (Hlive : live_key (IndexSlot.key sl)) by (rewrite Hk; now split).
  assert (Hrefd : referenced s ri) by (exists j, sl; auto).
  destruct (Href _ Hrefd) as (Hri & Hnot).
  destruct (delete_record_frame _ _ _ _ _ _ Hwf Hpad Hf Hri Hdel)
    as (Hfr & Hlink).
  fold ri in Hfr, Hlink.
  pose proof Hfr as (Hlay & Hlen & _).
  pose proof (rec_count_mono s s' Hlay Hrs Hlen) as Hmono.
  assert (Hold : forall j' sl', 0 <= j' < nslots s ->
            slot_at s' j' = inr sl' -> live_key (IndexSlot.key sl') ->
            j' <> j /\ slot_at s j' = inr sl').
  { intros j' sl' Hj' Hsl' Hl'. rewrite Hslots in Hsl' by exact Hj'.
    destruct (Z.eqb_spec j' j); [|auto].
    apply inr_inj in Hsl'. subst sl'. destruct Hl' as (_ & Hl'). now elim Hl'. }
  exists (ri :: l). split; [lia|]. split.
  { unfold free_list. rewrite Hfh. cbn [free_chain].
    split; [reflexivity|]. split; [lia|]. rewrite Hlink.
    eapply free_chain_frame; eassumption. }
  split; [now constructor|]. split.
  - intros r (j' & sl' & Hj' & Hsl' & Hl' & <-). rewrite Hn' in Hj'.
    destruct (Hold _ _ Hj' Hsl' Hl') as (Hne & Hsl0).
    assert (Hr0 : referenced s (IndexSlot.rec_index sl'))
      by (exists j', sl'; auto).
    destruct (Href _ Hr0) as (Hr & Hnl). split; [lia|].
    intros [Heq|Hin]; [|contradiction].
    apply Hne. eapply (Hinj j' j sl' sl); eauto.
  - intros j1 j2 sl1 sl2 Hj1 Hj2 H1 H2 L1 L2 Heq.
    rewrite Hn' in Hj1, Hj2.
    destruct (Hold _ _ Hj1 H1 L1) as (_ & H1').
    destruct (Hold _ _ Hj2 H2 L2) as (_ & H2').
    eapply Hinj; eassumption.
Qed.

Lemma open_records_ok (now : Z) (magic : bytes) (rsize slots pad_off : Z)
    (s : BinTable.t) :
  0 <= pad_off -> pad_off + 4 <= rsize ->
  BinTable.open now magic rsize slots pad_off None = inr s ->
  wf s /\ records_ok s [].
Proof.
  intros Hpad Hfit H.
  apply open_new in H as (Hwf & Hn & Hh & Hr & Hp & Hrd); [|exact Hpad].
  split; [exact Hwf|].
  assert (Hno : forall j sl, 0 <= j < nslots s -> slot_at s j = inr sl ->
            ~ live_key (IndexSlot.key sl)).
  { intros j sl Hj Hsl (Hl & _). rewrite Hn in Hj.
    rewrite Hrd in Hsl by exact Hj. apply inr_inj in Hsl. now subst sl. }
  split; [lia|]. split; [unfold free_list; rewrite Hh; reflexivity|].
  split; [constructor|]. split.
  - intros r (j & sl & Hj & Hsl & Hl & _). now elim (Hno _ _ Hj Hsl).
  - intros j1 j2 sl1 sl2 Hj1 _ H1 _ L1 _ _. now elim (Hno _ _ Hj1 H1).
Qed.

(** ** The lookup probe after an insert, a duplicate and a tombstone *)

Section ProbeRoundTrip.

Variable n : Z.
Hypothesis n_pos : 0 < n.

(** With a tombstone remembered, the insert probe returns nothing else. *)
Lemma probe_insert_remembered (rd : Z -> result IndexSlot.t)
    (key start : Z) (fuel : nat) (i first_tomb j : Z) :
  0 <= first_tomb ->
  probe_insert rd n key start fuel i first_tomb = inr j -> j = first_tomb.
Proof.
  intros Hft H.
  apply probe_insert_some in H as (_ & de & sle & _ & _ & _ & _ & Hj);
    [|exact n_pos].
  destruct Hj as [(Hneg & _)|[(_ & Hj)|(Hneg & _)]]; [lia|exact Hj|lia].
Qed.

(** The lookup probe finds the key in the slot the insert probe gave. *)
Lemma probe_find_after_insert (rd rd' : Z -> result IndexSlot.t)
    (key start : Z) (fuel : nat) (i first_tomb j : Z) (v : IndexSlot.t) :
  first_tomb < 0 ->
  probe_insert rd n key start fuel i first_tomb = inr j ->
  (forall j', 0 <= j' < n -> rd' j' = if j' =? j then inr v else rd j') ->
  IndexSlot.key v = key ->
  probe_find rd' n key start fuel i = inr (Some (j, v)).
Proof.
  intros Hft Hins Hrd' Hv.
  assert (Hkey : key <> 0).
  { now apply probe_insert_some in Hins as (Hkey & _). }
  revert i Hins. induction fuel as [|fuel IH]; intros i Hins;
    [discriminate|].
  cbn [probe_insert probe_find] in *.
  set (jj := (start + i) mod n) in *.
  assert (Hjj : 0 <= jj < n) by (apply Z.mod_pos_bound; exact n_pos).
  rewrite Hrd' by exact Hjj.
  destruct (Z.eqb_spec jj j) as [Ej|Ej].
  - cbn [bindR]. rewrite Hv.
    destruct (Z.eqb_spec key 0); [contradiction|].
    rewrite Z.eqb_refl. now rewrite Ej.
  - destruct (rd jj) as [e|sl]; [discriminate|]. cbn [bindR] in *.
    destruct (Z.eqb_spec (IndexSlot.key sl) key); [discriminate|].
    destruct (Z.eqb_spec (IndexSlot.key sl) 0) as [E0|E0].
    + rewrite E0 in Hins. change (0 =? TOMBSTONE_KEY) with false in Hins.
      cbn [andb] in Hins.
      destruct (Z.geb_spec first_tomb 0); [lia|].
      apply inr_inj in Hins. congruence.
    + destruct (Z.eqb_spec (IndexSlot.key sl) TOMBSTONE_KEY) as [Et|Et].
      * destruct (Z.ltb_spec first_tomb 0); [|lia]. cbn [andb] in Hins.
        apply probe_insert_remembered in Hins; [|lia]. congruence.
      * cbn [andb] in Hins. apply IH. exact Hins.
Qed.

(** Where the lookup probe finds the key, the insert probe raises. *)
Lemma probe_insert_duplicate (rd : Z -> result IndexSlot.t)
    (key start : Z) (fuel : nat) (i first_tomb j : Z) (sl : IndexSlot.t) :
  probe_find rd n key start fuel i = inr (Some (j, sl)) ->
  probe_insert rd n key start fuel i first_tomb
  = inl ValueError_duplicate_key.
Proof.
  revert i first_tomb. induction fuel as [|fuel IH]; intros i first_tomb H;
    [discriminate|].
  cbn [probe_insert probe_find] in *.
  destruct (rd ((start + i) mod n)) as [e|sl0]; [discriminate|].
  cbn [bindR] in *.
  destruct (Z.eqb_spec (IndexSlot.key sl0) 0) as [E0|E0]; [discriminate|].
  destruct (Z.eqb_spec (IndexSlot.key sl0) key); [reflexivity|].
  now apply IH.
Qed.

(** Over an index that can be read, the lookup probe returns. *)
Lemma probe_find_total (rd : Z -> result IndexSlot.t)
    (key start : Z) (fuel : nat) (i : Z) :
  (forall j, 0 <= j < n -> exists sl, rd j = inr sl) ->
  exists r, probe_find rd n key start fuel i = inr r.
Proof.
  intros Hrd. revert i. induction fuel as [|fuel IH]; intros i;
    [now exists None|].
  cbn [probe_find].
  destruct (Hrd ((start + i) mod n)) as (sl & ->);
    [apply Z.mod_pos_bound; exact n_pos|].
  cbn [bindR]. destruct (_ =? 0); [now exists None|].
  destruct (_ =? key); [eexists; reflexivity|apply IH].
Qed.

(** Once the slot of a key is a tombstone, no slot holds the key. *)
Lemma probe_find_after_tombstone (rd rd' : Z -> result IndexSlot.t)
    (key start : Z) (fuel : nat) (i j : Z) (sl : IndexSlot.t) :
  idx_unique rd n ->
  (forall j', 0 <= j' < n -> exists sl', rd j' = inr sl') ->
  0 <= j < n -> rd j = inr sl -> IndexSlot.key sl = key -> live_key key ->
  (forall j', 0 <= j' < n ->
     rd' j' = if j' =? j then inr (IndexSlot.mk TOMBSTONE_KEY 0)
              else rd j') ->
  probe_find rd' n key start fuel i = inr None.
Proof.
  intros Hun Hrd Hj Hsl Hk Hlive Hrd'.
  assert (Hrd1 : forall j', 0 <= j' < n -> exists sl', rd' j' = inr sl').
  { intros j' Hj'. rewrite Hrd' by exact Hj'.
    destruct (j' =? j); [eexists; reflexivity|now apply Hrd]. }
  destruct (probe_find_total rd' key start fuel i Hrd1) as ([[j1 sl1]|] & Hf);
    [|exact Hf].
  exfalso.
  apply probe_find_some in Hf as (d & _ & Hj1 & Hsl1 & Hk1 & _).
  assert (Hr1 : 0 <= j1 < n)
    by (rewrite Hj1; apply Z.mod_pos_bound; exact n_pos).
  rewrite Hrd' in Hsl1 by exact Hr1.
  destruct (Z.eqb_spec j1 j) as [E|E].
  - apply inr_inj in Hsl1. subst sl1. cbn in Hk1.
    destruct Hlive as (_ & Ht). now apply Ht.
  - apply E. apply (Hun j1 j sl1 sl); try assumption.
    + now rewrite Hk1.
    + congruence.
Qed.

End ProbeRoundTrip.

(** * The claims *)

(** ** C1: tombstones and a full index *)

(** With no empty slot in the index, [add_record] returns for no key,
    whatever tombstones the index holds. *)
Lemma add_record_full_index (now key : Z) (packed : bytes)
    (s s' : BinTable.t) (i : Z) :
  wf s ->
  (forall j sl, 0 <= j < nslots s -> slot_at s j = inr sl ->
     IndexSlot.key sl <> 0) ->
  BinTable.add_record now key packed s <> (inr i, s').
Proof.
  intros Hwf Hfull H.
  apply add_record_ok in H as (s1 & j & _ & _ & _ & _ & Hins & Hj & _);
    [|exact Hwf].
  unfold insert_slot in Hins.
  destruct (Z.eqb_spec (nslots s) 0); [discriminate|].
  revert Hins. apply probe_insert_full; [lia|exact Hfull].
Qed.

(** C1 (the code departs from the claim).  In the Cars table with four index
    slots, after adding keys 1, 2, 3 and 4 and deleting key 2, slot 2 (the
    former slot of key 2) holds a tombstone and no slot is empty;
    [add_record] with key 5 then raises [RuntimeError('index full')] and key
    5 is not found afterwards, where the claim has the add succeed in the
    tombstoned slot. *)
Theorem full_index_does_not_reuse_tombstone :
  map (slot_at cars4_full_without_2) [0; 1; 2; 3]
  = [inr (IndexSlot.mk 4 3); inr (IndexSlot.mk 1 0);
     inr (IndexSlot.mk TOMBSTONE_KEY 0); inr (IndexSlot.mk 3 2)]
  /\ outcome (add_car 106 5) cars4_full_without_2
     = inl RuntimeError_index_full
  /\ outcome (BinTable.read_record 5)
       (after (add_car 106 5) cars4_full_without_2) = inr None
  /\ outcome (BinTable.read_record 2) cars4_full_without_2 = inr None.
Proof.
  vm_compute. repeat split; reflexivity.
Qed.

Lemma wf_cars4_three : wf cars4_three.
Proof.
  unfold wf, nslots, BinTable._records_region_ofs.
  vm_compute. repeat split; discriminate.
Defined.

Lemma regular_cars4_three : regular cars4_three.
Proof.
  assert (R0 : regular cars4_new).
  { apply (reg_open 100 Cars.magic CARS_SIZE 4 CARS_PAD);
      [vm_compute; discriminate|vm_compute; discriminate
      |vm_compute; reflexivity]. }
  assert (R1 : regular (after (add_car 101 1) cars4_new)).
  { apply (reg_add cars4_new 101 1 (car_bytes 1) 0); [exact R0|].
    vm_compute. reflexivity. }
  assert (R2 : regular
                 (after (add_car 102 2) (after (add_car 101 1) cars4_new))).
  { eapply (reg_add _ 102 2 (car_bytes 2) 1); [exact R1|].
    vm_compute. reflexivity. }
  eapply (reg_add _ 103 3 (car_bytes 3) 2); [exact R2|].
  vm_compute. reflexivity.
Defined.

(** ** C4: no key twice in the index *)

(** C4.  In every state reached from a freshly created table by calls of
    [add_record] and [delete_record] that return, no two live index slots
    hold the same key. *)
Theorem unique_keys_after_adds_and_deletes (s : BinTable.t) :
  reachable s -> unique_live_keys s.
Proof.
  intros H. now apply reachable_invariant in H.
Qed.

Lemma reachable_cars4_full_without_2 : reachable cars4_full_without_2.
Proof.
  assert (R0 : reachable cars4_new).
  { apply (reach_open 100 Cars.magic CARS_SIZE 4 CARS_PAD);
      [vm_compute; discriminate|vm_compute; reflexivity]. }
  assert (R1 : reachable (after (add_car 101 1) cars4_new)).
  { apply (reach_add cars4_new 101 1 (car_bytes 1) 0); [exact R0|].
    vm_compute. reflexivity. }
  assert (R2 : reachable
                 (after (add_car 102 2) (after (add_car 101 1) cars4_new))).
  { eapply (reach_add _ 102 2 (car_bytes 2) 1); [exact R1|].
    vm_compute. reflexivity. }
  assert (R3 : reachable cars4_three).
  { eapply (reach_add _ 103 3 (car_bytes 3) 2); [exact R2|].
    vm_compute. reflexivity. }
  assert (R4 : reachable cars4_full).
  { eapply (reach_add _ 104 4 (car_bytes 4) 3); [exact R3|].
    vm_compute. reflexivity. }
  eapply (reach_delete _ 105 2); [exact R4|].
  vm_compute. reflexivity.
Defined.

Lemma unique_keys_after_adds_and_deletes_witness :
  unique_live_keys cars4_full_without_2.
Proof.
  apply (unique_keys_after_adds_and_deletes cars4_full_without_2).
  exact reachable_cars4_full_without_2.
Defined.

(** ** C6: the free list is a stack *)

Lemma lookup_outcome (s : BinTable.t) (key r : Z) :
  outcome (BinTable._lookup key) s = inr (Some r) ->
  exists j sl, find_slot s key = inr (Some (j, sl))
    /\ r = IndexSlot.rec_index sl.
Proof.
  unfold outcome. rewrite lookup_run. cbn [fst].
  destruct (find_slot s key) as [e|[[j sl]|]]; cbn; try discriminate.
  intros [= <-]. eauto.
Qed.

(** After a returning [delete_record], the head of the free list is the
    record of the deleted key, and that record holds the former head. *)
Lemma delete_record_pushes (now key r : Z) (s s' : BinTable.t) :
  wf s -> outcome (BinTable._lookup key) s = inr (Some r) ->
  BinTable.delete_record now key s = (inr tt, s') ->
  wf s' /\ 0 <= r
  /\ Header.free_head (BinTable.h s') = r
  /\ exists b,
       pack_int E 4 (Header.free_head (BinTable.h s)) = inr b
       /\ pread (BinTable.f s')
            (BinTable._record_ofs s' r + BinTable.pad_off s') 4 = b.
Proof.
  intros Hwf Hlook Hdel.
  apply lookup_outcome in Hlook as (j0 & sl0 & Hf0 & ->).
  apply delete_record_ok in Hdel
    as (j & sl & b & Hf & _ & _ & _ & _ & Hri & _ & Hwf' & Hn' & Hr' & Hp'
        & _ & Hfh & Hb & Hpad & _); [|exact Hwf].
  rewrite Hf in Hf0. apply inr_inj in Hf0. injection Hf0 as <- <-.
  split; [exact Hwf'|]. split; [exact Hri|]. split; [exact Hfh|].
  exists b. split; [exact Hb|].
  unfold BinTable._record_ofs, BinTable._records_region_ofs in *.
  fold (nslots s) (nslots s') in *. now rewrite Hn', Hr', Hp'.
Qed.

(** The allocation that follows pops the record of the deleted key, and the
    former head is the head again. *)
Lemma alloc_pops (now key r : Z) (s s' : BinTable.t) :
  wf s -> outcome (BinTable._lookup key) s = inr (Some r) ->
  BinTable.delete_record now key s = (inr tt, s') ->
  BinTable._alloc_rec_index s'
  = (inr r,
     BinTable.set_h
       (Header.set_free_head (Header.free_head (BinTable.h s))
          (BinTable.h s')) s').
Proof.
  intros Hwf Hlook Hdel.
  destruct (delete_record_pushes _ _ _ _ _ Hwf Hlook Hdel)
    as (Hwf' & Hr & Hfh & b & Hb & Hpad).
  apply pack_int4_inv in Hb as (_ & Lb & Ub).
  unfold BinTable._alloc_rec_index.
  unfold BinTable.bind at 1. cbn [BinTable.get]. rewrite Hfh.
  destruct (Z.eqb_spec r (-1)); [lia|]. cbn [negb].
  unfold BinTable.bind at 1. cbn [BinTable.get].
  unfold BinTable.bind at 1.
  rewrite seek_read_ok.
  - rewrite Hpad, Lb. cbn [Z.of_nat Z.eqb Pos.eqb Pos.of_succ_nat
      Pos.succ negb].
    rewrite Ub. reflexivity.
  - pose proof (record_ofs_above s' r Hr) as Habove.
    destruct Hwf' as (Hn & Hlen & Hp).
    unfold BinTable._records_region_ofs, nslots in *.
    unfold HEADER_SIZE, INDEX_SLOT_SIZE in *.
    assert (0 <= BinTable.rsize s').
    { apply delete_record_ok in Hdel
        as (j & sl & b0 & _ & _ & _ & _ & _ & _ & Hrs & _ & _ & Hr' & _);
        [|exact Hwf]. lia. }
    specialize (Habove ltac:(assumption)). lia.
  - lia.
Qed.

(** C6.  After [delete_record A] and then [delete_record B], the next
    allocation gives the record of [B], and two returning calls of
    [add_record] get the record of [B] and then the record of [A]. *)
Theorem free_list_is_lifo (s s1 s2 s3 s4 : BinTable.t)
    (nowA nowB now1 now2 A B rA rB k1 k2 i1 i2 : Z) (p1 p2 : bytes) :
  wf s ->
  outcome (BinTable._lookup A) s = inr (Some rA) ->
  BinTable.delete_record nowA A s = (inr tt, s1) ->
  outcome (BinTable._lookup B) s1 = inr (Some rB) ->
  BinTable.delete_record nowB B s1 = (inr tt, s2) ->
  BinTable.add_record now1 k1 p1 s2 = (inr i1, s3) ->
  BinTable.add_record now2 k2 p2 s3 = (inr i2, s4) ->
  outcome BinTable._alloc_rec_index s2 = inr rB /\ i1 = rB /\ i2 = rA.
Proof.
  intros Hwf HlA HdA HlB HdB Hadd1 Hadd2.
  destruct (delete_record_pushes _ _ _ _ _ Hwf HlA HdA)
    as (Hwf1 & HrA & HfhA & _).
  pose proof (alloc_pops _ _ _ _ _ Hwf1 HlB HdB) as Hpop.
  destruct (delete_record_pushes _ _ _ _ _ Hwf1 HlB HdB)
    as (Hwf2 & HrB & HfhB & _).
  split; [unfold outcome; now rewrite Hpop|].
  apply add_record_ok in Hadd1
    as (s2' & j1 & Halloc1 & _ & _ & _ & _ & _ & Hwf3 & _ & _ & _ & _ & Hh3);
    [|exact Hwf2].
  rewrite Hpop in Halloc1. injection Halloc1 as <- <-.
  split; [reflexivity|].
  apply add_record_ok in Hadd2 as (s3' & j2 & Halloc2 & _); [|exact Hwf3].
  apply alloc_inv in Halloc2 as [(Hfh3 & _)|(_ & -> & _)].
  - rewrite Hh3 in Hfh3. cbn in Hfh3. lia.
  - rewrite Hh3. cbn. exact HfhA.
Qed.

(** The witness: in the table that holds keys 1, 2, 3 (records 0, 1, 2),
    deleting 1 and then 3, the adds of keys 5 and 6 get records 2 and 0. *)
Lemma free_list_is_lifo_witness :
  outcome BinTable._alloc_rec_index
    (after (BinTable.delete_record 111 3)
       (after (BinTable.delete_record 110 1) cars4_three)) = inr 2
  /\ 2 = 2 /\ 0 = 0.
Proof.
  apply (free_list_is_lifo cars4_three
           (after (BinTable.delete_record 110 1) cars4_three)
           (after (BinTable.delete_record 111 3)
              (after (BinTable.delete_record 110 1) cars4_three))
           (after (add_car 112 5)
              (after (BinTable.delete_record 111 3)
                 (after (BinTable.delete_record 110 1) cars4_three)))
           (after (add_car 113 6)
              (after (add_car 112 5)
                 (after (BinTable.delete_record 111 3)
                    (after (BinTable.delete_record 110 1) cars4_three))))
           110 111 112 113 1 3 0 2 5 6 2 0 (car_bytes 5) (car_bytes 6)).
  - exact wf_cars4_three.
  - vm_compute. reflexivity.
  - vm_compute. reflexivity.
  - vm_compute. reflexivity.
  - vm_compute. reflexivity.
  - vm_compute. reflexivity.
  - vm_compute. reflexivity.
Defined.

(** ** C5: tombstones and probe chains *)

(** Turning the slot of another key into a tombstone changes no lookup of a
    key that is not the tombstone mark. *)
Lemma probe_find_tombstoned (rd rd' : Z -> result IndexSlot.t)
    (n k1 k2 j : Z) (sl : IndexSlot.t) (start : Z) (fuel : nat) (i : Z) :
  0 < n -> rd j = inr sl -> IndexSlot.key sl = k1 ->
  k1 <> 0 -> k1 <> k2 -> k2 <> TOMBSTONE_KEY ->
  (forall j', 0 <= j' < n ->
     rd' j' = if j' =? j then inr (IndexSlot.mk TOMBSTONE_KEY 0) else rd j') ->
  probe_find rd' n k2 start fuel i = probe_find rd n k2 start fuel i.
Proof.
  intros Hn Hsl Hk H0 H12 H2 Hrd'. revert i.
  induction fuel as [|fuel IH]; intros i; [reflexivity|].
  cbn [probe_find]. rewrite Hrd' by (apply Z.mod_pos_bound; lia).
  destruct (Z.eqb_spec ((start + i) mod n) j) as [Ej|Ej].
  - rewrite Ej, Hsl. cbn [bindR IndexSlot.key].
    change (TOMBSTONE_KEY =? 0) with false. cbv iota.
    destruct (Z.eqb_spec TOMBSTONE_KEY k2) as [Et|_]; [congruence|].
    rewrite Hk.
    destruct (Z.eqb_spec k1 0) as [E0|_]; [congruence|].
    destruct (Z.eqb_spec k1 k2) as [E12|_]; [congruence|].
    apply IH.
  - destruct (rd ((start + i) mod n)) as [e|sl0]; [reflexivity|].
    cbn [bindR]. now rewrite IH.
Qed.

Lemma lookup_none (s : BinTable.t) (key : Z) :
  0 <= nslots s ->
  outcome (BinTable._lookup key) s = inr None ->
  stops_at_empty s key \/ scans_whole_index s key.
Proof.
  intros Hn. unfold outcome. rewrite lookup_run. cbn [fst].
  unfold find_slot.
  destruct (Z.eqb_spec (nslots s) 0); [discriminate|].
  destruct (probe_find _ _ _ _ _ _) as [e|[p|]] eqn:Hp; try discriminate.
  intros _. apply probe_find_none in Hp as [(d & sl & Hd & Hsl & Hz & Hpass)|Hpass].
  - left. exists d, sl. repeat split; try assumption; lia.
  - right. unfold scans_whole_index. now rewrite Z2Nat.id in Hpass by lia.
Qed.

(** C5 (as amended).  After [delete_record k1] the lookup of any other key
    [k2] (not the tombstone mark) is what it was, found or not; the bytes
    [read_record k2] returns are the same when the two keys have different
    records; and a lookup returns not-found only at an empty slot or after
    it has gone through all the slots of the index, tombstones included. *)
Theorem lookup_survives_delete (now k1 k2 : Z) (s s' : BinTable.t) :
  wf s -> k1 <> k2 -> k2 <> TOMBSTONE_KEY ->
  BinTable.delete_record now k1 s = (inr tt, s') ->
  outcome (BinTable._lookup k2) s' = outcome (BinTable._lookup k2) s
  /\ (BinTable.pad_off s + 4 <= BinTable.rsize s ->
      forall r1 r2,
        outcome (BinTable._lookup k1) s = inr (Some r1) ->
        outcome (BinTable._lookup k2) s = inr (Some r2) ->
        r1 <> r2 ->
        outcome (BinTable.read_record k2) s'
        = outcome (BinTable.read_record k2) s)
  /\ (forall key,
        outcome (BinTable._lookup key) s' = inr None ->
        stops_at_empty s' key \/ scans_whole_index s' key).
Proof.
  intros Hwf H12 H2 Hdel.
  pose proof Hdel as Hdel0.
  apply delete_record_ok in Hdel
    as (j & sl & b & Hf & Hj & Hsl & Hk & Hnz & Hri & Hrs & Hwf' & Hn' & Hr'
        & Hp' & Hrd & _ & _ & _ & Hframe); [|exact Hwf].
  assert (Hfind : find_slot s' k2 = find_slot s k2).
  { unfold find_slot. rewrite Hn'.
    destruct (Z.eqb_spec (nslots s) 0); [reflexivity|].
    eapply probe_find_tombstoned with (j := j) (sl := sl) (k1 := k1);
      try eassumption; lia. }
  assert (Hlook : outcome (BinTable._lookup k2) s'
                  = outcome (BinTable._lookup k2) s).
  { unfold outcome. rewrite 2 lookup_run. cbn [fst]. now rewrite Hfind. }
  split; [exact Hlook|]. split.
  - intros Hfit r1 r2 Hl1 Hl2 Hne.
    apply lookup_outcome in Hl1 as (j1 & sl1 & Hf1 & ->).
    rewrite Hf in Hf1. apply inr_inj in Hf1. injection Hf1 as <- <-.
    pose proof Hl2 as Hl2'. rewrite <- Hlook in Hl2'.
    apply lookup_outcome in Hl2 as (j2 & sl2 & Hf2 & ->).
    assert (Hr2 : 0 <= IndexSlot.rec_index sl2).
    { apply find_slot_some in Hf2 as (_ & Hsl2 & _); [|apply Hwf].
      now apply slot_at_nonneg in Hsl2. }
    unfold outcome in *. unfold BinTable.read_record, BinTable.bind.
    destruct (BinTable._lookup k2 s') as [r' t'] eqn:E'.
    destruct (BinTable._lookup k2 s) as [r t] eqn:E0.
    rewrite lookup_run in E', E0.
    injection E' as <- <-. injection E0 as <- <-.
    rewrite Hfind, Hf2. cbn [bindR option_map snd].
    rewrite 2 read_raw_run.
    pose proof (record_ofs_above s (IndexSlot.rec_index sl2) Hr2 Hrs)
      as Habove.
    assert (Hofs' : BinTable._record_ofs s' (IndexSlot.rec_index sl2)
                    = BinTable._record_ofs s (IndexSlot.rec_index sl2)).
    { unfold BinTable._record_ofs, BinTable._records_region_ofs.
      fold (nslots s) (nslots s'). now rewrite Hn', Hr'. }
    rewrite Hofs', Hr'.
    assert (Hreg : 0 <= BinTable._records_region_ofs s).
    { unfold BinTable._records_region_ofs, HEADER_SIZE, INDEX_SLOT_SIZE.
      fold (nslots s). destruct Hwf as (Hn & _). lia. }
    rewrite 2 seek_read_ok by lia. cbn [fst BinTable.bind BinTable.ret].
    rewrite (Hframe Hfit); [reflexivity|assumption|assumption|].
    unfold BinTable._record_ofs.
    destruct (Z.lt_ge_cases (IndexSlot.rec_index sl2) (IndexSlot.rec_index sl)).
    + left. nia.
    + right. nia.
  - intros key. apply lookup_none. apply Hwf'.
Qed.

Lemma wf_cars4_collide : wf cars4_collide.
Proof.
  unfold wf, nslots, BinTable._records_region_ofs.
  vm_compute. repeat split; discriminate.
Defined.

(** The witness: keys 1 and 5 collide in a table of four slots; key 1 is
    deleted. *)
Lemma lookup_survives_delete_witness :
  outcome (BinTable._lookup 5)
    (after (BinTable.delete_record 110 1) cars4_collide)
  = outcome (BinTable._lookup 5) cars4_collide
  /\ (BinTable.pad_off cars4_collide + 4 <= BinTable.rsize cars4_collide ->
      forall r1 r2,
        outcome (BinTable._lookup 1) cars4_collide = inr (Some r1) ->
        outcome (BinTable._lookup 5) cars4_collide = inr (Some r2) ->
        r1 <> r2 ->
        outcome (BinTable.read_record 5)
          (after (BinTable.delete_record 110 1) cars4_collide)
        = outcome (BinTable.read_record 5) cars4_collide)
  /\ (forall key,
        outcome (BinTable._lookup key)
          (after (BinTable.delete_record 110 1) cars4_collide) = inr None ->
        stops_at_empty
          (after (BinTable.delete_record 110 1) cars4_collide) key
        \/ scans_whole_index
             (after (BinTable.delete_record 110 1) cars4_collide) key).
Proof.
  apply (lookup_survives_delete 110 1 5 cars4_collide
           (after (BinTable.delete_record 110 1) cars4_collide)).
  - exact wf_cars4_collide.
  - discriminate.
  - vm_compute. discriminate.
  - vm_compute. reflexivity.
Defined.

(** C5 as stated fails: in the table with keys 1, 2, 3, 4 in its four slots,
    the lookup of key 5 returns not-found, and it has not reached an empty
    slot, since there is none. *)
Lemma lookup_not_found_without_empty_slot :
  outcome (BinTable._lookup 5) cars4_full = inr None
  /\ ~ stops_at_empty cars4_full 5.
Proof.
  split; [vm_compute; reflexivity|].
  intros (d & sl & Hd & Hsl & Hz & _).
  change (nslots cars4_full) with 4 in *.
  assert (Hcases : d = 0 \/ d = 1 \/ d = 2 \/ d = 3) by lia.
  destruct Hcases as [-> | [-> | [-> | ->]]]; vm_compute in Hsl;
    apply inr_inj in Hsl; subst sl; discriminate.
Qed.

(** ** C2: the two implementations of the engine *)

Lemma find_slot_seed_run (key : Z) (s : BinTable.t) :
  Seed._find_slot key s = (seed_slot s key, s).
Proof.
  unfold Seed._find_slot, seed_slot, BinTable.bind.
  rewrite hash_run. destruct (nslots s =? 0); [reflexivity|].
  cbn [BinTable.get]. fold (nslots s).
  apply _find_slot_loop_pure.
Qed.

(** On an index without tombstones and for a key that is not 0, the probe
    of the seeding tool, followed by its duplicate test, is the insert probe
    of the application. *)
Lemma probe_seed_insert_agree (rd : Z -> result IndexSlot.t) (n key : Z)
    (start : Z) (fuel : nat) (i : Z) :
  0 < n -> key <> 0 ->
  (forall j sl, 0 <= j < n -> rd j = inr sl ->
     IndexSlot.key sl <> TOMBSTONE_KEY) ->
  probe_insert rd n key start fuel i (-1)
  = (sc <-? probe_seed rd n key start fuel i ;;
     match snd sc with
     | Some _ => inl ValueError_duplicate_key
     | None => inr (fst sc)
     end).
Proof.
  intros Hn Hkey Hnt. revert i.
  induction fuel as [|fuel IH]; intros i; [reflexivity|].
  cbn [probe_insert probe_seed].
  destruct (rd ((start + i) mod n)) as [e|sl] eqn:Hsl; [reflexivity|].
  cbn [bindR].
  assert (Ht : IndexSlot.key sl <> TOMBSTONE_KEY).
  { eapply Hnt; [|exact Hsl]. apply Z.mod_pos_bound; lia. }
  destruct (Z.eqb_spec (IndexSlot.key sl) TOMBSTONE_KEY) as [|_];
    [contradiction|]. cbn [andb].
  destruct (Z.eqb_spec (IndexSlot.key sl) key) as [Ek|Ek].
  - destruct (Z.eqb_spec (IndexSlot.key sl) 0) as [E0|E0]; [congruence|].
    reflexivity.
  - destruct (Z.eqb_spec (IndexSlot.key sl) 0) as [E0|E0].
    + reflexivity.
    + cbn [orb]. apply IH.
Qed.

Lemma insert_slot_seed (s : BinTable.t) (key : Z) :
  0 <= nslots s -> key <> 0 -> no_tombstone s ->
  insert_slot s key
  = (sc <-? seed_slot s key ;;
     match snd sc with
     | Some _ => inl ValueError_duplicate_key
     | None => inr (fst sc)
     end).
Proof.
  intros Hn Hkey Hnt. unfold insert_slot, seed_slot.
  destruct (Z.eqb_spec (nslots s) 0); [reflexivity|].
  apply probe_seed_insert_agree; [lia|exact Hkey|exact Hnt].
Qed.

(** *** What every call leaves of a settled table *)

Lemma settled_same (s s' : BinTable.t) :
  same_index s s' -> wf s' ->
  Header.free_head (BinTable.h s') = Header.free_head (BinTable.h s) ->
  settled s -> settled s'.
Proof.
  intros [Hn Hrd] Hwf' Hfh (Hwf & Hfree & Hnt).
  split; [exact Hwf'|]. split; [congruence|].
  intros j sl Hj Hsl. rewrite Hn in Hj. rewrite Hrd in Hsl by exact Hj.
  now apply (Hnt j sl).
Qed.

Lemma write_header_any (now : Z) (s s' : BinTable.t) (r : result unit) :
  wf s -> BinTable._write_header now s = (r, s') ->
  wf s' /\ same_index s s'
  /\ Header.free_head (BinTable.h s') = Header.free_head (BinTable.h s).
Proof.
  intros Hwf. rewrite write_header_run. cbv zeta.
  set (s1 := BinTable.set_h (Header.set_updated_at now (BinTable.h s)) s).
  assert (Hwf1 : wf s1) by (apply wf_set_h; [reflexivity|assumption]).
  assert (Hsi1 : same_index s s1) by (apply same_index_set_h; reflexivity).
  destruct (Header.pack _) as [e|b] eqn:Hb; intros H; inv_pair H.
  - auto.
  - apply length_header_pack in Hb.
    change (BinTable.f s) with (BinTable.f s1).
    split; [now apply wf_pwrite|]. split; [|reflexivity].
    eapply same_index_trans; [exact Hsi1|].
    now apply same_index_pwrite_header.
Qed.

Lemma write_raw_any (i : Z) (data : bytes) (s s' : BinTable.t)
    (r : result unit) :
  wf s -> (0 <= BinTable.rsize s -> 0 <= i) ->
  BinTable._write_raw i data s = (r, s') ->
  wf s' /\ same_index s s' /\ BinTable.h s' = BinTable.h s.
Proof.
  intros Hwf Hi. rewrite write_raw_run.
  destruct (Z.eqb_spec (Z.of_nat (length data)) (BinTable.rsize s)) as [Hl|Hl];
    cbn [negb]; [|intros H; inv_pair H; auto using same_index_refl].
  destruct (_ <? 0); intros H; inv_pair H; [auto using same_index_refl|].
  split; [now apply wf_pwrite|]. split; [|reflexivity].
  apply same_index_pwrite_above; [assumption|].
  apply record_ofs_above; lia.
Qed.

Lemma alloc_settled (s s' : BinTable.t) (r : result Z) :
  Header.free_head (BinTable.h s) = -1 ->
  BinTable._alloc_rec_index s = (r, s') ->
  s' = s /\ forall i, r = inr i -> 0 <= BinTable.rsize s -> 0 <= i.
Proof.
  intros Hfh. unfold BinTable._alloc_rec_index.
  unfold BinTable.bind at 1. cbn [BinTable.get]. rewrite Hfh.
  change (negb (-1 =? -1)) with false. cbv iota.
  unfold BinTable._records_count. cbv beta zeta.
  destruct (Z.leb_spec
              (Z.of_nat (length (BinTable.f s))
               - BinTable._records_region_ofs s) 0).
  - intros H0; inv_pair H0. split; [reflexivity|]. intros i [= <-] _. lia.
  - destruct (Z.eqb_spec (BinTable.rsize s) 0).
    + intros H0; inv_pair H0. split; [reflexivity|]. discriminate.
    + intros H0; inv_pair H0. split; [reflexivity|]. intros i [= <-] Hr.
      apply Z.div_pos; lia.
Qed.

Lemma write_slot_settled (j key i : Z) (s s' : BinTable.t)
    (r : result unit) :
  settled s -> 0 <= j < nslots s -> key <> TOMBSTONE_KEY ->
  BinTable._write_slot j (IndexSlot.mk key i) s = (r, s') ->
  settled s'.
Proof.
  intros Hs Hj Hkey. pose proof Hs as (Hwf & Hfh & Hnt).
  unfold BinTable._write_slot, BinTable.seek_write.
  destruct (_ <? 0); [intros H; inv_pair H; exact Hs|].
  destruct (IndexSlot.pack _) as [e|b] eqn:Hb;
    intros H; inv_pair H; [exact Hs|].
  split; [now apply wf_pwrite|]. split; [exact Hfh|].
  intros j' sl Hj' Hsl.
  change (nslots (BinTable.set_f _ s)) with (nslots s) in Hj'.
  rewrite slot_at_pwrite_slot with (v := IndexSlot.mk key i) in Hsl
    by assumption.
  destruct (j' =? j).
  - apply inr_inj in Hsl. subst sl. exact Hkey.
  - now apply (Hnt j' sl).
Qed.

Lemma settled_set_h (s : BinTable.t) (hd : Header.t) :
  Header.index_slots hd = nslots s ->
  Header.free_head hd = Header.free_head (BinTable.h s) ->
  settled s -> settled (BinTable.set_h hd s).
Proof.
  intros Hn Hfh Hs.
  apply (settled_same s); try assumption.
  - now apply same_index_set_h.
  - apply wf_set_h; [exact Hn|apply Hs].
Qed.

Lemma write_header_settled (now : Z) (s s' : BinTable.t) (r : result unit) :
  settled s -> BinTable._write_header now s = (r, s') -> settled s'.
Proof.
  intros Hs H.
  destruct (write_header_any _ _ _ _ (proj1 Hs) H) as (Hwf' & Hsi & Hfh).
  now apply (settled_same s).
Qed.

Lemma add_record_settled (now key : Z) (packed : bytes) (s s' : BinTable.t)
    (r : result Z) :
  settled s -> key <> TOMBSTONE_KEY ->
  BinTable.add_record now key packed s = (r, s') -> settled s'.
Proof.
  intros Hs Hkey H. unfold BinTable.add_record in H.
  apply bind_inv in H as [(e & H & _)|(i & s1 & Halloc & H)].
  { apply alloc_settled in H as [-> _]; [assumption|apply Hs]. }
  apply alloc_settled in Halloc as [-> Hi]; [|apply Hs].
  specialize (Hi i eq_refl).
  assert (Hraw : forall r2 s2,
             BinTable._write_raw i packed s = (r2, s2) -> settled s2).
  { intros r2 s2 Hw.
    destruct (write_raw_any _ _ _ _ _ (proj1 Hs) Hi Hw) as (Hwf2 & Hsi & Hh).
    apply (settled_same s); try assumption. now rewrite Hh. }
  apply bind_inv in H as [(e & H & _)|([] & s2 & Hw & H)];
    [now apply Hraw in H|].
  apply Hraw in Hw. clear Hraw.
  unfold BinTable.bind at 1 in H. rewrite find_slot_for_insert_run in H.
  destruct (insert_slot s2 key) as [e|j] eqn:Hins.
  { inv_pair H. exact Hw. }
  assert (Hj : 0 <= j < nslots s2)
    by (apply (insert_slot_range s2 key); [apply Hw|assumption]).
  apply bind_inv in H as [(e & H & _)|([] & s3 & Hslot & H)];
    [now apply (write_slot_settled j key i s2) in H|].
  apply (write_slot_settled j key i s2) in Hslot; try assumption.
  unfold BinTable.bind at 1 in H. cbn [BinTable.get] in H.
  unfold BinTable.bind at 1 in H. cbn [BinTable.modify_h] in H.
  assert (Hs4 : settled
                  (BinTable.set_h
                     (Header.set_active_count
                        (Header.active_count (BinTable.h s3) + 1)
                        (BinTable.h s3)) s3))
    by (apply settled_set_h; [reflexivity|reflexivity|assumption]).
  apply bind_inv in H as [(e & H & _)|([] & s5 & Hhdr & H)];
    [now apply write_header_settled in H|].
  apply write_header_settled in Hhdr; [|exact Hs4].
  unfold BinTable.bind, BinTable._sync, BinTable.ret in H. inv_pair H.
  exact Hhdr.
Qed.

Lemma update_record_settled (now key : Z) (packed : bytes)
    (s s' : BinTable.t) (r : result unit) :
  settled s -> BinTable.update_record now key packed s = (r, s') ->
  settled s'.
Proof.
  intros Hs. unfold BinTable.update_record.
  unfold BinTable.bind at 1. rewrite lookup_run.
  destruct (find_slot s key) as [e|[[j sl]|]] eqn:Hf;
    cbn [bindR option_map snd].
  - intros H; inv_pair H. exact Hs.
  - intros H.
    assert (Hri : 0 <= IndexSlot.rec_index sl).
    { apply find_slot_some in Hf as (_ & Hsl & _); [|apply Hs].
      now apply slot_at_nonneg in Hsl. }
    assert (Hraw : forall r2 s2,
               BinTable._write_raw (IndexSlot.rec_index sl) packed s = (r2, s2)
               -> settled s2).
    { intros r2 s2 Hw.
      destruct (write_raw_any _ _ _ _ _ (proj1 Hs) (fun _ => Hri) Hw)
        as (Hwf2 & Hsi & Hh).
      apply (settled_same s); try assumption. now rewrite Hh. }
    apply bind_inv in H as [(e & H & _)|([] & s2 & Hw & H)];
      [now apply Hraw in H|].
    apply Hraw in Hw.
    apply bind_inv in H as [(e & H & _)|([] & s3 & Hhdr & H)];
      [now apply write_header_settled in H|].
    apply write_header_settled in Hhdr; [|exact Hw].
    unfold BinTable._sync, BinTable.ret in H. inv_pair H. exact Hhdr.
  - intros H; inv_pair H. exact Hs.
Qed.

Lemma next_id_settled (now : Z) (s s' : BinTable.t) (r : result Z) :
  settled s -> BinTable.next_id now s = (r, s') -> settled s'.
Proof.
  intros Hs. unfold BinTable.next_id.
  unfold BinTable.bind at 1. cbn [BinTable.get].
  unfold BinTable.bind at 1. cbn [BinTable.modify_h].
  intros H.
  assert (Hs1 : settled
                  (BinTable.set_h
                     (Header.set_next_id
                        (Header.next_id (BinTable.h s) + 1) (BinTable.h s))
                     s))
    by (apply settled_set_h; [reflexivity|reflexivity|assumption]).
  apply bind_inv in H as [(e & H & _)|([] & s2 & Hhdr & H)];
    [now apply write_header_settled in H|].
  apply write_header_settled in Hhdr; [|exact Hs1].
  unfold BinTable.ret in H. inv_pair H. exact Hhdr.
Qed.

Lemma read_record_state (key : Z) (s : BinTable.t) :
  snd (BinTable.read_record key s) = s.
Proof.
  unfold BinTable.read_record. unfold BinTable.bind at 1.
  rewrite lookup_run.
  destruct (find_slot s key) as [e|[[j sl]|]]; cbn [bindR option_map snd];
    try reflexivity.
  unfold BinTable.bind. rewrite read_raw_run.
  pose proof (seek_read_state
                (BinTable._record_ofs s (IndexSlot.rec_index sl))
                (BinTable.rsize s) s) as Hst.
  destruct (BinTable.seek_read _ _ s) as [[e|b] s1]; cbn in *; now subst.
Qed.

Lemma reply_of_state {A : Type} (g : A -> reply) (m : BinTable.M A)
    (s : BinTable.t) :
  snd (reply_of g m s) = snd (m s).
Proof.
  unfold reply_of, BinTable.bind, BinTable.ret.
  now destruct (m s) as [[e|a] s1].
Qed.

Lemma app_step_settled (o : op) (s : BinTable.t) :
  settled s -> op_key_live o -> settled (snd (app_step o s)).
Proof.
  intros Hs Hlive. destruct o as [now|now key packed|key|now key packed];
    cbn [app_step]; rewrite reply_of_state.
  - destruct (BinTable.next_id now s) as [r s'] eqn:H.
    now apply next_id_settled in H.
  - destruct (BinTable.add_record now key packed s) as [r s'] eqn:H.
    apply add_record_settled in H; [assumption|assumption|apply Hlive].
  - now rewrite read_record_state.
  - destruct (BinTable.update_record now key packed s) as [r s'] eqn:H.
    now apply update_record_settled in H.
Qed.

(** On a settled table and for a key that is not 0, the two [add_record]
    are the same function: same outcome, same bytes, same cached header. *)
Lemma seed_add_record_agree (now key : Z) (packed : bytes) (s : BinTable.t) :
  settled s -> key <> 0 ->
  Seed.add_record now key packed s = BinTable.add_record now key packed s.
Proof.
  intros Hs Hkey. unfold Seed.add_record, BinTable.add_record, Seed._alloc.
  apply bind_ext_at. intros i s1 Ha.
  apply alloc_settled in Ha as [-> Hi]; [|apply Hs].
  specialize (Hi i eq_refl).
  apply bind_ext_at. intros [] s2 Hw.
  assert (Hs2 : settled s2).
  { destruct (write_raw_any _ _ _ _ _ (proj1 Hs) Hi Hw) as (Hwf2 & Hsi & Hh).
    apply (settled_same s); try assumption. now rewrite Hh. }
  rewrite (bind_unfold (Seed._find_slot key)).
  rewrite (bind_unfold (BinTable._find_slot_for_insert key)).
  rewrite find_slot_seed_run, find_slot_for_insert_run.
  rewrite insert_slot_seed; [|apply Hs2|exact Hkey|apply Hs2].
  destruct (seed_slot s2 key) as [e|[j [sl|]]]; reflexivity.
Qed.

Lemma seed_step_agree (o : op) (s : BinTable.t) :
  settled s -> op_key_live o -> seed_step o s = app_step o s.
Proof.
  intros Hs Hlive. destruct o as [now|now key packed|key|now key packed];
    try reflexivity.
  cbn [seed_step app_step]. unfold reply_of, BinTable.bind.
  rewrite seed_add_record_agree; [reflexivity|exact Hs|apply Hlive].
Qed.

Lemma run_ops_agree (ops : list op) (s : BinTable.t) :
  settled s -> Forall op_key_live ops ->
  run_ops seed_step ops s = run_ops app_step ops s.
Proof.
  revert s. induction ops as [|o ops IH]; intros s Hs Hlive; [reflexivity|].
  inversion Hlive as [|? ? Ho Hrest]; subst.
  cbn [run_ops]. rewrite (seed_step_agree o s Hs Ho).
  pose proof (app_step_settled o s Hs Ho) as Hs1.
  destruct (app_step o s) as [r s1]. cbn [snd] in Hs1.
  now rewrite (IH s1 Hs1 Hrest).
Qed.

Lemma seed_open_agree (now : Z) (magic : bytes) (rsize slots pad_off : Z)
    (disk : option file) :
  Seed.open now now magic rsize slots pad_off disk
  = BinTable.open now magic rsize slots pad_off disk.
Proof.
  reflexivity.
Qed.

(** A newly created table is settled. *)
Lemma open_new_settled (now : Z) (magic : bytes) (rsize slots pad_off : Z)
    (s : BinTable.t) :
  0 <= pad_off ->
  BinTable.open now magic rsize slots pad_off None = inr s -> settled s.
Proof.
  intros Hpad Hopen.
  apply open_new in Hopen as (Hwf & Hn & Hh & _ & _ & Hrd); [|exact Hpad].
  split; [exact Hwf|]. split; [now rewrite Hh|].
  intros j sl Hj Hsl. rewrite Hn in Hj. rewrite Hrd in Hsl by exact Hj.
  apply inr_inj in Hsl. subst sl. discriminate.
Qed.

(** C2 (as amended).  Opened on the same file with the same clock, the two
    implementations hold the same object; if the table is settled (no
    tombstone in the index, empty free list, as for every table on which
    nothing was deleted) then every sequence of [next_id], [add_record],
    [read_record] and [update_record] calls whose added keys are live keys
    gives the same replies, exceptions included, the same file bytes and the
    same cached header in both. *)
Theorem engines_agree_on_settled_tables (now : Z) (magic : bytes)
    (rsize slots pad_off : Z) (disk : option file) (sA sS : BinTable.t)
    (ops : list op) :
  BinTable.open now magic rsize slots pad_off disk = inr sA ->
  Seed.open now now magic rsize slots pad_off disk = inr sS ->
  settled sA -> Forall op_key_live ops ->
  sS = sA /\ run_ops seed_step ops sS = run_ops app_step ops sA.
Proof.
  intros HA HS Hs Hlive. rewrite seed_open_agree, HA in HS.
  apply inr_inj in HS. subst sS. split; [reflexivity|].
  now apply run_ops_agree.
Qed.

Lemma settled_cars4_new : settled cars4_new.
Proof.
  apply (open_new_settled 100 Cars.magic CARS_SIZE 4 CARS_PAD).
  - vm_compute. discriminate.
  - vm_compute. reflexivity.
Defined.

(** The witness: a new Cars table of four slots; identifiers are drawn, the
    colliding keys 1 and 5 are added, key 1 is added again, and records are
    read and updated. *)
Lemma engines_agree_on_settled_tables_witness :
  cars4_new = cars4_new
  /\ run_ops seed_step
       [Op_next_id 101; Op_add 102 1 (car_bytes 1); Op_add 103 5 (car_bytes 5);
        Op_add 104 1 (car_bytes 1); Op_read 5;
        Op_update 105 1 (car_bytes 7); Op_read 1] cars4_new
     = run_ops app_step
         [Op_next_id 101; Op_add 102 1 (car_bytes 1);
          Op_add 103 5 (car_bytes 5); Op_add 104 1 (car_bytes 1); Op_read 5;
          Op_update 105 1 (car_bytes 7); Op_read 1] cars4_new.
Proof.
  apply (engines_agree_on_settled_tables 100 Cars.magic CARS_SIZE 4 CARS_PAD
           None cars4_new cars4_new).
  - vm_compute. reflexivity.
  - vm_compute. reflexivity.
  - exact settled_cars4_new.
  - repeat (apply Forall_cons;
            [cbv [op_key_live live_key TOMBSTONE_KEY];
             try exact I; try (split; discriminate)|]).
    apply Forall_nil.
Defined.

(** C2 as stated fails.  In the table where key 1 (slot 1, now a tombstone)
    was deleted and key 5 is in slot 2, adding key 9 puts it in slot 1 with
    the application and in slot 3 with the seeding tool, so the files differ;
    and on the new table the application refuses key 0 as a duplicate where
    the seeding tool stores it. *)
Lemma engines_differ_on_tombstones :
  let s := after (BinTable.delete_record 110 1) cars4_collide in
  let sA := after (BinTable.add_record 111 9 (car_bytes 9)) s in
  let sS := after (Seed.add_record 111 9 (car_bytes 9)) s in
  slot_at sA 1 = inr (IndexSlot.mk 9 0)
  /\ slot_at sS 1 = inr (IndexSlot.mk TOMBSTONE_KEY 0)
  /\ slot_at sS 3 = inr (IndexSlot.mk 9 0)
  /\ BinTable.f sA <> BinTable.f sS
  /\ outcome (BinTable.add_record 101 0 (car_bytes 0)) cars4_new
     = inl ValueError_duplicate_key
  /\ outcome (Seed.add_record 101 0 (car_bytes 0)) cars4_new = inr 0.
Proof.
  cbv zeta.
  assert (H1 : slot_at
                 (after (BinTable.add_record 111 9 (car_bytes 9))
                    (after (BinTable.delete_record 110 1) cars4_collide)) 1
               = inr (IndexSlot.mk 9 0)) by (vm_compute; reflexivity).
  assert (H2 : slot_at
                 (after (Seed.add_record 111 9 (car_bytes 9))
                    (after (BinTable.delete_record 110 1) cars4_collide)) 1
               = inr (IndexSlot.mk TOMBSTONE_KEY 0))
    by (vm_compute; reflexivity).
  split; [exact H1|]. split; [exact H2|].
  split; [vm_compute; reflexivity|].
  split.
  - intros Hf. apply (slot_at_file _ _ 1) in Hf.
    rewrite H1, H2 in Hf. discriminate.
  - split; vm_compute; reflexivity.
Qed.

(** ** C7: the record codecs *)

(** Deciding a test of the decoder from the arithmetic of its bytes. *)
Ltac decide_test :=
  match goal with
  | |- context [?a <? ?b] =>
      first [ replace (a <? b) with true by (symmetry; apply Z.ltb_lt; lia)
            | replace (a <? b) with false by (symmetry; apply Z.ltb_ge; lia) ]
  | |- context [?a <=? ?b] =>
      first [ replace (a <=? b) with true by (symmetry; apply Z.leb_le; lia)
            | replace (a <=? b) with false by (symmetry; apply Z.leb_gt; lia) ]
  | |- context [?a =? ?b] =>
      first [ replace (a =? b) with false by (symmetry; apply Z.eqb_neq; lia)
            | replace (a =? b) with true by (symmetry; apply Z.eqb_eq; lia) ]
  end; cbv beta iota zeta; cbn [andb orb negb].

(** One step of the decoder. *)
Lemma utf8_decode_cons (c0 : byte) (r0 : bytes) :
  utf8_decode (c0 :: r0)
  = let b0 := b2z c0 in
    if b0 <? 0x80 then b0 :: utf8_decode r0
    else if (0xC2 <=? b0) && (b0 <=? 0xDF) then
      match r0 with
      | c1 :: r1 =>
          let b1 := b2z c1 in
          if is_cont b1
          then ((b0 - 0xC0) * 64 + (b1 - 0x80)) :: utf8_decode r1
          else utf8_decode r0
      | _ => utf8_decode r0
      end
    else if (0xE0 <=? b0) && (b0 <=? 0xEF) then
      match r0 with
      | c1 :: c2 :: r2 =>
          let b1 := b2z c1 in
          let b2 := b2z c2 in
          if second_ok b0 b1 && is_cont b2
          then ((b0 - 0xE0) * 4096 + (b1 - 0x80) * 64 + (b2 - 0x80))
               :: utf8_decode r2
          else utf8_decode r0
      | _ => utf8_decode r0
      end
    else if (0xF0 <=? b0) && (b0 <=? 0xF4) then
      match r0 with
      | c1 :: c2 :: c3 :: r3 =>
          let b1 := b2z c1 in
          let b2 := b2z c2 in
          let b3 := b2z c3 in
          if second_ok b0 b1 && is_cont b2 && is_cont b3
          then ((b0 - 0xF0) * 262144 + (b1 - 0x80) * 4096
                + (b2 - 0x80) * 64 + (b3 - 0x80)) :: utf8_decode r3
          else utf8_decode r0
      | _ => utf8_decode r0
      end
    else utf8_decode r0.
Proof.
  reflexivity.
Qed.

Section OneCodePoint.

Variables (r0 r1 r2 : Z) (rest : bytes).
Hypotheses (B0 : 0 <= r0 < 64) (B1 : 0 <= r1 < 64) (B2 : 0 <= r2 < 64).

Lemma decode_1 (c : Z) :
  0 <= c < 128 -> utf8_decode (z2b c :: rest) = c :: utf8_decode rest.
Proof.
  intros Hc. rewrite utf8_decode_cons, b2z_z2b by lia. cbv zeta.
  decide_test. reflexivity.
Qed.

Lemma decode_2 (m : Z) :
  2 <= m < 32 ->
  utf8_decode (z2b (192 + m) :: z2b (128 + r0) :: rest)
  = (64 * m + r0) :: utf8_decode rest.
Proof.
  intros Hm. rewrite utf8_decode_cons, !b2z_z2b by lia. cbv zeta.
  unfold is_cont. do 5 decide_test. f_equal. lia.
Qed.

Lemma decode_3 (m : Z) :
  0 <= m < 16 -> (m = 0 -> 32 <= r1) -> (m = 13 -> r1 < 32) ->
  utf8_decode (z2b (224 + m) :: z2b (128 + r1) :: z2b (128 + r0) :: rest)
  = (64 * (64 * m + r1) + r0) :: utf8_decode rest.
Proof.
  intros Hm Hlo Hhi. rewrite utf8_decode_cons, !b2z_z2b by lia. cbv zeta.
  do 5 decide_test.
  assert (Hok : second_ok (224 + m) (128 + r1) = true).
  { unfold second_ok, is_cont.
    destruct (Z.eqb_spec (224 + m) 224);
      [apply andb_true_intro; split; [apply Z.leb_le|apply Z.leb_le]; lia|].
    destruct (Z.eqb_spec (224 + m) 237);
      [apply andb_true_intro; split; [apply Z.leb_le|apply Z.leb_le]; lia|].
    destruct (Z.eqb_spec (224 + m) 240); [lia|].
    destruct (Z.eqb_spec (224 + m) 244); [lia|].
    apply andb_true_intro; split; apply Z.leb_le; lia. }
  rewrite Hok. unfold is_cont. do 2 decide_test. f_equal. lia.
Qed.

Lemma decode_4 (m : Z) :
  0 <= m < 5 -> (m = 0 -> 16 <= r2) -> (m = 4 -> r2 < 16) ->
  utf8_decode
    (z2b (240 + m) :: z2b (128 + r2) :: z2b (128 + r1) :: z2b (128 + r0)
     :: rest)
  = (64 * (64 * (64 * m + r2) + r1) + r0) :: utf8_decode rest.
Proof.
  intros Hm Hlo Hhi. rewrite utf8_decode_cons, !b2z_z2b by lia. cbv zeta.
  do 7 decide_test.
  assert (Hok : second_ok (240 + m) (128 + r2) = true).
  { unfold second_ok, is_cont.
    destruct (Z.eqb_spec (240 + m) 224); [lia|].
    destruct (Z.eqb_spec (240 + m) 237); [lia|].
    destruct (Z.eqb_spec (240 + m) 240);
      [apply andb_true_intro; split; [apply Z.leb_le|apply Z.leb_le]; lia|].
    destruct (Z.eqb_spec (240 + m) 244);
      [apply andb_true_intro; split; [apply Z.leb_le|apply Z.leb_le]; lia|].
    apply andb_true_intro; split; apply Z.leb_le; lia. }
  rewrite Hok. unfold is_cont. do 4 decide_test. f_equal. lia.
Qed.

End OneCodePoint.

(** The UTF-8 sequence of a code point decodes to it. *)
Lemma utf8_decode_encode_cp (c : Z) (rest : bytes) :
  scalar c ->
  utf8_decode (utf8_encode_cp c ++ rest) = c :: utf8_decode rest.
Proof.
  intros [Hr Hs]. unfold utf8_encode_cp.
  pose proof (Z.div_mod c 64 ltac:(lia)) as E1.
  pose proof (Z.mod_pos_bound c 64 ltac:(lia)) as B1.
  pose proof (Z.div_mod (c / 64) 64 ltac:(lia)) as E2.
  pose proof (Z.mod_pos_bound (c / 64) 64 ltac:(lia)) as B2.
  pose proof (Z.div_mod (c / 64 / 64) 64 ltac:(lia)) as E3.
  pose proof (Z.mod_pos_bound (c / 64 / 64) 64 ltac:(lia)) as B3.
  replace (c / 4096) with (c / 64 / 64)
    by (rewrite Z.div_div by lia; reflexivity).
  replace (c / 262144) with (c / 64 / 64 / 64)
    by (rewrite 2 Z.div_div by lia; reflexivity).
  set (r0 := c mod 64) in *. set (m1 := c / 64) in *.
  set (r1 := m1 mod 64) in *. set (m2 := m1 / 64) in *.
  set (r2 := m2 mod 64) in *. set (m3 := m2 / 64) in *.
  clearbody r0 m1 r1 m2 r2 m3.
  destruct (Z.ltb_spec c 128) as [H1|H1].
  { cbn [map app]. apply decode_1. lia. }
  destruct (Z.ltb_spec c 2048) as [H2|H2].
  { cbn [map app]. rewrite decode_2 by lia. f_equal. lia. }
  destruct (Z.ltb_spec c 65536) as [H3|H3].
  { replace ((55296 <=? c) && (c <=? 57343)) with false
      by (symmetry; apply andb_false_iff;
          destruct (Z.le_gt_cases 55296 c);
          [right; apply Z.leb_gt; lia|left; apply Z.leb_gt; lia]).
    cbn [map app].
    rewrite decode_3 by lia. f_equal. lia. }
  cbn [map app]. rewrite decode_4 by lia. f_equal. lia.
Qed.

Lemma utf8_decode_encode (s : pystr) :
  Forall scalar s -> utf8_decode (utf8_encode s) = s.
Proof.
  induction 1 as [|c s Hc _ IH]; [reflexivity|].
  unfold utf8_encode in *. cbn [flat_map].
  rewrite utf8_decode_encode_cp by exact Hc. now rewrite IH.
Qed.

Lemma rstrip0_zeros (k : nat) : rstrip0 (repeat x00 k) = [].
Proof.
  induction k as [|k IH]; [reflexivity|].
  cbn [repeat rstrip0]. now rewrite IH.
Qed.

Lemma rstrip0_app_zeros (b : bytes) (k : nat) :
  rstrip0 (b ++ repeat x00 k) = rstrip0 b.
Proof.
  induction b as [|x b IH]; [apply rstrip0_zeros|].
  cbn [app rstrip0]. now rewrite IH.
Qed.

Lemma rstrip0_id (b : bytes) : last b x01 <> x00 -> rstrip0 b = b.
Proof.
  induction b as [|x b IH]; [reflexivity|].
  destruct b as [|y b].
  - cbn. intros Hx. destruct (Byte.eqb x x00) eqn:Ex; [|reflexivity].
    apply Byte.byte_dec_bl in Ex. contradiction.
  - intros Hl. change (last (x :: y :: b) x01) with (last (y :: b) x01) in Hl.
    cbn [rstrip0] in *. rewrite (IH Hl). reflexivity.
Qed.

(** A text that fits its field comes back from the field. *)
Lemma dec_fit (s : pystr) (n : nat) :
  fits n s -> length (fit s n) = n /\ dec (fit s n) = s.
Proof.
  intros (Hsc & Hlen & Hlast). unfold fit, dec.
  rewrite firstn_all2 by exact Hlen.
  split.
  - rewrite length_app, repeat_length. lia.
  - rewrite rstrip0_app_zeros, rstrip0_id by exact Hlast.
    now apply utf8_decode_encode.
Qed.

Lemma pack_s_exact (n : nat) (b : bytes) : length b = n -> pack_s n b = b.
Proof.
  intros <-. unfold pack_s. rewrite firstn_all, Nat.sub_diag. cbn.
  apply app_nil_r.
Qed.

(** Cutting a packed record into its fields. *)
Ltac cut_fields :=
  repeat first
    [ rewrite slice_app_l by assumption
    | rewrite slice_app_r by lia;
      repeat match goal with
      | L : length ?a = _ |- context [length ?a] => rewrite L
      end;
      cbn [Nat.sub] ].

Lemma u8_pack (v : Z) :
  u8 v -> exists b, pack_uint E 1 v = inr b /\ length b = 1%nat
                    /\ unpack_uint E b = v.
Proof.
  intros Hv. exists (int_bytes E 1 v).
  assert (Hp : pack_uint E 1 v = inr (int_bytes E 1 v))
    by (apply pack_uint_ok; exact Hv).
  split; [exact Hp|]. split; [apply length_int_bytes|].
  now apply unpack_pack_uint in Hp.
Qed.

Lemma u16_pack (v : Z) :
  u16 v -> exists b, pack_uint E 2 v = inr b /\ length b = 2%nat
                     /\ unpack_uint E b = v.
Proof.
  intros Hv. exists (int_bytes E 2 v).
  assert (Hp : pack_uint E 2 v = inr (int_bytes E 2 v))
    by (apply pack_uint_ok; exact Hv).
  split; [exact Hp|]. split; [apply length_int_bytes|].
  now apply unpack_pack_uint in Hp.
Qed.

Lemma u32_pack (v : Z) :
  u32 v -> exists b, pack_uint E 4 v = inr b /\ length b = 4%nat
                     /\ unpack_uint E b = v.
Proof.
  intros Hv. exists (int_bytes E 4 v).
  assert (Hp : pack_uint E 4 v = inr (int_bytes E 4 v))
    by (apply pack_uint_ok; exact Hv).
  split; [exact Hp|]. split; [apply length_int_bytes|].
  now apply unpack_pack_uint in Hp.
Qed.

Ltac take_uint H :=
  let b := fresh "b" in
  let P := fresh "P" in
  let L := fresh "L" in
  let U := fresh "U" in
  first [ apply u8_pack in H as (b & P & L & U)
        | apply u16_pack in H as (b & P & L & U)
        | apply u32_pack in H as (b & P & L & U) ];
  rewrite P; cbn [bindR].

Ltac take_text H :=
  let L := fresh "L" in
  let D := fresh "D" in
  apply dec_fit in H as (L & D); rewrite (pack_s_exact _ _ L).

Lemma customer_round_trip (r : Customers.row) :
  representable (Customer r) ->
  exists raw, Customers.pack r = inr raw /\ length raw = 128%nat
    /\ Customers.unpack raw = inr r.
Proof.
  destruct r as [flag cid idc nam ph birth gen]. cbn.
  intros (Hf & Hc & Hi & Hn & Hp & Hb & Hg).
  unfold Customers.pack. cbn [Customers.flag Customers.cus_id
    Customers.id_card Customers.name Customers.phone Customers.birth_ymd
    Customers.gender].
  take_uint Hf. take_uint Hc. take_uint Hb. take_uint Hg.
  take_text Hi. take_text Hn. take_text Hp.
  eexists. split; [reflexivity|].
  assert (Hlen : length (b ++ b0 ++ fit idc 13 ++ fit nam 50 ++ fit ph 10
                         ++ b1 ++ b2 ++ repeat x00 45) = 128%nat).
  { rewrite !length_app, repeat_length, L, L0, L1, L2, L3, L4, L5.
    reflexivity. }
  split; [exact Hlen|].
  unfold Customers.unpack. rewrite Hlen.
  change (Z.of_nat 128 =? 128) with true. cbv iota.
  cut_fields. now rewrite U, U0, U1, U2, D, D0, D1.
Qed.

Lemma car_round_trip (r : Cars.row) :
  representable (Car r) ->
  exists raw, Cars.pack r = inr raw /\ length raw = 128%nat
    /\ Cars.unpack raw = inr r.
Proof.
  destruct r as [flag cid pl br md yr rt odo st up]. cbn.
  intros (Hf & Hc & Hpl & Hbr & Hmd & Hy & Hr & Ho & Hs & Hu).
  unfold Cars.pack. cbn [Cars.flag Cars.car_id Cars.license Cars.brand
    Cars.model Cars.year Cars.rate_cents Cars.odometer_km Cars.status
    Cars.updated_at].
  take_uint Hf. take_uint Hc. take_uint Hy. take_uint Hr. take_uint Ho.
  take_uint Hs. take_uint Hu.
  take_text Hpl. take_text Hbr. take_text Hmd.
  eexists. split; [reflexivity|].
  assert (Hlen : length (b ++ b0 ++ fit pl 12 ++ fit br 12 ++ fit md 16
                         ++ b1 ++ b2 ++ b3 ++ b4 ++ b5 ++ repeat x00 68)
                 = 128%nat).
  { rewrite !length_app, repeat_length, L, L0, L1, L2, L3, L4, L5, L6, L7,
      L8. reflexivity. }
  split; [exact Hlen|].
  unfold Cars.unpack. rewrite Hlen.
  change (Z.of_nat 128 =? 128) with true. cbv iota.
  cut_fields. now rewrite U, U0, U1, U2, U3, U4, U5, D, D0, D1.
Qed.

Lemma contract_round_trip (r : Contracts.row) :
  representable (Contract r) ->
  exists raw, Contracts.pack r = inr raw /\ length raw = 64%nat
    /\ Contracts.unpack raw = inr r.
Proof.
  destruct r as [flag rid cus car rent ret tot retd]. cbn.
  intros (Hf & Hr & Hc & Ha & He & Ht & Ho & Hd).
  unfold Contracts.pack. cbn [Contracts.flag Contracts.rent_id
    Contracts.cus_id Contracts.car_id Contracts.rent_ymd
    Contracts.return_ymd Contracts.total_cents Contracts.returned].
  take_uint Hf. take_uint Hr. take_uint Hc. take_uint Ha. take_uint He.
  take_uint Ht. take_uint Ho. take_uint Hd.
  eexists. split; [reflexivity|].
  assert (Hlen : length (b ++ b0 ++ b1 ++ b2 ++ b3 ++ b4 ++ b5 ++ b6
                         ++ repeat x00 38) = 64%nat).
  { rewrite !length_app, repeat_length, L, L0, L1, L2, L3, L4, L5, L6.
    reflexivity. }
  split; [exact Hlen|].
  unfold Contracts.unpack. rewrite Hlen.
  change (Z.of_nat 64 =? 64) with true. cbv iota.
  cut_fields. now rewrite U, U0, U1, U2, U3, U4, U5, U6.
Qed.

(** C7.  For each of the three tables, a record whose numbers are in the
    range of their fields and whose texts fit their fields (their UTF-8
    encoding is no longer than the field and does not end in a zero byte)
    packs into a buffer of the record size that unpacks to the same
    record. *)
Theorem codec_round_trip (v : row) :
  representable v ->
  exists raw, pack_row v = inr raw /\ unpack_like v raw = inr v.
Proof.
  destruct v as [r|r|r]; intros Hv; cbn [pack_row unpack_like].
  - destruct (customer_round_trip r Hv) as (raw & Hp & _ & Hu).
    exists raw. now rewrite Hu.
  - destruct (car_round_trip r Hv) as (raw & Hp & _ & Hu).
    exists raw. now rewrite Hu.
  - destruct (contract_round_trip r Hv) as (raw & Hp & _ & Hu).
    exists raw. now rewrite Hu.
Qed.

Lemma fits_by_computation (width : nat) (s : pystr) :
  forallb (fun c => (0 <=? c) && (c <? 0x110000)
                    && negb ((0xD800 <=? c) && (c <=? 0xDFFF))) s = true ->
  (length (utf8_encode s) <=? width)%nat = true ->
  Byte.eqb (last (utf8_encode s) x01) x00 = false ->
  fits width s.
Proof.
  intros Hsc Hlen Hlast. split; [|split].
  - apply Forall_forall. intros c Hc.
    rewrite forallb_forall in Hsc. specialize (Hsc c Hc).
    apply andb_true_iff in Hsc as [Hr Hs].
    apply andb_true_iff in Hr as [H0 H1].
    apply Z.leb_le in H0. apply Z.ltb_lt in H1.
    split; [lia|]. intros [Ha Hb].
    apply Z.leb_le in Ha. apply Z.leb_le in Hb.
    rewrite Ha, Hb in Hs. discriminate.
  - now apply Nat.leb_le.
  - now apply Byte.eqb_false.
Defined.

Lemma representable_customer_at_limits : representable customer_at_limits.
Proof.
  unfold representable, customer_at_limits, u8, u32.
  cbn [Customers.flag Customers.cus_id Customers.id_card Customers.name
       Customers.phone Customers.birth_ymd Customers.gender].
  split; [lia|]. split; [lia|].
  split; [apply fits_by_computation; vm_compute; reflexivity|].
  split; [apply fits_by_computation; vm_compute; reflexivity|].
  split; [apply fits_by_computation; vm_compute; reflexivity|].
  split; lia.
Defined.

(** The witness: the customer whose text fields are exactly 13, 50 and 10
    bytes long. *)
Lemma codec_round_trip_witness :
  exists raw,
    pack_row customer_at_limits = inr raw
    /\ unpack_like customer_at_limits raw = inr customer_at_limits.
Proof.
  apply (codec_round_trip customer_at_limits).
  exact representable_customer_at_limits.
Defined.

(** ** C8: the byte order of a header *)











(** ** C9: the tombstone mark used as a key *)

Lemma reachable_customers_1023_gone : reachable customers_1023_gone.
Proof.
  assert (R0 : reachable customers_new).
  { apply (reach_open 100 Customers.magic CUST_SIZE 1024 CUST_PAD);
      [vm_compute; discriminate|vm_compute; reflexivity]. }
  assert (R1 : reachable (after (add_cust 101 1023) customers_new)).
  { apply (reach_add customers_new 101 1023 (cust_bytes 1023) 0);
      [exact R0|]. vm_compute. reflexivity. }
  eapply (reach_delete _ 102 1023); [exact R1|].
  vm_compute. reflexivity.
Qed.

Lemma reachable_customers_1_and_1023_gone :
  reachable customers_1_and_1023_gone.
Proof.
  assert (R0 : reachable customers_new).
  { apply (reach_open 100 Customers.magic CUST_SIZE 1024 CUST_PAD);
      [vm_compute; discriminate|vm_compute; reflexivity]. }
  assert (R1 : reachable (after (add_cust 101 1) customers_new)).
  { apply (reach_add customers_new 101 1 (cust_bytes 1) 0); [exact R0|].
    vm_compute. reflexivity. }
  assert (R2 : reachable
                 (after (add_cust 102 1023)
                    (after (add_cust 101 1) customers_new))).
  { eapply (reach_add _ 102 1023 (cust_bytes 1023) 1); [exact R1|].
    vm_compute. reflexivity. }
  eapply (reach_delete _ 103 1023); [exact R2|].
  vm_compute. reflexivity.
Qed.

(** C9.  There is a reachable state in which the tombstone mark is looked
    up like a key.  The Customers table of 1024 slots after adding keys 1
    and 1023 and deleting key 1023 is reachable; [0xFFFFFFFF] hashes to
    slot 1023, which holds the tombstone of key 1023 with record index 0.
    There [read_record(0xFFFFFFFF)] returns the 128 bytes of record 0 (the
    live record of key 1) and [delete_record(0xFFFFFFFF)] returns: it
    clears the flag of record 0, makes it the head of the free list and
    moves the counters, while key 1 still points to that record.  In the
    table of the claim's example (key 1023 added and deleted, nothing
    else), which is reachable too, the slot and what [read_record] returns
    are the same; [delete_record(0xFFFFFFFF)] changes record 0, the free
    list and the cached counters there as well ([active_count] becomes
    -1), and then raises [struct.error] when the header is packed. *)
Theorem tombstone_key_is_looked_up :
  let T := TOMBSTONE_KEY in
  let s1 := customers_1023_gone in
  let s2 := customers_1_and_1023_gone in
  let s1' := after (BinTable.delete_record 120 T) s1 in
  let s2' := after (BinTable.delete_record 120 T) s2 in
  (reachable s1 /\ reachable s2)
  /\ outcome (BinTable._hash T) s1 = inr 1023
  /\ slot_at s1 1023 = inr (IndexSlot.mk T 0)
  /\ slot_at s2 1023 = inr (IndexSlot.mk T 0)
  /\ (exists raw, outcome (BinTable._read_raw 0) s1 = inr raw
        /\ length raw = 128%nat
        /\ outcome (BinTable.read_record T) s1 = inr (Some raw))
  /\ outcome (BinTable.read_record T) s2 = inr (Some (cust_bytes 1))
  /\ outcome (BinTable.delete_record 120 T) s2 = inr tt
  /\ outcome (BinTable._lookup 1) s2' = inr (Some 0)
  /\ option_map (fun b => nth 0 b x01)
       (match outcome (BinTable.read_record 1) s2' with
        | inr b => b
        | inl _ => None
        end) = Some x00
  /\ (Header.free_head (BinTable.h s2), Header.free_head (BinTable.h s2'))
     = (1, 0)
  /\ (Header.active_count (BinTable.h s2),
      Header.active_count (BinTable.h s2')) = (1, 0)
  /\ (Header.deleted_count (BinTable.h s2),
      Header.deleted_count (BinTable.h s2')) = (1, 2)
  /\ outcome (BinTable.delete_record 120 T) s1 = inl StructError
  /\ (Header.active_count (BinTable.h s1),
      Header.active_count (BinTable.h s1')) = (0, -1)
  /\ (Header.deleted_count (BinTable.h s1),
      Header.deleted_count (BinTable.h s1')) = (1, 2)
  /\ (pread (BinTable.f s1)
        (BinTable._record_ofs s1 0 + BinTable.pad_off s1) 4,
      pread (BinTable.f s1')
        (BinTable._record_ofs s1 0 + BinTable.pad_off s1) 4)
     = ([xff; xff; xff; xff], [x00; x00; x00; x00]).
Proof.
  cbv zeta.
  split; [split; [exact reachable_customers_1023_gone
                 |exact reachable_customers_1_and_1023_gone]|].
  vm_compute.
  repeat match goal with
  | |- _ /\ _ => split
  | |- exists _, _ => eexists
  end; reflexivity.
Qed.

(** ** C10: [return_car] *)

Lemma on_contracts_read_record (rid : Z) (app : App) :
  on_contracts (BinTable.read_record rid) app
  = (outcome (BinTable.read_record rid) (contracts app), app).
Proof.
  unfold on_contracts, outcome.
  pose proof (read_record_state rid (contracts app)) as Hst.
  destruct (BinTable.read_record rid (contracts app)) as [res c].
  cbn [fst snd] in *. subst c. now destruct app.
Qed.

Lemma return_car_state (py_int : string -> option Z)
    (py_strip : string -> string) (clock : nat -> Z)
    (line1 line2 : string) (app : App) :
  snd (return_car py_int py_strip clock line1 line2 app) = app.
Proof.
  unfold return_car.
  destruct (py_int line1) as [rid|]; cbn [bindR]; [|reflexivity].
  destruct (ymd_to_int py_int (py_strip line2)) as [e|ret]; cbn [bindR];
    [reflexivity|].
  unfold abind at 1. rewrite on_contracts_read_record.
  destruct (outcome (BinTable.read_record rid) (contracts app))
    as [e|[[|b raw]|]]; try reflexivity.
  unfold abind at 1, alift at 1.
  destruct (Contracts.unpack (b :: raw)) as [e|r]; [reflexivity|].
  destruct (Contracts.returned r =? 1); [reflexivity|].
  destruct (ret <? Contracts.rent_ymd r); reflexivity.
Qed.

(** C10.  When both inputs parse, the contract exists, is not returned and
    the return date is not before the rental date, [return_car] raises
    [UnboundLocalError]; and whatever the inputs, [return_car] leaves the
    three tables as they were. *)
Theorem return_car_raises_unbound_local
    (py_int : string -> option Z) (py_strip : string -> string)
    (clock : nat -> Z) (line1 line2 : string) (app : App)
    (rid ret : Z) (raw : bytes) (r : Contracts.row) :
  py_int line1 = Some rid ->
  ymd_to_int py_int (py_strip line2) = inr ret ->
  outcome (BinTable.read_record rid) (contracts app) = inr (Some raw) ->
  raw <> [] ->
  Contracts.unpack raw = inr r ->
  Contracts.returned r <> 1 ->
  Contracts.rent_ymd r <= ret ->
  return_car py_int py_strip clock line1 line2 app
  = (inl UnboundLocalError, app)
  /\ (forall l1 l2,
        snd (return_car py_int py_strip clock l1 l2 app) = app).
Proof.
  intros Hrid Hret Hraw Hne Hr Hopen Hdate.
  split; [|intros l1 l2; apply return_car_state].
  unfold return_car. rewrite Hrid, Hret. cbn [bindR].
  unfold abind at 1. rewrite on_contracts_read_record, Hraw.
  destruct raw as [|b raw]; [congruence|].
  unfold abind at 1, alift at 1. rewrite Hr.
  destruct (Z.eqb_spec (Contracts.returned r) 1) as [E|_]; [congruence|].
  destruct (Z.ltb_spec ret (Contracts.rent_ymd r)) as [E|_]; [lia|].
  reflexivity.
Qed.

(** The witness: contract 1 of [example_app], opened on 2024-01-01, returned
    on 2024-01-05. *)
Lemma return_car_raises_unbound_local_witness :
  return_car digits_int (fun s => s) (fun _ => 200) "1" "2024-01-05"
    example_app
  = (inl UnboundLocalError, example_app)
  /\ (forall l1 l2,
        snd (return_car digits_int (fun s => s) (fun _ => 200) l1 l2
               example_app) = example_app).
Proof.
  apply (return_car_raises_unbound_local digits_int (fun s => s)
           (fun _ => 200) "1" "2024-01-05" example_app 1 20240105
           (match Contracts.pack open_contract with
            | inr b => b
            | inl _ => []
            end) open_contract).
  - reflexivity.
  - vm_compute. reflexivity.
  - vm_compute. reflexivity.
  - vm_compute. discriminate.
  - vm_compute. reflexivity.
  - vm_compute. discriminate.
  - vm_compute. discriminate.
Defined.

(** * More of the engine *)

(** ** What every method keeps *)

Lemma keeps_consts_bind {A B : Type} (m : BinTable.M A)
    (k : A -> BinTable.M B) :
  keeps_consts m -> (forall a, keeps_consts (k a)) ->
  keeps_consts (BinTable.bind m k).
Proof.
  intros Hm Hk s. unfold BinTable.bind. specialize (Hm s).
  destruct (m s) as [[e|a] s1]; cbn [snd] in *; [exact Hm|].
  rewrite (Hk a s1). exact Hm.
Qed.

Lemma reads_only_consts {A : Type} (m : BinTable.M A) :
  reads_only m -> keeps_consts m.
Proof.
  intros H s. now rewrite H.
Qed.

Lemma reads_only_bind {A B : Type} (m : BinTable.M A)
    (k : A -> BinTable.M B) :
  reads_only m -> (forall a, reads_only (k a)) ->
  reads_only (BinTable.bind m k).
Proof.
  intros Hm Hk s. unfold BinTable.bind. specialize (Hm s).
  destruct (m s) as [[e|a] s1]; cbn [snd] in *; [exact Hm|].
  rewrite (Hk a s1). exact Hm.
Qed.

Lemma reads_only_seek_read (off n : Z) :
  reads_only (BinTable.seek_read off n).
Proof.
  intros s. apply seek_read_state.
Qed.

Lemma reads_only_lookup (key : Z) : reads_only (BinTable._lookup key).
Proof.
  intros s. now rewrite lookup_run.
Qed.

Lemma reads_only_slot_of_key (key : Z) :
  reads_only (BinTable._slot_of_key key).
Proof.
  intros s. now rewrite slot_of_key_run.
Qed.

Lemma reads_only_find_slot_for_insert (key : Z) :
  reads_only (BinTable._find_slot_for_insert key).
Proof.
  intros s. now rewrite find_slot_for_insert_run.
Qed.

Lemma reads_only_records_count : reads_only BinTable._records_count.
Proof.
  intros s. apply records_count_run.
Qed.

Lemma reads_only_read_raw (i : Z) : reads_only (BinTable._read_raw i).
Proof.
  intros s. rewrite read_raw_run. apply seek_read_state.
Qed.

Lemma reads_only_read_record (key : Z) :
  reads_only (BinTable.read_record key).
Proof.
  intros s. apply read_record_state.
Qed.

Lemma keeps_consts_seek_write (off : Z) (d : result bytes) :
  keeps_consts (BinTable.seek_write off d).
Proof.
  intros s. unfold BinTable.seek_write.
  destruct (off <? 0); [reflexivity|]. now destruct d.
Qed.

Ltac consts_step :=
  first
    [ apply keeps_consts_seek_write
    | apply reads_only_consts;
      first [ apply reads_only_seek_read | apply reads_only_lookup
            | apply reads_only_slot_of_key
            | apply reads_only_find_slot_for_insert
            | apply reads_only_records_count | apply reads_only_read_raw ]
    | match goal with
      | |- keeps_consts (match ?x with _ => _ end) => destruct x
      | |- keeps_consts (if ?c then _ else _) => destruct c
      end
    | apply keeps_consts_bind; [|intros ?]
    | intros ?; reflexivity ].

Lemma keeps_consts_write_header (now : Z) :
  keeps_consts (BinTable._write_header now).
Proof.
  unfold BinTable._write_header, BinTable._sync. repeat consts_step.
Qed.

Lemma keeps_consts_write_raw (i : Z) (d : bytes) :
  keeps_consts (BinTable._write_raw i d).
Proof.
  unfold BinTable._write_raw. repeat consts_step.
Qed.

Lemma keeps_consts_alloc : keeps_consts BinTable._alloc_rec_index.
Proof.
  unfold BinTable._alloc_rec_index. repeat consts_step.
Qed.

Lemma keeps_consts_add_record (now key : Z) (packed : bytes) :
  keeps_consts (BinTable.add_record now key packed).
Proof.
  unfold BinTable.add_record, BinTable._write_slot, BinTable._sync.
  apply keeps_consts_bind; [apply keeps_consts_alloc|intros i].
  apply keeps_consts_bind; [apply keeps_consts_write_raw|intros _].
  apply keeps_consts_bind;
    [apply reads_only_consts, reads_only_find_slot_for_insert|intros j].
  apply keeps_consts_bind; [apply keeps_consts_seek_write|intros _].
  apply keeps_consts_bind; [intros ?; reflexivity|intros ac].
  apply keeps_consts_bind; [intros ?; reflexivity|intros _].
  apply keeps_consts_bind; [apply keeps_consts_write_header|intros _].
  apply keeps_consts_bind; [intros ?; reflexivity|intros ? ?; reflexivity].
Qed.

Lemma keeps_consts_update_record (now key : Z) (packed : bytes) :
  keeps_consts (BinTable.update_record now key packed).
Proof.
  unfold BinTable.update_record, BinTable._sync.
  apply keeps_consts_bind;
    [apply reads_only_consts, reads_only_lookup|intros [ri|]];
    [|intros ?; reflexivity].
  apply keeps_consts_bind; [apply keeps_consts_write_raw|intros _].
  apply keeps_consts_bind; [apply keeps_consts_write_header|intros _].
  intros ?; reflexivity.
Qed.

Lemma keeps_consts_next_id (now : Z) : keeps_consts (BinTable.next_id now).
Proof.
  unfold BinTable.next_id.
  apply keeps_consts_bind; [intros ?; reflexivity|intros nid].
  apply keeps_consts_bind; [intros ?; reflexivity|intros _].
  apply keeps_consts_bind; [apply keeps_consts_write_header|intros _].
  intros ?; reflexivity.
Qed.

Lemma keeps_consts_delete_record (now key : Z) :
  keeps_consts (BinTable.delete_record now key).
Proof.
  unfold BinTable.delete_record, BinTable._write_next_free,
    BinTable._write_slot, BinTable._sync.
  apply keeps_consts_bind;
    [apply reads_only_consts, reads_only_lookup|intros [ri|]];
    [|intros ?; reflexivity].
  apply keeps_consts_bind;
    [apply reads_only_consts, reads_only_read_raw|intros [|b0 rest]];
    [intros ?; reflexivity|].
  apply keeps_consts_bind; [apply keeps_consts_write_raw|intros _].
  apply keeps_consts_bind; [intros ?; reflexivity|intros fh].
  apply keeps_consts_bind;
    [apply keeps_consts_bind;
       [intros ?; reflexivity|intros ?; apply keeps_consts_seek_write]
    |intros _].
  apply keeps_consts_bind; [intros ?; reflexivity|intros _].
  apply keeps_consts_bind;
    [apply reads_only_consts, reads_only_slot_of_key|intros sj].
  apply keeps_consts_bind;
    [destruct sj; [apply keeps_consts_seek_write|intros ?; reflexivity]
    |intros _].
  apply keeps_consts_bind; [intros ?; reflexivity|intros ac].
  apply keeps_consts_bind; [intros ?; reflexivity|intros _].
  apply keeps_consts_bind; [intros ?; reflexivity|intros dc].
  apply keeps_consts_bind; [intros ?; reflexivity|intros _].
  apply keeps_consts_bind; [apply keeps_consts_write_header|intros _].
  intros ?; reflexivity.
Qed.

Lemma keeps_consts_do_call (c : call) : keeps_consts (do_call c).
Proof.
  destruct c; cbn [do_call].
  - apply keeps_consts_bind; [apply keeps_consts_next_id|].
    intros ? ?; reflexivity.
  - apply keeps_consts_bind; [apply keeps_consts_add_record|].
    intros ? ?; reflexivity.
  - apply keeps_consts_update_record.
  - apply keeps_consts_delete_record.
Qed.

(** What [consts] says in the words of the other predicates. *)
Lemma consts_layout (s s' : BinTable.t) :
  consts s' = consts s ->
  same_layout s s' /\ BinTable.magic s' = BinTable.magic s
  /\ BinTable.slots s' = BinTable.slots s
  /\ Header.magic (BinTable.h s') = Header.magic (BinTable.h s)
  /\ Header.endian (BinTable.h s') = Header.endian (BinTable.h s)
  /\ Header.record_size (BinTable.h s')
     = Header.record_size (BinTable.h s).
Proof.
  unfold consts, same_layout, nslots. intros H. inversion H.
  repeat split; assumption.
Qed.

(** ** The header in the file *)

Lemma ensures_bind_r {A B : Type} (m : BinTable.M A)
    (k : A -> BinTable.M B) (Q : BinTable.t -> Prop) :
  (forall a, ensures (k a) Q) -> ensures (BinTable.bind m k) Q.
Proof.
  intros Hk s b s' H. bind_ok H. eapply Hk. exact H.
Qed.

Lemma ensures_bind_l {A B : Type} (m : BinTable.M A)
    (k : A -> BinTable.M B) (Q : BinTable.t -> Prop) :
  ensures m Q -> (forall a, reads_only (k a)) ->
  ensures (BinTable.bind m k) Q.
Proof.
  intros Hm Hk s b s' H. bind_ok H.
  pose proof (Hk a s0) as Hs. rewrite H in Hs. cbn in Hs. subst s'.
  eapply Hm. exact Hstep.
Qed.

Lemma ensures_raise {A : Type} (e : exn) (Q : BinTable.t -> Prop) :
  ensures (@BinTable.raise A e) Q.
Proof.
  intros s a s' H. discriminate.
Qed.

Lemma ensures_write_header (now : Z) :
  ensures (BinTable._write_header now) synced.
Proof.
  intros s [] s' H. apply write_header_inv in H as (b & Hb & Lb & ->).
  exists b. split; [exact Hb|].
  cbn [BinTable.f BinTable.set_f BinTable.set_h].
  replace HEADER_SIZE with (Z.of_nat (length b)) by (rewrite Lb; reflexivity).
  apply pread_pwrite_same.
Qed.

Ltac synced_step :=
  first
    [ apply ensures_bind_l;
      [ apply ensures_write_header | intros ? ?; reflexivity ]
    | apply ensures_raise
    | match goal with
      | |- ensures (match ?x with _ => _ end) _ => destruct x
      end
    | apply ensures_bind_r; intros ? ].

Lemma ensures_synced_do_call (c : call) : ensures (do_call c) synced.
Proof.
  destruct c; cbn [do_call].
  - apply ensures_bind_l; [|intros ? ?; reflexivity].
    unfold BinTable.next_id. repeat synced_step.
  - apply ensures_bind_l; [|intros ? ?; reflexivity].
    unfold BinTable.add_record.
    do 6 (apply ensures_bind_r; intros ?).
    apply ensures_bind_l; [apply ensures_write_header|].
    intros ? ?; reflexivity.
  - unfold BinTable.update_record.
    apply ensures_bind_r; intros [ri|]; [|apply ensures_raise].
    apply ensures_bind_r; intros ?.
    apply ensures_bind_l; [apply ensures_write_header|].
    intros ? ?; reflexivity.
  - unfold BinTable.delete_record.
    apply ensures_bind_r; intros [ri|]; [|apply ensures_raise].
    apply ensures_bind_r; intros [|b0 rest]; [apply ensures_raise|].
    do 10 (apply ensures_bind_r; intros ?).
    apply ensures_bind_l; [apply ensures_write_header|].
    intros ? ?; reflexivity.
Qed.

(** [Header.unpack] gives back what [Header.pack] was given, in either byte
    order. *)
Lemma header_unpack_pack (o : byteorder) (hd : Header.t) (b : bytes) :
  Header.pack_with o hd = inr b -> length (Header.magic hd) = 4%nat ->
  Header.unpack_with o b = inr hd.
Proof.
  destruct hd as [mg ver en rsz cre upd nid act del fre slo].
  unfold Header.pack_with.
  cbn [Header.magic Header.version Header.endian Header.record_size
    Header.created_at Header.updated_at Header.next_id Header.active_count
    Header.deleted_count Header.free_head Header.index_slots].
  destruct (pack_uint o 1 ver) as [|b1] eqn:P1; [discriminate|].
  destruct (pack_uint o 1 en) as [|b2] eqn:P2; [discriminate|].
  destruct (pack_uint o 2 rsz) as [|b3] eqn:P3; [discriminate|].
  destruct (pack_uint o 4 cre) as [|b4] eqn:P4; [discriminate|].
  destruct (pack_uint o 4 upd) as [|b5] eqn:P5; [discriminate|].
  destruct (pack_uint o 4 nid) as [|b6] eqn:P6; [discriminate|].
  destruct (pack_uint o 4 act) as [|b7] eqn:P7; [discriminate|].
  destruct (pack_uint o 4 del) as [|b8] eqn:P8; [discriminate|].
  destruct (pack_int o 4 fre) as [|b9] eqn:P9; [discriminate|].
  destruct (pack_uint o 4 slo) as [|b10] eqn:P10; [discriminate|].
  cbn [bindR]. intros Hb Lm. apply inr_inj in Hb. subst b.
  rewrite (pack_s_exact _ _ Lm).
  pose proof (pack_uint_inv _ _ _ _ P1) as (_ & _ & L1).
  pose proof (pack_uint_inv _ _ _ _ P2) as (_ & _ & L2).
  pose proof (pack_uint_inv _ _ _ _ P3) as (_ & _ & L3).
  pose proof (pack_uint_inv _ _ _ _ P4) as (_ & _ & L4).
  pose proof (pack_uint_inv _ _ _ _ P5) as (_ & _ & L5).
  pose proof (pack_uint_inv _ _ _ _ P6) as (_ & _ & L6).
  pose proof (pack_uint_inv _ _ _ _ P7) as (_ & _ & L7).
  pose proof (pack_uint_inv _ _ _ _ P8) as (_ & _ & L8).
  pose proof (pack_int4_inv _ _ _ P9) as (_ & L9 & U9).
  pose proof (pack_uint_inv _ _ _ _ P10) as (_ & _ & L10).
  apply unpack_pack_uint in P1, P2, P3, P4, P5, P6, P7, P8, P10.
  unfold Header.unpack_with.
  assert (Hlen : length (mg ++ b1 ++ b2 ++ b3 ++ b4 ++ b5 ++ b6 ++ b7
                         ++ b8 ++ b9 ++ b10 ++ repeat x00 92) = 128%nat).
  { rewrite !length_app, repeat_length, Lm, L1, L2, L3, L4, L5, L6, L7, L8,
      L9, L10. reflexivity. }
  rewrite Hlen. change (Z.of_nat 128 =? 128) with true. cbv iota.
  cut_fields. now rewrite P1, P2, P3, P4, P5, P6, P7, P8, U9, P10.
Qed.

Lemma bytes_eqb_refl (b : bytes) : bytes_eqb b b = true.
Proof.
  induction b as [|x b IH]; [reflexivity|]. cbn [bytes_eqb]. rewrite IH.
  destruct (Byte.eqb x x) eqn:Ex; [reflexivity|].
  apply Byte.eqb_false in Ex. congruence.
Qed.

(** Opening the file of a table whose header is in it gives the table. *)
Lemma open_synced (now : Z) (s : BinTable.t) :
  synced s -> own_header s ->
  BinTable.open now (BinTable.magic s) (BinTable.rsize s) (BinTable.slots s)
    (BinTable.pad_off s) (Some (BinTable.f s)) = inr s.
Proof.
  intros (b & Hb & Hrd) (Hm & Lm & Hr).
  unfold BinTable.open. rewrite Hrd.
  unfold Header.pack in Hb. unfold Header.unpack.
  rewrite (header_unpack_pack E _ _ Hb) by (now rewrite Hm).
  cbn [bindR]. rewrite Hm, Hr, bytes_eqb_refl, Z.eqb_refl. cbn.
  now destruct s.
Qed.

Lemma own_header_consts (s s' : BinTable.t) :
  consts s' = consts s -> own_header s -> own_header s'.
Proof.
  intros H (Hm & Lm & Hr).
  apply consts_layout in H as ((_ & Hrs & _) & Hmg & _ & Hhm & _ & Hhr).
  unfold own_header. rewrite Hhm, Hmg, Hhr, Hrs. auto.
Qed.

Lemma bytes_eqb_eq (a b : bytes) : bytes_eqb a b = true -> a = b.
Proof.
  revert b. induction a as [|x a IH]; intros [|y b]; cbn [bytes_eqb];
    try discriminate; [reflexivity|].
  intros H. apply andb_prop in H as (Hx & Hab).
  apply Byte.byte_dec_bl in Hx. f_equal; auto.
Qed.

(** The header of a table that [open] returned is its own. *)
Lemma open_own_header (now : Z) (magic : bytes) (rsize slots pad_off : Z)
    (disk : option file) (s : BinTable.t) :
  length magic = 4%nat ->
  BinTable.open now magic rsize slots pad_off disk = inr s ->
  own_header s /\ BinTable.magic s = magic /\ BinTable.rsize s = rsize
  /\ BinTable.slots s = slots /\ BinTable.pad_off s = pad_off.
Proof.
  intros Lm. unfold BinTable.open. destruct disk as [fl|].
  - destruct (Header.unpack _) as [e|hd]; [discriminate|]. cbn [bindR].
    destruct (bytes_eqb (Header.magic hd) magic) eqn:Em;
      [|discriminate].
    destruct (Z.eqb_spec (Header.record_size hd) rsize); [|discriminate].
    cbn. intros H; apply inr_inj in H; subst s.
    apply bytes_eqb_eq in Em. repeat split; assumption.
  - destruct (Header.pack _) as [e|b]; [discriminate|]. cbn [bindR].
    destruct (BinTable.write_empty_slots _ _) as [e|fl]; [discriminate|].
    cbn [bindR]. intros H; apply inr_inj in H; subst s.
    repeat split; assumption.
Qed.

(** ** The bytes of the file after a call *)

Lemma add_record_file (now key : Z) (packed : bytes) (s s' : BinTable.t)
    (i : Z) :
  wf s -> BinTable.add_record now key packed s = (inr i, s') ->
  exists j bs hb,
    insert_slot s key = inr j /\ 0 <= j < nslots s
    /\ length bs = 16%nat /\ length hb = 128%nat
    /\ BinTable.f s'
       = pwrite
           (pwrite (pwrite (BinTable.f s) (BinTable._record_ofs s i) packed)
              (BinTable._index_ofs j) bs) 0 hb.
Proof.
  intros Hwf H.
  destruct (add_record_ok _ _ _ _ _ _ Hwf H)
    as (s1' & j' & Halloc' & Hi & _ & Hlen & Hins' & Hj' & _).
  unfold BinTable.add_record in H.
  bind_ok H. rename a into i0, s0 into s1, Hstep into Halloc.
  bind_ok H. rename s0 into s2, Hstep into Hraw. destruct a.
  bind_ok H. rename a into j, s0 into s2', Hstep into Hfind.
  bind_ok H. rename s0 into s3, Hstep into Hslot. destruct a.
  unfold BinTable.bind at 1 in H. cbn [BinTable.get] in H.
  unfold BinTable.bind at 1 in H. cbn [BinTable.modify_h] in H.
  bind_ok H. rename s0 into s5, Hstep into Hhdr. destruct a.
  unfold BinTable.bind, BinTable._sync, BinTable.ret in H. inv_pair H.
  rewrite Halloc in Halloc'. injection Halloc' as <-.
  destruct (alloc_file _ _ _ Halloc) as (Hf1 & Hn1 & Hr1 & Hp1 & _).
  assert (Hwf1 : wf s1) by (eapply wf_transport; eassumption).
  apply write_raw_inv in Hraw as (_ & _ & ->).
  rewrite find_slot_for_insert_run in Hfind. injection Hfind as Hins <-.
  apply write_slot_inv in Hslot as (bs & Hbs & _ & ->).
  destruct (slot_unpack_pack _ _ Hbs) as (Lbs & _).
  assert (Hsi : same_index s
                  (BinTable.set_f
                     (pwrite (BinTable.f s1) (BinTable._record_ofs s1 i)
                        packed) s1)).
  { apply (same_index_trans s s1); [now apply same_index_file|].
    apply same_index_pwrite_above; [assumption|].
    apply record_ofs_above; lia. }
  rewrite (insert_slot_same_index _ _ _ Hsi) in Hins.
  rewrite Hins in Hins'. apply inr_inj in Hins'. subst j'.
  apply write_header_inv in Hhdr as (hb & _ & Lhb & ->).
  exists j, bs, hb. repeat split; try assumption; try lia.
  cbn [BinTable.f BinTable.set_f BinTable.set_h]. rewrite Hf1.
  replace (BinTable._record_ofs s1 i) with (BinTable._record_ofs s i);
    [reflexivity|].
  unfold BinTable._record_ofs, BinTable._records_region_ofs.
  fold (nslots s) (nslots s1). now rewrite Hn1, Hr1.
Qed.

(** A record read back through writes of a slot and of the header. *)
Lemma pread_record_written (fl : file) (ofs iofs : Z) (d bs hb : bytes) :
  128 <= iofs -> iofs + Z.of_nat (length bs) <= ofs ->
  length hb = 128%nat ->
  pread (pwrite (pwrite (pwrite fl ofs d) iofs bs) 0 hb) ofs
    (Z.of_nat (length d)) = d.
Proof.
  intros Hi Ho Lhb.
  rewrite pread_pwrite_above by (rewrite ?Lhb; lia).
  rewrite pread_pwrite_above by lia.
  apply pread_pwrite_same.
Qed.

Lemma index_ofs_range (s : BinTable.t) (j : Z) :
  0 <= j < nslots s ->
  128 <= BinTable._index_ofs j
  /\ BinTable._index_ofs j + 16 <= BinTable._records_region_ofs s.
Proof.
  unfold BinTable._index_ofs, BinTable._records_region_ofs, HEADER_SIZE,
    INDEX_SLOT_SIZE. fold (nslots s). lia.
Qed.

(** What a returning [add_record] leaves: the key is found, at the record
    that holds the bytes given. *)
Lemma add_record_found (now key : Z) (packed : bytes) (s s' : BinTable.t)
    (i : Z) :
  wf s -> BinTable.add_record now key packed s = (inr i, s') ->
  exists j,
    find_slot s' key = inr (Some (j, IndexSlot.mk key i))
    /\ outcome (BinTable._read_raw i) s' = inr packed.
Proof.
  intros Hwf H.
  destruct (add_record_file _ _ _ _ _ _ Hwf H)
    as (j & bs & hb & Hins & Hj & Lbs & Lhb & Hf).
  apply add_record_ok in H
    as (s1 & j' & _ & Hi & _ & Hlen & Hins' & _ & Hwf' & Hn' & Hr' & _
        & Hslots & _); [|exact Hwf].
  rewrite Hins in Hins'. apply inr_inj in Hins'. subst j'.
  exists j. split.
  - unfold find_slot. rewrite Hn'. unfold insert_slot in Hins.
    destruct (Z.eqb_spec (nslots s) 0); [discriminate|].
    eapply (probe_find_after_insert (nslots s) ltac:(lia) (slot_at s));
      [| exact Hins | exact Hslots | reflexivity ]. lia.
  - unfold outcome. rewrite read_raw_run.
    assert (Hofs : BinTable._record_ofs s' i = BinTable._record_ofs s i).
    { unfold BinTable._record_ofs, BinTable._records_region_ofs.
      fold (nslots s) (nslots s'). now rewrite Hn', Hr'. }
    assert (Hrs : 0 <= BinTable.rsize s) by lia.
    pose proof (record_ofs_above s i Hi Hrs) as Habove.
    pose proof (region_nonneg s Hwf) as Hreg.
    destruct (index_ofs_range s j Hj) as (Hlo & Hhi).
    rewrite seek_read_ok by lia. cbn [fst].
    rewrite Hofs, Hr', Hf, <- Hlen. f_equal.
    apply pread_record_written; [lia|rewrite Lbs; lia|exact Lhb].
Qed.

(** A returning [update_record]. *)
Lemma update_record_ok (now key : Z) (packed : bytes) (s s' : BinTable.t) :
  wf s -> BinTable.update_record now key packed s = (inr tt, s') ->
  exists j sl hb,
    find_slot s key = inr (Some (j, sl))
    /\ Z.of_nat (length packed) = BinTable.rsize s
    /\ length hb = 128%nat
    /\ BinTable.f s'
       = pwrite
           (pwrite (BinTable.f s)
              (BinTable._record_ofs s (IndexSlot.rec_index sl)) packed) 0 hb
    /\ BinTable.h s' = Header.set_updated_at now (BinTable.h s)
    /\ wf s' /\ same_index s s' /\ same_layout s s'.
Proof.
  intros Hwf H.
  assert (Hlay : same_layout s s').
  { pose proof (keeps_consts_update_record now key packed s) as Hc.
    rewrite H in Hc. now apply consts_layout in Hc as (Hlay & _). }
  unfold BinTable.update_record in H.
  bind_ok H. rename Hstep into Hlook.
  rewrite lookup_run in Hlook. injection Hlook as Hlook <-.
  destruct (find_slot s key) as [e|[[j sl]|]] eqn:Hfind;
    cbn [bindR option_map snd] in Hlook; try discriminate;
    apply inr_inj in Hlook; subst a; [|discriminate].
  set (ri := IndexSlot.rec_index sl) in *.
  destruct (find_slot_some s key j sl (proj1 Hwf) Hfind)
    as (Hj & Hsl & Hk & Hnz).
  assert (Hri : 0 <= ri) by (apply (slot_at_nonneg s j sl Hsl)).
  bind_ok H. destruct a. rename s0 into s1, Hstep into Hraw.
  apply write_raw_inv in Hraw as (Hlen & _ & ->).
  bind_ok H. destruct a. rename s0 into s2, Hstep into Hhdr.
  unfold BinTable._sync, BinTable.ret in H. inv_pair H.
  set (s1 := BinTable.set_f
               (pwrite (BinTable.f s) (BinTable._record_ofs s ri) packed) s)
    in *.
  assert (Hwf1 : wf s1) by now apply wf_pwrite.
  assert (Hsi1 : same_index s s1).
  { apply same_index_pwrite_above; [assumption|].
    apply record_ofs_above; lia. }
  destruct (write_header_index _ _ _ Hwf1 Hhdr) as (Hwf2 & Hsi2 & Hh2 & _).
  pose proof (same_index_trans _ _ _ Hsi1 Hsi2) as Hsi.
  apply write_header_inv in Hhdr as (hb & _ & Lhb & ->).
  exists j, sl, hb.
  split; [reflexivity|]. split; [exact Hlen|]. split; [exact Lhb|].
  split; [reflexivity|]. split; [reflexivity|].
  split; [exact Hwf2|]. split; [exact Hsi|exact Hlay].
Qed.

(** In a table whose free list is in order, the allocation returns. *)
Lemma alloc_total (s : BinTable.t) (l : list Z) :
  wf s -> records_ok s l ->
  exists i s1, BinTable._alloc_rec_index s = (inr i, s1).
Proof.
  intros Hwf (Hpad & Hch & _). pose proof Hwf as (_ & _ & Hp).
  assert (Hrs : 0 < BinTable.rsize s) by lia.
  unfold BinTable._alloc_rec_index.
  unfold BinTable.bind at 1. cbn [BinTable.get].
  destruct (Z.eqb_spec (Header.free_head (BinTable.h s)) (-1)) as [E|E];
    cbn [negb].
  - rewrite records_count_eq by assumption. eauto.
  - unfold free_list in Hch. destruct l as [|r l]; [cbn in Hch; lia|].
    cbn [free_chain] in Hch. destruct Hch as (Hr & Hrange & _).
    rewrite Hr in *.
    destruct (record_inside s r Hwf Hrs Hrange) as (Hlo & Hhi).
    pose proof (region_nonneg s Hwf) as Hreg.
    unfold BinTable.bind at 1. cbn [BinTable.get].
    unfold BinTable.bind at 1. rewrite seek_read_ok by lia.
    rewrite length_pread by lia.
    change (Z.of_nat (Z.to_nat 4) =? 4) with true. cbn [negb].
    unfold BinTable.bind, BinTable.modify_h, BinTable.ret. eauto.
Qed.

(** Where the key is found, [add_record] stops on the duplicate. *)
Lemma add_record_duplicate (now key r : Z) (packed : bytes)
    (s : BinTable.t) (l : list Z) :
  wf s -> records_ok s l ->
  Z.of_nat (length packed) = BinTable.rsize s ->
  outcome (BinTable._lookup key) s = inr (Some r) ->
  outcome (BinTable.add_record now key packed) s
  = inl ValueError_duplicate_key.
Proof.
  intros Hwf Hok Hlen Hlook.
  destruct (alloc_total s l Hwf Hok) as (i & s1 & Halloc).
  destruct (alloc_cases _ _ _ _ Hwf Hok Halloc) as (_ & Hi & _).
  destruct (alloc_file _ _ _ Halloc) as (Hf1 & Hn1 & Hr1 & Hp1 & _).
  assert (Hwf1 : wf s1) by (eapply wf_transport; eassumption).
  apply lookup_outcome in Hlook as (j & sl & Hfind & _).
  unfold outcome, BinTable.add_record.
  unfold BinTable.bind at 1. rewrite Halloc.
  unfold BinTable.bind at 1. rewrite write_raw_run.
  rewrite Hr1, Hlen, Z.eqb_refl. cbn [negb].
  pose proof (record_ofs_above s1 i Hi ltac:(lia)) as Habove.
  pose proof (region_nonneg s1 Hwf1) as Hreg.
  destruct (Z.ltb_spec (BinTable._record_ofs s1 i) 0); [lia|].
  unfold BinTable.bind at 1. rewrite find_slot_for_insert_run.
  set (s2 := BinTable.set_f _ s1).
  assert (Hsi : same_index s s2).
  { apply (same_index_trans s s1); [now apply same_index_file|].
    apply same_index_pwrite_above; [assumption|exact Habove]. }
  rewrite (insert_slot_same_index _ _ _ Hsi).
  unfold insert_slot. unfold find_slot in Hfind.
  destruct (Z.eqb_spec (nslots s) 0); [discriminate|].
  destruct Hwf as (Hn & _).
  rewrite (probe_insert_duplicate (nslots s) _ _ _ _ _ _ j sl Hfind).
  reflexivity.
Qed.

(** ** The bytes of the file after [delete_record] *)

Lemma delete_record_file (now key : Z) (s s' : BinTable.t) :
  wf s -> BinTable.delete_record now key s = (inr tt, s') ->
  exists j sl b0 rest b bt hb,
    find_slot s key = inr (Some (j, sl))
    /\ pread (BinTable.f s)
         (BinTable._record_ofs s (IndexSlot.rec_index sl)) (BinTable.rsize s)
       = b0 :: rest
    /\ Z.of_nat (length (b0 :: rest)) = BinTable.rsize s
    /\ length b = 4%nat /\ length bt = 16%nat /\ length hb = 128%nat
    /\ BinTable.f s'
       = pwrite
           (pwrite
              (pwrite
                 (pwrite (BinTable.f s)
                    (BinTable._record_ofs s (IndexSlot.rec_index sl))
                    (x00 :: rest))
                 (BinTable._record_ofs s (IndexSlot.rec_index sl)
                  + BinTable.pad_off s) b)
              (BinTable._index_ofs j) bt) 0 hb.
Proof.
  intros Hwf H. unfold BinTable.delete_record in H.
  bind_ok H. rename Hstep into Hlook.
  rewrite lookup_run in Hlook. injection Hlook as Hlook <-.
  destruct (find_slot s key) as [e|[[j sl]|]] eqn:Hfind;
    cbn [bindR option_map snd] in Hlook; try discriminate;
    apply inr_inj in Hlook; subst a; [|discriminate].
  set (ri := IndexSlot.rec_index sl) in *.
  destruct (find_slot_some s key j sl (proj1 Hwf) Hfind)
    as (Hj & Hsl & Hk & Hnz).
  assert (Hri : 0 <= ri) by (apply (slot_at_nonneg s j sl Hsl)).
  bind_ok H. rename a into raw, Hstep into Hread.
  rewrite read_raw_run in Hread.
  apply seek_read_inv in Hread as (Hofs & -> & Hraw).
  destruct raw as [|b0 rest]; [discriminate|].
  bind_ok H. destruct a. rename s0 into s1, Hstep into Hraww.
  apply write_raw_inv in Hraww as (Hlen & _ & ->).
  unfold BinTable.bind at 1 in H. cbn [BinTable.get] in H.
  bind_ok H. destruct a. rename s0 into s2, Hstep into Hnf.
  apply write_next_free_inv in Hnf as (b & Hb & Hnfofs & ->).
  unfold BinTable.bind at 1 in H. cbn [BinTable.modify_h] in H.
  bind_ok H. rename a into sj, s0 into s3, Hstep into Hsj.
  rewrite slot_of_key_run in Hsj. injection Hsj as Hsj <-.
  assert (Hrs : 0 <= BinTable.rsize s) by lia.
  (* the states so far have the index of [s] *)
  set (s1 := BinTable.set_f
               (pwrite (BinTable.f s) (BinTable._record_ofs s ri)
                  (x00 :: rest)) s) in *.
  assert (Hwf1 : wf s1) by now apply wf_pwrite.
  assert (Hsi1 : same_index s s1).
  { apply same_index_pwrite_above; [assumption|].
    now apply record_ofs_above. }
  set (s2 := BinTable.set_f
               (pwrite (BinTable.f s1)
                  (BinTable._record_ofs s1 ri + BinTable.pad_off s1) b) s1)
    in *.
  assert (Hwf2 : wf s2) by now apply wf_pwrite.
  assert (Hsi2 : same_index s1 s2).
  { apply same_index_pwrite_above; [assumption|].
    pose proof (record_ofs_above s1 ri Hri Hrs). destruct Hwf1 as (_ & _ & Hp).
    lia. }
  set (s3 := BinTable.set_h
               (Header.set_free_head ri (BinTable.h s2)) s2) in *.
  assert (Hwf3 : wf s3) by (apply wf_set_h; [reflexivity|assumption]).
  assert (Hsi3 : same_index s2 s3) by (apply same_index_set_h; reflexivity).
  assert (Hsi03 : same_index s s3).
  { eapply same_index_trans; [exact Hsi1|].
    eapply same_index_trans; eassumption. }
  rewrite (find_slot_same_index _ _ _ Hsi03), Hfind in Hsj.
  cbn [bindR option_map fst] in Hsj. apply inr_inj in Hsj. subst sj.
  bind_ok H. destruct a. rename s0 into s4, Hstep into Hslot.
  apply write_slot_inv in Hslot as (bt & Hbt & _ & ->).
  set (s4 := BinTable.set_f
               (pwrite (BinTable.f s3) (BinTable._index_ofs j) bt) s3) in *.
  assert (Hwf4 : wf s4) by now apply wf_pwrite.
  unfold BinTable.bind at 1 in H. cbn [BinTable.get] in H.
  unfold BinTable.bind at 1 in H. cbn [BinTable.modify_h] in H.
  unfold BinTable.bind at 1 in H. cbn [BinTable.get] in H.
  unfold BinTable.bind at 1 in H. cbn [BinTable.modify_h] in H.
  bind_ok H. destruct a. rename s0 into s6, Hstep into Hhdr.
  unfold BinTable._sync, BinTable.ret in H. inv_pair H.
  match type of Hhdr with
  | BinTable._write_header _ ?x = _ => set (s5 := x) in *
  end.
  assert (Hwf5 : wf s5).
  { unfold s5. apply wf_set_h; [reflexivity|].
    apply wf_set_h; [reflexivity|assumption]. }
  destruct (write_header_index _ _ _ Hwf5 Hhdr)
    as (Hwf6 & Hsi6 & Hh6 & Hr6 & Hp6).
  apply write_header_inv in Hhdr as (bh & Hbh & Lbh & ->).
  apply slot_unpack_pack in Hbt as (Lbt & _).
  apply pack_int4_inv in Hb as (_ & Lb & _).
  exists j, sl, b0, rest, b, bt, bh.
  split; [reflexivity|]. split; [symmetry; exact Hraw|].
  split; [|split; [exact Lb|split; [exact Lbt|split; [exact Lbh|]]]].
  - cbn [length] in *. lia.
  - reflexivity.
Qed.

(** * The record space under all the calls *)

(** ** The counter of identifiers *)

Lemma keeps_next_id_bind {A B : Type} (m : BinTable.M A)
    (k : A -> BinTable.M B) :
  keeps_next_id m -> (forall a, keeps_next_id (k a)) ->
  keeps_next_id (BinTable.bind m k).
Proof.
  intros Hm Hk s. unfold BinTable.bind. specialize (Hm s).
  destruct (m s) as [[e|a] s1]; cbn [snd] in *; [exact Hm|].
  rewrite (Hk a s1). exact Hm.
Qed.

Lemma reads_only_next_id {A : Type} (m : BinTable.M A) :
  reads_only m -> keeps_next_id m.
Proof.
  intros H s. now rewrite H.
Qed.

Lemma keeps_next_id_seek_write (off : Z) (d : result bytes) :
  keeps_next_id (BinTable.seek_write off d).
Proof.
  intros s. unfold BinTable.seek_write.
  destruct (off <? 0); [reflexivity|]. now destruct d.
Qed.

Lemma keeps_next_id_write_header (now : Z) :
  keeps_next_id (BinTable._write_header now).
Proof.
  intros s. rewrite write_header_run. cbv zeta.
  now destruct (Header.pack _).
Qed.

Lemma keeps_next_id_write_raw (i : Z) (d : bytes) :
  keeps_next_id (BinTable._write_raw i d).
Proof.
  intros s. rewrite write_raw_run.
  destruct (negb _); [reflexivity|]. now destruct (_ <? 0).
Qed.

Lemma keeps_next_id_alloc : keeps_next_id BinTable._alloc_rec_index.
Proof.
  intros s. unfold BinTable._alloc_rec_index, BinTable.bind, BinTable.get,
    BinTable.seek_read, BinTable.raise, BinTable.modify_h, BinTable.ret.
  destruct (negb _).
  - destruct (_ <? 0); [reflexivity|].
    destruct (4 <? -1); [reflexivity|].
    destruct (negb _); reflexivity.
  - now rewrite records_count_run.
Qed.

Lemma keeps_next_id_add_record (now key : Z) (packed : bytes) :
  keeps_next_id (BinTable.add_record now key packed).
Proof.
  unfold BinTable.add_record, BinTable._write_slot, BinTable._sync.
  apply keeps_next_id_bind; [apply keeps_next_id_alloc|intros i].
  apply keeps_next_id_bind; [apply keeps_next_id_write_raw|intros _].
  apply keeps_next_id_bind;
    [apply reads_only_next_id, reads_only_find_slot_for_insert|intros j].
  apply keeps_next_id_bind; [apply keeps_next_id_seek_write|intros _].
  apply keeps_next_id_bind; [intros ?; reflexivity|intros ac].
  apply keeps_next_id_bind; [intros ?; reflexivity|intros _].
  apply keeps_next_id_bind; [apply keeps_next_id_write_header|intros _].
  apply keeps_next_id_bind; [intros ?; reflexivity|intros ? ?; reflexivity].
Qed.

Lemma keeps_next_id_update_record (now key : Z) (packed : bytes) :
  keeps_next_id (BinTable.update_record now key packed).
Proof.
  unfold BinTable.update_record, BinTable._sync.
  apply keeps_next_id_bind;
    [apply reads_only_next_id, reads_only_lookup|intros [ri|]];
    [|intros ?; reflexivity].
  apply keeps_next_id_bind; [apply keeps_next_id_write_raw|intros _].
  apply keeps_next_id_bind; [apply keeps_next_id_write_header|intros _].
  intros ?; reflexivity.
Qed.

Lemma keeps_next_id_delete_record (now key : Z) :
  keeps_next_id (BinTable.delete_record now key).
Proof.
  unfold BinTable.delete_record, BinTable._write_next_free,
    BinTable._write_slot, BinTable._sync.
  apply keeps_next_id_bind;
    [apply reads_only_next_id, reads_only_lookup|intros [ri|]];
    [|intros ?; reflexivity].
  apply keeps_next_id_bind;
    [apply reads_only_next_id, reads_only_read_raw|intros [|b0 rest]];
    [intros ?; reflexivity|].
  apply keeps_next_id_bind; [apply keeps_next_id_write_raw|intros _].
  apply keeps_next_id_bind; [intros ?; reflexivity|intros fh].
  apply keeps_next_id_bind;
    [apply keeps_next_id_bind;
       [intros ?; reflexivity|intros ?; apply keeps_next_id_seek_write]
    |intros _].
  apply keeps_next_id_bind; [intros ?; reflexivity|intros _].
  apply keeps_next_id_bind;
    [apply reads_only_next_id, reads_only_slot_of_key|intros sj].
  apply keeps_next_id_bind;
    [destruct sj; [apply keeps_next_id_seek_write|intros ?; reflexivity]
    |intros _].
  apply keeps_next_id_bind; [intros ?; reflexivity|intros ac].
  apply keeps_next_id_bind; [intros ?; reflexivity|intros _].
  apply keeps_next_id_bind; [intros ?; reflexivity|intros dc].
  apply keeps_next_id_bind; [intros ?; reflexivity|intros _].
  apply keeps_next_id_bind; [apply keeps_next_id_write_header|intros _].
  intros ?; reflexivity.
Qed.

(** [next_id], whatever it returns or raises: the counter is one more and
    the index is what it was. *)
Lemma next_id_any (now : Z) (s s' : BinTable.t) (r : result Z) :
  wf s -> BinTable.next_id now s = (r, s') ->
  wf s' /\ same_index s s'
  /\ Header.next_id (BinTable.h s') = Header.next_id (BinTable.h s) + 1
  /\ (forall nid, r = inr nid -> nid = Header.next_id (BinTable.h s)).
Proof.
  intros Hwf. unfold BinTable.next_id.
  unfold BinTable.bind at 1. cbn [BinTable.get].
  unfold BinTable.bind at 1. cbn [BinTable.modify_h].
  set (s1 := BinTable.set_h _ s).
  assert (Hwf1 : wf s1) by (apply wf_set_h; [reflexivity|assumption]).
  assert (Hsi1 : same_index s s1) by (apply same_index_set_h; reflexivity).
  intros H.
  assert (Hk : forall r2 s2, BinTable._write_header now s1 = (r2, s2) ->
            wf s2 /\ same_index s s2
            /\ Header.next_id (BinTable.h s2)
               = Header.next_id (BinTable.h s) + 1).
  { intros r2 s2 Hw.
    pose proof (keeps_next_id_write_header now s1) as Hn.
    rewrite Hw in Hn. cbn [snd] in Hn.
    destruct (write_header_any _ _ _ _ Hwf1 Hw) as (Hwf2 & Hsi2 & _).
    split; [exact Hwf2|]. split; [|exact Hn].
    eapply same_index_trans; eassumption. }
  apply bind_inv in H as [(e & H & ->)|([] & s2 & Hw & H)].
  - destruct (Hk _ _ H) as (A & B & C).
    split; [exact A|]. split; [exact B|]. split; [exact C|].
    intros nid Hr. discriminate.
  - unfold BinTable.ret in H. inv_pair H.
    destruct (Hk _ _ Hw) as (A & B & C).
    split; [exact A|]. split; [exact B|]. split; [exact C|].
    intros nid Hr. apply inr_inj in Hr. now subst nid.
Qed.

Lemma next_id_run (now : Z) (s : BinTable.t) :
  BinTable.next_id now s
  = let s1 := BinTable.set_h
                (Header.set_next_id (Header.next_id (BinTable.h s) + 1)
                   (BinTable.h s)) s in
    match BinTable._write_header now s1 with
    | (inl e, s2) => (inl e, s2)
    | (inr _, s2) => (inr (Header.next_id (BinTable.h s)), s2)
    end.
Proof.
  unfold BinTable.next_id, BinTable.bind, BinTable.get, BinTable.modify_h,
    BinTable.ret. cbv zeta.
  now destruct (BinTable._write_header now _) as [[e|[]] s2].
Qed.

(** ** [next_id] and [update_record] keep the record space in order *)

(** A step that leaves the index, the head of the free list and the links
    of the free records alone keeps the record space in order. *)
Lemma records_ok_frame (s s' : BinTable.t) (i : Z) (l : list Z) :
  wf s -> records_ok s l -> rec_frame s s' i -> ~ In i l ->
  same_index s s' ->
  Header.free_head (BinTable.h s') = Header.free_head (BinTable.h s) ->
  records_ok s' l.
Proof.
  intros Hwf (Hpad & Hch & Hnd & Href & Hinj) Hfr Hnot Hsi Hfh.
  assert (Hrs : 0 < BinTable.rsize s) by (destruct Hwf as (_ & _ & Hp); lia).
  pose proof Hfr as ((Hn' & Hr' & Hp') & Hlen & _).
  assert (Hmono : rec_count s <= rec_count s')
    by (apply rec_count_mono; [repeat split| |]; assumption).
  destruct Hsi as (_ & Hslots).
  split; [lia|]. split.
  { unfold free_list. rewrite Hfh. eapply free_chain_frame; eassumption. }
  split; [exact Hnd|]. split.
  - intros r (j & sl & Hj & Hsl & Hlive & <-). rewrite Hn' in Hj.
    rewrite Hslots in Hsl by exact Hj.
    destruct (Href (IndexSlot.rec_index sl)) as (Hr & Hnl);
      [exists j, sl; auto|].
    split; [lia|exact Hnl].
  - intros j1 j2 sl1 sl2 Hj1 Hj2 H1 H2 L1 L2 Heq.
    rewrite Hn' in Hj1, Hj2. rewrite Hslots in H1, H2 by assumption.
    eapply Hinj; eassumption.
Qed.

Lemma free_list_not_negative (s : BinTable.t) (l : list Z) :
  free_list s l -> ~ In (-1) l.
Proof.
  intros Hch Hin. apply (free_chain_bound _ _ _ _ Hch) in Hin. lia.
Qed.

Lemma write_header_frame_any (now : Z) (s s' : BinTable.t)
    (r : result unit) (i : Z) :
  wf s -> BinTable.pad_off s + 4 <= BinTable.rsize s ->
  BinTable._write_header now s = (r, s') ->
  rec_frame s s' i.
Proof.
  intros Hwf Hpad H. destruct r as [e|[]].
  - rewrite write_header_run in H. cbv zeta in H.
    destruct (Header.pack _); inv_pair H.
    now apply rec_frame_set_h.
  - eapply rec_frame_write_header; eassumption.
Qed.

Lemma next_id_records_ok (now : Z) (s s' : BinTable.t) (r : result Z)
    (l : list Z) :
  wf s -> records_ok s l -> BinTable.next_id now s = (r, s') ->
  records_ok s' l.
Proof.
  intros Hwf Hok H. pose proof Hok as (Hpad & Hch & _).
  assert (Hrs : 0 < BinTable.rsize s) by (destruct Hwf as (_ & _ & Hp); lia).
  destruct (next_id_any _ _ _ _ Hwf H) as (_ & Hsi & _).
  apply (records_ok_frame s s' (-1) l); try assumption.
  - rewrite next_id_run in H. cbv zeta in H.
    set (s1 := BinTable.set_h _ s) in H.
    assert (Hwf1 : wf s1) by (apply wf_set_h; [reflexivity|assumption]).
    apply (rec_frame_trans s s1 s' (-1) Hrs).
    + now apply rec_frame_set_h.
    + destruct (BinTable._write_header now s1) as [r2 s2] eqn:Hw.
      assert (s2 = s') by (destruct r2 as [e|[]]; now inv_pair H).
      subst s2. eapply write_header_frame_any; [exact Hwf1|exact Hpad|].
      exact Hw.
  - now apply free_list_not_negative in Hch.
  - rewrite next_id_run in H. cbv zeta in H.
    set (s1 := BinTable.set_h _ s) in H.
    assert (Hwf1 : wf s1) by (apply wf_set_h; [reflexivity|assumption]).
    destruct (BinTable._write_header now s1) as [r2 s2] eqn:Hw.
    assert (s2 = s') by (destruct r2 as [e|[]]; now inv_pair H).
    subst s2.
    destruct (write_header_any _ _ _ _ Hwf1 Hw) as (_ & _ & Hfh).
    exact Hfh.
Qed.

Lemma update_record_records_ok (now key : Z) (packed : bytes)
    (s s' : BinTable.t) (l : list Z) :
  wf s -> records_ok s l -> key <> TOMBSTONE_KEY ->
  BinTable.update_record now key packed s = (inr tt, s') ->
  records_ok s' l.
Proof.
  intros Hwf Hok Hkey H. pose proof Hok as (Hpad & Hch & Hnd & Href & Hinj).
  assert (Hrs : 0 < BinTable.rsize s) by (destruct Hwf as (_ & _ & Hp); lia).
  destruct (update_record_ok _ _ _ _ _ Hwf H)
    as (j & sl & hb & Hfind & Hlen & Lhb & Hf & Hh & Hwf' & Hsi & Hlay).
  destruct (find_slot_some s key j sl (proj1 Hwf) Hfind)
    as (Hj & Hsl & Hk & Hnz).
  set (ri := IndexSlot.rec_index sl) in *.
  assert (Hrefd : referenced s ri).
  { exists j, sl. repeat split; try assumption; try lia; now rewrite Hk. }
  destruct (Href _ Hrefd) as (Hri & Hnot).
  apply (records_ok_frame s s' ri l); try assumption.
  - set (s1 := BinTable.set_f
                 (pwrite (BinTable.f s) (BinTable._record_ofs s ri) packed) s).
    assert (Hwf1 : wf s1) by now apply wf_pwrite.
    assert (Hfr1 : rec_frame s s1 ri)
      by (apply rec_frame_write_record; try assumption; lia).
    pose proof (region_nonneg s Hwf) as Hreg.
    assert (Hfr2 : rec_frame s1 (BinTable.set_f (pwrite (BinTable.f s1) 0 hb) s1)
                     ri).
    { apply rec_frame_write_below; try assumption; [lia|].
      rewrite Lhb. change (BinTable._records_region_ofs s1)
        with (BinTable._records_region_ofs s). lia. }
    pose proof (rec_frame_trans _ _ _ _ Hrs Hfr1 Hfr2)
      as (_ & Hlen2 & Hlinks).
    split; [exact Hlay|]. split.
    + rewrite Hf. exact Hlen2.
    + intros r Hr Hne. rewrite <- (Hlinks r Hr Hne).
      destruct Hlay as (Hn' & Hr' & Hp').
      unfold next_free, BinTable._record_ofs, BinTable._records_region_ofs.
      fold (nslots s') (nslots s1). rewrite Hf, Hn', Hr', Hp'. reflexivity.
  - rewrite Hh. reflexivity.
Qed.

(** ** The invariant of the record space *)

(** In a regular state the records of the live slots are records of the
    file, each of one slot, and none is in the free list. *)
Lemma regular_invariant (s : BinTable.t) :
  regular s -> wf s /\ exists l, records_ok s l.
Proof.
  induction 1 as [now magic rsize slots pad_off s Hpad Hfit Hopen
                 | s now key packed i s' _ IH Hadd
                 | s now key packed e s' _ IH Hadd He
                 | s now key s' _ IH Hne Hdel
                 | s now r s' _ IH Hnext
                 | s now key packed s' _ IH Hne Hupd].
  - destruct (open_records_ok _ _ _ _ _ _ Hpad Hfit Hopen) as (Hwf & Hok).
    split; [exact Hwf|]. now exists [].
  - destruct IH as (Hwf & l & Hok). split.
    + apply add_record_ok in Hadd; [|exact Hwf].
      destruct Hadd as (s1 & j & _ & _ & _ & _ & _ & _ & Hwf' & _).
      exact Hwf'.
    + eapply add_record_records_ok; eassumption.
  - destruct IH as (Hwf & l & Hok).
    destruct (add_fails_records_ok _ _ _ _ _ _ _ Hwf Hok Hadd He)
      as (i & s1 & l' & _ & Hwf' & Hok' & _).
    split; [exact Hwf'|]. now exists l'.
  - destruct IH as (Hwf & l & Hok). split.
    + apply delete_record_ok in Hdel; [|exact Hwf].
      destruct Hdel as (j & sl & b & _ & _ & _ & _ & _ & _ & _ & Hwf' & _).
      exact Hwf'.
    + eapply delete_record_records_ok; eassumption.
  - destruct IH as (Hwf & l & Hok).
    destruct (next_id_any _ _ _ _ Hwf Hnext) as (Hwf' & _).
    split; [exact Hwf'|]. exists l.
    exact (next_id_records_ok _ _ _ _ _ Hwf Hok Hnext).
  - destruct IH as (Hwf & l & Hok).
    destruct (update_record_ok _ _ _ _ _ Hwf Hupd)
      as (j & sl & hb & _ & _ & _ & _ & _ & Hwf' & _).
    split; [exact Hwf'|]. exists l.
    exact (update_record_records_ok _ _ _ _ _ _ Hwf Hok Hne Hupd).
Qed.

(** ** C3: [add_record] is not atomic *)

(** C3 (as amended).  When [add_record] raises the duplicate-key or the
    index-full error, a record index [i] has been allocated and the record
    is written at it ([_read_raw i] returns [packed]); no index slot has
    been written, the allocation is not undone (the cached [free_head]
    stays what [_alloc_rec_index] left), [active_count] is unchanged and
    the header on disk is not rewritten.  Where the record space is in
    order ([records_ok]: the free list of the cached header is a chain of
    different records of the file, none of them the record of a live slot,
    and no two live slots have the same record), the record is an orphan:
    it is a record of the file, no live index slot refers to it and it is
    not in the free list of the cached header.  The record space is in
    order in every regular state (lemma [regular_invariant]): after any
    calls of [next_id], [add_record], [update_record] and [delete_record]
    on a new table, the last two not with the tombstone mark as key. *)
Theorem add_record_failure_leaves_orphan (now key : Z) (packed : bytes)
    (s s' : BinTable.t) (e : exn) :
  wf s -> -1 <= Header.free_head (BinTable.h s) ->
  BinTable.add_record now key packed s = (inl e, s') -> index_error e ->
  exists i s1,
    BinTable._alloc_rec_index s = (inr i, s1) /\ 0 <= i
    /\ outcome (BinTable._read_raw i) s' = inr packed
    /\ same_index s s'
    /\ insert_slot s key = inl e
    /\ Header.free_head (BinTable.h s') = Header.free_head (BinTable.h s1)
    /\ Header.active_count (BinTable.h s')
       = Header.active_count (BinTable.h s)
    /\ pread (BinTable.f s') 0 HEADER_SIZE
       = pread (BinTable.f s) 0 HEADER_SIZE
    /\ (forall l, records_ok s l ->
        0 <= i < rec_count s' /\ ~ referenced s' i
        /\ exists l', free_list s' l' /\ NoDup l' /\ ~ In i l')
    /\ (regular s ->
        0 <= i < rec_count s' /\ ~ referenced s' i
        /\ exists l', free_list s' l' /\ NoDup l' /\ ~ In i l').
Proof.
  intros Hwf Hfh H He.
  assert (Horphan : forall l, records_ok s l ->
            forall i s1, BinTable._alloc_rec_index s = (inr i, s1) ->
              0 <= i < rec_count s' /\ ~ referenced s' i
              /\ exists l', free_list s' l' /\ NoDup l' /\ ~ In i l').
  { intros l Hok i s1 Halloc.
    destruct (add_fails_records_ok _ _ _ _ _ _ _ Hwf Hok H He)
      as (i' & s1' & l' & Halloc' & _ & Hok' & Hi' & Hnot & Hunref).
    rewrite Halloc in Halloc'. injection Halloc' as <- <-.
    split; [exact Hi'|]. split; [exact Hunref|].
    exists l'. destruct Hok' as (_ & Hfl & Hnd & _). auto. }
  apply add_record_index_error in H
    as (i & s1 & Halloc & Hlen & Hofs & -> & Hins); [|exact He].
  destruct (alloc_file _ _ _ Halloc) as (Hf1 & Hn1 & Hr1 & Hp1 & Ha1).
  assert (Hwf1 : wf s1) by (eapply wf_transport; eassumption).
  assert (Hi : 0 <= i) by (eapply alloc_nonneg; try eassumption; lia).
  assert (Hsi : same_index s
                  (BinTable.set_f
                     (pwrite (BinTable.f s1) (BinTable._record_ofs s1 i)
                        packed) s1)).
  { eapply same_index_trans; [apply same_index_file; eassumption|].
    apply same_index_pwrite_above; [assumption|].
    apply record_ofs_above; lia. }
  specialize (fun l Hok => Horphan l Hok i s1 Halloc).
  exists i, s1.
  split; [exact Halloc|]. split; [exact Hi|].
  split; [|split; [exact Hsi|split; [|split; [reflexivity|split;
    [exact Ha1|split; [|split; [exact Horphan|]]]]]]].
  - unfold outcome. rewrite read_raw_run.
    change (BinTable._record_ofs (BinTable.set_f _ s1) i)
      with (BinTable._record_ofs s1 i).
    change (BinTable.rsize (BinTable.set_f _ s1)) with (BinTable.rsize s1).
    rewrite seek_read_ok by lia. cbn [fst BinTable.f BinTable.set_f].
    rewrite Hr1, <- Hlen. now rewrite pread_pwrite_same.
  - now rewrite <- (insert_slot_same_index _ _ _ Hsi).
  - cbn [BinTable.f BinTable.set_f]. rewrite <- Hf1.
    destruct Hwf1 as (Hn & Hlenf & _).
    pose proof (record_ofs_above s1 i Hi ltac:(lia)) as Habove.
    unfold BinTable._records_region_ofs in *. fold (nslots s1) in *.
    unfold HEADER_SIZE, INDEX_SLOT_SIZE in *.
    apply pread_pwrite_below; lia.
  - intros Hreg. destruct (regular_invariant s Hreg) as (_ & l & Hok).
    exact (Horphan l Hok).
Qed.

Lemma regular_cars4_worked : regular cars4_worked.
Proof.
  assert (R0 : regular cars4_new).
  { apply (reg_open 100 Cars.magic CARS_SIZE 4 CARS_PAD);
      [vm_compute; discriminate|vm_compute; discriminate
      |vm_compute; reflexivity]. }
  assert (R1 : regular (after (BinTable.next_id 101) cars4_new)).
  { apply (reg_next_id cars4_new 101 (inr 1)); [exact R0|].
    vm_compute. reflexivity. }
  assert (R2 : regular
                 (after (add_car 102 1)
                    (after (BinTable.next_id 101) cars4_new))).
  { eapply (reg_add _ 102 1 (car_bytes 1) 0); [exact R1|].
    vm_compute. reflexivity. }
  assert (R3 : regular
                 (after (BinTable.next_id 103)
                    (after (add_car 102 1)
                       (after (BinTable.next_id 101) cars4_new)))).
  { eapply (reg_next_id _ 103 (inr 2)); [exact R2|].
    vm_compute. reflexivity. }
  assert (R4 : regular
                 (after (add_car 104 2)
                    (after (BinTable.next_id 103)
                       (after (add_car 102 1)
                          (after (BinTable.next_id 101) cars4_new))))).
  { eapply (reg_add _ 104 2 (car_bytes 2) 1); [exact R3|].
    vm_compute. reflexivity. }
  assert (R5 : regular cars4_drawn).
  { eapply (reg_delete _ 105 1); [exact R4|vm_compute; discriminate|].
    vm_compute. reflexivity. }
  eapply (reg_update _ 106 2 (car_bytes 2)); [exact R5| |].
  - vm_compute. discriminate.
  - vm_compute. reflexivity.
Defined.

Lemma wf_cars4_worked : wf cars4_worked.
Proof.
  unfold wf, nslots, BinTable._records_region_ofs.
  vm_compute. repeat split; discriminate.
Defined.

(** The witness: a table on which [next_id], [add_record],
    [delete_record] and [update_record] were called, which is a regular
    state; key 2, which it holds, is added again, and the record taken for
    it is record 0 of the free list. *)
Lemma add_record_failure_leaves_orphan_witness :
  regular cars4_worked
  /\ exists i s1,
    BinTable._alloc_rec_index cars4_worked = (inr i, s1) /\ 0 <= i
    /\ outcome (BinTable._read_raw i) (after (add_car 110 2) cars4_worked)
       = inr (car_bytes 2)
    /\ same_index cars4_worked (after (add_car 110 2) cars4_worked)
    /\ insert_slot cars4_worked 2 = inl ValueError_duplicate_key
    /\ Header.free_head (BinTable.h (after (add_car 110 2) cars4_worked))
       = Header.free_head (BinTable.h s1)
    /\ Header.active_count (BinTable.h (after (add_car 110 2) cars4_worked))
       = Header.active_count (BinTable.h cars4_worked)
    /\ pread (BinTable.f (after (add_car 110 2) cars4_worked)) 0 HEADER_SIZE
       = pread (BinTable.f cars4_worked) 0 HEADER_SIZE
    /\ (forall l, records_ok cars4_worked l ->
        0 <= i < rec_count (after (add_car 110 2) cars4_worked)
        /\ ~ referenced (after (add_car 110 2) cars4_worked) i
        /\ exists l',
             free_list (after (add_car 110 2) cars4_worked) l'
             /\ NoDup l' /\ ~ In i l')
    /\ (regular cars4_worked ->
        0 <= i < rec_count (after (add_car 110 2) cars4_worked)
        /\ ~ referenced (after (add_car 110 2) cars4_worked) i
        /\ exists l',
             free_list (after (add_car 110 2) cars4_worked) l'
             /\ NoDup l' /\ ~ In i l').
Proof.
  split; [exact regular_cars4_worked|].
  apply (add_record_failure_leaves_orphan 110 2 (car_bytes 2) cars4_worked
           (after (add_car 110 2) cars4_worked) ValueError_duplicate_key).
  - exact wf_cars4_worked.
  - vm_compute. discriminate.
  - vm_compute. reflexivity.
  - left. reflexivity.
Defined.

Lemma reachable_cars4_live_record_freed : reachable cars4_live_record_freed.
Proof.
  assert (R0 : reachable cars4_new).
  { apply (reach_open 100 Cars.magic CARS_SIZE 4 CARS_PAD);
      [vm_compute; discriminate|vm_compute; reflexivity]. }
  assert (R1 : reachable (after (add_car 101 1) cars4_new)).
  { apply (reach_add cars4_new 101 1 (car_bytes 1) 0); [exact R0|].
    vm_compute. reflexivity. }
  assert (R2 : reachable
                 (after (add_car 102 3) (after (add_car 101 1) cars4_new))).
  { eapply (reach_add _ 102 3 (car_bytes 3) 1); [exact R1|].
    vm_compute. reflexivity. }
  assert (R3 : reachable
                 (after (BinTable.delete_record 103 3)
                    (after (add_car 102 3)
                       (after (add_car 101 1) cars4_new)))).
  { eapply (reach_delete _ 103 3); [exact R2|]. vm_compute. reflexivity. }
  eapply (reach_delete _ 104 TOMBSTONE_KEY); [exact R3|].
  vm_compute. reflexivity.
Qed.

(** C3 as stated fails where [delete_record(0xFFFFFFFF)] has freed the
    record of a live key.  In the Cars table of four slots after adding
    keys 1 and 3, deleting key 3 and deleting [0xFFFFFFFF] (which is looked
    up in the slot key 3 had, whose tombstone names record 0), record 0 is
    the record of key 1 and the head of the free list.  [add_record] with
    key 1 again takes record 0 from the free list, writes the new bytes
    there and raises the duplicate-key error: the record it leaves behind
    is the one the live slot of key 1 refers to, and [read_record(1)]
    returns the bytes of the add that failed. *)
Lemma failed_add_overwrites_live_record :
  let s := cars4_live_record_freed in
  let s' := after (BinTable.add_record 110 1 (car_bytes 9)) s in
  reachable s
  /\ slot_at s 1 = inr (IndexSlot.mk 1 0)
  /\ Header.free_head (BinTable.h s) = 0
  /\ outcome (BinTable._lookup 1) s = inr (Some 0)
  /\ outcome BinTable._alloc_rec_index s = inr 0
  /\ outcome (BinTable.add_record 110 1 (car_bytes 9)) s
     = inl ValueError_duplicate_key
  /\ outcome (BinTable._read_raw 0) s' = inr (car_bytes 9)
  /\ referenced s' 0
  /\ outcome (BinTable.read_record 1) s' = inr (Some (car_bytes 9)).
Proof.
  cbv zeta. split; [exact reachable_cars4_live_record_freed|].
  split; [vm_compute; reflexivity|]. split; [vm_compute; reflexivity|].
  split; [vm_compute; reflexivity|]. split; [vm_compute; reflexivity|].
  split; [vm_compute; reflexivity|]. split; [vm_compute; reflexivity|].
  split; [|vm_compute; reflexivity].
  exists 1, (IndexSlot.mk 1 0).
  split; [vm_compute; split; [discriminate|reflexivity]|].
  split; [vm_compute; reflexivity|].
  split; [split; vm_compute; discriminate|reflexivity].
Qed.

(** * Round trips and errors of the engine *)

Lemma read_record_run (key : Z) (s : BinTable.t) :
  outcome (BinTable.read_record key) s
  = (p <-? find_slot s key ;;
     match p with
     | None => inr None
     | Some (_, sl) =>
         b <-? outcome (BinTable._read_raw (IndexSlot.rec_index sl)) s ;;
         inr (Some b)
     end).
Proof.
  unfold outcome, BinTable.read_record. unfold BinTable.bind at 1.
  rewrite lookup_run.
  destruct (find_slot s key) as [e|[[j sl]|]]; cbn [bindR option_map snd];
    try reflexivity.
  unfold BinTable.bind.
  destruct (BinTable._read_raw (IndexSlot.rec_index sl) s) as [[e|b] s1];
    reflexivity.
Qed.

Lemma lookup_found (s : BinTable.t) (key j : Z) (sl : IndexSlot.t) :
  find_slot s key = inr (Some (j, sl)) ->
  outcome (BinTable._lookup key) s = inr (Some (IndexSlot.rec_index sl)).
Proof.
  intros H. unfold outcome. rewrite lookup_run, H. reflexivity.
Qed.

Lemma add_record_read (now key : Z) (packed : bytes) (s s' : BinTable.t)
    (i : Z) :
  wf s -> BinTable.add_record now key packed s = (inr i, s') ->
  outcome (BinTable.read_record key) s' = inr (Some packed).
Proof.
  intros Hwf H.
  destruct (add_record_found _ _ _ _ _ _ Hwf H) as (j & Hfind & Hraw).
  rewrite read_record_run, Hfind. cbn [bindR IndexSlot.rec_index].
  now rewrite Hraw.
Qed.

Lemma update_record_read (now key : Z) (packed : bytes)
    (s s' : BinTable.t) :
  wf s -> BinTable.update_record now key packed s = (inr tt, s') ->
  outcome (BinTable.read_record key) s' = inr (Some packed).
Proof.
  intros Hwf H.
  apply update_record_ok in H
    as (j & sl & hb & Hfind & Hlen & Lhb & Hf & Hh & Hwf' & Hsi & Hlay);
    [|exact Hwf].
  rewrite read_record_run, (find_slot_same_index _ _ _ Hsi), Hfind.
  cbn [bindR].
  unfold outcome. rewrite read_raw_run.
  assert (Hri : 0 <= IndexSlot.rec_index sl).
  { apply find_slot_some in Hfind as (_ & Hsl & _); [|apply Hwf].
    now apply slot_at_nonneg in Hsl. }
  rewrite (record_ofs_layout s s' _ Hlay).
  destruct Hlay as (_ & -> & _).
  pose proof (record_ofs_above s _ Hri ltac:(lia)) as Habove.
  pose proof (region_nonneg s Hwf) as Hreg.
  rewrite seek_read_ok by lia. cbn [fst bindR].
  rewrite Hf, <- Hlen. do 2 f_equal.
  rewrite pread_pwrite_above by (rewrite ?Lhb; lia).
  apply pread_pwrite_same.
Qed.

(** X1.  After [add_record(key, packed)] has returned [i], [_lookup(key)]
    returns [i] and [read_record(key)] returns [packed]. *)
Theorem add_then_read (now key : Z) (packed : bytes) (s s' : BinTable.t)
    (i : Z) :
  wf s -> BinTable.add_record now key packed s = (inr i, s') ->
  outcome (BinTable._lookup key) s' = inr (Some i)
  /\ outcome (BinTable.read_record key) s' = inr (Some packed).
Proof.
  intros Hwf H.
  destruct (add_record_found _ _ _ _ _ _ Hwf H) as (j & Hfind & Hraw).
  split; [exact (lookup_found _ _ _ _ Hfind)|].
  exact (add_record_read _ _ _ _ _ _ Hwf H).
Qed.

Lemma wf_cars4_new : wf cars4_new.
Proof.
  unfold wf, nslots, BinTable._records_region_ofs.
  vm_compute. repeat split; discriminate.
Defined.

Lemma add_then_read_witness :
  wf cars4_new
  /\ outcome (BinTable._lookup 7) (after (add_car 101 7) cars4_new)
     = inr (Some 0)
  /\ outcome (BinTable.read_record 7) (after (add_car 101 7) cars4_new)
     = inr (Some (car_bytes 7)).
Proof.
  split; [exact wf_cars4_new|].
  apply (add_then_read 101 7 (car_bytes 7) cars4_new
           (after (add_car 101 7) cars4_new) 0).
  - exact wf_cars4_new.
  - vm_compute. reflexivity.
Defined.

(** X2.  In a regular state, [add_record] with a key that [_lookup] finds
    and a record of the record size raises [ValueError('duplicate key')]. *)
Theorem add_existing_key_raises (now key r : Z) (packed : bytes)
    (s : BinTable.t) :
  regular s -> Z.of_nat (length packed) = BinTable.rsize s ->
  outcome (BinTable._lookup key) s = inr (Some r) ->
  outcome (BinTable.add_record now key packed) s
  = inl ValueError_duplicate_key.
Proof.
  intros Hreg Hlen Hlook.
  destruct (regular_invariant s Hreg) as (Hwf & l & Hok).
  eapply add_record_duplicate; eassumption.
Qed.

Lemma add_existing_key_raises_witness :
  regular cars4_three
  /\ outcome (BinTable.add_record 110 2 (car_bytes 9)) cars4_three
     = inl ValueError_duplicate_key.
Proof.
  split; [exact regular_cars4_three|].
  apply (add_existing_key_raises 110 2 1 (car_bytes 9) cars4_three).
  - exact regular_cars4_three.
  - vm_compute. reflexivity.
  - vm_compute. reflexivity.
Defined.

(** After a returning [delete_record] in a state where no key is twice in
    the index, the key is not found. *)
Lemma delete_record_gone (now key : Z) (s s' : BinTable.t) :
  wf s -> unique_live_keys s -> key <> TOMBSTONE_KEY ->
  BinTable.delete_record now key s = (inr tt, s') ->
  wf s' /\ find_slot s' key = inr None.
Proof.
  intros Hwf Hun Hkey H.
  apply delete_record_ok in H
    as (j & sl & b & Hf & Hj & Hsl & Hk & Hnz & _ & _ & Hwf' & Hn' & _ & _
        & Hslots & _); [|exact Hwf].
  split; [exact Hwf'|].
  unfold find_slot. rewrite Hn'.
  destruct (Z.eqb_spec (nslots s) 0); [lia|].
  apply (probe_find_after_tombstone (nslots s) ltac:(lia) (slot_at s)
           (slot_at s') key _ _ _ j sl); try assumption.
  - intros j' Hj'. now apply slot_at_readable.
  - now split.
Qed.

Lemma lookup_none_run (key : Z) (s : BinTable.t) :
  find_slot s key = inr None ->
  BinTable._lookup key s = (inr None, s).
Proof.
  intros H. now rewrite lookup_run, H.
Qed.

(** X3.  In a reachable state, once [delete_record(key)] has returned
    (the key not being the tombstone mark), [read_record(key)] returns
    [None] and a second [delete_record(key)] raises [KeyError] and leaves
    the table as it is. *)
Theorem delete_then_read (now now2 key : Z) (s s' : BinTable.t) :
  reachable s -> key <> TOMBSTONE_KEY ->
  BinTable.delete_record now key s = (inr tt, s') ->
  outcome (BinTable.read_record key) s' = inr None
  /\ BinTable.delete_record now2 key s' = (inl KeyError_not_found, s').
Proof.
  intros Hreach Hkey H.
  destruct (reachable_invariant s Hreach) as (Hwf & Hun & _).
  destruct (delete_record_gone _ _ _ _ Hwf Hun Hkey H) as (_ & Hf).
  split.
  - now rewrite read_record_run, Hf.
  - unfold BinTable.delete_record, BinTable.bind.
    now rewrite (lookup_none_run _ _ Hf).
Qed.

Lemma reachable_cars4_collide : reachable cars4_collide.
Proof.
  assert (R0 : reachable cars4_new).
  { apply (reach_open 100 Cars.magic CARS_SIZE 4 CARS_PAD);
      [vm_compute; discriminate|vm_compute; reflexivity]. }
  assert (R1 : reachable (after (add_car 101 1) cars4_new)).
  { apply (reach_add cars4_new 101 1 (car_bytes 1) 0); [exact R0|].
    vm_compute. reflexivity. }
  eapply (reach_add _ 102 5 (car_bytes 5) 1); [exact R1|].
  vm_compute. reflexivity.
Defined.

Lemma delete_then_read_witness :
  reachable cars4_collide
  /\ outcome (BinTable.read_record 1)
       (after (BinTable.delete_record 110 1) cars4_collide) = inr None
  /\ BinTable.delete_record 111 1
       (after (BinTable.delete_record 110 1) cars4_collide)
     = (inl KeyError_not_found,
        after (BinTable.delete_record 110 1) cars4_collide).
Proof.
  split; [exact reachable_cars4_collide|].
  apply (delete_then_read 110 111 1 cars4_collide
           (after (BinTable.delete_record 110 1) cars4_collide)).
  - exact reachable_cars4_collide.
  - vm_compute. discriminate.
  - vm_compute. reflexivity.
Defined.

(** X4.  When [_lookup(key)] returns [None], [read_record(key)] returns
    [None], and [update_record] and [delete_record] raise
    [KeyError('not found')]; none of the three changes the table. *)
Theorem missing_key_is_an_error (now key : Z) (packed : bytes)
    (s : BinTable.t) :
  outcome (BinTable._lookup key) s = inr None ->
  BinTable.read_record key s = (inr None, s)
  /\ BinTable.update_record now key packed s = (inl KeyError_not_found, s)
  /\ BinTable.delete_record now key s = (inl KeyError_not_found, s).
Proof.
  intros H.
  assert (Hl : BinTable._lookup key s = (inr None, s)).
  { pose proof (reads_only_lookup key s) as Hs. unfold outcome in H.
    destruct (BinTable._lookup key s) as [r s1]. cbn in *. now subst. }
  unfold BinTable.read_record, BinTable.update_record,
    BinTable.delete_record, BinTable.bind.
  rewrite Hl. auto.
Qed.

Lemma missing_key_is_an_error_witness :
  outcome (BinTable._lookup 9) cars4_three = inr None
  /\ BinTable.read_record 9 cars4_three = (inr None, cars4_three)
  /\ BinTable.update_record 120 9 (car_bytes 9) cars4_three
     = (inl KeyError_not_found, cars4_three)
  /\ BinTable.delete_record 120 9 cars4_three
     = (inl KeyError_not_found, cars4_three).
Proof.
  split; [vm_compute; reflexivity|].
  apply (missing_key_is_an_error 120 9 (car_bytes 9) cars4_three).
  vm_compute. reflexivity.
Defined.

(** X5.  After [update_record(key, packed)] has returned,
    [read_record(key)] returns [packed]; the index, and so what [_lookup]
    returns for every key, is what it was, and of the cached header only
    [updated_at] has changed. *)
Theorem update_then_read (now key : Z) (packed : bytes)
    (s s' : BinTable.t) :
  wf s -> BinTable.update_record now key packed s = (inr tt, s') ->
  outcome (BinTable.read_record key) s' = inr (Some packed)
  /\ same_index s s'
  /\ (forall k, outcome (BinTable._lookup k) s'
                = outcome (BinTable._lookup k) s)
  /\ BinTable.h s' = Header.set_updated_at now (BinTable.h s).
Proof.
  intros Hwf H.
  pose proof (update_record_read _ _ _ _ _ Hwf H) as Hread.
  apply update_record_ok in H
    as (j & sl & hb & Hfind & Hlen & Lhb & Hf & Hh & Hwf' & Hsi & Hlay);
    [|exact Hwf].
  assert (Hfs : forall k, find_slot s' k = find_slot s k)
    by (intros k; now apply find_slot_same_index).
  split; [exact Hread|split; [exact Hsi|split; [|exact Hh]]].
  intros k. unfold outcome. rewrite 2 lookup_run. cbn [fst].
  now rewrite Hfs.
Qed.

Lemma update_then_read_witness :
  wf cars4_three
  /\ outcome (BinTable.read_record 2)
       (after (BinTable.update_record 120 2 (car_bytes 9)) cars4_three)
     = inr (Some (car_bytes 9))
  /\ same_index cars4_three
       (after (BinTable.update_record 120 2 (car_bytes 9)) cars4_three)
  /\ (forall k,
        outcome (BinTable._lookup k)
          (after (BinTable.update_record 120 2 (car_bytes 9)) cars4_three)
        = outcome (BinTable._lookup k) cars4_three)
  /\ BinTable.h
       (after (BinTable.update_record 120 2 (car_bytes 9)) cars4_three)
     = Header.set_updated_at 120 (BinTable.h cars4_three).
Proof.
  split; [exact wf_cars4_three|].
  apply (update_then_read 120 2 (car_bytes 9) cars4_three
           (after (BinTable.update_record 120 2 (car_bytes 9)) cars4_three)).
  - exact wf_cars4_three.
  - vm_compute. reflexivity.
Defined.

(** X6.  In a regular state, [update_record(key, ...)] leaves the record
    of every other live key as it was: [read_record(k2)] returns the same
    bytes before and after. *)
Theorem update_leaves_other_records (now key k2 : Z) (packed : bytes)
    (s s' : BinTable.t) :
  regular s -> live_key key -> live_key k2 -> k2 <> key ->
  BinTable.update_record now key packed s = (inr tt, s') ->
  outcome (BinTable.read_record k2) s' = outcome (BinTable.read_record k2) s.
Proof.
  intros Hreg Hlk Hlk2 Hne H.
  destruct (regular_invariant s Hreg) as (Hwf & l & Hok).
  pose proof Hok as (Hpad & _ & _ & Href & Hinj).
  assert (Hrs : 0 < BinTable.rsize s) by (destruct Hwf as (_ & _ & Hp); lia).
  apply update_record_ok in H
    as (j & sl & hb & Hfind & Hlen & Lhb & Hf & Hh & Hwf' & Hsi & Hlay);
    [|exact Hwf].
  rewrite 2 read_record_run, (find_slot_same_index _ _ _ Hsi).
  destruct (find_slot s k2) as [e|[[j2 sl2]|]] eqn:Hfind2; try reflexivity.
  cbn [bindR]. f_equal.
  destruct (find_slot_some s key j sl (proj1 Hwf) Hfind)
    as (Hj & Hsl & Hk & _).
  destruct (find_slot_some s k2 j2 sl2 (proj1 Hwf) Hfind2)
    as (Hj2 & Hsl2 & Hk2 & _).
  assert (Hr2 : referenced s (IndexSlot.rec_index sl2))
    by (exists j2, sl2; rewrite Hk2; auto).
  assert (Hr : referenced s (IndexSlot.rec_index sl))
    by (exists j, sl; rewrite Hk; auto).
  destruct (Href _ Hr2) as (Hrange2 & _).
  destruct (Href _ Hr) as (Hrange & _).
  assert (Hdiff : IndexSlot.rec_index sl2 <> IndexSlot.rec_index sl).
  { intros Heq. apply Hne.
    assert (j2 = j)
      by (apply (Hinj j2 j sl2 sl); try assumption;
          [now rewrite Hk2|now rewrite Hk]).
    subst j2. rewrite Hsl in Hsl2. apply inr_inj in Hsl2. subst sl2.
    congruence. }
  unfold outcome. rewrite 2 read_raw_run.
  rewrite (record_ofs_layout s s' _ Hlay).
  destruct Hlay as (_ & -> & _).
  destruct (record_inside s _ Hwf Hrs Hrange2) as (Hlo2 & Hhi2).
  destruct (record_inside s _ Hwf Hrs Hrange) as (Hlo & Hhi).
  pose proof (region_nonneg s Hwf) as Hreg0.
  rewrite 2 seek_read_ok by lia. cbn [fst]. f_equal.
  rewrite Hf.
  rewrite pread_pwrite_above by (rewrite ?Lhb; lia).
  apply pread_pwrite_disjoint; try lia.
  destruct (record_ofs_apart s _ _ Hrs Hdiff); lia.
Qed.

Lemma update_leaves_other_records_witness :
  regular cars4_three
  /\ outcome (BinTable.read_record 3)
       (after (BinTable.update_record 120 2 (car_bytes 9)) cars4_three)
     = outcome (BinTable.read_record 3) cars4_three.
Proof.
  split; [exact regular_cars4_three|].
  apply (update_leaves_other_records 120 2 3 (car_bytes 9) cars4_three
           (after (BinTable.update_record 120 2 (car_bytes 9)) cars4_three)).
  - exact regular_cars4_three.
  - split; vm_compute; discriminate.
  - split; vm_compute; discriminate.
  - discriminate.
  - vm_compute. reflexivity.
Defined.

(** X7.  Key 0 is the mark of an empty slot and cannot be stored: for
    every table, [add_record(0, ...)] does not return and [_lookup(0)]
    finds nothing. *)
Theorem key_zero_is_never_stored (now : Z) (packed : bytes)
    (s : BinTable.t) :
  (forall i, outcome (BinTable.add_record now 0 packed) s <> inr i)
  /\ (forall r, outcome (BinTable._lookup 0) s <> inr (Some r)).
Proof.
  split.
  - intros i Hout. unfold outcome in Hout.
    destruct (BinTable.add_record now 0 packed s) as [r s'] eqn:H.
    cbn in Hout. subst r. unfold BinTable.add_record in H.
    bind_ok H. bind_ok H. bind_ok H. rename Hstep1 into Hfind.
    rewrite find_slot_for_insert_run in Hfind. injection Hfind as Hins _.
    unfold insert_slot in Hins.
    destruct (Z.eqb_spec (nslots s1) 0); [discriminate|].
    destruct (Z.lt_ge_cases 0 (nslots s1)) as [Hpos|Hneg].
    + apply probe_insert_some in Hins as (Hkey & _); [|exact Hpos].
      now apply Hkey.
    + replace (Z.to_nat (nslots s1)) with 0%nat in Hins by lia.
      discriminate.
  - intros r Hout. apply lookup_outcome in Hout as (j & sl & Hf & _).
    unfold find_slot in Hf.
    destruct (Z.eqb_spec (nslots s) 0); [discriminate|].
    apply probe_find_some in Hf as (_ & _ & _ & _ & _ & Hkey & _).
    now apply Hkey.
Qed.

Lemma delete_keeps_full (now key : Z) (s s' : BinTable.t) :
  wf s -> index_full s ->
  BinTable.delete_record now key s = (inr tt, s') ->
  wf s' /\ index_full s'.
Proof.
  intros Hwf Hfull H.
  apply delete_record_ok in H
    as (j & sl & b & _ & Hj & _ & _ & _ & _ & _ & Hwf' & Hn' & _ & _
        & Hslots & _); [|exact Hwf].
  split; [exact Hwf'|].
  intros j' sl' Hj' Hsl'. rewrite Hn' in Hj'.
  rewrite Hslots in Hsl' by exact Hj'.
  destruct (j' =? j).
  - apply inr_inj in Hsl'. subst sl'. discriminate.
  - now apply (Hfull j' sl').
Qed.

Lemma delete_all_keeps_full (ks : list (Z * Z)) (s s' : BinTable.t) :
  wf s -> index_full s -> delete_all ks s = Some s' ->
  wf s' /\ index_full s'.
Proof.
  revert s. induction ks as [|[now key] ks IH]; intros s Hwf Hfull H.
  - cbn in H. injection H as <-. auto.
  - cbn [delete_all] in H.
    destruct (BinTable.delete_record now key s) as [[e|[]] s1] eqn:Hdel;
      [discriminate|].
    destruct (delete_keeps_full _ _ _ _ Hwf Hfull Hdel) as (Hwf1 & Hfull1).
    now apply (IH s1).
Qed.

(** X8.  Once every slot of the index holds a key or a tombstone, no
    [add_record] returns any more, whatever records are deleted first:
    the slots [delete_record] frees are tombstones, and the insert probe
    gives a slot only when it meets an empty one. *)
Theorem full_index_stays_full (ks : list (Z * Z)) (now key : Z)
    (packed : bytes) (s s' : BinTable.t) :
  wf s -> index_full s -> delete_all ks s = Some s' ->
  forall i, outcome (BinTable.add_record now key packed) s' <> inr i.
Proof.
  intros Hwf Hfull Hdel i Hout.
  destruct (delete_all_keeps_full _ _ _ Hwf Hfull Hdel) as (Hwf' & Hfull').
  unfold outcome in Hout.
  destruct (BinTable.add_record now key packed s') as [r s2] eqn:H.
  cbn in Hout. subst r.
  now apply add_record_full_index in H.
Qed.

Lemma wf_cars4_full : wf cars4_full.
Proof.
  unfold wf, nslots, BinTable._records_region_ofs.
  vm_compute. repeat split; discriminate.
Defined.

Lemma index_full_cars4_full : index_full cars4_full.
Proof.
  intros j sl Hj Hsl. change (nslots cars4_full) with 4 in Hj.
  assert (Hcases : j = 0 \/ j = 1 \/ j = 2 \/ j = 3) by lia.
  destruct Hcases as [-> | [-> | [-> | ->]]]; vm_compute in Hsl;
    apply inr_inj in Hsl; subst sl; discriminate.
Defined.

Lemma full_index_stays_full_witness :
  wf cars4_full /\ index_full cars4_full
  /\ (exists s',
        delete_all [(105, 2); (106, 3)] cars4_full = Some s'
        /\ forall i,
             outcome (BinTable.add_record 107 9 (car_bytes 9)) s' <> inr i).
Proof.
  split; [exact wf_cars4_full|]. split; [exact index_full_cars4_full|].
  eexists. split; [vm_compute; reflexivity|].
  apply (full_index_stays_full [(105, 2); (106, 3)] 107 9 (car_bytes 9)
           cars4_full).
  - exact wf_cars4_full.
  - exact index_full_cars4_full.
  - vm_compute. reflexivity.
Defined.

(** * The file on disk: reopening and inspecting *)

Lemma consts_do_calls (cs : list call) (s : BinTable.t) :
  consts (do_calls cs s) = consts s.
Proof.
  revert s. induction cs as [|c cs IH]; intros s; [reflexivity|].
  cbn [do_calls]. rewrite IH. apply keeps_consts_do_call.
Qed.

(** X9.  A table that [open] returned (its magic being four bytes) can be
    closed and opened again after any returning call that writes,
    whatever calls came before and whether they returned or raised: [open]
    on the bytes of the file gives the very object the call left, cached
    header included. *)
Theorem reopen_gives_the_same_table (now0 now : Z) (magic : bytes)
    (rsize slots pad_off : Z) (disk : option file) (s0 : BinTable.t)
    (cs : list call) (c : call) (s' : BinTable.t) :
  length magic = 4%nat ->
  BinTable.open now0 magic rsize slots pad_off disk = inr s0 ->
  do_call c (do_calls cs s0) = (inr tt, s') ->
  BinTable.open now magic rsize slots pad_off (Some (BinTable.f s')) = inr s'.
Proof.
  intros Lm Hopen Hcall.
  destruct (open_own_header _ _ _ _ _ _ _ Lm Hopen)
    as (Hown & Hm & Hr & Hs & Hp).
  assert (Hc : consts s' = consts s0).
  { pose proof (keeps_consts_do_call c (do_calls cs s0)) as Hc.
    rewrite Hcall in Hc. cbn [snd] in Hc.
    now rewrite Hc, consts_do_calls. }
  pose proof (own_header_consts _ _ Hc Hown) as Hown'.
  pose proof (ensures_synced_do_call c _ _ _ Hcall) as Hsync.
  apply consts_layout in Hc as ((_ & Hr' & Hp') & Hm' & Hs' & _).
  rewrite <- Hm, <- Hr, <- Hs, <- Hp, <- Hm', <- Hr', <- Hs', <- Hp'.
  now apply open_synced.
Qed.

Lemma reopen_gives_the_same_table_witness :
  exists s',
    do_call (Call_delete 104 1)
      (do_calls [Call_add 101 1 (car_bytes 1); Call_add 102 1 (car_bytes 1);
                 Call_next_id 103] cars4_new) = (inr tt, s')
    /\ BinTable.open 200 Cars.magic CARS_SIZE 4 CARS_PAD
         (Some (BinTable.f s')) = inr s'.
Proof.
  eexists. split; [vm_compute; reflexivity|].
  apply (reopen_gives_the_same_table 100 200 Cars.magic CARS_SIZE 4
           CARS_PAD None cars4_new
           [Call_add 101 1 (car_bytes 1); Call_add 102 1 (car_bytes 1);
            Call_next_id 103] (Call_delete 104 1)).
  - reflexivity.
  - vm_compute. reflexivity.
  - vm_compute. reflexivity.
Defined.

(** X10.  After a returning call that writes, on a table whose endian
    flag is not 1 and whose record size is not 0, the header inspector
    reports what the engine holds: the cached header, the size of the
    file, and the number of records [_records_count] returns. *)
Theorem inspector_agrees_with_engine (now0 : Z) (magic : bytes)
    (rsize slots pad_off : Z) (disk : option file) (s0 : BinTable.t)
    (cs : list call) (c : call) (s' : BinTable.t) :
  length magic = 4%nat -> rsize <> 0 ->
  BinTable.open now0 magic rsize slots pad_off disk = inr s0 ->
  Header.endian (BinTable.h s0) <> 1 ->
  do_call c (do_calls cs s0) = (inr tt, s') ->
  exists total,
    Inspect.read_header (BinTable.f s')
    = inr (BinTable.h s', Z.of_nat (length (BinTable.f s')), total)
    /\ outcome BinTable._records_count s' = inr total.
Proof.
  intros Lm Hrs Hopen Hend Hcall.
  destruct (open_own_header _ _ _ _ _ _ _ Lm Hopen)
    as (Hown & Hm & Hr & Hs & Hp).
  assert (Hc : consts s' = consts s0).
  { pose proof (keeps_consts_do_call c (do_calls cs s0)) as Hc.
    rewrite Hcall in Hc. cbn [snd] in Hc.
    now rewrite Hc, consts_do_calls. }
  pose proof (own_header_consts _ _ Hc Hown) as (Hm' & Lm' & Hr').
  destruct (ensures_synced_do_call c _ _ _ Hcall) as (b & Hb & Hrd).
  apply consts_layout in Hc as ((_ & Hrs' & _) & _ & _ & _ & Hend' & _).
  pose proof (length_header_pack _ _ _ Hb) as Lb.
  unfold Inspect.read_header. cbv zeta. rewrite Hrd, Lb.
  change (Z.of_nat 128 =? HEADER_SIZE) with true. cbn [negb].
  unfold Inspect.unpack.
  rewrite (header_unpack_pack LittleEndian _ _ Hb)
    by (now rewrite Hm').
  cbn [bindR]. rewrite Hend'.
  destruct (Z.eqb_spec (Header.endian (BinTable.h s0)) 1); [contradiction|].
  cbn [bindR]. rewrite Hr', Hrs', Hr.
  destruct (Z.eqb_spec rsize 0); [contradiction|].
  unfold outcome, BinTable._records_count. cbv zeta.
  unfold BinTable._records_region_ofs. rewrite Hrs', Hr.
  set (size := Z.of_nat (length (BinTable.f s'))).
  set (region := HEADER_SIZE
                 + Header.index_slots (BinTable.h s') * INDEX_SLOT_SIZE).
  destruct (Z.eqb_spec rsize 0); [contradiction|].
  destruct (Z.geb_spec size region) as [Hge|Hlt];
    destruct (Z.leb_spec (size - region) 0) as [Hle|Hgt]; try lia;
    cbn [bindR fst]; eexists; split; try reflexivity.
  replace (size - region) with 0 by lia. now rewrite Z.div_0_l.
Qed.

Lemma inspector_agrees_with_engine_witness :
  exists s' total,
    do_call (Call_add 101 1 (car_bytes 1)) (do_calls [] cars4_new)
    = (inr tt, s')
    /\ Inspect.read_header (BinTable.f s')
       = inr (BinTable.h s', Z.of_nat (length (BinTable.f s')), total)
    /\ outcome BinTable._records_count s' = inr total.
Proof.
  eexists.
  destruct (inspector_agrees_with_engine 100 Cars.magic CARS_SIZE 4 CARS_PAD
              None cars4_new [] (Call_add 101 1 (car_bytes 1))
              (after (do_call (Call_add 101 1 (car_bytes 1))) cars4_new))
    as (total & H1 & H2).
  - reflexivity.
  - discriminate.
  - vm_compute. reflexivity.
  - vm_compute. discriminate.
  - vm_compute. reflexivity.
  - exists total. split; [vm_compute; reflexivity|]. split; assumption.
Defined.

(** * The iterators *)

Lemma iter_loop_spec (keep : bytes -> bool) (fuel : nat) (i : Z)
    (s : BinTable.t) :
  wf s -> 0 <= BinTable.rsize s -> 0 <= i ->
  exists l,
    BinTable.iter_loop keep fuel i s = (inr l, s)
    /\ forall k raw,
         In (k, raw) l <->
         i <= k < i + Z.of_nat fuel
         /\ outcome (BinTable._read_raw k) s = inr raw /\ keep raw = true.
Proof.
  intros Hwf Hrs. revert i. induction fuel as [|fuel IH]; intros i Hi.
  - exists []. split; [reflexivity|]. intros k raw. split; [intros []|].
    intros (Hk & _). lia.
  - destruct (IH (i + 1) ltac:(lia)) as (l & Hl & Hspec).
    assert (Hread : forall k, 0 <= k ->
              BinTable._read_raw k s
              = (inr (pread (BinTable.f s) (BinTable._record_ofs s k)
                        (BinTable.rsize s)), s)).
    { intros k Hk. rewrite read_raw_run.
      pose proof (record_ofs_above s k Hk Hrs).
      pose proof (region_nonneg s Hwf). apply seek_read_ok; lia. }
    cbn [BinTable.iter_loop]. unfold BinTable.bind at 1.
    rewrite (Hread i Hi). unfold BinTable.bind at 1. rewrite Hl.
    unfold BinTable.ret. eexists. split; [reflexivity|].
    intros k raw. unfold outcome.
    set (raw_i := pread (BinTable.f s) (BinTable._record_ofs s i)
                    (BinTable.rsize s)).
    assert (Hmem : In (k, raw) l <->
              i + 1 <= k < i + 1 + Z.of_nat fuel
              /\ fst (BinTable._read_raw k s) = inr raw /\ keep raw = true)
      by apply Hspec.
    destruct (keep raw_i) eqn:Hkeep.
    + cbn [In]. rewrite Hmem. split.
      * intros [Heq|(Hk & Hr & Hkp)].
        -- injection Heq as <- <-. rewrite (Hread i Hi). cbn [fst].
           repeat split; try lia; assumption.
        -- repeat split; try lia; assumption.
      * intros (Hk & Hr & Hkp).
        destruct (Z.eq_dec k i) as [->|Hne].
        -- left. rewrite (Hread i Hi) in Hr. cbn [fst] in Hr.
           apply inr_inj in Hr. now subst raw.
        -- right. repeat split; try lia; assumption.
    + rewrite Hmem. split.
      * intros (Hk & Hr & Hkp). repeat split; try lia; assumption.
      * intros (Hk & Hr & Hkp).
        destruct (Z.eq_dec k i) as [->|Hne].
        -- rewrite (Hread i Hi) in Hr. cbn [fst] in Hr.
           apply inr_inj in Hr. subst raw. fold raw_i in Hkp. congruence.
        -- repeat split; try lia; assumption.
Qed.

Lemma b2z_one (b : byte) : (b2z b =? 1) = true <-> b = x01.
Proof.
  split.
  - intros H. apply Z.eqb_eq in H.
    rewrite <- (z2b_b2z b), H. reflexivity.
  - intros ->. reflexivity.
Qed.

(** What [iter_active] yields: the records of the file whose first byte
    is 1. *)
Lemma iter_active_spec (s : BinTable.t) :
  wf s -> 0 < BinTable.rsize s ->
  exists l,
    BinTable.iter_active s = (inr l, s)
    /\ forall k raw,
         In (k, raw) l <->
         0 <= k < rec_count s
         /\ outcome (BinTable._read_raw k) s = inr raw
         /\ exists rest, raw = x01 :: rest.
Proof.
  intros Hwf Hrs. unfold BinTable.iter_active, BinTable.bind.
  rewrite records_count_eq by assumption.
  pose proof (rec_count_nonneg s Hwf Hrs) as Hc.
  destruct (iter_loop_spec
              (fun raw => match raw with
                          | b :: _ => b2z b =? 1
                          | [] => false
                          end) (Z.to_nat (rec_count s)) 0 s Hwf
              ltac:(lia) ltac:(lia)) as (l & Hl & Hspec).
  exists l. split; [exact Hl|]. intros k raw. rewrite Hspec.
  rewrite Z2Nat.id by lia. cbn [Z.add].
  split; intros (Hk & Hr & Hkeep); (split; [lia|split; [exact Hr|]]).
  - destruct raw as [|b rest]; [discriminate|].
    apply b2z_one in Hkeep. subst b. now exists rest.
  - destruct Hkeep as (rest & ->). reflexivity.
Qed.

(** What [iter_all] yields: the records of the file. *)
Lemma iter_all_spec (s : BinTable.t) :
  wf s -> 0 < BinTable.rsize s ->
  exists l,
    BinTable.iter_all s = (inr l, s)
    /\ forall k raw,
         In (k, raw) l <->
         0 <= k < rec_count s
         /\ outcome (BinTable._read_raw k) s = inr raw /\ raw <> [].
Proof.
  intros Hwf Hrs. unfold BinTable.iter_all, BinTable.bind.
  rewrite records_count_eq by assumption.
  pose proof (rec_count_nonneg s Hwf Hrs) as Hc.
  destruct (iter_loop_spec
              (fun raw => match raw with
                          | _ :: _ => true
                          | [] => false
                          end) (Z.to_nat (rec_count s)) 0 s Hwf
              ltac:(lia) ltac:(lia)) as (l & Hl & Hspec).
  exists l. split; [exact Hl|]. intros k raw. rewrite Hspec.
  rewrite Z2Nat.id by lia. cbn [Z.add].
  split; intros (Hk & Hr & Hkeep); (split; [lia|split; [exact Hr|]]).
  - now destruct raw.
  - now destruct raw.
Qed.

(** A record that is read whole is a record of the file. *)
Lemma read_whole_inside (s : BinTable.t) (k : Z) (raw : bytes) :
  wf s -> 0 < BinTable.rsize s -> 0 <= k ->
  outcome (BinTable._read_raw k) s = inr raw ->
  Z.of_nat (length raw) = BinTable.rsize s ->
  0 <= k < rec_count s.
Proof.
  intros Hwf Hrs Hk Hread Hlen. split; [exact Hk|].
  pose proof (record_ofs_above s k Hk ltac:(lia)) as Habove.
  pose proof (region_nonneg s Hwf) as Hreg.
  unfold outcome in Hread. rewrite read_raw_run in Hread.
  rewrite seek_read_ok in Hread by lia. cbn [fst] in Hread.
  apply inr_inj in Hread. subst raw.
  unfold pread in Hlen. destruct (Z.ltb_spec (BinTable.rsize s) 0); [lia|].
  rewrite length_firstn, length_skipn in Hlen.
  unfold rec_count.
  enough (k + 1
          <= (Z.of_nat (length (BinTable.f s))
              - BinTable._records_region_ofs s) / BinTable.rsize s) by lia.
  apply Z.div_le_lower_bound; [lia|].
  unfold BinTable._record_ofs in *. lia.
Qed.

(** X11.  A record added with its flag byte at 1 is among those
    [iter_active] yields right after the [add_record] that returned. *)
Theorem added_record_is_listed (now key : Z) (packed rest : bytes)
    (s s' : BinTable.t) (i : Z) :
  wf s -> packed = x01 :: rest ->
  BinTable.add_record now key packed s = (inr i, s') ->
  exists l, outcome BinTable.iter_active s' = inr l /\ In (i, packed) l.
Proof.
  intros Hwf Hp H.
  destruct (add_record_found _ _ _ _ _ _ Hwf H) as (_ & _ & Hraw).
  apply add_record_ok in H
    as (s1 & j & _ & Hi & _ & Hlen & _ & _ & Hwf' & _ & Hr' & _);
    [|exact Hwf].
  assert (Hrs : 0 < BinTable.rsize s')
    by (rewrite Hr', <- Hlen, Hp; cbn [length]; lia).
  destruct (iter_active_spec s' Hwf' Hrs) as (l & Hl & Hspec).
  exists l. unfold outcome. rewrite Hl. split; [reflexivity|].
  apply Hspec. split; [|split; [exact Hraw|now exists rest]].
  apply (read_whole_inside s' i packed); try assumption. congruence.
Qed.

Lemma added_record_is_listed_witness :
  wf cars4_new
  /\ exists l,
       outcome BinTable.iter_active (after (add_car 101 7) cars4_new) = inr l
       /\ In (0, car_bytes 7) l.
Proof.
  split; [exact wf_cars4_new|].
  apply (added_record_is_listed 101 7 (car_bytes 7) (tl (car_bytes 7))
           cars4_new (after (add_car 101 7) cars4_new) 0).
  - exact wf_cars4_new.
  - vm_compute. reflexivity.
  - vm_compute. reflexivity.
Defined.

Lemma pread_first (fl : file) (off n : Z) (x : byte) :
  pread fl off 1 = [x] -> 1 <= n ->
  exists rest, pread fl off n = x :: rest.
Proof.
  unfold pread. change (1 <? 0) with false. cbv iota. intros H Hn.
  destruct (Z.ltb_spec n 0); [lia|].
  destruct (skipn (Z.to_nat off) fl) as [|y tl]; [discriminate|].
  cbn in H. injection H as ->.
  replace (Z.to_nat n) with (S (Z.to_nat n - 1)) by lia.
  cbn [firstn]. eauto.
Qed.

(** X12.  Deleting is soft: in a regular state of a table whose link does
    not lie on the flag byte, once [delete_record(key)] has returned, the
    record the key had is no longer among those [iter_active] yields, and
    it is still among those [iter_all] yields, with its flag byte at 0. *)
Theorem deleted_record_is_hidden (now key r : Z) (s s' : BinTable.t) :
  regular s -> 0 < BinTable.pad_off s -> key <> TOMBSTONE_KEY ->
  outcome (BinTable._lookup key) s = inr (Some r) ->
  BinTable.delete_record now key s = (inr tt, s') ->
  exists la ll,
    outcome BinTable.iter_active s' = inr la
    /\ (forall raw, ~ In (r, raw) la)
    /\ outcome BinTable.iter_all s' = inr ll
    /\ exists rest, In (r, x00 :: rest) ll.
Proof.
  intros Hreg Hpad0 Hkey Hlook H.
  destruct (regular_invariant s Hreg) as (Hwf & l & Hok).
  pose proof Hok as (Hpad & _ & _ & Href & _).
  assert (Hrs : 0 < BinTable.rsize s) by lia.
  pose proof (grows_delete_record now key s) as Hgrow.
  pose proof (keeps_consts_delete_record now key s) as Hc.
  rewrite H in Hgrow, Hc. cbn [snd] in Hgrow, Hc.
  apply consts_layout in Hc as (Hlay & _).
  destruct (delete_record_file _ _ _ _ Hwf H)
    as (j & sl & b0 & rest & b & bt & hb & Hfind & Hraw & Hlen & Lb & Lbt
        & Lhb & Hf).
  apply lookup_outcome in Hlook as (j0 & sl0 & Hfind0 & ->).
  rewrite Hfind in Hfind0. apply inr_inj in Hfind0.
  injection Hfind0 as <- <-.
  apply delete_record_ok in H
    as (j1 & sl1 & b1 & Hf1 & Hj & Hsl & Hk & Hnz & Hri & _ & Hwf' & _);
    [|exact Hwf].
  rewrite Hfind in Hf1. apply inr_inj in Hf1. injection Hf1 as <- <-.
  set (ri := IndexSlot.rec_index sl) in *.
  assert (Hrefd : referenced s ri).
  { exists j, sl. split; [exact Hj|]. split; [exact Hsl|].
    split; [|reflexivity]. rewrite Hk. now split. }
  destruct (Href _ Hrefd) as (Hrange & _).
  destruct (record_inside s ri Hwf Hrs Hrange) as (Hlo & Hhi).
  pose proof (region_nonneg s Hwf) as Hreg0.
  destruct (index_ofs_range s j Hj) as (Hjlo & Hjhi).
  pose proof (rec_count_mono s s' Hlay Hrs Hgrow) as Hmono.
  assert (Hrs' : 0 < BinTable.rsize s')
    by (destruct Hlay as (_ & -> & _); exact Hrs).
  (* the record as it is read afterwards *)
  assert (Hflag : pread (BinTable.f s') (BinTable._record_ofs s ri) 1
                  = [x00]).
  { rewrite Hf.
    rewrite pread_pwrite_above by (rewrite ?Lhb; lia).
    rewrite pread_pwrite_above by (rewrite ?Lbt; lia).
    rewrite pread_pwrite_below;
      [|lia|lia|lia|pose proof (length_pwrite_ge (BinTable.f s)
                       (BinTable._record_ofs s ri) (x00 :: rest)); lia].
    replace (BinTable._record_ofs s ri)
      with (BinTable._record_ofs s ri + Z.of_nat 0) at 2 by lia.
    change 1 with (Z.of_nat 1).
    rewrite pread_pwrite_inside by (cbn [length]; lia).
    reflexivity. }
  destruct (pread_first _ _ (BinTable.rsize s) _ Hflag ltac:(lia))
    as (rest' & Hrec).
  assert (Hread : outcome (BinTable._read_raw ri) s' = inr (x00 :: rest')).
  { unfold outcome. rewrite read_raw_run.
    rewrite (record_ofs_layout s s' ri Hlay).
    destruct Hlay as (_ & -> & _).
    rewrite seek_read_ok by lia. cbn [fst]. now rewrite Hrec. }
  destruct (iter_active_spec s' Hwf' Hrs') as (la & Hla & Hsa).
  destruct (iter_all_spec s' Hwf' Hrs') as (ll & Hll & Hsl').
  exists la, ll.
  split; [unfold outcome; now rewrite Hla|].
  split; [|split; [unfold outcome; now rewrite Hll|]].
  - intros raw Hin. apply Hsa in Hin as (_ & Hr & rest0 & ->).
    rewrite Hread in Hr. discriminate.
  - exists rest'. apply Hsl'. split; [lia|]. split; [exact Hread|].
    discriminate.
Qed.

Lemma regular_cars4_full : regular cars4_full.
Proof.
  eapply (reg_add _ 104 4 (car_bytes 4) 3); [exact regular_cars4_three|].
  vm_compute. reflexivity.
Defined.

Lemma deleted_record_is_hidden_witness :
  regular cars4_full
  /\ exists la ll,
       outcome BinTable.iter_active
         (after (BinTable.delete_record 105 2) cars4_full) = inr la
       /\ (forall raw, ~ In (1, raw) la)
       /\ outcome BinTable.iter_all
            (after (BinTable.delete_record 105 2) cars4_full) = inr ll
       /\ exists rest, In (1, x00 :: rest) ll.
Proof.
  split; [exact regular_cars4_full|].
  apply (deleted_record_is_hidden 105 2 1 cars4_full
           (after (BinTable.delete_record 105 2) cars4_full)).
  - exact regular_cars4_full.
  - vm_compute. reflexivity.
  - vm_compute. discriminate.
  - vm_compute. reflexivity.
  - vm_compute. reflexivity.
Defined.

(** X13.  The record an [add_record] leaves behind when it stops on an
    error of the insert probe shows up in a listing: in a regular state,
    if its flag byte is 1, [iter_active] yields it afterwards, although no
    live slot of the index refers to it. *)
Theorem orphan_record_is_listed (now key : Z) (packed rest : bytes)
    (s s' : BinTable.t) (e : exn) :
  regular s -> packed = x01 :: rest ->
  BinTable.add_record now key packed s = (inl e, s') -> index_error e ->
  exists i l,
    outcome BinTable._alloc_rec_index s = inr i
    /\ outcome BinTable.iter_active s' = inr l
    /\ In (i, packed) l
    /\ ~ referenced s' i.
Proof.
  intros Hreg Hp H He.
  destruct (regular_invariant s Hreg) as (Hwf & l0 & Hok).
  destruct (add_fails_records_ok _ _ _ _ _ _ _ Hwf Hok H He)
    as (i & s1 & l' & Halloc & Hwf' & Hok' & Hi & _ & Hunref).
  apply add_record_index_error in H
    as (i2 & s2 & Halloc2 & Hlen & Hofs & Hs' & _); [|exact He].
  rewrite Halloc in Halloc2. injection Halloc2 as <- <-.
  destruct (alloc_file _ _ _ Halloc) as (_ & _ & Hr1 & _).
  assert (Hrs' : 0 < BinTable.rsize s').
  { destruct Hok' as (Hpad' & _). destruct Hwf' as (_ & _ & Hp0). lia. }
  assert (Hread : outcome (BinTable._read_raw i) s' = inr packed).
  { unfold outcome. rewrite read_raw_run, Hs'.
    change (BinTable._record_ofs (BinTable.set_f _ s1) i)
      with (BinTable._record_ofs s1 i).
    change (BinTable.rsize (BinTable.set_f _ s1)) with (BinTable.rsize s1).
    rewrite seek_read_ok by lia. cbn [fst BinTable.f BinTable.set_f].
    rewrite Hr1, <- Hlen. now rewrite pread_pwrite_same. }
  destruct (iter_active_spec s' Hwf' Hrs') as (l & Hl & Hspec).
  exists i, l.
  split; [unfold outcome; now rewrite Halloc|].
  split; [unfold outcome; now rewrite Hl|]. split; [|exact Hunref].
  apply Hspec. split; [exact Hi|]. split; [exact Hread|now exists rest].
Qed.

Lemma orphan_record_is_listed_witness :
  regular cars4_three
  /\ exists i l,
       outcome BinTable._alloc_rec_index cars4_three = inr i
       /\ outcome BinTable.iter_active (after (add_car 110 2) cars4_three)
          = inr l
       /\ In (i, car_bytes 2) l
       /\ ~ referenced (after (add_car 110 2) cars4_three) i.
Proof.
  split; [exact regular_cars4_three|].
  apply (orphan_record_is_listed 110 2 (car_bytes 2) (tl (car_bytes 2))
           cars4_three (after (add_car 110 2) cars4_three)
           ValueError_duplicate_key).
  - exact regular_cars4_three.
  - vm_compute. reflexivity.
  - vm_compute. reflexivity.
  - left. reflexivity.
Defined.

(** * Text fields that do not fit *)

Lemma utf8_decode_encode_app (s : pystr) (t : bytes) :
  Forall scalar s -> utf8_decode (utf8_encode s ++ t) = s ++ utf8_decode t.
Proof.
  induction 1 as [|c s Hc _ IH]; [reflexivity|].
  unfold utf8_encode in *. cbn [flat_map]. rewrite <- app_assoc.
  rewrite utf8_decode_encode_cp by exact Hc. now rewrite IH.
Qed.

Lemma last_app_r {A : Type} (a p : list A) (d : A) :
  p <> [] -> last (a ++ p) d = last p d.
Proof.
  intros Hp. induction a as [|x a IH]; [reflexivity|].
  cbn [app]. destruct (a ++ p) eqn:E.
  - apply app_eq_nil in E as (_ & ->). contradiction.
  - rewrite <- E in *. cbn [last]. rewrite E. rewrite <- E. exact IH.
Qed.

Lemma z2b_high (v : Z) : 128 <= v < 256 -> z2b v <> x00.
Proof.
  intros Hv H. apply (f_equal b2z) in H. rewrite b2z_z2b in H by lia.
  cbn in H. lia.
Qed.

(** One byte that the decoder drops. *)
Ltac drop_byte :=
  rewrite utf8_decode_cons, ?b2z_z2b by lia; cbv zeta;
  repeat decide_test.

(** The leading bytes of a sequence that was cut are dropped by the decoder,
    and none of them is a zero byte. *)
Lemma cut_sequence_dropped (c : Z) (k : nat) :
  scalar c -> (k < length (utf8_encode_cp c))%nat ->
  utf8_decode (firstn k (utf8_encode_cp c)) = []
  /\ (firstn k (utf8_encode_cp c) = []
      \/ last (firstn k (utf8_encode_cp c)) x01 <> x00).
Proof.
  intros [Hr Hs]. unfold utf8_encode_cp.
  pose proof (Z.div_mod c 64 ltac:(lia)) as E1.
  pose proof (Z.mod_pos_bound c 64 ltac:(lia)) as B1.
  pose proof (Z.div_mod (c / 64) 64 ltac:(lia)) as E2.
  pose proof (Z.mod_pos_bound (c / 64) 64 ltac:(lia)) as B2.
  pose proof (Z.div_mod (c / 64 / 64) 64 ltac:(lia)) as E3.
  pose proof (Z.mod_pos_bound (c / 64 / 64) 64 ltac:(lia)) as B3.
  replace (c / 4096) with (c / 64 / 64)
    by (rewrite Z.div_div by lia; reflexivity).
  replace (c / 262144) with (c / 64 / 64 / 64)
    by (rewrite 2 Z.div_div by lia; reflexivity).
  set (r0 := c mod 64) in *. set (m1 := c / 64) in *.
  set (r1 := m1 mod 64) in *. set (m2 := m1 / 64) in *.
  set (r2 := m2 mod 64) in *. set (m3 := m2 / 64) in *.
  clearbody r0 m1 r1 m2 r2 m3.
  destruct (Z.ltb_spec c 128) as [H1|H1].
  { cbn [map length]. intros Hk.
    destruct k as [|k]; [|lia]. cbn. auto. }
  destruct (Z.ltb_spec c 2048) as [H2|H2].
  { cbn [map length]. intros Hk.
    destruct k as [|[|k]]; [cbn; auto| |lia].
    cbn [firstn]. split; [|right; cbn [last]; apply z2b_high; lia].
    drop_byte. reflexivity. }
  destruct (Z.ltb_spec c 65536) as [H3|H3].
  { replace ((55296 <=? c) && (c <=? 57343)) with false
      by (symmetry; apply andb_false_iff;
          destruct (Z.le_gt_cases 55296 c);
          [right; apply Z.leb_gt; lia|left; apply Z.leb_gt; lia]).
    cbn [map length]. intros Hk.
    destruct k as [|[|[|k]]]; [cbn; auto| | |lia]; cbn [firstn];
      (split; [|right; cbn [last]; apply z2b_high; lia]).
    - drop_byte. reflexivity.
    - drop_byte. drop_byte. reflexivity. }
  cbn [map length]. intros Hk.
  destruct k as [|[|[|[|k]]]]; [cbn; auto| | | |lia]; cbn [firstn];
    (split; [|right; cbn [last]; apply z2b_high; lia]).
  - drop_byte. reflexivity.
  - drop_byte. drop_byte. reflexivity.
  - drop_byte. drop_byte. drop_byte. reflexivity.
Qed.

(** X14.  A text too long for its field is cut at the width of the field,
    and the field decodes to the characters that fit whole: a character
    whose bytes are cut in the middle is dropped with what follows it. *)
Theorem cut_text_decodes_to_what_fits (s1 s2 : pystr) (c : Z) (n : nat) :
  Forall scalar s1 -> scalar c ->
  last (utf8_encode s1) x01 <> x00 ->
  (length (utf8_encode s1) <= n
   < length (utf8_encode s1) + length (utf8_encode_cp c))%nat ->
  length (fit (s1 ++ c :: s2) n) = n
  /\ dec (fit (s1 ++ c :: s2) n) = s1.
Proof.
  intros Hs1 Hc Hlast Hn.
  set (E1 := utf8_encode s1) in *.
  set (k := (n - length E1)%nat).
  assert (Hcut : firstn n (utf8_encode (s1 ++ c :: s2))
                 = E1 ++ firstn k (utf8_encode_cp c)).
  { unfold utf8_encode. rewrite flat_map_app. cbn [flat_map].
    fold (utf8_encode s1). fold E1.
    rewrite firstn_app.
    replace (firstn n E1) with E1 by (symmetry; apply firstn_all2; lia).
    fold k.
    rewrite firstn_app.
    replace (k - length (utf8_encode_cp c))%nat with 0%nat by lia.
    cbn [firstn]. now rewrite app_nil_r. }
  destruct (cut_sequence_dropped c k Hc ltac:(lia)) as (Hdrop & Hnz).
  unfold fit, dec. rewrite Hcut. split.
  - rewrite !length_app, repeat_length, length_firstn. lia.
  - rewrite rstrip0_app_zeros.
    rewrite rstrip0_id.
    + unfold E1. rewrite utf8_decode_encode_app by exact Hs1.
      rewrite Hdrop. apply app_nil_r.
    + destruct (firstn k (utf8_encode_cp c)) as [|b P] eqn:EP;
        [now rewrite app_nil_r|].
      destruct Hnz as [Hnz|Hnz]; [discriminate|].
      rewrite last_app_r; [exact Hnz|discriminate].
Qed.

(** The witness: a field of four bytes for a three-byte letter followed by
    a second one, which is cut after its first byte. *)
Lemma cut_text_decodes_to_what_fits_witness :
  length (fit ([3585] ++ 3586 :: [65]) 4) = 4%nat
  /\ dec (fit ([3585] ++ 3586 :: [65]) 4) = [3585].
Proof.
  apply (cut_text_decodes_to_what_fits [3585] [65] 3586 4).
  - constructor; [unfold scalar; lia|constructor].
  - unfold scalar. lia.
  - vm_compute. discriminate.
  - vm_compute. lia.
Defined.

Lemma length_fit (s : pystr) (n : nat) : length (fit s n) = n.
Proof.
  unfold fit. rewrite length_app, repeat_length, length_firstn. lia.
Qed.

Lemma pack_uint_range (w : nat) (v : Z) (b : bytes) :
  pack_uint E w v = inr b -> 0 <= v < 2 ^ (8 * Z.of_nat w).
Proof.
  unfold pack_uint.
  destruct (Z.leb_spec 0 v), (Z.ltb_spec v (2 ^ (8 * Z.of_nat w)));
    cbn [andb]; try discriminate. intros _. split; assumption.
Qed.

Ltac split_pack H :=
  repeat match type of H with
  | context [pack_uint E ?w ?v] =>
      let P := fresh "P" in
      let b := fresh "b" in
      destruct (pack_uint E w v) as [|b] eqn:P; [discriminate|];
      cbn [bindR] in H;
      let L := fresh "L" in
      pose proof (pack_uint_inv _ _ _ _ P) as (_ & _ & L);
      apply pack_uint_range in P
  end.

(** X15.  [pack] of the three tables raises for no text, only for a number
    that does not fit its field, and what it returns has the record size
    of the table, however long the texts are. *)
Theorem pack_gives_the_record_size (v : row) :
  (numbers_ok v <-> exists raw, pack_row v = inr raw)
  /\ (forall raw, pack_row v = inr raw -> Z.of_nat (length raw) = row_size v).
Proof.
  destruct v as [r|r|r]; cbn [numbers_ok pack_row row_size]; split.
  - split.
    + intros (H1 & H2 & H3 & H4). unfold Customers.pack.
      take_uint H1. take_uint H2. take_uint H3. take_uint H4.
      eexists; reflexivity.
    + intros (raw & H). unfold Customers.pack in H. split_pack H.
      unfold u8, u32. auto.
  - intros raw H. unfold Customers.pack in H. split_pack H.
    apply inr_inj in H. subst raw.
    rewrite !length_app, !(pack_s_exact _ _ (length_fit _ _)), !length_fit,
      repeat_length, L, L0, L1, L2. reflexivity.
  - split.
    + intros (H1 & H2 & H3 & H4 & H5 & H6 & H7). unfold Cars.pack.
      take_uint H1. take_uint H2. take_uint H3. take_uint H4. take_uint H5.
      take_uint H6. take_uint H7. eexists; reflexivity.
    + intros (raw & H). unfold Cars.pack in H. split_pack H.
      unfold u8, u16, u32. repeat split; lia.
  - intros raw H. unfold Cars.pack in H. split_pack H.
    apply inr_inj in H. subst raw.
    rewrite !length_app, !(pack_s_exact _ _ (length_fit _ _)), !length_fit,
      repeat_length, L, L0, L1, L2, L3, L4, L5. reflexivity.
  - split.
    + intros (H1 & H2 & H3 & H4 & H5 & H6 & H7 & H8). unfold Contracts.pack.
      take_uint H1. take_uint H2. take_uint H3. take_uint H4. take_uint H5.
      take_uint H6. take_uint H7. take_uint H8. eexists; reflexivity.
    + intros (raw & H). unfold Contracts.pack in H. split_pack H.
      unfold u8, u32. repeat split; lia.
  - intros raw H. unfold Contracts.pack in H. split_pack H.
    apply inr_inj in H. subst raw.
    rewrite !length_app, repeat_length, L, L0, L1, L2, L3, L4, L5, L6.
    reflexivity.
Qed.

(** * Identifiers *)

Lemma next_id_counter (now : Z) (s : BinTable.t) :
  Header.next_id (BinTable.h (snd (BinTable.next_id now s)))
  = Header.next_id (BinTable.h s) + 1
  /\ forall nid, fst (BinTable.next_id now s) = inr nid ->
                 nid = Header.next_id (BinTable.h s).
Proof.
  rewrite next_id_run. cbv zeta.
  set (s1 := BinTable.set_h _ s).
  pose proof (keeps_next_id_write_header now s1) as Hn.
  destruct (BinTable._write_header now s1) as [[e|[]] s2];
    cbn [fst snd] in *.
  - split; [exact Hn|]. intros nid H. discriminate.
  - split; [exact Hn|]. intros nid H. congruence.
Qed.

Lemma do_call_next_id_le (c : call) (s : BinTable.t) :
  Header.next_id (BinTable.h s)
  <= Header.next_id (BinTable.h (snd (do_call c s))).
Proof.
  destruct c as [now|now key packed|now key packed|now key];
    cbn [do_call].
  - unfold BinTable.bind.
    pose proof (next_id_counter now s) as (H & _).
    destruct (BinTable.next_id now s) as [[e|a] s1];
      cbn [fst snd BinTable.ret] in *; lia.
  - unfold BinTable.bind.
    pose proof (keeps_next_id_add_record now key packed s) as H.
    destruct (BinTable.add_record now key packed s) as [[e|a] s1];
      cbn [fst snd BinTable.ret] in *; lia.
  - rewrite keeps_next_id_update_record. lia.
  - rewrite keeps_next_id_delete_record. lia.
Qed.

Lemma do_calls_next_id_le (cs : list call) (s : BinTable.t) :
  Header.next_id (BinTable.h s)
  <= Header.next_id (BinTable.h (do_calls cs s)).
Proof.
  revert s. induction cs as [|c cs IH]; intros s; cbn [do_calls]; [lia|].
  pose proof (do_call_next_id_le c s). pose proof (IH (snd (do_call c s))).
  lia.
Qed.

(** X16.  [next_id] never gives the same identifier twice: an identifier it
    returned is smaller than every identifier it returns later, whatever
    calls are made in between and whether they return or raise. *)
Theorem ids_are_never_reused (now now' : Z) (s s1 s2 : BinTable.t)
    (cs : list call) (a b : Z) :
  BinTable.next_id now s = (inr a, s1) ->
  BinTable.next_id now' (do_calls cs s1) = (inr b, s2) ->
  a < b.
Proof.
  intros Ha Hb.
  pose proof (next_id_counter now s) as (Hc & Hr). rewrite Ha in Hc, Hr.
  cbn [fst snd] in Hc, Hr. specialize (Hr a eq_refl).
  pose proof (next_id_counter now' (do_calls cs s1)) as (_ & Hr').
  rewrite Hb in Hr'. cbn [fst] in Hr'. specialize (Hr' b eq_refl).
  pose proof (do_calls_next_id_le cs s1). lia.
Qed.

(** The witness: a new table of cars; between the two calls a record is
    added under the first identifier, added again (which raises) and
    deleted. *)
Lemma ids_are_never_reused_witness :
  BinTable.next_id 101 cars4_new
  = (inr 1, snd (BinTable.next_id 101 cars4_new))
  /\ 1 < 2.
Proof.
  split; [vm_compute; reflexivity|].
  apply (ids_are_never_reused 101 105 cars4_new
           (snd (BinTable.next_id 101 cars4_new))
           (snd (BinTable.next_id 105
                   (do_calls [Call_add 102 1 (car_bytes 1);
                              Call_add 103 1 (car_bytes 1);
                              Call_delete 104 1]
                      (snd (BinTable.next_id 101 cars4_new)))))
           [Call_add 102 1 (car_bytes 1); Call_add 103 1 (car_bytes 1);
            Call_delete 104 1] 1 2).
  - vm_compute. reflexivity.
  - vm_compute. reflexivity.
Defined.

(** * Keys drawn from [next_id] *)

Lemma header_pack_next_id (hd : Header.t) (b : bytes) :
  Header.pack hd = inr b -> 0 <= Header.next_id hd < 2 ^ 32.
Proof.
  unfold Header.pack, Header.pack_with. intros H.
  destruct (pack_uint E 1 (Header.version hd)); [discriminate|].
  destruct (pack_uint E 1 (Header.endian hd)); [discriminate|].
  destruct (pack_uint E 2 (Header.record_size hd)); [discriminate|].
  destruct (pack_uint E 4 (Header.created_at hd)); [discriminate|].
  destruct (pack_uint E 4 (Header.updated_at hd)); [discriminate|].
  destruct (pack_uint E 4 (Header.next_id hd)) as [|bn] eqn:Hn;
    [discriminate|].
  apply pack_uint_inv in Hn as (Hn & _). cbn in Hn. lia.
Qed.

(** An identifier that [next_id] returned is below the largest value of
    its field, which is the tombstone mark. *)
Lemma next_id_below_mark (now : Z) (s s' : BinTable.t) (nid : Z) :
  BinTable.next_id now s = (inr nid, s') ->
  nid = Header.next_id (BinTable.h s) /\ nid < TOMBSTONE_KEY.
Proof.
  rewrite next_id_run. cbv zeta.
  set (s1 := BinTable.set_h _ s).
  destruct (BinTable._write_header now s1) as [[e|[]] s2] eqn:Hw;
    [discriminate|].
  intros H. inv_pair H. split; [reflexivity|].
  apply write_header_inv in Hw as (b & Hb & _).
  apply header_pack_next_id in Hb. cbn in Hb.
  unfold TOMBSTONE_KEY. lia.
Qed.

(** The insert probe raises the duplicate on a slot that holds the key. *)
Lemma probe_insert_duplicate_inv (rd : Z -> result IndexSlot.t) (n : Z)
    (key start : Z) (fuel : nat) (i first_tomb : Z) :
  0 < n -> (forall j, 0 <= j < n -> exists sl, rd j = inr sl) ->
  probe_insert rd n key start fuel i first_tomb
  = inl ValueError_duplicate_key ->
  exists j sl, 0 <= j < n /\ rd j = inr sl /\ IndexSlot.key sl = key.
Proof.
  intros Hn Hrd. revert i first_tomb.
  induction fuel as [|fuel IH]; intros i first_tomb; [discriminate|].
  cbn [probe_insert]. cbv zeta.
  pose proof (Z.mod_pos_bound (start + i) n Hn) as Hj.
  destruct (Hrd _ Hj) as (sl & Hsl). rewrite Hsl. cbn [bindR].
  destruct (Z.eqb_spec (IndexSlot.key sl) key) as [Hk|Hk].
  - intros _. exists ((start + i) mod n), sl. auto.
  - destruct (IndexSlot.key sl =? 0); [discriminate|]. apply IH.
Qed.

Lemma insert_slot_duplicate_inv (s : BinTable.t) (key : Z) :
  wf s -> insert_slot s key = inl ValueError_duplicate_key ->
  exists j sl,
    0 <= j < nslots s /\ slot_at s j = inr sl /\ IndexSlot.key sl = key.
Proof.
  intros Hwf. unfold insert_slot.
  destruct (Z.eqb_spec (nslots s) 0); [discriminate|].
  pose proof (proj1 Hwf).
  apply probe_insert_duplicate_inv; [lia|].
  intros j Hj. now apply slot_at_readable.
Qed.

(** A call of [add_record] that stops on an error of the insert probe
    leaves the index as it was. *)
Lemma add_fails_index (now key : Z) (packed : bytes) (s s' : BinTable.t)
    (e : exn) (l : list Z) :
  wf s -> records_ok s l ->
  BinTable.add_record now key packed s = (inl e, s') -> index_error e ->
  wf s' /\ same_index s s' /\ (exists l', records_ok s' l')
  /\ insert_slot s key = inl e.
Proof.
  intros Hwf Hok H He. pose proof Hok as (Hpad & _).
  assert (Hrs : 0 < BinTable.rsize s) by (destruct Hwf as (_ & _ & Hp); lia).
  destruct (add_fails_records_ok _ _ _ _ _ _ _ Hwf Hok H He)
    as (i & s1 & l' & Halloc & Hwf' & Hok' & Hi & _).
  apply add_record_index_error in H
    as (i2 & s2 & Halloc2 & Hlen & Hofs & -> & Hins); [|exact He].
  rewrite Halloc in Halloc2. inv_pair Halloc2.
  destruct (alloc_file _ _ _ Halloc) as (Hf1 & Hn1 & Hr1 & Hp1 & _).
  assert (Hwf1 : wf s2) by (eapply wf_transport; eassumption).
  assert (Hsi : same_index s
                  (BinTable.set_f
                     (pwrite (BinTable.f s2) (BinTable._record_ofs s2 i2)
                        packed) s2)).
  { apply (same_index_trans s s2 _); [now apply same_index_file|].
    apply same_index_pwrite_above; [assumption|].
    apply record_ofs_above; lia. }
  split; [exact Hwf'|]. split; [exact Hsi|]. split; [now exists l'|].
  now rewrite <- (insert_slot_same_index _ _ key Hsi).
Qed.

(** The invariant of the tables whose keys are drawn from [next_id]. *)
Lemma managed_invariant (s : BinTable.t) :
  managed s ->
  wf s /\ keys_below_next_id s /\ exists l, records_ok s l.
Proof.
  induction 1 as [now magic rsize slots pad_off s Hpad Hfit Hopen
                 | s now r s' _ IH Hnext
                 | s now now' nid packed i s1 s2 _ IH Hnext Hadd
                 | s now now' nid packed e s1 s2 _ IH Hnext Hadd He
                 | s now key packed s' _ IH Hne Hupd
                 | s now key s' _ IH Hne Hdel].
  - destruct (open_records_ok _ _ _ _ _ _ Hpad Hfit Hopen) as (Hwf & Hok).
    apply open_new in Hopen as (_ & Hn & Hh & _ & _ & Hrd); [|exact Hpad].
    split; [exact Hwf|]. split; [|now exists []].
    split; [rewrite Hh; cbn; lia|].
    intros j sl Hj Hsl (Hnz & _). rewrite Hn in Hj.
    rewrite Hrd in Hsl by exact Hj. apply inr_inj in Hsl. subst sl.
    now elim Hnz.
  - destruct IH as (Hwf & (Hone & Hkeys) & l & Hok).
    destruct (next_id_any _ _ _ _ Hwf Hnext) as (Hwf' & (Hn' & Hsl') & Hc & _).
    split; [exact Hwf'|]. split.
    + split; [lia|]. intros j sl Hj Hsl Hlive. rewrite Hn' in Hj.
      rewrite Hsl' in Hsl by exact Hj.
      pose proof (Hkeys j sl Hj Hsl Hlive). lia.
    + exists l. exact (next_id_records_ok _ _ _ _ _ Hwf Hok Hnext).
  - destruct IH as (Hwf & (Hone & Hkeys) & l & Hok).
    destruct (next_id_any _ _ _ _ Hwf Hnext)
      as (Hwf1 & (Hn1 & Hsl1) & Hc & Hnid).
    specialize (Hnid nid eq_refl).
    pose proof (next_id_records_ok _ _ _ _ _ Hwf Hok Hnext) as Hok1.
    pose proof (keeps_next_id_add_record now' nid packed s1) as Hkeep.
    rewrite Hadd in Hkeep. cbn [snd] in Hkeep.
    destruct (add_record_records_ok _ _ _ _ _ _ _ Hwf1 Hok1 Hadd)
      as (l' & Hok2).
    apply add_record_ok in Hadd
      as (s0 & j & _ & _ & _ & _ & _ & Hj & Hwf2 & Hn2 & _ & _ & Hslots & _);
      [|exact Hwf1].
    split; [exact Hwf2|]. split; [|now exists l'].
    split; [lia|]. intros j' sl Hj' Hsl Hlive.
    rewrite Hn2 in Hj'. rewrite Hslots in Hsl by exact Hj'.
    destruct (Z.eqb_spec j' j).
    + apply inr_inj in Hsl. subst sl. cbn. lia.
    + rewrite Hn1 in Hj'. rewrite Hsl1 in Hsl by exact Hj'.
      pose proof (Hkeys j' sl Hj' Hsl Hlive). lia.
  - destruct IH as (Hwf & (Hone & Hkeys) & l & Hok).
    destruct (next_id_any _ _ _ _ Hwf Hnext)
      as (Hwf1 & (Hn1 & Hsl1) & Hc & _).
    pose proof (next_id_records_ok _ _ _ _ _ Hwf Hok Hnext) as Hok1.
    pose proof (keeps_next_id_add_record now' nid packed s1) as Hkeep.
    rewrite Hadd in Hkeep. cbn [snd] in Hkeep.
    destruct (add_fails_index _ _ _ _ _ _ _ Hwf1 Hok1 Hadd He)
      as (Hwf2 & (Hn2 & Hsl2) & Hok2 & _).
    split; [exact Hwf2|]. split; [|exact Hok2].
    split; [lia|]. intros j sl Hj Hsl Hlive.
    rewrite Hn2 in Hj. rewrite Hsl2 in Hsl by exact Hj.
    rewrite Hn1 in Hj. rewrite Hsl1 in Hsl by exact Hj.
    pose proof (Hkeys j sl Hj Hsl Hlive). lia.
  - destruct IH as (Hwf & (Hone & Hkeys) & l & Hok).
    pose proof (update_record_records_ok _ _ _ _ _ _ Hwf Hok Hne Hupd)
      as Hok'.
    pose proof (keeps_next_id_update_record now key packed s) as Hkeep.
    rewrite Hupd in Hkeep. cbn [snd] in Hkeep.
    destruct (update_record_ok _ _ _ _ _ Hwf Hupd)
      as (j & sl0 & hb & _ & _ & _ & _ & _ & Hwf' & (Hn' & Hsl') & _).
    split; [exact Hwf'|]. split; [|now exists l].
    split; [lia|]. intros j' sl Hj' Hsl Hlive. rewrite Hn' in Hj'.
    rewrite Hsl' in Hsl by exact Hj'.
    pose proof (Hkeys j' sl Hj' Hsl Hlive). lia.
  - destruct IH as (Hwf & (Hone & Hkeys) & l & Hok).
    pose proof (delete_record_records_ok _ _ _ _ _ Hwf Hok Hne Hdel)
      as Hok'.
    pose proof (keeps_next_id_delete_record now key s) as Hkeep.
    rewrite Hdel in Hkeep. cbn [snd] in Hkeep.
    apply delete_record_ok in Hdel
      as (j & sl0 & b & _ & _ & _ & _ & _ & _ & _ & Hwf' & Hn' & _ & _
          & Hslots & _); [|exact Hwf].
    split; [exact Hwf'|]. split; [|exact Hok'].
    split; [lia|]. intros j' sl Hj' Hsl Hlive. rewrite Hn' in Hj'.
    rewrite Hslots in Hsl by exact Hj'.
    destruct (Z.eqb_spec j' j).
    + apply inr_inj in Hsl. subst sl. destruct Hlive as (_ & Hl).
      now elim Hl.
    + pose proof (Hkeys j' sl Hj' Hsl Hlive). lia.
Qed.

(** X17.  In a table whose keys are the identifiers [next_id] gave, an
    identifier that [next_id] returns is a key the index can hold (not 0,
    not the tombstone mark), no record is stored under it yet
    ([read_record] returns [None]; with an index of no slots it raises
    [ZeroDivisionError]), and [add_record] under it does not raise
    [ValueError('duplicate key')]. *)
Theorem fresh_ids_never_collide (now now' nid : Z) (packed : bytes)
    (s s1 : BinTable.t) :
  managed s ->
  BinTable.next_id now s = (inr nid, s1) ->
  live_key nid
  /\ outcome (BinTable.read_record nid) s1
     = (if nslots s1 =? 0 then inl ZeroDivisionError else inr None)
  /\ outcome (BinTable.add_record now' nid packed) s1
     <> inl ValueError_duplicate_key.
Proof.
  intros Hman Hnext.
  destruct (managed_invariant s Hman) as (Hwf & (Hone & Hkeys) & l & Hok).
  destruct (next_id_below_mark _ _ _ _ Hnext) as (Hnid & Hmark).
  destruct (next_id_any _ _ _ _ Hwf Hnext) as (Hwf1 & (Hn1 & Hsl1) & _ & _).
  pose proof (next_id_records_ok _ _ _ _ _ Hwf Hok Hnext) as Hok1.
  assert (Hlive : live_key nid) by (split; lia).
  assert (Habsent : forall j sl, 0 <= j < nslots s1 ->
            slot_at s1 j = inr sl -> IndexSlot.key sl <> nid).
  { intros j sl Hj Hsl Hk. rewrite Hn1 in Hj.
    rewrite Hsl1 in Hsl by exact Hj.
    assert (Hl : live_key (IndexSlot.key sl)) by now rewrite Hk.
    pose proof (Hkeys j sl Hj Hsl Hl). lia. }
  split; [exact Hlive|]. split.
  - rewrite read_record_run. unfold find_slot.
    destruct (Z.eqb_spec (nslots s1) 0) as [Hz|Hz]; [reflexivity|].
    pose proof (proj1 Hwf1) as Hn.
    destruct (probe_find_total (nslots s1) ltac:(lia) (slot_at s1) nid
                (nid mod nslots s1) (Z.to_nat (nslots s1)) 0)
      as (r & Hr); [intros j Hj; now apply slot_at_readable|].
    destruct r as [[j sl]|]; [exfalso|now rewrite Hr].
    assert (Hfind : find_slot s1 nid = inr (Some (j, sl))).
    { unfold find_slot. destruct (Z.eqb_spec (nslots s1) 0); [lia|exact Hr]. }
    destruct (find_slot_some s1 nid j sl Hn Hfind) as (Hj & Hsl & Hk & _).
    exact (Habsent j sl Hj Hsl Hk).
  - unfold outcome. intros Hdup.
    destruct (BinTable.add_record now' nid packed s1) as [r s2] eqn:Hadd.
    cbn [fst] in Hdup. subst r.
    destruct (add_fails_index _ _ _ _ _ _ _ Hwf1 Hok1 Hadd
                (or_introl eq_refl)) as (_ & _ & _ & Hins).
    destruct (insert_slot_duplicate_inv s1 nid Hwf1 Hins)
      as (j & sl & Hj & Hsl & Hk).
    exact (Habsent j sl Hj Hsl Hk).
Qed.

Lemma managed_cars4_drawn : managed cars4_drawn.
Proof.
  assert (M0 : managed cars4_new).
  { apply (man_open 100 Cars.magic CARS_SIZE 4 CARS_PAD);
      [vm_compute; discriminate|vm_compute; discriminate
      |vm_compute; reflexivity]. }
  assert (M1 : managed
                 (after (add_car 102 1)
                    (after (BinTable.next_id 101) cars4_new))).
  { apply (man_add cars4_new 101 102 1 (car_bytes 1) 0
             (after (BinTable.next_id 101) cars4_new)); [exact M0| |];
      vm_compute; reflexivity. }
  assert (M2 : managed
                 (after (add_car 104 2)
                    (after (BinTable.next_id 103)
                       (after (add_car 102 1)
                          (after (BinTable.next_id 101) cars4_new))))).
  { eapply (man_add _ 103 104 2 (car_bytes 2) 1
              (after (BinTable.next_id 103)
                 (after (add_car 102 1)
                    (after (BinTable.next_id 101) cars4_new))));
      [exact M1| |]; vm_compute; reflexivity. }
  eapply (man_delete _ 105 1); [exact M2|vm_compute; discriminate|].
  vm_compute. reflexivity.
Defined.

(** The witness: the third identifier of a table that holds car 2 and the
    tombstone of car 1. *)
Lemma fresh_ids_never_collide_witness :
  managed cars4_drawn
  /\ BinTable.next_id 106 cars4_drawn
     = (inr 3, after (BinTable.next_id 106) cars4_drawn)
  /\ live_key 3
  /\ outcome (BinTable.read_record 3)
       (after (BinTable.next_id 106) cars4_drawn)
     = (if nslots (after (BinTable.next_id 106) cars4_drawn) =? 0
        then inl ZeroDivisionError else inr None)
  /\ outcome (BinTable.add_record 107 3 (car_bytes 3))
       (after (BinTable.next_id 106) cars4_drawn)
     <> inl ValueError_duplicate_key.
Proof.
  split; [exact managed_cars4_drawn|].
  split; [vm_compute; reflexivity|].
  apply (fresh_ids_never_collide 106 107 3 (car_bytes 3) cars4_drawn
           (after (BinTable.next_id 106) cars4_drawn)).
  - exact managed_cars4_drawn.
  - vm_compute. reflexivity.
Defined.

(** * The commands of the application *)

Lemma abind_ok_inv {A B : Type} (m : AM A) (k : A -> AM B)
    (s s' : App) (b : B) :
  abind m k s = (inr b, s') ->
  exists a s1, m s = (inr a, s1) /\ k a s1 = (inr b, s').
Proof.
  unfold abind. destruct (m s) as [[e|a] s1]; [discriminate|]. eauto.
Qed.

Lemma alift_ok_inv {A : Type} (r : result A) (s s' : App) (a : A) :
  alift r s = (inr a, s') -> r = inr a /\ s' = s.
Proof.
  unfold alift. intros H. inversion H. auto.
Qed.

Lemma on_cars_read_record (k : Z) (app : App) :
  on_cars (BinTable.read_record k) app
  = (outcome (BinTable.read_record k) (cars app), app).
Proof.
  unfold on_cars, outcome.
  pose proof (read_record_state k (cars app)) as Hst.
  destruct (BinTable.read_record k (cars app)) as [res c].
  cbn [fst snd] in *. subst c. now destruct app.
Qed.

Lemma on_customers_read_record (k : Z) (app : App) :
  on_customers (BinTable.read_record k) app
  = (outcome (BinTable.read_record k) (customers app), app).
Proof.
  unfold on_customers, outcome.
  pose proof (read_record_state k (customers app)) as Hst.
  destruct (BinTable.read_record k (customers app)) as [res c].
  cbn [fst snd] in *. subst c. now destruct app.
Qed.

Lemma on_cars_inv {A : Type} (m : BinTable.M A) (app app' : App)
    (r : result A) :
  on_cars m app = (r, app') ->
  exists c, m (cars app) = (r, c)
            /\ app' = mkApp (customers app) c (contracts app).
Proof.
  unfold on_cars. destruct (m (cars app)) as [r0 c]. intros H.
  inversion H. eauto.
Qed.

Lemma on_contracts_inv {A : Type} (m : BinTable.M A) (app app' : App)
    (r : result A) :
  on_contracts m app = (r, app') ->
  exists c, m (contracts app) = (r, c)
            /\ app' = mkApp (customers app) (cars app) c.
Proof.
  unfold on_contracts. destruct (m (contracts app)) as [r0 c]. intros H.
  inversion H. eauto.
Qed.

Lemma on_customers_inv {A : Type} (m : BinTable.M A) (app app' : App)
    (r : result A) :
  on_customers m app = (r, app') ->
  exists c, m (customers app) = (r, c)
            /\ app' = mkApp c (cars app) (contracts app).
Proof.
  unfold on_customers. destruct (m (customers app)) as [r0 c]. intros H.
  inversion H. eauto.
Qed.

(** What [Cars.pack] returns is a record of 128 bytes that [Cars.unpack]
    reads with the status it was packed with, whatever the texts are. *)
Lemma car_pack_status (r : Cars.row) (raw : bytes) :
  Cars.pack r = inr raw ->
  length raw = 128%nat
  /\ exists c, Cars.unpack raw = inr c /\ Cars.status c = Cars.status r.
Proof.
  unfold Cars.pack. intros H.
  destruct (pack_uint E 1 (Cars.flag r)) as [|b0] eqn:P0; [discriminate|].
  destruct (pack_uint E 4 (Cars.car_id r)) as [|b1] eqn:P1; [discriminate|].
  destruct (pack_uint E 2 (Cars.year r)) as [|b2] eqn:P2; [discriminate|].
  destruct (pack_uint E 4 (Cars.rate_cents r)) as [|b3] eqn:P3;
    [discriminate|].
  destruct (pack_uint E 4 (Cars.odometer_km r)) as [|b4] eqn:P4;
    [discriminate|].
  destruct (pack_uint E 1 (Cars.status r)) as [|b5] eqn:P5; [discriminate|].
  destruct (pack_uint E 4 (Cars.updated_at r)) as [|b6] eqn:P6;
    [discriminate|].
  cbn [bindR] in H. apply inr_inj in H.
  pose proof (pack_uint_inv _ _ _ _ P0) as (_ & _ & L0).
  pose proof (pack_uint_inv _ _ _ _ P1) as (_ & _ & L1).
  pose proof (pack_uint_inv _ _ _ _ P2) as (_ & _ & L2).
  pose proof (pack_uint_inv _ _ _ _ P3) as (_ & _ & L3).
  pose proof (pack_uint_inv _ _ _ _ P4) as (_ & _ & L4).
  pose proof (pack_uint_inv _ _ _ _ P5) as (_ & _ & L5).
  pose proof (pack_uint_inv _ _ _ _ P6) as (_ & _ & L6).
  apply unpack_pack_uint in P5.
  rewrite !(pack_s_exact _ _ (length_fit _ _)) in H.
  pose proof (length_fit (Cars.license r) 12) as F1.
  pose proof (length_fit (Cars.brand r) 12) as F2.
  pose proof (length_fit (Cars.model r) 16) as F3.
  assert (Hlen : length raw = 128%nat).
  { subst raw. rewrite !length_app, repeat_length, L0, L1, L2, L3, L4, L5,
      L6, F1, F2, F3. reflexivity. }
  split; [exact Hlen|].
  unfold Cars.unpack. rewrite Hlen.
  change (Z.of_nat 128 =? 128) with true. cbv iota.
  eexists. split; [reflexivity|]. cbn [Cars.status].
  subst raw. cut_fields. exact P5.
Qed.

Section CommandProofs.

Variable py_int : string -> option Z.
Variable py_strip : string -> string.

(** [delete_car] on a car whose record says it is rented. *)
Lemma delete_car_rented (clock : nat -> Z) (line : string) (app : App)
    (car_id : Z) (raw : bytes) (c : Cars.row) :
  py_int line = Some car_id ->
  outcome (BinTable.read_record car_id) (cars app) = inr (Some raw) ->
  raw <> [] -> Cars.unpack raw = inr c -> Cars.status c = 1 ->
  delete_car py_int clock line app = (inr [Said_car_rented], app).
Proof.
  intros Hid Hraw Hne Hc Hst. unfold delete_car, int_of_line. rewrite Hid.
  unfold abind at 1. rewrite on_cars_read_record, Hraw.
  destruct raw as [|b raw]; [congruence|].
  unfold abind at 1, alift at 1. rewrite Hc, Hst. reflexivity.
Qed.

(** [add_contract] for a car whose record says it is not available. *)
Lemma add_contract_busy (clock : nat -> Z) (line1 line2 line3 : string)
    (app : App) (cus_id car_id rent : Z) (raw : bytes) (c : Cars.row) :
  py_int line1 = Some cus_id -> py_int line2 = Some car_id ->
  ymd_to_int py_int (py_strip line3) = inr rent ->
  outcome (BinTable.read_record car_id) (cars app) = inr (Some raw) ->
  raw <> [] -> Cars.unpack raw = inr c -> Cars.status c <> 0 ->
  add_contract py_int py_strip clock line1 line2 line3 app
  = (inr [Said_car_busy], app).
Proof.
  intros H1 H2 H3 Hraw Hne Hc Hst. unfold add_contract, int_of_line.
  rewrite H1, H2. cbn [bindR]. rewrite H3. cbn [bindR].
  unfold abind at 1. rewrite on_cars_read_record, Hraw.
  destruct raw as [|b raw]; [congruence|].
  unfold abind at 1, alift at 1. rewrite Hc.
  destruct (Z.eqb_spec (Cars.status c) 0); [contradiction|]. reflexivity.
Qed.

End CommandProofs.

(** X18.  When [add_contract] prints that a contract is opened, the
    contract is stored under a new identifier of the Contracts table with
    the customer, the car and the date that were typed, and the record of
    the car has status 1; the Customers table is untouched.  From then on
    [delete_car] refuses the car and [add_contract] refuses to rent it
    again, both without changing anything. *)
Theorem add_contract_rents_the_car
    (py_int : string -> option Z) (py_strip : string -> string)
    (clock : nat -> Z) (line1 line2 line3 : string) (app app' : App)
    (rid : Z) :
  wf (cars app) -> wf (contracts app) ->
  add_contract py_int py_strip clock line1 line2 line3 app
  = (inr [Said_contract_opened rid], app') ->
  exists cus_id car_id rent p,
    py_int line1 = Some cus_id /\ py_int line2 = Some car_id
    /\ ymd_to_int py_int (py_strip line3) = inr rent
    /\ rid = Header.next_id (BinTable.h (contracts app))
    /\ customers app' = customers app
    /\ Contracts.pack (Contracts.mk 1 rid cus_id car_id rent 0 0 0) = inr p
    /\ outcome (BinTable.read_record rid) (contracts app') = inr (Some p)
    /\ (exists raw c,
          outcome (BinTable.read_record car_id) (cars app') = inr (Some raw)
          /\ Cars.unpack raw = inr c /\ Cars.status c = 1)
    /\ (forall clock' l, py_int l = Some car_id ->
          delete_car py_int clock' l app' = (inr [Said_car_rented], app'))
    /\ (forall clock' l1 l2 l3 cus' rent',
          py_int l1 = Some cus' -> py_int l2 = Some car_id ->
          ymd_to_int py_int (py_strip l3) = inr rent' ->
          add_contract py_int py_strip clock' l1 l2 l3 app'
          = (inr [Said_car_busy], app')).
Proof.
  intros Hwfc Hwfk H. unfold add_contract, int_of_line in H.
  destruct (py_int line1) as [cus_id|] eqn:H1; cbn [bindR] in H;
    [|discriminate].
  destruct (py_int line2) as [car_id|] eqn:H2; cbn [bindR] in H;
    [|discriminate].
  destruct (ymd_to_int py_int (py_strip line3)) as [e|rent] eqn:H3;
    cbn [bindR] in H; [discriminate|].
  apply abind_ok_inv in H as (car_raw & a1 & Hread & H).
  rewrite on_cars_read_record in Hread. inversion Hread as [[Hcar Ha1]].
  clear Hread. subst a1.
  destruct car_raw as [[|b0 car_raw]|]; try discriminate.
  apply abind_ok_inv in H as (car & a1 & Hun & H).
  apply alift_ok_inv in Hun as (Hun & ->).
  destruct (Cars.status car =? 0); cbn [negb] in H; [|discriminate].
  apply abind_ok_inv in H as (cus_raw & a1 & Hread & H).
  rewrite on_customers_read_record in Hread. inversion Hread as [[Hcus Ha1]].
  clear Hread. subst a1.
  destruct cus_raw as [[|c0 cus_raw]|]; try discriminate.
  apply abind_ok_inv in H as (rid0 & a1 & Hnext & H).
  apply on_contracts_inv in Hnext as (k1 & Hnext & ->).
  apply abind_ok_inv in H as (p & a2 & Hp & H).
  apply alift_ok_inv in Hp as (Hp & ->).
  apply abind_ok_inv in H as (i & a2 & Hadd & H).
  apply on_contracts_inv in Hadd as (k2 & Hadd & ->).
  cbn [customers cars contracts] in Hadd, H.
  apply abind_ok_inv in H as (p2 & a3 & Hp2 & H).
  apply alift_ok_inv in Hp2 as (Hp2 & ->).
  apply abind_ok_inv in H as ([] & a3 & Hupd & H).
  apply on_cars_inv in Hupd as (c2 & Hupd & ->).
  cbn [customers cars contracts] in Hupd, H.
  unfold aret in H. inversion H as [[Hrid Happ]]. subst rid0. clear H.
  destruct (next_id_any _ _ _ _ Hwfk Hnext) as (Hwf1 & _ & _ & Hnid).
  specialize (Hnid rid eq_refl).
  pose proof (add_record_read _ _ _ _ _ _ Hwf1 Hadd) as Hrc.
  pose proof (update_record_read _ _ _ _ _ Hwfc Hupd) as Hrk.
  destruct (car_pack_status _ _ Hp2) as (Lp2 & c' & Hc' & Hst).
  cbn [Cars.status] in Hst.
  assert (Hne : p2 <> []) by (intros ->; discriminate).
  exists cus_id, car_id, rent, p.
  split; [reflexivity|]. split; [reflexivity|]. split; [reflexivity|].
  split; [exact Hnid|]. split; [reflexivity|]. split; [exact Hp|].
  split; [exact Hrc|]. split; [exists p2, c'; auto|]. split.
  - intros clock' l Hl.
    apply (delete_car_rented py_int clock' l _ car_id p2 c'); assumption.
  - intros clock' l1 l2 l3 cus' rent' Hl1 Hl2 Hl3.
    apply (add_contract_busy py_int py_strip clock' l1 l2 l3 _ cus' car_id
             rent' p2 c'); try assumption.
    rewrite Hst. discriminate.
Qed.

Lemma wf_rental_contracts : wf (contracts rental_app).
Proof.
  unfold wf, nslots, BinTable._records_region_ofs.
  vm_compute. repeat split; discriminate.
Defined.

(** The witness: customer 1 rents car 2. *)
Lemma add_contract_rents_the_car_witness :
  exists cus_id car_id rent p,
    digits_int "1" = Some cus_id /\ digits_int "2" = Some car_id
    /\ ymd_to_int digits_int "2024-01-01" = inr rent
    /\ 1 = Header.next_id (BinTable.h (contracts rental_app))
    /\ customers rental_app_rented = customers rental_app
    /\ Contracts.pack (Contracts.mk 1 1 cus_id car_id rent 0 0 0) = inr p
    /\ outcome (BinTable.read_record 1) (contracts rental_app_rented)
       = inr (Some p)
    /\ (exists raw c,
          outcome (BinTable.read_record car_id) (cars rental_app_rented)
          = inr (Some raw)
          /\ Cars.unpack raw = inr c /\ Cars.status c = 1)
    /\ (forall clock' l, digits_int l = Some car_id ->
          delete_car digits_int clock' l rental_app_rented
          = (inr [Said_car_rented], rental_app_rented))
    /\ (forall clock' l1 l2 l3 cus' rent',
          digits_int l1 = Some cus' -> digits_int l2 = Some car_id ->
          ymd_to_int digits_int l3 = inr rent' ->
          add_contract digits_int (fun s => s) clock' l1 l2 l3
            rental_app_rented
          = (inr [Said_car_busy], rental_app_rented)).
Proof.
  apply (add_contract_rents_the_car digits_int (fun s => s) (fun _ => 200)
           "1" "2" "2024-01-01" rental_app rental_app_rented 1).
  - exact wf_cars4_three.
  - exact wf_rental_contracts.
  - vm_compute. reflexivity.
Defined.

(** X19.  [add_contract] opens a contract only for a customer whose record
    [read_record] finds and for a car whose record has status 0; and when
    it returns without opening one, it has printed one of its four
    refusals and none of the three tables has changed. *)
Theorem add_contract_checks_before_writing
    (py_int : string -> option Z) (py_strip : string -> string)
    (clock : nat -> Z) (line1 line2 line3 : string) (app app' : App)
    (said : list printed) :
  add_contract py_int py_strip clock line1 line2 line3 app
  = (inr said, app') ->
  (exists rid cus_id car_id b raw c,
     said = [Said_contract_opened rid]
     /\ py_int line1 = Some cus_id /\ py_int line2 = Some car_id
     /\ outcome (BinTable.read_record cus_id) (customers app)
        = inr (Some b) /\ b <> []
     /\ outcome (BinTable.read_record car_id) (cars app) = inr (Some raw)
     /\ Cars.unpack raw = inr c /\ Cars.status c = 0)
  \/ (app' = app
      /\ In said [[Said_bad_input]; [Said_car_not_found]; [Said_car_busy];
                  [Said_customer_not_found]]).
Proof.
  intros H. unfold add_contract, int_of_line in H.
  destruct (py_int line1) as [cus_id|] eqn:H1; cbn [bindR] in H;
    [|right; inversion H; cbn; auto].
  destruct (py_int line2) as [car_id|] eqn:H2; cbn [bindR] in H;
    [|right; inversion H; cbn; auto].
  destruct (ymd_to_int py_int (py_strip line3)) as [e|rent] eqn:H3;
    cbn [bindR] in H; [right; inversion H; cbn; auto|].
  apply abind_ok_inv in H as (car_raw & a1 & Hread & H).
  rewrite on_cars_read_record in Hread. inversion Hread as [[Hcar Ha1]].
  clear Hread. subst a1.
  destruct car_raw as [[|b0 car_raw]|];
    try (right; inversion H; cbn; now auto).
  apply abind_ok_inv in H as (car & a1 & Hun & H).
  apply alift_ok_inv in Hun as (Hun & ->).
  destruct (Z.eqb_spec (Cars.status car) 0) as [Hst|Hst]; cbn [negb] in H;
    [|right; inversion H; cbn; now auto].
  apply abind_ok_inv in H as (cus_raw & a1 & Hread & H).
  rewrite on_customers_read_record in Hread. inversion Hread as [[Hcus Ha1]].
  clear Hread. subst a1.
  destruct cus_raw as [[|c0 cus_raw]|];
    try (right; inversion H; cbn; now auto 6).
  left.
  apply abind_ok_inv in H as (rid & a1 & _ & H).
  apply abind_ok_inv in H as (p & a2 & _ & H).
  apply abind_ok_inv in H as (i & a3 & _ & H).
  apply abind_ok_inv in H as (p2 & a4 & _ & H).
  apply abind_ok_inv in H as (u & a5 & _ & H).
  unfold aret in H. inversion H.
  exists rid, cus_id, car_id, (c0 :: cus_raw), (b0 :: car_raw), car.
  repeat split; auto. discriminate.
Qed.

(** The witness: customer 9, who is no customer, asks for car 2. *)
Lemma add_contract_checks_before_writing_witness :
  (exists rid cus_id car_id b raw c,
     [Said_customer_not_found] = [Said_contract_opened rid]
     /\ digits_int "9" = Some cus_id /\ digits_int "2" = Some car_id
     /\ outcome (BinTable.read_record cus_id) (customers rental_app)
        = inr (Some b) /\ b <> []
     /\ outcome (BinTable.read_record car_id) (cars rental_app)
        = inr (Some raw)
     /\ Cars.unpack raw = inr c /\ Cars.status c = 0)
  \/ (rental_app = rental_app
      /\ In [Said_customer_not_found]
           [[Said_bad_input]; [Said_car_not_found]; [Said_car_busy];
            [Said_customer_not_found]]).
Proof.
  apply (add_contract_checks_before_writing digits_int (fun s => s)
           (fun _ => 200) "9" "2" "2024-01-01" rental_app rental_app
           [Said_customer_not_found]).
  vm_compute. reflexivity.
Defined.






(** * The counters of the header *)

Lemma delete_record_counters (now key : Z) (s s' : BinTable.t) :
  wf s -> BinTable.delete_record now key s = (inr tt, s') ->
  Header.active_count (BinTable.h s')
  = Header.active_count (BinTable.h s) - 1
  /\ Header.deleted_count (BinTable.h s')
     = Header.deleted_count (BinTable.h s) + 1.
Proof.
  intros Hwf H. unfold BinTable.delete_record in H.
  bind_ok H. rename Hstep into Hlook.
  rewrite lookup_run in Hlook. injection Hlook as Hlook <-.
  destruct (find_slot s key) as [e|[[j sl]|]] eqn:Hfind;
    cbn [bindR option_map snd] in Hlook; try discriminate;
    apply inr_inj in Hlook; subst a; [|discriminate].
  set (ri := IndexSlot.rec_index sl) in *.
  destruct (find_slot_some s key j sl (proj1 Hwf) Hfind)
    as (Hj & Hsl & Hk & Hnz).
  assert (Hri : 0 <= ri) by (apply (slot_at_nonneg s j sl Hsl)).
  bind_ok H. rename a into raw, Hstep into Hread.
  rewrite read_raw_run in Hread.
  apply seek_read_inv in Hread as (Hofs & -> & Hraw).
  destruct raw as [|b0 rest]; [discriminate|].
  bind_ok H. destruct a. rename s0 into s1, Hstep into Hraww.
  apply write_raw_inv in Hraww as (Hlen & _ & ->).
  unfold BinTable.bind at 1 in H. cbn [BinTable.get] in H.
  bind_ok H. destruct a. rename s0 into s2, Hstep into Hnf.
  apply write_next_free_inv in Hnf as (b & Hb & Hnfofs & ->).
  unfold BinTable.bind at 1 in H. cbn [BinTable.modify_h] in H.
  bind_ok H. rename a into sj, s0 into s3, Hstep into Hsj.
  rewrite slot_of_key_run in Hsj. injection Hsj as Hsj <-.
  assert (Hrs : 0 <= BinTable.rsize s) by lia.
  (* the states so far have the index of [s] *)
  set (s1 := BinTable.set_f
               (pwrite (BinTable.f s) (BinTable._record_ofs s ri)
                  (x00 :: rest)) s) in *.
  assert (Hwf1 : wf s1) by now apply wf_pwrite.
  assert (Hsi1 : same_index s s1).
  { apply same_index_pwrite_above; [assumption|].
    now apply record_ofs_above. }
  set (s2 := BinTable.set_f
               (pwrite (BinTable.f s1)
                  (BinTable._record_ofs s1 ri + BinTable.pad_off s1) b) s1)
    in *.
  assert (Hwf2 : wf s2) by now apply wf_pwrite.
  assert (Hsi2 : same_index s1 s2).
  { apply same_index_pwrite_above; [assumption|].
    pose proof (record_ofs_above s1 ri Hri Hrs). destruct Hwf1 as (_ & _ & Hp).
    lia. }
  set (s3 := BinTable.set_h
               (Header.set_free_head ri (BinTable.h s2)) s2) in *.
  assert (Hwf3 : wf s3) by (apply wf_set_h; [reflexivity|assumption]).
  assert (Hsi3 : same_index s2 s3) by (apply same_index_set_h; reflexivity).
  assert (Hsi03 : same_index s s3).
  { eapply same_index_trans; [exact Hsi1|].
    eapply same_index_trans; eassumption. }
  rewrite (find_slot_same_index _ _ _ Hsi03), Hfind in Hsj.
  cbn [bindR option_map fst] in Hsj. apply inr_inj in Hsj. subst sj.
  bind_ok H. destruct a. rename s0 into s4, Hstep into Hslot.
  apply write_slot_inv in Hslot as (bt & Hbt & _ & ->).
  set (s4 := BinTable.set_f
               (pwrite (BinTable.f s3) (BinTable._index_ofs j) bt) s3) in *.
  assert (Hwf4 : wf s4) by now apply wf_pwrite.
  unfold BinTable.bind at 1 in H. cbn [BinTable.get] in H.
  unfold BinTable.bind at 1 in H. cbn [BinTable.modify_h] in H.
  unfold BinTable.bind at 1 in H. cbn [BinTable.get] in H.
  unfold BinTable.bind at 1 in H. cbn [BinTable.modify_h] in H.
  bind_ok H. destruct a. rename s0 into s6, Hstep into Hhdr.
  unfold BinTable._sync, BinTable.ret in H. inv_pair H.
  match type of Hhdr with
  | BinTable._write_header _ ?x = _ => set (s5 := x) in *
  end.
  assert (Hwf5 : wf s5).
  { unfold s5. apply wf_set_h; [reflexivity|].
    apply wf_set_h; [reflexivity|assumption]. }
  destruct (write_header_index _ _ _ Hwf5 Hhdr)
    as (Hwf6 & Hsi6 & Hh6 & Hr6 & Hp6).
  apply write_header_inv in Hhdr as (bh & Hbh & Lbh & ->).
  split; reflexivity.
Qed.

Lemma is_live_slot_spec (sl : IndexSlot.t) :
  is_live_slot (inr sl) = true <-> live_key (IndexSlot.key sl).
Proof.
  unfold is_live_slot, live_key.
  destruct (Z.eqb_spec (IndexSlot.key sl) 0),
    (Z.eqb_spec (IndexSlot.key sl) TOMBSTONE_KEY); cbn; intuition congruence.
Qed.

Lemma count_live_ext (rd rd' : Z -> result IndexSlot.t) (n : nat) :
  (forall j, 0 <= j < Z.of_nat n -> rd' j = rd j) ->
  count_live rd' n = count_live rd n.
Proof.
  induction n as [|n IH]; intros H; [reflexivity|].
  cbn [count_live]. rewrite IH by (intros j Hj; apply H; lia).
  now rewrite H by lia.
Qed.

Lemma count_live_update (rd rd' : Z -> result IndexSlot.t) (n : nat)
    (j : Z) (v : result IndexSlot.t) :
  0 <= j < Z.of_nat n ->
  (forall j', 0 <= j' < Z.of_nat n ->
     rd' j' = if j' =? j then v else rd j') ->
  count_live rd' n
  = count_live rd n
    + (if is_live_slot v then 1 else 0)
    - (if is_live_slot (rd j) then 1 else 0).
Proof.
  induction n as [|n IH]; intros Hj H; [lia|].
  cbn [count_live]. rewrite (H (Z.of_nat n)) by lia.
  destruct (Z.eqb_spec (Z.of_nat n) j) as [E|E].
  - subst j.
    rewrite (count_live_ext rd rd' n).
    + lia.
    + intros j' Hj'. rewrite H by lia.
      destruct (Z.eqb_spec j' (Z.of_nat n)); [lia|reflexivity].
  - rewrite IH; [lia|lia|]. intros j' Hj'. apply H. lia.
Qed.

Lemma count_live_bounds (rd : Z -> result IndexSlot.t) (n : nat) :
  0 <= count_live rd n <= Z.of_nat n.
Proof.
  induction n as [|n IH]; cbn [count_live]; [lia|].
  destruct (is_live_slot _); lia.
Qed.

Lemma live_count_same_index (s s' : BinTable.t) :
  0 <= nslots s -> same_index s s' -> live_count s' = live_count s.
Proof.
  intros Hn (Hn' & Hsl). unfold live_count. rewrite Hn'.
  apply count_live_ext. intros j Hj. apply Hsl. lia.
Qed.

(** The slot that the insert probe returns holds no live key. *)
Lemma insert_slot_not_live (s : BinTable.t) (key j : Z) :
  wf s -> insert_slot s key = inr j -> is_live_slot (slot_at s j) = false.
Proof.
  intros Hwf. unfold insert_slot.
  destruct (Z.eqb_spec (nslots s) 0); [discriminate|].
  pose proof (proj1 Hwf) as Hn. intros H.
  apply probe_insert_some in H
    as (_ & de & sle & _ & Hsle & Hz & _ & Hj); [|lia].
  destruct Hj as [(_ & -> & _)|[(Hneg & _)|(_ & dt & slt & _ & _ & Hslt & Ht)]].
  - rewrite Hsle. unfold is_live_slot. now rewrite Hz.
  - lia.
  - rewrite Hslt. unfold is_live_slot. rewrite Ht.
    now rewrite andb_false_r.
Qed.

Lemma next_id_active_count (now : Z) (s s' : BinTable.t) (r : result Z) :
  BinTable.next_id now s = (r, s') ->
  Header.active_count (BinTable.h s') = Header.active_count (BinTable.h s).
Proof.
  rewrite next_id_run. cbv zeta. rewrite write_header_run. cbv zeta.
  destruct (Header.pack _); intros H; now inv_pair H.
Qed.

(** In the tables whose keys are drawn from [next_id], the counter of the
    header is the number of live slots. *)
Lemma managed_active_count (s : BinTable.t) :
  managed s -> Header.active_count (BinTable.h s) = live_count s.
Proof.
  induction 1 as [now magic rsize slots pad_off s Hpad Hfit Hopen
                 | s now r s' Hman IH Hnext
                 | s now now' nid packed i s1 s2 Hman IH Hnext Hadd
                 | s now now' nid packed e s1 s2 Hman IH Hnext Hadd He
                 | s now key packed s' Hman IH Hne Hupd
                 | s now key s' Hman IH Hne Hdel].
  - apply open_new in Hopen as (Hwf & Hn & Hh & _ & _ & Hrd); [|exact Hpad].
    rewrite Hh. cbn [Header.new Header.active_count].
    unfold live_count. rewrite Hn.
    assert (Hz : forall n : nat, Z.of_nat n <= slots ->
              count_live (slot_at s) n = 0).
    { induction n as [|n IHn]; intros Hle; [reflexivity|].
      cbn [count_live]. rewrite IHn by lia. rewrite Hrd by lia.
      reflexivity. }
    symmetry. apply Hz. pose proof (proj1 Hwf). lia.
  - destruct (managed_invariant s Hman) as (Hwf & _).
    destruct (next_id_any _ _ _ _ Hwf Hnext) as (_ & Hsi & _).
    rewrite (next_id_active_count _ _ _ _ Hnext), IH.
    symmetry. apply live_count_same_index; [apply Hwf|exact Hsi].
  - destruct (managed_invariant s Hman) as (Hwf & (Hone & _) & _).
    destruct (next_id_any _ _ _ _ Hwf Hnext) as (Hwf1 & Hsi & _).
    destruct (next_id_below_mark _ _ _ _ Hnext) as (Hnid & Hmark).
    pose proof (next_id_active_count _ _ _ _ Hnext) as Hac1.
    pose proof (live_count_same_index s s1 (proj1 Hwf) Hsi) as Hlc1.
    apply add_record_ok in Hadd
      as (s0 & j & Halloc & _ & _ & _ & Hins & Hj & _ & Hn2 & _ & _
          & Hslots & Hh); [|exact Hwf1].
    destruct (alloc_file _ _ _ Halloc) as (_ & _ & _ & _ & Ha0).
    rewrite Hh. cbn [Header.set_updated_at Header.set_active_count
      Header.active_count]. rewrite Ha0, Hac1, IH, <- Hlc1.
    unfold live_count. rewrite Hn2.
    rewrite (count_live_update (slot_at s1) (slot_at s2) _ j
               (inr (IndexSlot.mk nid i)));
      [| lia | intros j' Hj'; apply Hslots; lia ].
    rewrite (insert_slot_not_live s1 nid j Hwf1 Hins).
    replace (is_live_slot (inr (IndexSlot.mk nid i))) with true; [lia|].
    symmetry. apply is_live_slot_spec. cbn. split; lia.
  - destruct (managed_invariant s Hman) as (Hwf & _ & l & Hok).
    destruct (next_id_any _ _ _ _ Hwf Hnext) as (Hwf1 & Hsi & _).
    pose proof (next_id_records_ok _ _ _ _ _ Hwf Hok Hnext) as Hok1.
    pose proof (next_id_active_count _ _ _ _ Hnext) as Hac1.
    pose proof (live_count_same_index s s1 (proj1 Hwf) Hsi) as Hlc1.
    destruct (add_fails_index _ _ _ _ _ _ _ Hwf1 Hok1 Hadd He)
      as (_ & Hsi2 & _ & _).
    pose proof (live_count_same_index s1 s2 (proj1 Hwf1) Hsi2) as Hlc2.
    apply add_record_index_error in Hadd
      as (i & s0 & Halloc & _ & _ & -> & _); [|exact He].
    destruct (alloc_file _ _ _ Halloc) as (_ & _ & _ & _ & Ha0).
    change (BinTable.h (BinTable.set_f _ s0)) with (BinTable.h s0).
    rewrite Ha0, Hac1, IH. lia.
  - destruct (managed_invariant s Hman) as (Hwf & _).
    destruct (update_record_ok _ _ _ _ _ Hwf Hupd)
      as (j & sl & hb & _ & _ & _ & _ & Hh & _ & Hsi & _).
    rewrite Hh. cbn [Header.set_updated_at Header.active_count].
    rewrite IH. symmetry.
    apply live_count_same_index; [apply Hwf|exact Hsi].
  - destruct (managed_invariant s Hman) as (Hwf & _).
    destruct (delete_record_counters _ _ _ _ Hwf Hdel) as (Hac & _).
    apply delete_record_ok in Hdel
      as (j & sl & b & _ & Hj & Hsl & Hk & Hnz & _ & _ & _ & Hn' & _ & _
          & Hslots & _); [|exact Hwf].
    rewrite Hac, IH. unfold live_count. rewrite Hn'.
    rewrite (count_live_update (slot_at s) (slot_at s') _ j
               (inr (IndexSlot.mk TOMBSTONE_KEY 0)));
      [| lia | intros j' Hj'; apply Hslots; lia ].
    rewrite Hsl.
    replace (is_live_slot (inr sl)) with true
      by (symmetry; apply is_live_slot_spec; rewrite Hk; now split).
    replace (is_live_slot (inr (IndexSlot.mk TOMBSTONE_KEY 0))) with false
      by reflexivity.
    lia.
Qed.

(** X22.  In a table whose keys are the identifiers [next_id] gave, the
    counter [active_count] of the header is the number of index slots that
    hold a live key; so it is never negative and never more than the
    number of slots. *)
Theorem active_count_counts_live_keys (s : BinTable.t) :
  managed s ->
  Header.active_count (BinTable.h s) = live_count s
  /\ 0 <= Header.active_count (BinTable.h s) <= nslots s.
Proof.
  intros Hman. pose proof (managed_active_count s Hman) as H.
  split; [exact H|]. rewrite H. unfold live_count.
  destruct (managed_invariant s Hman) as ((Hn & _) & _).
  pose proof (count_live_bounds (slot_at s) (Z.to_nat (nslots s))). lia.
Qed.

(** The witness: the table that holds car 2 and the tombstone of car 1. *)
Lemma active_count_counts_live_keys_witness :
  Header.active_count (BinTable.h cars4_drawn) = live_count cars4_drawn
  /\ 0 <= Header.active_count (BinTable.h cars4_drawn) <= nslots cars4_drawn.
Proof.
  apply (active_count_counts_live_keys cars4_drawn).
  exact managed_cars4_drawn.
Defined.

(** * The header as bytes *)

Lemma length_pack_s (n : nat) (b : bytes) : length (pack_s n b) = n.
Proof.
  unfold pack_s. rewrite length_app, length_firstn, repeat_length. lia.
Qed.

(** X23.  What [Header.pack] returns is 128 bytes long, and [Header.unpack]
    reads from it the header that was packed, in either byte order (the
    engine uses the little-endian one, the inspector both): every number
    comes back, the sign of [free_head] included, and so does the magic,
    cut or padded with zero bytes to four bytes as [struct.pack] does. *)
Theorem header_round_trip (o : byteorder) (hd : Header.t) (b : bytes) :
  Header.pack_with o hd = inr b ->
  length b = 128%nat
  /\ Header.unpack_with o b
     = inr (Header.mk (pack_s 4 (Header.magic hd)) (Header.version hd)
              (Header.endian hd) (Header.record_size hd)
              (Header.created_at hd) (Header.updated_at hd)
              (Header.next_id hd) (Header.active_count hd)
              (Header.deleted_count hd) (Header.free_head hd)
              (Header.index_slots hd))
  /\ (length (Header.magic hd) = 4%nat -> Header.unpack_with o b = inr hd).
Proof.
  intros Hb.
  assert (Hb' : Header.pack_with o
                  (Header.mk (pack_s 4 (Header.magic hd)) (Header.version hd)
                     (Header.endian hd) (Header.record_size hd)
                     (Header.created_at hd) (Header.updated_at hd)
                     (Header.next_id hd) (Header.active_count hd)
                     (Header.deleted_count hd) (Header.free_head hd)
                     (Header.index_slots hd)) = inr b).
  { rewrite <- Hb. unfold Header.pack_with.
    cbn [Header.magic Header.version Header.endian Header.record_size
      Header.created_at Header.updated_at Header.next_id Header.active_count
      Header.deleted_count Header.free_head Header.index_slots].
    now rewrite (pack_s_exact 4 (pack_s 4 (Header.magic hd)))
      by apply length_pack_s. }
  split; [exact (length_header_pack _ _ _ Hb)|]. split.
  - apply (header_unpack_pack o _ b Hb'). apply length_pack_s.
  - intros Lm. exact (header_unpack_pack o hd b Hb Lm).
Qed.

(** The witness: the header of a new Cars table of four slots, in the
    big-endian order. *)
Lemma header_round_trip_witness :
  length (match Header.pack_with BigEndian (Header.new 100 Cars.magic 128 4)
          with inr b => b | inl _ => [] end) = 128%nat
  /\ Header.unpack_with BigEndian
       (match Header.pack_with BigEndian (Header.new 100 Cars.magic 128 4)
        with inr b => b | inl _ => [] end)
     = inr (Header.mk (pack_s 4 Cars.magic) 1 0 128 100 100 1 0 0 (-1) 4)
  /\ (length Cars.magic = 4%nat ->
      Header.unpack_with BigEndian
        (match Header.pack_with BigEndian (Header.new 100 Cars.magic 128 4)
         with inr b => b | inl _ => [] end)
      = inr (Header.new 100 Cars.magic 128 4)).
Proof.
  apply (header_round_trip BigEndian (Header.new 100 Cars.magic 128 4)).
  vm_compute. reflexivity.
Defined.

Lemma bytes_eqb_neq (a b : bytes) : a <> b -> bytes_eqb a b = false.
Proof.
  intros H. destruct (bytes_eqb a b) eqn:E; [|reflexivity].
  now apply bytes_eqb_eq in E.
Qed.

(** X24.  What [open] checks on a file that exists.  A file shorter than a
    header makes it raise [struct.error].  On the file a table left after
    a returning call that writes, [open] raises [RuntimeError('bad file
    format')] when it is given another magic or another record size; the
    number of slots and the offset of the link it is given are not
    compared with anything, and the table it returns has the header of the
    file, the number of slots of the file included. *)
Theorem open_checks_magic_and_record_size (now0 now : Z) (magic : bytes)
    (rsize slots pad_off : Z) (disk : option file) (s0 : BinTable.t)
    (cs : list call) (c : call) (s' : BinTable.t) :
  length magic = 4%nat ->
  BinTable.open now0 magic rsize slots pad_off disk = inr s0 ->
  do_call c (do_calls cs s0) = (inr tt, s') ->
  (forall magic2 rsize2 slots2 pad2,
     BinTable.open now magic2 rsize2 slots2 pad2 (Some (BinTable.f s'))
     = if bytes_eqb magic magic2 && (rsize =? rsize2)
       then inr (BinTable.mk magic2 rsize2 slots2 pad2 (BinTable.f s')
                   (BinTable.h s'))
       else inl RuntimeError_bad_file_format)
  /\ (forall fl magic2 rsize2 slots2 pad2,
        (length fl < 128)%nat ->
        BinTable.open now magic2 rsize2 slots2 pad2 (Some fl)
        = inl StructError).
Proof.
  intros Lm Hopen Hcall. split.
  - intros magic2 rsize2 slots2 pad2.
    destruct (open_own_header _ _ _ _ _ _ _ Lm Hopen)
      as (Hown & Hm & Hr & Hs & Hp).
    assert (Hc : consts s' = consts s0).
    { pose proof (keeps_consts_do_call c (do_calls cs s0)) as Hc.
      rewrite Hcall in Hc. cbn [snd] in Hc.
      now rewrite Hc, consts_do_calls. }
    pose proof (own_header_consts _ _ Hc Hown) as (Hm' & Lm' & Hr').
    destruct (ensures_synced_do_call c _ _ _ Hcall) as (b & Hb & Hrd).
    apply consts_layout in Hc as ((_ & Hrs & _) & Hmg & _).
    unfold BinTable.open. rewrite Hrd.
    unfold Header.pack in Hb. unfold Header.unpack.
    rewrite (header_unpack_pack E _ _ Hb) by (now rewrite Hm').
    cbn [bindR]. rewrite Hm', Hr', Hmg, Hrs, Hm, Hr.
    destruct (bytes_eqb magic magic2); cbn [negb orb andb]; [|reflexivity].
    destruct (rsize =? rsize2); reflexivity.
  - intros fl magic2 rsize2 slots2 pad2 Hlen.
    unfold BinTable.open, Header.unpack, Header.unpack_with.
    assert (Hl : (length (pread fl 0 HEADER_SIZE) < 128)%nat).
    { unfold pread, HEADER_SIZE. cbn [Z.ltb Z.compare Z.to_nat skipn].
      rewrite length_firstn. lia. }
    destruct (Z.eqb_spec (Z.of_nat (length (pread fl 0 HEADER_SIZE))) 128);
      [lia|reflexivity].
Qed.

(** The witness: the file of a Cars table in which a car was added and
    deleted. *)
Lemma open_checks_magic_and_record_size_witness :
  exists s',
    do_call (Call_delete 104 1)
      (do_calls [Call_add 101 1 (car_bytes 1)] cars4_new) = (inr tt, s')
    /\ (forall magic2 rsize2 slots2 pad2,
          BinTable.open 200 magic2 rsize2 slots2 pad2 (Some (BinTable.f s'))
          = if bytes_eqb Cars.magic magic2 && (CARS_SIZE =? rsize2)
            then inr (BinTable.mk magic2 rsize2 slots2 pad2 (BinTable.f s')
                        (BinTable.h s'))
            else inl RuntimeError_bad_file_format)
    /\ (forall fl magic2 rsize2 slots2 pad2,
          (length fl < 128)%nat ->
          BinTable.open 200 magic2 rsize2 slots2 pad2 (Some fl)
          = inl StructError).
Proof.
  eexists. split; [vm_compute; reflexivity|].
  apply (open_checks_magic_and_record_size 100 200 Cars.magic CARS_SIZE 4
           CARS_PAD None cars4_new [Call_add 101 1 (car_bytes 1)]
           (Call_delete 104 1)).
  - reflexivity.
  - vm_compute. reflexivity.
  - vm_compute. reflexivity.
Defined.
